(* ===== verification/_CoqProject ===== *)
-Q . S2P
Prelude.v
Codec.v
Crc.v
Format.v
Integrity.v
SysIo.v
State.v
Pool.v
Blocks.v
Bitmap.v
Open.v
Load.v
RootDir.v
Validate.v
Reopen.v
Coverage.v
Mkfs.v
Formatted.v
Tools.v
World.v
Rebalance.v
Rebalanced.v
Preserved.v
Isolated.v
Lifetime.v
Samples.v
RebalanceSample.v
Forensics.v
CommandLine.v
Btree.v
Balloc.v
Intent.v
Lanes.v
Recovery.v
DirIndex.v
Numa.v
RefCount.v
Struct.v
KernelHeader.v
HeaderCode.v
DirOrder.v
Invariants.v
Super.v
VfsInode.v
Directory.v
Interop.v
Reflink.v
InlineData.v
Dense.v
KernelSamples.v
Policy.v
JournalLog.v
Snapshots.v
WritePath.v
Security.v
Compress.v
Accel.v
ModuleInit.v
