(* ===== verification/Prelude.v ===== *)
(** * AetherFS

    A model of the AetherFS userspace tools (src/aetherfsprogs), of the on-disk format
    they share with the kernel module (src/kernel/include/uapi/linux/aetherfs_format.h),
    and of that module (src/kernel), with the theorems that make them correct.

    ** The program

    An AetherFS image is a file or device, or a pool of up to eight members, in blocks of
    4096 bytes.  Blocks 0 to 7 are the bootstrap region: pool label, superblock, inode
    table, root directory, intent log, inode bitmap, free extents, checkpoint root.  Every
    metadata structure carries its own checksum.  Behind them lies the data region: extent
    nodes, file data and checksum chains, mapped to the members by the pool's profile.
    The commands are [mkfs], [scrub], [health], [forensics], [mount] and [rebalance],
    dispatched by [main.c]; all but the first open an image or a pool, load its metadata
    and validate it ([image.c]).

    The kernel module keeps extents and metadata in b-trees ([btree.c]), takes blocks from
    bitmaps of 32768 blocks each ([balloc.c]), records transactions in a log of intents in
    memory ([journal.c]), gives the CPUs journal lanes and caches of free blocks
    ([percpu.c]), has routines for repair, allocation policies and discard
    ([recovery.c]), and keeps a hash index for each directory ([dir_idx.c]).  Mounting
    ([super.c]), inodes ([inode.c]) and names ([dir.c]) are what the VFS calls; around them
    lie features with a file each, most of which nothing calls: checksums, data modes,
    inline and packed data, deduplication, snapshots, policies, compression, security.

    ** Files of the development

    - [Prelude]: errors and results, machine integers, lists; [Codec]: packed
      little-endian layouts as a [codec] with laws; [Crc]: the checksum routine;
      [Format]: the structures of the format header; [Integrity]: the class
      [Checksummed] of structures that carry their checksum, and what it detects.
    - [SysIo]: the retry loops over [pread] and [pwrite].  [State]: [struct
      aetherfs_image], and the open files as a map [disks] from descriptors to contents.
    - [Pool]: masks, label validation, the four block mappings.  [Blocks]: reading and
      writing logical blocks.  [Bitmap]: the inode bitmap.  [Open]: opening and closing
      images and pools.  [Load]: the loader and the metadata writers.  [RootDir]: the walk
      over the root directory.  [Validate]: [aetherfs_image_validate]; [Coverage]: what a
      validated image guarantees; [Reopen]: an image depends on the contents of its files
      only.
    - [Mkfs]: [mkfs.c]; [Formatted]: its theorems.  [Tools]: [scrub.c], the health command
      of [health.c], [mount.c].  [World]: the state of descriptors and files that
      [rebalance.c] changes, with its system calls; [Rebalance]: [rebalance.c]; [Rebalanced],
      [Preserved] and [Isolated]: its theorems.  [Lifetime]: an image through a sequence of rebalances, from
      the format on.
    - [Samples] and [RebalanceSample]: concrete images on which the theorems about
      loading, validation, formatting and rebalancing are instantiated.
    - [Forensics]: the forensics command of [health.c]; [CommandLine]: [main.c], with the
      parts of the C library it parses its arguments with.
    - [Btree]: [btree.c], with the class [ExtentIndex] of what a tree of extents promises
      its clients; [Balloc]: [balloc.c], its tree of free extents proved against that
      class; [Intent]: [journal.c]; [Lanes]: [percpu.c], its lane protocol as interleaved
      steps of tasks; [Numa]: the rest of [percpu.c]; [Recovery]: [recovery.c] and the data
      checksums of [invariants.c]; [DirIndex]: the hash index of [dir_idx.c], [DirOrder]: its
      ordered index and its listing.
    - [Struct]: C structures as the compiler lays them out, with access to the fields of a
      structure in a buffer; [KernelHeader]: the structures of [aetherfs.h] and [on_disk.h];
      [HeaderCode]: the constants of the three headers and their inline functions.
      [Invariants]: [invariants.c]; [Super]: [super.c]; [VfsInode]: [inode.c] and the modes of
      [data_modes.c]; [Directory]: [dir.c]; [Interop]: the tools' images under the kernel, with
      [KernelSamples] their witnesses.
    - [RefCount]: what a store of counted references promises ([RefStore], [RefLaws]), and the
      refinement to a multiset that follows; [Reflink]: [reflink.c] and [Dense]: [dense.c]
      implement it.  [InlineData]: [inline.c] and the inline files of [dense.c].
    - [Policy]: [policy.c]; [JournalLog]: [log.c]; [Snapshots]: [snapshots.c]; [WritePath]:
      the writes of [data_modes.c], [extent.c], [cow.c], [metadata_cow.c], [layers.c];
      [Security]: [security.c]; [Compress]: [compress.c]; [Accel]: [x86_accel.c];
      [ModuleInit]: the start and stop of the module's parts and the objects of a mount, with
      what they allocate and release.

    ** How code becomes definitions

    A C function returning [0] or [-errno] becomes a function into [result]; [goto] chains
    become matches, or a definition per label where the labels clean up ([out_target],
    [out_source] and [out_cleanup] of [rebalance.c]).  Functions that write take and return the
    [disks], and a rebalance, which creates, renames and removes files, a [world] with the
    descriptors, what they are open for and the files.  Loops are
    [Fixpoint]s over the list of their indices, or take fuel where the number of rounds
    depends on data; the fuel is the bound the code's own counters give (the number of
    data blocks for a checksum chain, one record per four bytes for a directory block),
    and theorems show that it is never exhausted.  Integers are [Z], with [u16], [u32] and
    [u64] written where the code can wrap.  A read outside a buffer is [Err EFAULT], a
    value the code never returns.  What the operating system decides (the contents of
    opened files, [fstat], random bytes, time, [fsync], the exit status of started
    programs) is an argument.  In the kernel the device is a map from block numbers to the
    contents of their buffers; structures are read and written in a buffer field by field;
    whether an allocation succeeds is an argument; an access outside a buffer is [None], or
    [Fault] where a loop may also run out of fuel ([outcome]).  A name or constant the
    sources use and do not declare is a parameter, a field of that kind is named where it is
    read.

    ** What is proved

    - Format and checksums: every structure survives encoding and decoding, corruptions
      of one byte or of a burst up to four bytes are detected (of the intent log within its
      first 44 bytes).
    - I/O: the retry loops implement atomic reads and writes.
    - Pools: no two logical blocks share a member block; parity rows stay consistent under
      writes; what is written is read back under every profile.
    - Opening: a pool is opened only if the labels of its members fit together, and a
      single image leaks no descriptor.
    - Validation: the free list and the files tile the data region, files are named, the
      copies of a mirror agree, and a parity pool can be reconstructed.
    - Commands: a formatted image is valid, and formatting succeeds; the tools agree on
      which images are healthy; a read-write mount is only started on a validated image;
      a rebalance keeps every file, closes what it opens and removes its temporary file, and a
      failed one leaves the image alone, so that a formatted image stays sound and keeps its files through any number of them; an export
      holds every bootstrap block; command lines are read back as the options they were
      written from.
    - Kernel: a leaf of the b-tree implements a stack of extents per offset, and its
      bisection finds the lower bound; clients that take single blocks never share one; a
      committed transaction is in the log while there is room, and clearing the log is a
      filter; under every interleaving the pending counter of a lane counts the operations
      on it; both deduplications count references as a multiset does, but for
      releases of checksum 0, which one of them refuses; a checksum routine is
      accepted by its counterpart and a changed byte is not; a name added to a directory block
      with room is found; the longest policy is chosen; the replay of a log ends if its head is
      in the ring; a rollback restores the roots of the last snapshot (and, given number 0, those of an
      unused block); a block compressed with
      ZSTD comes back; a part of the module that fails to start, or stops after it started,
      gives back what it took, and those that must not be stopped twice are known.
    - The kernel and the tools: how far the headers agree on structures and constants, what a mount of a
      tools' image reads, and what an unmount writes to it.
    - Defects of the code, as theorems about what it does on particular inputs: the error
      paths of opening a pool, short directory records, formatting exactly eight blocks or
      more than 2^52, rebalancing an image with an empty file, the weakness of the
      checksum routines; in the kernel, insertions into a full leaf, requests for several
      blocks, the first block of the data region, transactions after the 1024th, races on
      the lanes, repairs that write corrupted blocks back, the discard of blocks in use, a
      directory index that remembers one entry and lists none, cached metadata that loses
      its start, directory entries that never verify and walks over a fresh directory that
      never end, renames that lose a file, inode numbers that repeat, attributes that cannot
      be overwritten, inline files that leave their block, reflinks that share nothing,
      copies on write that nothing points to, and snapshots that replace each other.

    ** Not modelled

    In the tools memory allocation always succeeds.  Printed reports are values, usage texts
    are left out.  Of the kernel module: the locks; workqueues, the tables of
    operations handed to the VFS, [aetherfs_mod.c], which only prints, [folio.c], and
    [aetherfs.mod.c], which is generated.  Left out since they do not compile
    or use memory they freed: [aetherfs_hw_crc32] of [x86_accel.c], [aetherfs_kill_sb],
    [aetherfs_alloc_inode] and [aetherfs_destroy_inode] of [super.c], [aetherfs_clone],
    [aetherfs_snapshot_delete], the keyring and the audit log of
    [security.c], and the two routines of [dense.c] on directory entries.  Of [percpu.c] the
    wrappers of RCU and the messages of [aetherfs_numa_init], and of [recovery.c] the message of
    the scrub's work. *)

From stdpp Require Export base list numbers option gmap.
From Stdlib Require Export ZArith Lia.

#[global] Open Scope Z_scope.

(** ** Errors and results *)

(** The errno values the sources return, negated, from their [int] functions. *)
Inductive errno :=
| EINVAL | EILSEQ | EIO | ERANGE | EBADF | EUCLEAN | EEXIST | EOPNOTSUPP
| ENOSPC | ENOENT | ENOMEM | EXDEV | EBADE | ENOTDIR | EPERM | EINTR | EOVERFLOW
| EFAULT | ENAMETOOLONG | EAGAIN | EFBIG | EACCES | ENODATA | E2BIG | ENOTTY | EBUSY.

#[export] Instance errno_eq_dec : EqDecision errno.
Proof. solve_decision. Defined.

(** A C function returning [0] or [-errno], with its out-parameters as the
    payload of [Ok]. *)
Inductive result (A : Type) :=
| Ok (a : A)
| Err (e : errno).
Arguments Ok {A} a.
Arguments Err {A} e.

#[export] Instance result_eq_dec {A} `{EqDecision A} : EqDecision (result A).
Proof. solve_decision. Defined.

#[export] Instance result_ret : MRet result := λ A a, Ok a.
#[export] Instance result_bind : MBind result := λ A B f m,
  match m with Ok a => f a | Err e => Err e end.

(** A run of a loop that may leave its memory or never end: a result, an access outside, or fuel
    that ran out. *)
Inductive outcome (A : Type) :=
| Done (a : A)
| Fault
| OutOfFuel.
Arguments Done {A} a.
Arguments Fault {A}.
Arguments OutOfFuel {A}.

#[export] Instance outcome_ret : MRet outcome := λ A a, Done a.
#[export] Instance outcome_bind : MBind outcome := λ A B f m,
  match m with Done a => f a | Fault => Fault | OutOfFuel => OutOfFuel end.

Declare Scope aether_scope.
Delimit Scope aether_scope with aether.
#[global] Open Scope aether_scope.

(** [if (b) return -e;] *)
Definition reject (b : bool) (e : errno) : result unit :=
  if b then Err e else Ok tt.

Notation "'return_if' b 'with' e ';;' k" := (reject b e ≫= λ _, k)
  (at level 100, b at level 99, e at level 9, k at level 200,
   right associativity) : aether_scope.

Definition is_ok {A} (r : result A) : bool :=
  match r with Ok _ => true | Err _ => false end.

Lemma bind_ok {A B} (m : result A) (k : A → result B) b :
  (m ≫= k) = Ok b ↔ ∃ a, m = Ok a ∧ k a = Ok b.
Proof. destruct m; simpl; split; [eauto|intros (?&?&?)|done|intros (?&?&?)]; congruence. Qed.

Lemma reject_ok {B} b e (k : result B) r :
  (return_if b with e ;; k) = Ok r ↔ b = false ∧ k = Ok r.
Proof. destruct b; simpl; split; [done|intros [? ?]; done|done|intros [? ?]; done]. Qed.

(** Running a chain of guards in either direction. *)
Ltac inv_ok :=
  repeat match goal with
  | H : (reject _ _ ≫= _) = Ok _ |- _ => apply reject_ok in H as [? H]
  | H : (_ ≫= _) = Ok _ |- _ =>
      let a := fresh "a" in let E := fresh "E" in
      apply bind_ok in H as (a & E & H)
  | H : Ok _ = Ok _ |- _ => injection H as H; try subst
  | H : Err _ = Ok _ |- _ => discriminate H
  | H : Ok _ = Err _ |- _ => discriminate H
  end.

Ltac bool_to_prop :=
  repeat match goal with
  | H : negb _ = false |- _ => apply negb_false_iff in H
  | H : negb _ = true |- _ => apply negb_true_iff in H
  | H : (_ || _) = false |- _ => apply orb_false_iff in H as [? H]
  | H : (_ && _) = true |- _ => apply andb_true_iff in H as [? H]
  | H : (_ =? _) = true |- _ => apply Z.eqb_eq in H
  | H : (_ =? _) = false |- _ => apply Z.eqb_neq in H
  | H : (_ <? _) = true |- _ => apply Z.ltb_lt in H
  | H : (_ <? _) = false |- _ => apply Z.ltb_ge in H
  | H : (_ <=? _) = true |- _ => apply Z.leb_le in H
  | H : (_ <=? _) = false |- _ => apply Z.leb_gt in H
  | H : (_ >? _) = true |- _ => rewrite Z.gtb_ltb in H
  | H : (_ >? _) = false |- _ => rewrite Z.gtb_ltb in H
  | H : (_ >=? _) = true |- _ => rewrite Z.geb_leb in H
  | H : (_ >=? _) = false |- _ => rewrite Z.geb_leb in H
  end.

(** ** Machine integers *)

Definition u8 (x : Z) : Z := x mod 2 ^ 8.
Definition u16 (x : Z) : Z := x mod 2 ^ 16.
Definition u32 (x : Z) : Z := x mod 2 ^ 32.
Definition u64 (x : Z) : Z := x mod 2 ^ 64.

#[global] Arguments u8 : simpl never.
#[global] Arguments u16 : simpl never.
#[global] Arguments u32 : simpl never.
#[global] Arguments u64 : simpl never.

Definition UINT32_MAX : Z := 4294967295.
Definition UINT64_MAX : Z := 18446744073709551615.

Definition is_byte (b : Z) : Prop := 0 ≤ b < 256.
Definition is_u16 (x : Z) : Prop := 0 ≤ x < 2 ^ 16.
Definition is_u32 (x : Z) : Prop := 0 ≤ x < 2 ^ 32.
Definition is_u64 (x : Z) : Prop := 0 ≤ x < 2 ^ 64.

Lemma u8_range x : is_byte (u8 x).
Proof. apply (Z.mod_pos_bound x 256). lia. Qed.
Lemma u16_range x : is_u16 (u16 x).
Proof. apply Z.mod_pos_bound. lia. Qed.
Lemma u32_range x : is_u32 (u32 x).
Proof. apply Z.mod_pos_bound. lia. Qed.
Lemma u64_range x : is_u64 (u64 x).
Proof. apply Z.mod_pos_bound. lia. Qed.

Lemma u32_small x : is_u32 x → u32 x = x.
Proof. intros H. apply Z.mod_small, H. Qed.
Lemma u64_small x : is_u64 x → u64 x = x.
Proof. intros H. apply Z.mod_small, H. Qed.

(** The one overflow a sum of two 64-bit values can have. *)
Lemma u64_add_cases a b : is_u64 a → is_u64 b →
  u64 (a + b) = a + b ∧ a + b < 2 ^ 64 ∨
  u64 (a + b) = a + b - 2 ^ 64 ∧ 2 ^ 64 ≤ a + b.
Proof.
  unfold is_u64, u64. intros Ha Hb.
  destruct (decide (a + b < 2 ^ 64)).
  - left. split; [apply Z.mod_small|]; lia.
  - right. split; [|lia]. symmetry. apply Z.mod_unique with 1; lia.
Qed.

Create HintDb aether.
#[export] Hint Resolve u8_range u16_range u32_range u64_range : aether.

(** ** Lists indexed by [Z] *)

Abbreviation bytes := (list Z).

Definition len {A} (l : list A) : Z := Z.of_nat (length l).

Definition is_bytes (l : bytes) : Prop := Forall is_byte l.

Definition slice {A} (off n : Z) (l : list A) : list A :=
  take (Z.to_nat n) (drop (Z.to_nat off) l).

(** [memcpy(l + off, new, sizeof new)], in bounds. *)
Definition splice {A} (off : Z) (new l : list A) : list A :=
  take (Z.to_nat off) l ++ new ++ drop (Z.to_nat off + length new) l.

Definition zeros (n : Z) : bytes := replicate (Z.to_nat n) 0.

Lemma len_nonneg {A} (l : list A) : 0 ≤ len l.
Proof. unfold len. lia. Qed.

Lemma len_app {A} (l k : list A) : len (l ++ k) = len l + len k.
Proof. unfold len. rewrite length_app. lia. Qed.

Lemma len_slice {A} off n (l : list A) :
  0 ≤ off → 0 ≤ n → off + n ≤ len l → len (slice off n l) = n.
Proof. unfold len, slice. rewrite length_take, length_drop. lia. Qed.

Lemma len_splice {A} off (new l : list A) :
  0 ≤ off → off + len new ≤ len l → len (splice off new l) = len l.
Proof.
  unfold len, splice. intros. rewrite !length_app, length_take, length_drop. lia.
Qed.

Lemma len_zeros n : 0 ≤ n → len (zeros n) = n.
Proof. intros. unfold len, zeros. rewrite length_replicate. lia. Qed.

Lemma slice_splice_eq {A} off (new l : list A) :
  0 ≤ off → off + len new ≤ len l → slice off (len new) (splice off new l) = new.
Proof.
  unfold len, slice, splice. intros.
  rewrite drop_app_length' by (rewrite length_take; lia).
  by rewrite take_app_length' by lia.
Qed.

Lemma slice_splice_before {A} off n o (new l : list A) :
  0 ≤ off → 0 ≤ n → off + n ≤ o → o + len new ≤ len l →
  slice off n (splice o new l) = slice off n l.
Proof.
  unfold len, slice, splice. intros.
  rewrite drop_app_le by (rewrite length_take; lia).
  rewrite take_app_le by (rewrite length_drop, length_take; lia).
  rewrite !take_drop_commute, take_take. do 2 f_equal. lia.
Qed.

Lemma slice_splice_after {A} off n o (new l : list A) :
  0 ≤ o → 0 ≤ n → o + len new ≤ off → o + len new ≤ len l →
  slice off n (splice o new l) = slice off n l.
Proof.
  unfold len, slice, splice. intros. f_equal.
  rewrite drop_app_ge by (rewrite length_take; lia).
  rewrite drop_app_ge by (rewrite length_take; lia).
  rewrite length_take, drop_drop. f_equal. lia.
Qed.

Lemma slice_all {A} (l : list A) n : len l = n → slice 0 n l = l.
Proof. unfold len, slice. intros. rewrite drop_0. apply take_ge. lia. Qed.

Lemma slice_app_l {A} off n (l k : list A) :
  0 ≤ off → 0 ≤ n → off + n ≤ len l → slice off n (l ++ k) = slice off n l.
Proof.
  unfold len, slice. intros. rewrite drop_app_le by lia.
  apply take_app_le. rewrite length_drop. lia.
Qed.

Lemma splice_splice_eq {A} off (new new' l : list A) :
  0 ≤ off → off + len new ≤ len l → len new' = len new →
  splice off new' (splice off new l) = splice off new' l.
Proof.
  unfold len, splice. intros H1 H2 H3.
  rewrite take_app_length' by (rewrite length_take; lia).
  do 2 f_equal.
  rewrite drop_app_ge by (rewrite length_take; lia).
  rewrite drop_app_ge by (rewrite length_take; lia).
  rewrite length_take, drop_drop. f_equal. lia.
Qed.

Lemma is_bytes_zeros n : is_bytes (zeros n).
Proof. apply Forall_replicate. unfold is_byte. lia. Qed.

Lemma is_bytes_slice off n l : is_bytes l → is_bytes (slice off n l).
Proof. intros. by apply Forall_take, Forall_drop. Qed.

Lemma is_bytes_splice off new l :
  is_bytes new → is_bytes l → is_bytes (splice off new l).
Proof.
  intros. unfold splice. apply Forall_app; split; [by apply Forall_take|].
  apply Forall_app; split; [done|by apply Forall_drop].
Qed.

#[export] Hint Resolve is_bytes_zeros is_bytes_slice is_bytes_splice : aether.
#[export] Hint Resolve len_nonneg : aether.

(** ** Exclusive or at a fixed width *)

Lemma lxor_range n a b :
  0 ≤ n → 0 ≤ a < 2 ^ n → 0 ≤ b < 2 ^ n → 0 ≤ Z.lxor a b < 2 ^ n.
Proof.
  intros Hn Ha Hb.
  rewrite <-(Z.mod_small a (2 ^ n)), <-(Z.mod_small b (2 ^ n)) by done.
  rewrite <-!Z.land_ones by done.
  replace (Z.lxor _ _) with (Z.land (Z.lxor a b) (Z.ones n)).
  - rewrite Z.land_ones by done. apply Z.mod_pos_bound. lia.
  - apply Z.bits_inj'. intros i Hi. rewrite !Z.lxor_spec, !Z.land_spec, Z.lxor_spec.
    by destruct (Z.testbit a i), (Z.testbit b i), (Z.testbit (Z.ones n) i).
Qed.

Lemma lor_range n a b :
  0 ≤ n → 0 ≤ a < 2 ^ n → 0 ≤ b < 2 ^ n → 0 ≤ Z.lor a b < 2 ^ n.
Proof.
  intros Hn Ha Hb.
  rewrite <-(Z.mod_small a (2 ^ n)), <-(Z.mod_small b (2 ^ n)) by done.
  rewrite <-!Z.land_ones, <-Z.land_lor_distr_l, Z.land_ones by done.
  apply Z.mod_pos_bound. lia.
Qed.

Lemma land_range n a b : 0 ≤ n → 0 ≤ b < 2 ^ n → 0 ≤ Z.land a b < 2 ^ n.
Proof.
  intros Hn Hb. rewrite <-(Z.mod_small b (2 ^ n)) by done.
  rewrite <-Z.land_ones, Z.land_assoc, Z.land_ones by done. apply Z.mod_pos_bound. lia.
Qed.

Lemma lxor_cancel_l a b c : Z.lxor a b = Z.lxor a c → b = c.
Proof.
  intros E. apply (f_equal (Z.lxor a)) in E.
  by rewrite <-!Z.lxor_assoc, !Z.lxor_nilpotent, !Z.lxor_0_l in E.
Qed.

Lemma lxor_cancel_r a b c : Z.lxor b a = Z.lxor c a → b = c.
Proof. rewrite !(Z.lxor_comm _ a). apply lxor_cancel_l. Qed.

(** ** Moving a splice or a slice past a known prefix *)

Lemma splice_skip {A} off (new x l : list A) :
  len x ≤ off → splice off new (x ++ l) = x ++ splice (off - len x) new l.
Proof.
  unfold len, splice. intros. rewrite take_app_ge, drop_app_ge by lia.
  rewrite <-app_assoc. do 3 f_equal; [|do 2 f_equal]; lia.
Qed.

Lemma splice_here {A} (new x l : list A) :
  len new = len x → splice 0 new (x ++ l) = new ++ l.
Proof.
  unfold len, splice. intros. simpl. by rewrite drop_app_length' by lia.
Qed.

Lemma slice_skip {A} off n (x l : list A) :
  len x ≤ off → slice off n (x ++ l) = slice (off - len x) n l.
Proof.
  unfold len, slice. intros. rewrite drop_app_ge by lia. do 2 f_equal. lia.
Qed.

Lemma slice_here {A} (x l : list A) n : len x = n → slice 0 n (x ++ l) = x.
Proof.
  unfold len, slice. intros. rewrite drop_0. rewrite take_app_length'; [done|lia].
Qed.

Lemma slice_0_skip {A} n (x l : list A) :
  len x ≤ n → slice 0 n (x ++ l) = x ++ slice 0 (n - len x) l.
Proof.
  unfold len, slice. intros. rewrite !drop_0, take_app_ge by lia. do 2 f_equal. lia.
Qed.

Lemma Forall_filter_keep {A} (P Q : A → Prop) `{∀ x, Decision (Q x)} (l : list A) :
  Forall P l → Forall P (filter Q l).
Proof.
  rewrite !Forall_forall. intros Hl x [_ Hx]%list_elem_of_filter. by apply Hl.
Qed.

(** ** Counting loops *)

(** [for (i = z; i < z + n; ++i)]: the values of [i], computed by successors. *)
Fixpoint count_up (n : nat) (z : Z) : list Z :=
  match n with
  | O => []
  | S n => z :: count_up n (z + 1)
  end.

Lemma count_up_seqZ n z : count_up (Z.to_nat n) z = seqZ z n.
Proof.
  destruct (decide (0 ≤ n)) as [Hn|Hn].
  - rewrite <-(Z2Nat.id n) at 2 by done. generalize (Z.to_nat n) as k. clear n Hn. intros k.
    revert z. induction k as [|k IH]; intros z; [done|]. cbn [count_up].
    rewrite seqZ_cons by lia. rewrite IH. f_equal. f_equal; lia.
  - rewrite seqZ_nil by lia. by replace (Z.to_nat n) with 0%nat by lia.
Qed.

(** [memmove(l + dst, l + src, n)], in bounds. *)
Definition memmove {A} (dst src n : Z) (l : list A) : list A := splice dst (slice src n l) l.

(** ** Replacing one element under a splice or a slice *)

Lemma splice_insert_inside {A} l i (b : A) off w :
  0 ≤ off → off + len w ≤ len l → off ≤ Z.of_nat i < off + len w →
  splice off w (<[i:=b]> l) = splice off w l.
Proof.
  unfold len, splice. intros. f_equal; [|f_equal].
  - apply take_insert_ge. lia.
  - apply drop_insert_lt. lia.
Qed.

Lemma splice_insert_outside {A} l i (b : A) off w :
  0 ≤ off → off + len w ≤ len l → (Z.of_nat i < off ∨ off + len w ≤ Z.of_nat i) →
  splice off w (<[i:=b]> l) = <[i:=b]> (splice off w l).
Proof.
  unfold len, splice. intros Ho Hl [Hi|Hi].
  - rewrite insert_app_l by (rewrite length_take; lia). f_equal.
    + rewrite take_insert_lt by lia. done.
    + f_equal. apply drop_insert_lt. lia.
  - rewrite !insert_app_r_alt by (rewrite ?length_take; lia).
    f_equal; [|f_equal].
    + apply take_insert_ge. lia.
    + rewrite drop_insert_ge by lia. f_equal. rewrite length_take. lia.
Qed.

Lemma lookup_splice_outside {A} (l : list A) i off w :
  0 ≤ off → off + len w ≤ len l → (Z.of_nat i < off ∨ off + len w ≤ Z.of_nat i) →
  splice off w l !! i = l !! i.
Proof.
  unfold len, splice. intros Ho Hl [Hi|Hi].
  - rewrite lookup_app_l by (rewrite length_take; lia). apply lookup_take_lt. lia.
  - rewrite !lookup_app_r by (rewrite ?length_take; lia).
    rewrite lookup_drop, length_take. f_equal. lia.
Qed.

Lemma slice_insert_outside {A} (l : list A) i b off n :
  0 ≤ off → 0 ≤ n → (Z.of_nat i < off ∨ off + n ≤ Z.of_nat i) →
  slice off n (<[i:=b]> l) = slice off n l.
Proof.
  unfold slice. intros Ho Hn [Hi|Hi].
  - by rewrite drop_insert_lt by lia.
  - rewrite drop_insert_ge by lia. apply take_insert_ge. lia.
Qed.

Lemma lookup_splice {A} off (w l : list A) i : 0 ≤ off → off + len w ≤ len l →
  splice off w l !! i =
    if decide (off ≤ Z.of_nat i < off + len w) then w !! (i - Z.to_nat off)%nat else l !! i.
Proof.
  intros Ho Hl. case_decide as Hi; [|apply lookup_splice_outside; lia].
  unfold len, splice in *. rewrite lookup_app_r by (rewrite length_take; lia).
  rewrite lookup_app_l by (rewrite length_take; lia). f_equal. rewrite length_take. lia.
Qed.

Lemma splice_comm {A} o1 (w1 : list A) o2 w2 l : 0 ≤ o1 → o1 + len w1 ≤ len l → 0 ≤ o2 →
  o2 + len w2 ≤ len l → o1 + len w1 ≤ o2 ∨ o2 + len w2 ≤ o1 →
  splice o1 w1 (splice o2 w2 l) = splice o2 w2 (splice o1 w1 l).
Proof.
  intros. apply list_eq. intros i. rewrite !lookup_splice by (rewrite ?len_splice; lia).
  repeat case_decide; done || lia.
Qed.

Lemma slice_splice_top {A} off (w l : list A) n : 0 ≤ off → off + len w ≤ n → n ≤ len l →
  slice 0 n (splice off w l) = splice off w (slice 0 n l).
Proof.
  intros. pose proof (len_nonneg w). assert (len (slice 0 n l) = n) by (apply len_slice; lia).
  apply list_eq. intros i. unfold slice at 1. rewrite drop_0, lookup_take, !lookup_splice by lia.
  unfold slice. rewrite drop_0, lookup_take. repeat case_decide; done || lia.
Qed.

(** Writing back what is there changes nothing. *)
Lemma splice_slice {A} off n (l : list A) : 0 ≤ off → 0 ≤ n → off + n ≤ len l →
  splice off (slice off n l) l = l.
Proof.
  intros. unfold splice, slice, len in *. rewrite length_take, length_drop.
  replace (Z.to_nat off + _)%nat with (Z.to_nat n + Z.to_nat off)%nat by lia.
  by rewrite Nat.add_comm, <-drop_drop, !take_drop.
Qed.

Lemma slice_slice {A} a n b m (l : list A) : 0 ≤ a → 0 ≤ b → 0 ≤ n → a + n ≤ m →
  slice a n (slice b m l) = slice (b + a) n l.
Proof.
  intros. unfold slice. rewrite skipn_firstn_comm, take_take, drop_drop.
  replace (Z.to_nat (b + a)) with (Z.to_nat b + Z.to_nat a)%nat by lia. f_equal. lia.
Qed.

