(* ===== verification/Codec.v ===== *)
(** * Packed little-endian layouts

    The format header declares every on-disk structure [AETHERFS_PACKED], with
    fixed-width little-endian fields and no padding.  A [codec A] is such a
    layout for values of type [A]: its size in bytes, the bytes of a value and
    the value of some bytes.  The combinators build the codec of a struct from
    those of its fields, and [lawful] is kept by each of them. *)

From S2P Require Import Prelude.

(** ** Little-endian integers *)

Fixpoint le_bytes (n : nat) (z : Z) : bytes :=
  match n with
  | O => []
  | S n => z mod 256 :: le_bytes n (z / 256)
  end.

Fixpoint le_val (l : bytes) : Z :=
  match l with
  | [] => 0
  | b :: l => b + 256 * le_val l
  end.

Definition le_range (n : nat) (z : Z) : Prop := 0 ≤ z < 2 ^ (8 * Z.of_nat n).

Lemma le_range_S n z : le_range (S n) z → le_range n (z / 256).
Proof.
  unfold le_range. rewrite Nat2Z.inj_succ.
  replace (8 * Z.succ (Z.of_nat n)) with (8 + 8 * Z.of_nat n) by lia.
  rewrite Z.pow_add_r by lia. change (2 ^ 8) with 256. intros [H1 H2]. split.
  - apply Z.div_pos; lia.
  - apply Z.div_lt_upper_bound; lia.
Qed.

Lemma length_le_bytes n z : length (le_bytes n z) = n.
Proof. revert z. induction n; simpl; auto. Qed.

Lemma is_bytes_le_bytes n z : is_bytes (le_bytes n z).
Proof.
  revert z. induction n as [|n IH]; intros z; constructor; [|apply IH].
  apply Z.mod_pos_bound. lia.
Qed.

Lemma le_val_bytes n z : le_range n z → le_val (le_bytes n z) = z.
Proof.
  revert z. induction n as [|n IH]; intros z Hz.
  - unfold le_range in Hz. simpl in *. lia.
  - simpl. rewrite IH by by apply le_range_S.
    pose proof (Z.div_mod z 256). lia.
Qed.

Lemma le_val_range l : is_bytes l → le_range (length l) (le_val l).
Proof.
  unfold le_range. induction 1 as [|b l Hb Hl IH]; [simpl; lia|].
  cbn [le_val length]. rewrite Nat2Z.inj_succ.
  replace (8 * Z.succ (Z.of_nat (length l))) with (8 + 8 * Z.of_nat (length l)) by lia.
  rewrite Z.pow_add_r by lia. change (2 ^ 8) with 256.
  unfold is_byte in Hb. lia.
Qed.

Lemma le_bytes_val l : is_bytes l → le_bytes (length l) (le_val l) = l.
Proof.
  induction 1 as [|b l Hb Hl IH]; [done|]. cbn [le_val length le_bytes].
  unfold is_byte in Hb.
  rewrite (Z.mul_comm 256). f_equal.
  - rewrite Z.mod_add, Z.mod_small; lia.
  - rewrite Z.div_add by lia. rewrite Z.div_small by lia. exact IH.
Qed.

(** ** Codecs *)

Record codec (A : Type) := Codec {
  c_size : nat;
  c_enc : A → bytes;
  c_dec : bytes → A;
  c_ok : A → Prop;
}.
Arguments Codec {A} _ _ _ _.
Arguments c_size {A} _.
Arguments c_enc {A} _ _.
Arguments c_dec {A} _ _.
Arguments c_ok {A} _ _.

Record lawful {A} (c : codec A) : Prop := Lawful {
  enc_length : ∀ a, c_ok c a → length (c_enc c a) = c_size c;
  enc_bytes : ∀ a, is_bytes (c_enc c a);
  dec_ok : ∀ l, length l = c_size c → is_bytes l → c_ok c (c_dec c l);
  dec_enc : ∀ a, c_ok c a → c_dec c (c_enc c a) = a;
  enc_dec : ∀ l, length l = c_size c → is_bytes l → c_enc c (c_dec c l) = l;
}.

(** An [n]-byte unsigned field. *)
Definition c_le (n : nat) : codec Z :=
  {| c_size := n; c_enc := le_bytes n; c_dec := le_val; c_ok := le_range n |}.

(** Two fields in a row. *)
Definition c_pair {A B} (c : codec A) (d : codec B) : codec (A * B) :=
  {| c_size := c_size c + c_size d;
     c_enc := λ p, c_enc c p.1 ++ c_enc d p.2;
     c_dec := λ l, (c_dec c (take (c_size c) l), c_dec d (drop (c_size c) l));
     c_ok := λ p, c_ok c p.1 ∧ c_ok d p.2 |}.

(** A fixed-length array. *)
Fixpoint c_vec_dec {A} (c : codec A) (n : nat) (l : bytes) : list A :=
  match n with
  | O => []
  | S n => c_dec c (take (c_size c) l) :: c_vec_dec c n (drop (c_size c) l)
  end.

Definition c_vec {A} (n : nat) (c : codec A) : codec (list A) :=
  {| c_size := n * c_size c;
     c_enc := flat_map (c_enc c);
     c_dec := c_vec_dec c n;
     c_ok := λ v, length v = n ∧ Forall (c_ok c) v |}.

(** A struct, through the tuple of its fields. *)
Definition c_iso {A B} (f : A → B) (g : B → A) (c : codec A) : codec B :=
  {| c_size := c_size c;
     c_enc := λ b, c_enc c (g b);
     c_dec := λ l, f (c_dec c l);
     c_ok := λ b, c_ok c (g b) |}.

Declare Scope codec_scope.
Delimit Scope codec_scope with codec.
Notation "c ⊗ d" := (c_pair c%codec d%codec) (at level 38, right associativity)
  : codec_scope.

Lemma c_le_lawful n : lawful (c_le n).
Proof.
  split; simpl.
  - intros. apply length_le_bytes.
  - intros. apply is_bytes_le_bytes.
  - intros l <- Hl. by apply le_val_range.
  - intros. by apply le_val_bytes.
  - intros l <- Hl. by apply le_bytes_val.
Qed.

Lemma c_pair_lawful {A B} (c : codec A) (d : codec B) :
  lawful c → lawful d → lawful (c_pair c d).
Proof.
  intros Hc Hd. split; simpl.
  - intros [a b] [Ha Hb]; simpl in *.
    by rewrite length_app, (enc_length c), (enc_length d).
  - intros [a b]; simpl in *. apply Forall_app; split.
    + by apply (enc_bytes c).
    + by apply (enc_bytes d).
  - intros l Hl Hb. split.
    + apply (dec_ok c Hc); [rewrite length_take; lia|by apply Forall_take].
    + apply (dec_ok d Hd); [rewrite length_drop; lia|by apply Forall_drop].
  - intros [a b] [Ha Hb]; simpl in *.
    pose proof (enc_length c Hc a Ha).
    rewrite take_app_length', drop_app_length' by done.
    by rewrite (dec_enc c), (dec_enc d).
  - intros l Hl Hb.
    rewrite (enc_dec c Hc), (enc_dec d Hd); [apply take_drop|..].
    + rewrite length_drop; lia.
    + by apply Forall_drop.
    + rewrite length_take; lia.
    + by apply Forall_take.
Qed.

Lemma c_vec_lawful {A} n (c : codec A) : lawful c → lawful (c_vec n c).
Proof.
  intros Hc. split; simpl.
  - intros v [<- Hv]. induction Hv as [|a v Ha Hv IH]; [done|].
    simpl. by rewrite length_app, IH, (enc_length c).
  - intros v. induction v as [|a v IH]; [constructor|].
    simpl. apply Forall_app; split; [by apply (enc_bytes c)|done].
  - induction n as [|n IH]; intros l Hl Hb; [done|]. simpl in *. split.
    + f_equal. apply (IH (drop (c_size c) l)).
      * rewrite length_drop; lia.
      * by apply Forall_drop.
    + constructor.
      * apply (dec_ok c Hc); [rewrite length_take; lia|by apply Forall_take].
      * apply IH; [rewrite length_drop; lia|by apply Forall_drop].
  - intros v [<- Hv]. induction Hv as [|a v Ha Hv IH]; [done|]. simpl.
    pose proof (enc_length c Hc a Ha).
    rewrite take_app_length', drop_app_length' by done.
    by rewrite (dec_enc c), IH.
  - induction n as [|n IH]; intros l Hl Hb; simpl in *.
    + by apply nil_length_inv in Hl.
    + rewrite IH, (enc_dec c Hc); [apply take_drop|..].
      * rewrite length_take; lia.
      * by apply Forall_take.
      * rewrite length_drop; lia.
      * by apply Forall_drop.
Qed.

Lemma c_iso_lawful {A B} (f : A → B) (g : B → A) (c : codec A) :
  (∀ a, g (f a) = a) → (∀ b, f (g b) = b) → lawful c → lawful (c_iso f g c).
Proof.
  intros Hgf Hfg Hc. split; simpl.
  - intros. by apply (enc_length c).
  - intros. by apply (enc_bytes c).
  - intros. rewrite Hgf. by apply (dec_ok c).
  - intros. by rewrite (dec_enc c).
  - intros. rewrite Hgf. by apply (enc_dec c).
Qed.

#[global] Arguments le_bytes : simpl never.
#[global] Arguments le_val : simpl never.
#[global] Arguments le_range : simpl never.
#[global] Arguments c_vec_dec : simpl never.

Create HintDb codec.
Create Rewrite HintDb ondisk.
#[export] Hint Resolve c_le_lawful c_pair_lawful c_vec_lawful : codec.

(** Proves [lawful] of a struct codec built by [c_iso] from field codecs. *)
Ltac solve_lawful :=
  apply c_iso_lawful;
  [ intros; repeat match goal with p : prod _ _ |- _ => destruct p end; reflexivity
  | intros []; reflexivity
  | repeat first [ apply c_pair_lawful | apply c_vec_lawful | apply c_le_lawful
                 | solve [eauto with codec] ] ].

(** ** Structures on disk *)

(** A type that has an on-disk layout. *)
Class OnDisk (A : Type) := {
  layout : codec A;
  layout_lawful : lawful layout;
}.

Definition sizeof (A : Type) `{OnDisk A} : Z := Z.of_nat (c_size (layout (A:=A))).
Definition encode {A} `{OnDisk A} (a : A) : bytes := c_enc layout a.
Definition wf {A} `{OnDisk A} (a : A) : Prop := c_ok layout a.

(** [memcpy(&a, block, sizeof(a))]: the structure at the start of a buffer. *)
Definition decode {A} `{OnDisk A} (l : bytes) : A :=
  c_dec layout (slice 0 (sizeof A) l).

#[global] Arguments decode : simpl never.
#[global] Strategy 100 [decode encode].

(** A zeroed buffer of [n] bytes with the structure copied to its start. *)
Definition to_block {A} `{OnDisk A} (n : Z) (a : A) : bytes :=
  splice 0 (encode a) (zeros n).

Section on_disk.
Context {A : Type} `{OnDisk A}.

Lemma len_encode (a : A) : wf a → len (encode a) = sizeof A.
Proof.
  intros Ha. unfold len, sizeof. f_equal. by apply (enc_length _ layout_lawful).
Qed.

(** Whatever the fields hold: a field is stored modulo its width. *)
Lemma is_bytes_encode_any (a : A) : is_bytes (encode a).
Proof. apply (enc_bytes _ layout_lawful). Qed.

Lemma is_bytes_encode (a : A) : wf a → is_bytes (encode a).
Proof. intros _. apply is_bytes_encode_any. Qed.

Lemma encode_dec (l : bytes) :
  is_bytes l → sizeof A ≤ len l → encode (decode l : A) = slice 0 (sizeof A) l.
Proof.
  intros Hb Hl. apply (enc_dec _ layout_lawful).
  - pose proof (len_slice 0 (sizeof A) l) as E. unfold len, sizeof in *. lia.
  - by apply is_bytes_slice.
Qed.

Lemma wf_decode (l : bytes) : is_bytes l → sizeof A ≤ len l → wf (decode l : A).
Proof.
  intros Hb Hl. apply (dec_ok _ layout_lawful).
  - pose proof (len_slice 0 (sizeof A) l) as E. unfold len, sizeof in *. lia.
  - by apply is_bytes_slice.
Qed.

Lemma decode_app (a : A) k : wf a → decode (encode a ++ k) = a.
Proof.
  intros Ha. unfold decode. pose proof (len_encode a Ha).
  pose proof (len_nonneg (encode a)).
  rewrite slice_app_l by lia. rewrite slice_all by done.
  by apply (dec_enc _ layout_lawful).
Qed.

Lemma decode_encode (a : A) : wf a → decode (encode a) = a.
Proof. intros. rewrite <-(app_nil_r (encode a)). by apply decode_app. Qed.

Lemma decode_to_block n (a : A) : wf a → decode (to_block n a) = a.
Proof. intros. unfold to_block, splice. by apply decode_app. Qed.

Lemma len_to_block n (a : A) :
  wf a → sizeof A ≤ n → len (to_block n a) = n.
Proof.
  intros Ha Hn. pose proof (len_encode a Ha). pose proof (len_nonneg (encode a)).
  unfold to_block.
  rewrite len_splice; rewrite ?len_zeros; lia.
Qed.

Lemma is_bytes_to_block_any n (a : A) : is_bytes (to_block n a).
Proof. apply is_bytes_splice; [apply is_bytes_encode_any|apply is_bytes_zeros]. Qed.

Lemma is_bytes_to_block n (a : A) : wf a → is_bytes (to_block n a).
Proof. intros _. apply is_bytes_to_block_any. Qed.

Lemma encode_inj (a b : A) : wf a → wf b → encode a = encode b → a = b.
Proof. intros Ha Hb E. by rewrite <-(decode_encode a), E, decode_encode. Qed.
End on_disk.

#[export] Hint Resolve len_encode is_bytes_encode is_bytes_to_block : aether.
#[export] Hint Rewrite @decode_encode @decode_to_block using done : ondisk.
