(* ===== verification/Crc.v ===== *)
(** * Checksums

    [aetherfs_crc32c] of the format header (bitwise, reflected polynomial
    [0xEDB88320], register inverted at both ends), as the userspace tools and
    the on-disk format use it, and the different routine of the same name that
    [kernel/aetherfs.h] compiles into the module. *)

From S2P Require Import Prelude Codec.

Definition CRC_POLY : Z := 0xEDB88320.

(** [c = (c >> 1) ^ ((c & 1U) ? 0xEDB88320U : 0U)] *)
Definition crc_bit (c : Z) : Z :=
  Z.lxor (Z.shiftr c 1) (if Z.odd c then CRC_POLY else 0).

Definition crc_byte (c b : Z) : Z := Nat.iter 8 crc_bit (Z.lxor c b).

Definition crc_loop (c : Z) (buf : bytes) : Z := foldl crc_byte c buf.

Definition aetherfs_crc32c (crc : Z) (buf : bytes) : Z :=
  Z.lxor (crc_loop (Z.lxor crc 0xFFFFFFFF) buf) 0xFFFFFFFF.

Definition AETHERFS_CRC_SEED : Z := 0xFFFFFFFF.

Definition aetherfs_crc32c_data (data : bytes) : Z :=
  aetherfs_crc32c AETHERFS_CRC_SEED data.

(** The kernel header's routine: one polynomial step per byte. *)
Definition kernel_crc_byte (c b : Z) : Z := crc_bit (Z.lxor c b).

Definition kernel_aetherfs_crc32c (crc : Z) (buf : bytes) : Z :=
  Z.lxor (foldl kernel_crc_byte crc buf) 0xFFFFFFFF.

(** ** The bit step *)

Lemma crc_bit_lxor a b : crc_bit (Z.lxor a b) = Z.lxor (crc_bit a) (crc_bit b).
Proof.
  unfold crc_bit. rewrite Z.shiftr_lxor, <-!Z.bit0_odd, Z.lxor_spec.
  apply Z.bits_inj'. intros i Hi. rewrite !Z.lxor_spec.
  destruct (Z.testbit a 0), (Z.testbit b 0); simpl; rewrite ?Z.testbit_0_l;
    destruct (Z.testbit (Z.shiftr a 1) i), (Z.testbit (Z.shiftr b 1) i),
      (Z.testbit CRC_POLY i); done.
Qed.

Lemma crc_bit_0 : crc_bit 0 = 0.
Proof. done. Qed.

Lemma crc_bit_double x : crc_bit (2 * x) = x.
Proof.
  unfold crc_bit. rewrite Z.odd_mul. simpl. rewrite Z.lxor_0_r, Z.shiftr_div_pow2 by lia.
  change (2 ^ 1) with 2. rewrite Z.mul_comm, Z.div_mul; lia.
Qed.

Lemma shiftr_1_range c : is_u32 c → 0 ≤ Z.shiftr c 1 < 2 ^ 31.
Proof.
  unfold is_u32. rewrite Z.shiftr_div_pow2 by lia. change (2 ^ 1) with 2. intros [? ?].
  split; [apply Z.div_pos|apply Z.div_lt_upper_bound]; lia.
Qed.

Lemma crc_bit_range c : is_u32 c → is_u32 (crc_bit c).
Proof.
  intros Hc. pose proof (shiftr_1_range c Hc). unfold crc_bit, is_u32.
  apply lxor_range; [lia|lia|]. destruct (Z.odd c); unfold CRC_POLY; lia.
Qed.

Lemma crc_bit_zero_inv c : is_u32 c → crc_bit c = 0 → c = 0.
Proof.
  intros Hc. pose proof (shiftr_1_range c Hc) as Hs. unfold crc_bit.
  destruct (Z.odd c) eqn:Eo; intros E.
  - apply Z.lxor_eq in E. rewrite E in Hs. unfold CRC_POLY in Hs. lia.
  - rewrite Z.lxor_0_r, Z.shiftr_div_pow2 in E by lia. change (2 ^ 1) with 2 in E.
    pose proof (Z.div_mod c 2). rewrite Zmod_odd, Eo in *. lia.
Qed.

Lemma iter_crc_lxor n a b :
  Nat.iter n crc_bit (Z.lxor a b) =
  Z.lxor (Nat.iter n crc_bit a) (Nat.iter n crc_bit b).
Proof. induction n as [|n IH]; simpl; [done|]. by rewrite IH, crc_bit_lxor. Qed.

Lemma iter_crc_range n c : is_u32 c → is_u32 (Nat.iter n crc_bit c).
Proof. intros. induction n; simpl; [done|]. by apply crc_bit_range. Qed.

Lemma iter_crc_zero_inv n c : is_u32 c → Nat.iter n crc_bit c = 0 → c = 0.
Proof.
  intros Hc. induction n as [|n IH]; simpl; [done|]. intros E. apply IH.
  apply crc_bit_zero_inv; [by apply iter_crc_range|done].
Qed.

Lemma iter_crc_inj n a b :
  is_u32 a → is_u32 b → Nat.iter n crc_bit a = Nat.iter n crc_bit b → a = b.
Proof.
  intros Ha Hb E. apply Z.lxor_eq, (iter_crc_zero_inv n).
  - apply lxor_range; [lia|apply Ha|apply Hb].
  - by rewrite iter_crc_lxor, E, Z.lxor_nilpotent.
Qed.

Lemma iter_crc_shift n x :
  Nat.iter n crc_bit (2 ^ Z.of_nat n * x) = x.
Proof.
  revert x. induction n as [|n IH]; intros x; [simpl; lia|].
  rewrite Nat2Z.inj_succ, Z.pow_succ_r, (Z.mul_comm 2), <-Z.mul_assoc by lia.
  simpl. by rewrite IH, crc_bit_double.
Qed.

(** ** The register after a buffer *)

Lemma add_lxor_high b v : is_byte b → 0 ≤ v → b + 256 * v = Z.lxor b (256 * v).
Proof.
  intros Hb Hv. apply Z.add_nocarry_lxor. apply Z.bits_inj'. intros i Hi.
  rewrite Z.land_spec, Z.testbit_0_l.
  destruct (decide (i < 8)) as [?|?].
  - replace (256 * v) with (v * 2 ^ 8) by lia.
    rewrite Z.mul_pow2_bits_low by lia. apply andb_false_r.
  - replace (Z.testbit b i) with false; [done|].
    unfold is_byte in Hb. rewrite <-(Z.mod_small b (2 ^ 8)) by lia.
    by rewrite Z.mod_pow2_bits_high by lia.
Qed.

(** The register is a fixed linear image of the starting register combined
    with the message read as one little-endian number. *)
Lemma crc_loop_linear s w : is_bytes w →
  crc_loop s w = Nat.iter (8 * length w) crc_bit (Z.lxor s (le_val w)).
Proof.
  intros Hw. revert s. induction Hw as [|b w Hb Hw IH]; intros s.
  - simpl. by rewrite Z.lxor_0_r.
  - pose proof (le_val_range w Hw) as Hr. unfold le_range in Hr.
    change (crc_loop s (b :: w)) with (crc_loop (crc_byte s b) w). rewrite IH.
    change (le_val (b :: w)) with (b + 256 * le_val w). cbn [length].
    rewrite (add_lxor_high b (le_val w)) by (done || lia).
    replace (8 * S (length w))%nat with (8 * length w + 8)%nat by lia.
    rewrite Nat.iter_add. f_equal. unfold crc_byte.
    rewrite <-Z.lxor_assoc, (iter_crc_lxor 8 (Z.lxor s b)). f_equal.
    symmetry. apply (iter_crc_shift 8).
Qed.

Lemma crc_loop_app s l k : crc_loop s (l ++ k) = crc_loop (crc_loop s l) k.
Proof. apply foldl_app. Qed.

Lemma crc_loop_range s l : is_u32 s → is_bytes l → is_u32 (crc_loop s l).
Proof.
  intros Hs Hl. revert s Hs. induction Hl as [|b l Hb Hl IH]; intros s Hs; [done|].
  apply IH, iter_crc_range, lxor_range; [lia|apply Hs|]. unfold is_byte in Hb. lia.
Qed.

Lemma crc_loop_inj s t l :
  is_u32 s → is_u32 t → is_bytes l → crc_loop s l = crc_loop t l → s = t.
Proof.
  intros Hs Ht Hl E. rewrite !crc_loop_linear, !iter_crc_lxor in E by done.
  apply lxor_cancel_r in E. by apply iter_crc_inj in E.
Qed.

Lemma crc_seed_register : Z.lxor AETHERFS_CRC_SEED 0xFFFFFFFF = 0.
Proof. done. Qed.

Lemma aetherfs_crc32c_data_range l : is_bytes l → is_u32 (aetherfs_crc32c_data l).
Proof.
  intros Hl. unfold aetherfs_crc32c_data, aetherfs_crc32c.
  apply lxor_range; [lia| |lia]. apply crc_loop_range; [|done].
  rewrite crc_seed_register. unfold is_u32. lia.
Qed.

Lemma aetherfs_crc32c_data_eq l k :
  aetherfs_crc32c_data l = aetherfs_crc32c_data k → crc_loop 0 l = crc_loop 0 k.
Proof.
  unfold aetherfs_crc32c_data, aetherfs_crc32c. rewrite crc_seed_register.
  apply lxor_cancel_r.
Qed.

Lemma le_val_short w : is_bytes w → (length w ≤ 4)%nat → is_u32 (le_val w).
Proof.
  intros Hw Hl. pose proof (le_val_range w Hw) as Hr. unfold le_range, is_u32 in *.
  assert (2 ^ (8 * Z.of_nat (length w)) ≤ 2 ^ 32) by (apply Z.pow_le_mono_r; lia).
  lia.
Qed.

Lemma le_val_inj w w' :
  is_bytes w → is_bytes w' → length w = length w' → le_val w = le_val w' → w = w'.
Proof.
  intros Hw Hw' Hl E. rewrite <-(le_bytes_val w), <-(le_bytes_val w') by done.
  by rewrite Hl, E.
Qed.

Lemma crc_burst_loop s w w' post :
  is_u32 s → is_bytes w → is_bytes w' → is_bytes post →
  length w = length w' → (length w ≤ 4)%nat →
  crc_loop s (w ++ post) = crc_loop s (w' ++ post) → w = w'.
Proof.
  intros Hs Hw Hw' Hp Hl H4 E. rewrite !crc_loop_app in E.
  apply crc_loop_inj in E; [|by apply crc_loop_range..|done].
  rewrite !crc_loop_linear in E by done. rewrite <-Hl in E.
  apply iter_crc_inj in E.
  - apply lxor_cancel_l in E. by apply le_val_inj.
  - apply lxor_range; [lia|apply Hs|]. by apply le_val_short.
  - apply lxor_range; [lia|apply Hs|]. apply le_val_short; [done|lia].
Qed.

(** The detection lemma the structure checksums use. *)
Lemma crc_data_burst pre w w' post :
  is_bytes pre → is_bytes w → is_bytes w' → is_bytes post →
  length w = length w' → (length w ≤ 4)%nat → w ≠ w' →
  aetherfs_crc32c_data (pre ++ w ++ post) ≠ aetherfs_crc32c_data (pre ++ w' ++ post).
Proof.
  intros Hpre Hw Hw' Hpost Hl H4 Hne E. apply aetherfs_crc32c_data_eq in E.
  rewrite !(crc_loop_app 0 pre) in E. apply Hne.
  eapply crc_burst_loop, E; try done.
  apply crc_loop_range; [unfold is_u32; lia|done].
Qed.

(** ** The kernel header's routine *)

Lemma kernel_crc_window s a b post :
  foldl kernel_crc_byte s (a :: b :: post) =
  foldl kernel_crc_byte s (Z.lxor a 2 :: Z.lxor b 1 :: post).
Proof.
  cbn [foldl]. f_equal. unfold kernel_crc_byte.
  rewrite <-(Z.lxor_assoc s a 2), (crc_bit_lxor _ 2).
  change (crc_bit 2) with 1.
  rewrite (Z.lxor_comm b 1), <-Z.lxor_assoc, (Z.lxor_assoc _ 1 1), Z.lxor_nilpotent.
  by rewrite Z.lxor_0_r.
Qed.

(** ** Properties *)

(** Two buffers that differ only inside a window of at most four bytes have
    different checksums: every burst error of up to 32 bits that starts on a byte
    boundary is caught, wherever it lies in a block. *)
Theorem crc_detects_bursts pre w w' post :
  is_bytes (pre ++ w ++ post) → is_bytes w' →
  length w = length w' → (length w ≤ 4)%nat → w ≠ w' →
  aetherfs_crc32c_data (pre ++ w ++ post) ≠ aetherfs_crc32c_data (pre ++ w' ++ post).
Proof.
  intros [Hpre [Hw Hpost]%Forall_app]%Forall_app Hw'. by apply crc_data_burst.
Qed.

Lemma crc_detects_bursts_witness :
  aetherfs_crc32c_data ([1; 2] ++ [3; 4; 5; 6] ++ [7]) ≠
  aetherfs_crc32c_data ([1; 2] ++ [255; 4; 0; 9] ++ [7]).
Proof.
  apply crc_detects_bursts.
  - repeat constructor; discriminate.
  - repeat constructor; discriminate.
  - reflexivity.
  - simpl. lia.
  - discriminate.
Defined.

(** The seed [0xFFFFFFFF] passed to a routine that inverts its register
    first cancels out, so zero bytes at the front of a buffer do not change its
    checksum: the length of a leading run of zeroes is not covered. *)
Theorem crc_ignores_leading_zeros n l :
  aetherfs_crc32c_data (zeros n ++ l) = aetherfs_crc32c_data l.
Proof.
  unfold aetherfs_crc32c_data, aetherfs_crc32c, zeros.
  rewrite crc_seed_register, crc_loop_app. do 2 f_equal.
  induction (Z.to_nat n) as [|k IH]; [done|apply IH].
Qed.

(** The routine of the same name that [kernel/aetherfs.h] compiles into the
    module takes one polynomial step per byte, so it cannot tell apart buffers in
    which bit 1 of a byte and bit 0 of the next are both flipped: for every
    content around them and every seed the two sums agree, although the format's
    routine tells them apart. *)
Theorem kernel_crc_misses_adjacent_flips seed pre a b post :
  is_bytes (pre ++ a :: b :: post) →
  let flipped := pre ++ Z.lxor a 2 :: Z.lxor b 1 :: post in
  kernel_aetherfs_crc32c seed flipped = kernel_aetherfs_crc32c seed (pre ++ a :: b :: post) ∧
  aetherfs_crc32c_data flipped ≠ aetherfs_crc32c_data (pre ++ a :: b :: post).
Proof.
  intros [Hpre Hab]%Forall_app flipped. split.
  - unfold kernel_aetherfs_crc32c, flipped. by rewrite !foldl_app, <-kernel_crc_window.
  - apply Forall_cons in Hab as [Ha [Hb Hpost]%Forall_cons].
    pose proof (lxor_range 8 a 2 ltac:(lia) Ha ltac:(lia)).
    pose proof (lxor_range 8 b 1 ltac:(lia) Hb ltac:(lia)).
    apply (crc_data_burst pre [Z.lxor a 2; Z.lxor b 1] [a; b] post); try done.
    + repeat apply Forall_cons_2; by try apply Forall_nil_2.
    + repeat apply Forall_cons_2; by try apply Forall_nil_2.
    + simpl. lia.
    + intros [= E _]. apply (f_equal (Z.lxor a)) in E.
      rewrite <-Z.lxor_assoc, Z.lxor_nilpotent in E. discriminate E.
Qed.

Lemma kernel_crc_misses_adjacent_flips_witness :
  kernel_aetherfs_crc32c 0xFFFFFFFF [65; 67; 65; 69] =
  kernel_aetherfs_crc32c 0xFFFFFFFF [65; 65; 64; 69] ∧
  aetherfs_crc32c_data [65; 67; 65; 69] ≠ aetherfs_crc32c_data [65; 65; 64; 69].
Proof.
  refine (kernel_crc_misses_adjacent_flips 0xFFFFFFFF [65] 65 64 [69] _).
  repeat constructor; discriminate.
Defined.
