(* ===== verification/Format.v ===== *)
(** * The on-disk format

    The constants and the packed structures of
    [kernel/include/uapi/linux/aetherfs_format.h], their byte layouts, and the
    structure checksums.  A record holds the CPU values of the fields: the
    little-endian conversions of the header are part of the layout. *)

From S2P Require Import Prelude Codec Crc.

(** ** Constants *)

Definition AETHERFS_MAGIC : Z := 0x41455448.
Definition AETHERFS_VERSION : Z := 5.
Definition AETHERFS_DEF_BLOCK_SIZE : Z := 4096.
Definition AETHERFS_INODE_SIZE : Z := 512.
Definition AETHERFS_MAX_NAMELEN : Z := 255.
Definition AETHERFS_EXTENT_LOG_MAX : Z := 102.
Definition AETHERFS_BITMAP_BYTES : Z := 4080.
Definition AETHERFS_BITMAP_BITS : Z := AETHERFS_BITMAP_BYTES * 8.
Definition AETHERFS_BLOCKS_PER_AG : Z := 2097152.
Definition AETHERFS_MAX_INODES : Z := AETHERFS_BITMAP_BITS.
Definition AETHERFS_MAX_DEVICES : Z := 8.
Definition AETHERFS_CHECKSUMS_PER_BLOCK : Z := 1020.

Definition AETHERFS_COW_MODE : Z := 0.
Definition AETHERFS_OVERWRITE_MODE : Z := 1.
Definition AETHERFS_APPEND_MODE : Z := 2.
Definition AETHERFS_F_COW : Z := 0x0001.
Definition AETHERFS_F_APPEND : Z := 0x0020.

Definition AETHERFS_POOL_MAGIC : Z := 0x504F4F4C.
Definition AETHERFS_POOL_VERSION : Z := 1.
Definition AETHERFS_CHECKPOINT_ROOT_MAGIC : Z := 0x43505254.
Definition AETHERFS_CHECKPOINT_ROOT_VERSION : Z := 1.
Definition AETHERFS_POOL_PROFILE_SINGLE : Z := 0.
Definition AETHERFS_POOL_PROFILE_MIRROR : Z := 1.
Definition AETHERFS_POOL_PROFILE_STRIPE : Z := 2.
Definition AETHERFS_POOL_PROFILE_PARITY : Z := 3.
Definition AETHERFS_POOL_PROFILE_TIERED : Z := 4.
Definition AETHERFS_POOL_MEMBER_DATA : Z := 1.
Definition AETHERFS_POOL_MEMBER_METADATA : Z := 2.
Definition AETHERFS_POOL_MEMBER_LOG : Z := 4.

Definition AETHERFS_POOL_LABEL_BLOCK : Z := 0.
Definition AETHERFS_SUPERBLOCK_BLOCK : Z := 1.
Definition AETHERFS_ROOT_INODE_BLOCK : Z := 2.
Definition AETHERFS_ROOT_DIR_BLOCK : Z := 3.
Definition AETHERFS_JOURNAL_BLOCK : Z := 4.
Definition AETHERFS_INODE_BITMAP_BLOCK : Z := 5.
Definition AETHERFS_FREE_EXTENT_BLOCK : Z := 6.
Definition AETHERFS_CHECKPOINT_ROOT_BLOCK : Z := 7.
Definition AETHERFS_DATA_START_BLOCK : Z := 8.
Definition AETHERFS_BOOTSTRAP_BLOCKS : Z := AETHERFS_DATA_START_BLOCK.
Definition AETHERFS_ROOT_INO : Z := 16.
Definition AETHERFS_DIR_ENTRY_BASE_SIZE : Z := 14.
Definition AETHERFS_FT_DIR : Z := 2.

(** [((uint16_t)((AETHERFS_DIR_ENTRY_BASE_SIZE + (name_len) + 3U) & ~3U))] *)
Definition AETHERFS_DIR_REC_LEN (name_len : Z) : Z :=
  u16 (Z.land (u32 (AETHERFS_DIR_ENTRY_BASE_SIZE + name_len + 3)) 0xFFFFFFFC).

(** [S_ISDIR] and [S_ISREG] of [sys/stat.h]. *)
Definition S_ISDIR (mode : Z) : bool := Z.land mode 0xF000 =? 0x4000.
Definition S_ISREG (mode : Z) : bool := Z.land mode 0xF000 =? 0x8000.

(** ** Structures *)

(** [struct aetherfs_super] *)
Record aetherfs_super := Super {
  s_magic : Z;
  s_version : Z;
  s_blocksize : Z;
  s_blocks_count : Z;
  s_free_blocks : Z;
  s_blocks_per_ag : Z;
  s_ag_count : Z;
  s_device_count : Z;
  s_mode : Z;
  s_features : Z;
  s_checksum : Z;
  s_uuid : bytes;
  s_checkpoint_num : Z;
  s_checkpoint_mask : Z;
  s_checkpoint : list Z;
  s_journal_addr : Z;
  s_root_inode : Z;
  s_generation : Z;
  s_inodes_count : Z;
  s_meta_tree : Z;
  s_extent_tree : Z;
  s_free_tree : Z;
  s_snap_tree : Z;
  s_scrub_journal : Z;
  s_health_journal : Z;
  s_reserved2 : list Z;
}.

Definition super_codec : codec aetherfs_super :=
  c_iso
    (λ '(s_magic, (s_version, (s_blocksize, (s_blocks_count, (s_free_blocks,
      (s_blocks_per_ag, (s_ag_count, (s_device_count, (s_mode, (s_features,
      (s_checksum, (s_uuid, (s_checkpoint_num, (s_checkpoint_mask, (s_checkpoint,
      (s_journal_addr, (s_root_inode, (s_generation, (s_inodes_count, (s_meta_tree,
      (s_extent_tree, (s_free_tree, (s_snap_tree, (s_scrub_journal, (s_health_journal,
      s_reserved2))))))))))))))))))))))))), Super s_magic s_version s_blocksize
      s_blocks_count s_free_blocks s_blocks_per_ag s_ag_count s_device_count s_mode
      s_features s_checksum s_uuid s_checkpoint_num s_checkpoint_mask s_checkpoint
      s_journal_addr s_root_inode s_generation s_inodes_count s_meta_tree
      s_extent_tree s_free_tree s_snap_tree s_scrub_journal s_health_journal
      s_reserved2)
    (λ s, (s_magic s, (s_version s, (s_blocksize s, (s_blocks_count s,
      (s_free_blocks s, (s_blocks_per_ag s, (s_ag_count s, (s_device_count s,
      (s_mode s, (s_features s, (s_checksum s, (s_uuid s, (s_checkpoint_num s,
      (s_checkpoint_mask s, (s_checkpoint s, (s_journal_addr s, (s_root_inode s,
      (s_generation s, (s_inodes_count s, (s_meta_tree s, (s_extent_tree s,
      (s_free_tree s, (s_snap_tree s, (s_scrub_journal s, (s_health_journal s,
      s_reserved2 s))))))))))))))))))))))))))
    (c_le 4 ⊗ c_le 4 ⊗ c_le 4 ⊗ c_le 8 ⊗ c_le 8 ⊗ c_le 4 ⊗ c_le 4 ⊗ c_le 4 ⊗ c_le 2 ⊗
      c_le 2 ⊗ c_le 4 ⊗ c_vec 16 (c_le 1) ⊗ c_le 4 ⊗ c_le 4 ⊗ c_vec 8 (c_le 8) ⊗
      c_le 8 ⊗ c_le 8 ⊗ c_le 4 ⊗ c_le 4 ⊗ c_le 8 ⊗ c_le 8 ⊗ c_le 8 ⊗ c_le 8 ⊗ c_le 8 ⊗
      c_le 8 ⊗ c_vec 6 (c_le 8))%codec.

Lemma super_lawful : lawful super_codec.
Proof. solve_lawful. Qed.

#[export] Hint Resolve super_lawful : codec.
#[export] Instance super_on_disk : OnDisk aetherfs_super :=
  {| layout := super_codec; layout_lawful := super_lawful |}.

Definition set_s_checksum (v : Z) (s : aetherfs_super) : aetherfs_super :=
  Super (s_magic s) (s_version s) (s_blocksize s) (s_blocks_count s) (s_free_blocks s)
    (s_blocks_per_ag s) (s_ag_count s) (s_device_count s) (s_mode s) (s_features s) v
    (s_uuid s) (s_checkpoint_num s) (s_checkpoint_mask s) (s_checkpoint s)
    (s_journal_addr s) (s_root_inode s) (s_generation s) (s_inodes_count s)
    (s_meta_tree s) (s_extent_tree s) (s_free_tree s) (s_snap_tree s)
    (s_scrub_journal s) (s_health_journal s) (s_reserved2 s).

Definition set_s_free_blocks (v : Z) (s : aetherfs_super) : aetherfs_super :=
  Super (s_magic s) (s_version s) (s_blocksize s) (s_blocks_count s) v
    (s_blocks_per_ag s) (s_ag_count s) (s_device_count s) (s_mode s) (s_features s)
    (s_checksum s) (s_uuid s) (s_checkpoint_num s) (s_checkpoint_mask s)
    (s_checkpoint s) (s_journal_addr s) (s_root_inode s) (s_generation s)
    (s_inodes_count s) (s_meta_tree s) (s_extent_tree s) (s_free_tree s)
    (s_snap_tree s) (s_scrub_journal s) (s_health_journal s) (s_reserved2 s).

Definition set_s_uuid (v : bytes) (s : aetherfs_super) : aetherfs_super :=
  Super (s_magic s) (s_version s) (s_blocksize s) (s_blocks_count s) (s_free_blocks s)
    (s_blocks_per_ag s) (s_ag_count s) (s_device_count s) (s_mode s) (s_features s)
    (s_checksum s) v (s_checkpoint_num s) (s_checkpoint_mask s) (s_checkpoint s)
    (s_journal_addr s) (s_root_inode s) (s_generation s) (s_inodes_count s)
    (s_meta_tree s) (s_extent_tree s) (s_free_tree s) (s_snap_tree s)
    (s_scrub_journal s) (s_health_journal s) (s_reserved2 s).

(** [struct aetherfs_inode] *)
Record aetherfs_inode := Inode {
  i_mode : Z;
  i_links_count : Z;
  i_uid : Z;
  i_gid : Z;
  i_size : Z;
  i_blocks : Z;
  i_atime : Z;
  i_ctime : Z;
  i_mtime : Z;
  i_extent_root : Z;
  i_nlink : Z;
  i_flags : Z;
  i_xattr : Z;
  i_reflink : Z;
  i_parent : Z;
  i_snapshot_id : Z;
  i_checksum : Z;
  i_inline_len : Z;
  i_data_gen : Z;
  i_data : bytes;
  i_inline : bytes;
}.

Definition inode_codec : codec aetherfs_inode :=
  c_iso
    (λ '(i_mode, (i_links_count, (i_uid, (i_gid, (i_size, (i_blocks, (i_atime,
      (i_ctime, (i_mtime, (i_extent_root, (i_nlink, (i_flags, (i_xattr, (i_reflink,
      (i_parent, (i_snapshot_id, (i_checksum, (i_inline_len, (i_data_gen, (i_data,
      i_inline)))))))))))))))))))), Inode i_mode i_links_count i_uid i_gid i_size
      i_blocks i_atime i_ctime i_mtime i_extent_root i_nlink i_flags i_xattr i_reflink
      i_parent i_snapshot_id i_checksum i_inline_len i_data_gen i_data i_inline)
    (λ i, (i_mode i, (i_links_count i, (i_uid i, (i_gid i, (i_size i, (i_blocks i,
      (i_atime i, (i_ctime i, (i_mtime i, (i_extent_root i, (i_nlink i, (i_flags i,
      (i_xattr i, (i_reflink i, (i_parent i, (i_snapshot_id i, (i_checksum i,
      (i_inline_len i, (i_data_gen i, (i_data i, i_inline i)))))))))))))))))))))
    (c_le 2 ⊗ c_le 2 ⊗ c_le 4 ⊗ c_le 4 ⊗ c_le 8 ⊗ c_le 8 ⊗ c_le 8 ⊗ c_le 8 ⊗ c_le 8 ⊗
      c_le 8 ⊗ c_le 4 ⊗ c_le 4 ⊗ c_le 8 ⊗ c_le 8 ⊗ c_le 8 ⊗ c_le 8 ⊗ c_le 4 ⊗ c_le 4 ⊗
      c_le 8 ⊗ c_vec 24 (c_le 1) ⊗ c_vec 372 (c_le 1))%codec.

Lemma inode_lawful : lawful inode_codec.
Proof. solve_lawful. Qed.

#[export] Hint Resolve inode_lawful : codec.
#[export] Instance inode_on_disk : OnDisk aetherfs_inode :=
  {| layout := inode_codec; layout_lawful := inode_lawful |}.

Definition set_i_checksum (v : Z) (i : aetherfs_inode) : aetherfs_inode :=
  Inode (i_mode i) (i_links_count i) (i_uid i) (i_gid i) (i_size i) (i_blocks i)
    (i_atime i) (i_ctime i) (i_mtime i) (i_extent_root i) (i_nlink i) (i_flags i)
    (i_xattr i) (i_reflink i) (i_parent i) (i_snapshot_id i) v (i_inline_len i)
    (i_data_gen i) (i_data i) (i_inline i).

Definition set_i_extent_root (v : Z) (i : aetherfs_inode) : aetherfs_inode :=
  Inode (i_mode i) (i_links_count i) (i_uid i) (i_gid i) (i_size i) (i_blocks i)
    (i_atime i) (i_ctime i) (i_mtime i) v (i_nlink i) (i_flags i) (i_xattr i)
    (i_reflink i) (i_parent i) (i_snapshot_id i) (i_checksum i) (i_inline_len i)
    (i_data_gen i) (i_data i) (i_inline i).

(** [struct aetherfs_extent] *)
Record aetherfs_extent := Extent {
  e_lstart : Z;
  e_pstart : Z;
  e_csum_start : Z;
  e_len : Z;
  e_flags : Z;
  e_reserved : Z;
}.

Definition extent_codec : codec aetherfs_extent :=
  c_iso
    (λ '(e_lstart, (e_pstart, (e_csum_start, (e_len, (e_flags, e_reserved))))), Extent
      e_lstart e_pstart e_csum_start e_len e_flags e_reserved)
    (λ e, (e_lstart e, (e_pstart e, (e_csum_start e, (e_len e, (e_flags e,
      e_reserved e))))))
    (c_le 8 ⊗ c_le 8 ⊗ c_le 8 ⊗ c_le 8 ⊗ c_le 4 ⊗ c_le 4)%codec.

Lemma extent_lawful : lawful extent_codec.
Proof. solve_lawful. Qed.

#[export] Hint Resolve extent_lawful : codec.
#[export] Instance extent_on_disk : OnDisk aetherfs_extent :=
  {| layout := extent_codec; layout_lawful := extent_lawful |}.

(** [struct aetherfs_extent_node]; [AETHERFS_EXTENT_LOG_MAX] is 102. *)
Record aetherfs_extent_node := ExtentNode {
  en_next : Z;
  en_count : Z;
  en_checksum : Z;
  en_extents : list aetherfs_extent;
}.

Definition extent_node_codec : codec aetherfs_extent_node :=
  c_iso
    (λ '(en_next, (en_count, (en_checksum, en_extents))), ExtentNode en_next en_count
      en_checksum en_extents)
    (λ n, (en_next n, (en_count n, (en_checksum n, en_extents n))))
    (c_le 8 ⊗ c_le 4 ⊗ c_le 4 ⊗ c_vec 102 extent_codec)%codec.

Lemma extent_node_lawful : lawful extent_node_codec.
Proof. solve_lawful. Qed.

#[export] Hint Resolve extent_node_lawful : codec.
#[export] Instance extent_node_on_disk : OnDisk aetherfs_extent_node :=
  {| layout := extent_node_codec; layout_lawful := extent_node_lawful |}.

Definition set_en_checksum (v : Z) (n : aetherfs_extent_node) : aetherfs_extent_node :=
  ExtentNode (en_next n) (en_count n) v (en_extents n).

(** [struct aetherfs_checksum_block]; [AETHERFS_CHECKSUMS_PER_BLOCK] is 1020. *)
Record aetherfs_checksum_block := ChecksumBlock {
  cb_next : Z;
  cb_entries : Z;
  cb_checksum : Z;
  cb_sums : list Z;
}.

Definition checksum_block_codec : codec aetherfs_checksum_block :=
  c_iso
    (λ '(cb_next, (cb_entries, (cb_checksum, cb_sums))), ChecksumBlock cb_next
      cb_entries cb_checksum cb_sums)
    (λ b, (cb_next b, (cb_entries b, (cb_checksum b, cb_sums b))))
    (c_le 8 ⊗ c_le 4 ⊗ c_le 4 ⊗ c_vec 1020 (c_le 4))%codec.

Lemma checksum_block_lawful : lawful checksum_block_codec.
Proof. solve_lawful. Qed.

#[export] Hint Resolve checksum_block_lawful : codec.
#[export] Instance checksum_block_on_disk : OnDisk aetherfs_checksum_block :=
  {| layout := checksum_block_codec; layout_lawful := checksum_block_lawful |}.

Definition set_cb_checksum (v : Z) (b : aetherfs_checksum_block) : aetherfs_checksum_block :=
  ChecksumBlock (cb_next b) (cb_entries b) v (cb_sums b).

(** [struct aetherfs_dir_entry] without its flexible [name] array. *)
Record aetherfs_dir_entry := DirEntry {
  de_ino : Z;
  de_rec_len : Z;
  de_name_len : Z;
  de_file_type : Z;
  de_checksum : Z;
}.

Definition dir_entry_codec : codec aetherfs_dir_entry :=
  c_iso
    (λ '(de_ino, (de_rec_len, (de_name_len, (de_file_type, de_checksum)))), DirEntry
      de_ino de_rec_len de_name_len de_file_type de_checksum)
    (λ d, (de_ino d, (de_rec_len d, (de_name_len d, (de_file_type d,
      de_checksum d)))))
    (c_le 8 ⊗ c_le 2 ⊗ c_le 2 ⊗ c_le 1 ⊗ c_le 1)%codec.

Lemma dir_entry_lawful : lawful dir_entry_codec.
Proof. solve_lawful. Qed.

#[export] Hint Resolve dir_entry_lawful : codec.
#[export] Instance dir_entry_on_disk : OnDisk aetherfs_dir_entry :=
  {| layout := dir_entry_codec; layout_lawful := dir_entry_lawful |}.

Definition set_de_checksum (v : Z) (d : aetherfs_dir_entry) : aetherfs_dir_entry :=
  DirEntry (de_ino d) (de_rec_len d) (de_name_len d) (de_file_type d) v.

(** [struct aetherfs_intent_log] *)
Record aetherfs_intent_log := IntentLog {
  il_start : Z;
  il_end : Z;
  il_head : Z;
  il_commit : Z;
  il_total : Z;
  il_outstanding : Z;
  il_checksum : Z;
  il_reserved : Z;
}.

Definition intent_log_codec : codec aetherfs_intent_log :=
  c_iso
    (λ '(il_start, (il_end, (il_head, (il_commit, (il_total, (il_outstanding,
      (il_checksum, il_reserved))))))), IntentLog il_start il_end il_head il_commit
      il_total il_outstanding il_checksum il_reserved)
    (λ j, (il_start j, (il_end j, (il_head j, (il_commit j, (il_total j,
      (il_outstanding j, (il_checksum j, il_reserved j))))))))
    (c_le 8 ⊗ c_le 8 ⊗ c_le 8 ⊗ c_le 8 ⊗ c_le 4 ⊗ c_le 4 ⊗ c_le 4 ⊗ c_le 4)%codec.

Lemma intent_log_lawful : lawful intent_log_codec.
Proof. solve_lawful. Qed.

#[export] Hint Resolve intent_log_lawful : codec.
#[export] Instance intent_log_on_disk : OnDisk aetherfs_intent_log :=
  {| layout := intent_log_codec; layout_lawful := intent_log_lawful |}.

Definition set_il_checksum (v : Z) (j : aetherfs_intent_log) : aetherfs_intent_log :=
  IntentLog (il_start j) (il_end j) (il_head j) (il_commit j) (il_total j)
    (il_outstanding j) v (il_reserved j).

Definition set_il_outstanding (v : Z) (j : aetherfs_intent_log) : aetherfs_intent_log :=
  IntentLog (il_start j) (il_end j) (il_head j) (il_commit j) (il_total j) v
    (il_checksum j) (il_reserved j).

(** [struct aetherfs_bitmap_block]; [AETHERFS_BITMAP_BYTES] is 4080. *)
Record aetherfs_bitmap_block := BitmapBlock {
  bb_checksum : Z;
  bb_total_bits : Z;
  bb_set_bits : Z;
  bb_reserved : Z;
  bb_bits : bytes;
}.

Definition bitmap_codec : codec aetherfs_bitmap_block :=
  c_iso
    (λ '(bb_checksum, (bb_total_bits, (bb_set_bits, (bb_reserved, bb_bits)))),
      BitmapBlock bb_checksum bb_total_bits bb_set_bits bb_reserved bb_bits)
    (λ b, (bb_checksum b, (bb_total_bits b, (bb_set_bits b, (bb_reserved b,
      bb_bits b)))))
    (c_le 4 ⊗ c_le 4 ⊗ c_le 4 ⊗ c_le 4 ⊗ c_vec 4080 (c_le 1))%codec.

Lemma bitmap_lawful : lawful bitmap_codec.
Proof. solve_lawful. Qed.

#[export] Hint Resolve bitmap_lawful : codec.
#[export] Instance bitmap_on_disk : OnDisk aetherfs_bitmap_block :=
  {| layout := bitmap_codec; layout_lawful := bitmap_lawful |}.

Definition set_bb_checksum (v : Z) (b : aetherfs_bitmap_block) : aetherfs_bitmap_block :=
  BitmapBlock v (bb_total_bits b) (bb_set_bits b) (bb_reserved b) (bb_bits b).

Definition set_bb_bits (v : bytes) (b : aetherfs_bitmap_block) : aetherfs_bitmap_block :=
  BitmapBlock (bb_checksum b) (bb_total_bits b) (bb_set_bits b) (bb_reserved b) v.

Definition set_bb_set_bits (v : Z) (b : aetherfs_bitmap_block) : aetherfs_bitmap_block :=
  BitmapBlock (bb_checksum b) (bb_total_bits b) v (bb_reserved b) (bb_bits b).

(** [struct aetherfs_pool_member] *)
Record aetherfs_pool_member := PoolMember {
  pm_uuid : bytes;
  pm_total_blocks : Z;
  pm_data_blocks : Z;
  pm_class_mask : Z;
  pm_role_mask : Z;
  pm_index : Z;
  pm_reserved : Z;
}.

Definition pool_member_codec : codec aetherfs_pool_member :=
  c_iso
    (λ '(pm_uuid, (pm_total_blocks, (pm_data_blocks, (pm_class_mask, (pm_role_mask,
      (pm_index, pm_reserved)))))), PoolMember pm_uuid pm_total_blocks pm_data_blocks
      pm_class_mask pm_role_mask pm_index pm_reserved)
    (λ m, (pm_uuid m, (pm_total_blocks m, (pm_data_blocks m, (pm_class_mask m,
      (pm_role_mask m, (pm_index m, pm_reserved m)))))))
    (c_vec 16 (c_le 1) ⊗ c_le 8 ⊗ c_le 8 ⊗ c_le 4 ⊗ c_le 4 ⊗ c_le 4 ⊗ c_le 4)%codec.

Lemma pool_member_lawful : lawful pool_member_codec.
Proof. solve_lawful. Qed.

#[export] Hint Resolve pool_member_lawful : codec.
#[export] Instance pool_member_on_disk : OnDisk aetherfs_pool_member :=
  {| layout := pool_member_codec; layout_lawful := pool_member_lawful |}.

(** [struct aetherfs_pool_label] *)
Record aetherfs_pool_label := PoolLabel {
  pl_magic : Z;
  pl_version : Z;
  pl_checksum : Z;
  pl_profile : Z;
  pl_member_count : Z;
  pl_member_index : Z;
  pl_stripe_blocks : Z;
  pl_flags : Z;
  pl_metadata_mask : Z;
  pl_data_mask : Z;
  pl_log_mask : Z;
  pl_cache_mask : Z;
  pl_logical_blocks : Z;
  pl_logical_data_blocks : Z;
  pl_pool_uuid : bytes;
  pl_members : list aetherfs_pool_member;
  pl_reserved : list Z;
}.

Definition pool_label_codec : codec aetherfs_pool_label :=
  c_iso
    (λ '(pl_magic, (pl_version, (pl_checksum, (pl_profile, (pl_member_count,
      (pl_member_index, (pl_stripe_blocks, (pl_flags, (pl_metadata_mask,
      (pl_data_mask, (pl_log_mask, (pl_cache_mask, (pl_logical_blocks,
      (pl_logical_data_blocks, (pl_pool_uuid, (pl_members,
      pl_reserved)))))))))))))))), PoolLabel pl_magic pl_version pl_checksum
      pl_profile pl_member_count pl_member_index pl_stripe_blocks pl_flags
      pl_metadata_mask pl_data_mask pl_log_mask pl_cache_mask pl_logical_blocks
      pl_logical_data_blocks pl_pool_uuid pl_members pl_reserved)
    (λ l, (pl_magic l, (pl_version l, (pl_checksum l, (pl_profile l,
      (pl_member_count l, (pl_member_index l, (pl_stripe_blocks l, (pl_flags l,
      (pl_metadata_mask l, (pl_data_mask l, (pl_log_mask l, (pl_cache_mask l,
      (pl_logical_blocks l, (pl_logical_data_blocks l, (pl_pool_uuid l, (pl_members l,
      pl_reserved l)))))))))))))))))
    (c_le 4 ⊗ c_le 4 ⊗ c_le 4 ⊗ c_le 4 ⊗ c_le 4 ⊗ c_le 4 ⊗ c_le 4 ⊗ c_le 4 ⊗ c_le 4 ⊗
      c_le 4 ⊗ c_le 4 ⊗ c_le 4 ⊗ c_le 8 ⊗ c_le 8 ⊗ c_vec 16 (c_le 1) ⊗
      c_vec 8 pool_member_codec ⊗ c_vec 45 (c_le 8))%codec.

Lemma pool_label_lawful : lawful pool_label_codec.
Proof. solve_lawful. Qed.

#[export] Hint Resolve pool_label_lawful : codec.
#[export] Instance pool_label_on_disk : OnDisk aetherfs_pool_label :=
  {| layout := pool_label_codec; layout_lawful := pool_label_lawful |}.

Definition set_pl_checksum (v : Z) (l : aetherfs_pool_label) : aetherfs_pool_label :=
  PoolLabel (pl_magic l) (pl_version l) v (pl_profile l) (pl_member_count l)
    (pl_member_index l) (pl_stripe_blocks l) (pl_flags l) (pl_metadata_mask l)
    (pl_data_mask l) (pl_log_mask l) (pl_cache_mask l) (pl_logical_blocks l)
    (pl_logical_data_blocks l) (pl_pool_uuid l) (pl_members l) (pl_reserved l).

Definition set_pl_member_index (v : Z) (l : aetherfs_pool_label) : aetherfs_pool_label :=
  PoolLabel (pl_magic l) (pl_version l) (pl_checksum l) (pl_profile l)
    (pl_member_count l) v (pl_stripe_blocks l) (pl_flags l) (pl_metadata_mask l)
    (pl_data_mask l) (pl_log_mask l) (pl_cache_mask l) (pl_logical_blocks l)
    (pl_logical_data_blocks l) (pl_pool_uuid l) (pl_members l) (pl_reserved l).

(** [struct aetherfs_checkpoint_root] *)
Record aetherfs_checkpoint_root := CheckpointRoot {
  cr_magic : Z;
  cr_version : Z;
  cr_checksum : Z;
  cr_generation : Z;
  cr_ag_count : Z;
  cr_region_count : Z;
  cr_super_block : Z;
  cr_root_inode_block : Z;
  cr_root_dir_block : Z;
  cr_journal_block : Z;
  cr_inode_bitmap_block : Z;
  cr_free_space_root : Z;
  cr_metadata_tree_root : Z;
  cr_extent_tree_root : Z;
  cr_snapshot_root : Z;
  cr_scrub_journal : Z;
  cr_health_journal : Z;
  cr_metadata_region_start : Z;
  cr_metadata_region_end : Z;
  cr_data_region_start : Z;
  cr_data_region_end : Z;
  cr_special_metadata_root : Z;
  cr_cache_root : Z;
  cr_parity_root : Z;
  cr_reserved : list Z;
}.

Definition checkpoint_root_codec : codec aetherfs_checkpoint_root :=
  c_iso
    (λ '(cr_magic, (cr_version, (cr_checksum, (cr_generation, (cr_ag_count,
      (cr_region_count, (cr_super_block, (cr_root_inode_block, (cr_root_dir_block,
      (cr_journal_block, (cr_inode_bitmap_block, (cr_free_space_root,
      (cr_metadata_tree_root, (cr_extent_tree_root, (cr_snapshot_root,
      (cr_scrub_journal, (cr_health_journal, (cr_metadata_region_start,
      (cr_metadata_region_end, (cr_data_region_start, (cr_data_region_end,
      (cr_special_metadata_root, (cr_cache_root, (cr_parity_root,
      cr_reserved)))))))))))))))))))))))), CheckpointRoot cr_magic cr_version
      cr_checksum cr_generation cr_ag_count cr_region_count cr_super_block
      cr_root_inode_block cr_root_dir_block cr_journal_block cr_inode_bitmap_block
      cr_free_space_root cr_metadata_tree_root cr_extent_tree_root cr_snapshot_root
      cr_scrub_journal cr_health_journal cr_metadata_region_start
      cr_metadata_region_end cr_data_region_start cr_data_region_end
      cr_special_metadata_root cr_cache_root cr_parity_root cr_reserved)
    (λ r, (cr_magic r, (cr_version r, (cr_checksum r, (cr_generation r,
      (cr_ag_count r, (cr_region_count r, (cr_super_block r, (cr_root_inode_block r,
      (cr_root_dir_block r, (cr_journal_block r, (cr_inode_bitmap_block r,
      (cr_free_space_root r, (cr_metadata_tree_root r, (cr_extent_tree_root r,
      (cr_snapshot_root r, (cr_scrub_journal r, (cr_health_journal r,
      (cr_metadata_region_start r, (cr_metadata_region_end r, (cr_data_region_start r,
      (cr_data_region_end r, (cr_special_metadata_root r, (cr_cache_root r,
      (cr_parity_root r, cr_reserved r)))))))))))))))))))))))))
    (c_le 4 ⊗ c_le 4 ⊗ c_le 4 ⊗ c_le 4 ⊗ c_le 4 ⊗ c_le 4 ⊗ c_le 8 ⊗ c_le 8 ⊗ c_le 8 ⊗
      c_le 8 ⊗ c_le 8 ⊗ c_le 8 ⊗ c_le 8 ⊗ c_le 8 ⊗ c_le 8 ⊗ c_le 8 ⊗ c_le 8 ⊗ c_le 8 ⊗
      c_le 8 ⊗ c_le 8 ⊗ c_le 8 ⊗ c_le 8 ⊗ c_le 8 ⊗ c_le 8 ⊗ c_vec 491 (c_le 8))%codec.

Lemma checkpoint_root_lawful : lawful checkpoint_root_codec.
Proof. solve_lawful. Qed.

#[export] Hint Resolve checkpoint_root_lawful : codec.
#[export] Instance checkpoint_root_on_disk : OnDisk aetherfs_checkpoint_root :=
  {| layout := checkpoint_root_codec; layout_lawful := checkpoint_root_lawful |}.

Definition set_cr_checksum (v : Z) (r : aetherfs_checkpoint_root) : aetherfs_checkpoint_root :=
  CheckpointRoot (cr_magic r) (cr_version r) v (cr_generation r) (cr_ag_count r)
    (cr_region_count r) (cr_super_block r) (cr_root_inode_block r)
    (cr_root_dir_block r) (cr_journal_block r) (cr_inode_bitmap_block r)
    (cr_free_space_root r) (cr_metadata_tree_root r) (cr_extent_tree_root r)
    (cr_snapshot_root r) (cr_scrub_journal r) (cr_health_journal r)
    (cr_metadata_region_start r) (cr_metadata_region_end r) (cr_data_region_start r)
    (cr_data_region_end r) (cr_special_metadata_root r) (cr_cache_root r)
    (cr_parity_root r) (cr_reserved r).

(** ** Sizes

    The header's [_Static_assert]s. *)

Lemma sizeof_super : sizeof aetherfs_super = 256.
Proof. done. Qed.
Lemma sizeof_inode : sizeof aetherfs_inode = AETHERFS_INODE_SIZE.
Proof. done. Qed.
Lemma sizeof_bitmap : sizeof aetherfs_bitmap_block = AETHERFS_DEF_BLOCK_SIZE.
Proof. vm_compute. done. Qed.
Lemma sizeof_extent_node : sizeof aetherfs_extent_node = AETHERFS_DEF_BLOCK_SIZE.
Proof. vm_compute. done. Qed.
Lemma sizeof_checksum_block : sizeof aetherfs_checksum_block = AETHERFS_DEF_BLOCK_SIZE.
Proof. vm_compute. done. Qed.
Lemma sizeof_pool_label : sizeof aetherfs_pool_label = 824.
Proof. done. Qed.
Lemma sizeof_checkpoint_root : sizeof aetherfs_checkpoint_root = AETHERFS_DEF_BLOCK_SIZE.
Proof. vm_compute. done. Qed.
Lemma sizeof_intent_log : sizeof aetherfs_intent_log = 48.
Proof. done. Qed.
Lemma sizeof_dir_entry : sizeof aetherfs_dir_entry = AETHERFS_DIR_ENTRY_BASE_SIZE.
Proof. done. Qed.

(** ** Structure checksums

    Each routine copies the structure, clears the checksum field and sums the
    bytes of the copy; the journal header is summed up to its field. *)

Definition aetherfs_super_checksum (super : aetherfs_super) : Z :=
  aetherfs_crc32c_data (encode (set_s_checksum 0 super)).

Definition aetherfs_inode_checksum (inode : aetherfs_inode) : Z :=
  aetherfs_crc32c_data (encode (set_i_checksum 0 inode)).

Definition aetherfs_bitmap_checksum (bitmap : aetherfs_bitmap_block) : Z :=
  aetherfs_crc32c_data (encode (set_bb_checksum 0 bitmap)).

(** [offsetof(struct aetherfs_intent_log, il_checksum)] is 40. *)
Definition aetherfs_journal_checksum (journal : aetherfs_intent_log) : Z :=
  aetherfs_crc32c_data (slice 0 40 (encode journal)).

Definition aetherfs_extent_node_checksum (node : aetherfs_extent_node) : Z :=
  aetherfs_crc32c_data (encode (set_en_checksum 0 node)).

Definition aetherfs_checksum_block_checksum (block : aetherfs_checksum_block) : Z :=
  aetherfs_crc32c_data (encode (set_cb_checksum 0 block)).

Definition aetherfs_pool_label_checksum (label : aetherfs_pool_label) : Z :=
  aetherfs_crc32c_data (encode (set_pl_checksum 0 label)).

Definition aetherfs_checkpoint_root_checksum (root : aetherfs_checkpoint_root) : Z :=
  aetherfs_crc32c_data (encode (set_cr_checksum 0 root)).
