(* ===== verification/Integrity.v ===== *)
(** * Checksummed structures

    What the structures that carry their own checksum promise to the code that
    reads and writes them: [seal] is the writers' "store the checksum" step and
    [verify] the readers' comparison.  [Checksummed] gives the laws of the
    field, [Covering] states in addition that the checksum covers every other
    byte of the structure, which is what makes a corruption visible. *)

From S2P Require Import Prelude Codec Crc Format.

Class Checksummed (A : Type) `{OnDisk A} := {
  csum_field : A → Z;
  set_csum : Z → A → A;
  csum : A → Z;
  csum_field_set : ∀ v a, csum_field (set_csum v a) = v;
  csum_set : ∀ v a, wf a → is_u32 v → csum (set_csum v a) = csum a;
  wf_set_csum : ∀ v a, wf a → is_u32 v → wf (set_csum v a);
  csum_u32 : ∀ a, wf a → is_u32 (csum a);
}.

Definition seal {A} `{Checksummed A} (a : A) : A := set_csum (csum a) a.
Definition verify {A} `{Checksummed A} (a : A) : bool := csum_field a =? csum a.

Class Covering (A : Type) `{Checksummed A} := {
  csum_off : Z;
  csum_off_bound : 0 ≤ csum_off ∧ csum_off + 4 ≤ sizeof A;
  csum_field_at : ∀ a, wf a → csum_field a = le_val (slice csum_off 4 (encode a));
  csum_at : ∀ a, wf a →
    csum a = aetherfs_crc32c_data (splice csum_off (zeros 4) (encode a));
}.

Lemma seal_wf {A} `{Checksummed A} (a : A) : wf a → wf (seal a).
Proof. intros. apply wf_set_csum; [done|by apply csum_u32]. Qed.

Lemma verify_seal {A} `{Checksummed A} (a : A) : wf a → verify (seal a) = true.
Proof.
  intros. unfold verify, seal. apply Z.eqb_eq.
  rewrite csum_field_set, csum_set; [done|done|by apply csum_u32].
Qed.

(** ** Detection *)

Lemma le_val_slice_insert l i b off :
  is_bytes l → is_byte b → 0 ≤ off → off + 4 ≤ len l → off ≤ Z.of_nat i < off + 4 →
  l !! i ≠ Some b →
  le_val (slice off 4 (<[i:=b]> l)) ≠ le_val (slice off 4 l).
Proof.
  intros Hl Hb Ho Hlen Hi Hne E.
  assert (is_bytes (<[i:=b]> l)) as Hl' by by apply Forall_insert.
  apply le_val_inj in E; [|by apply is_bytes_slice..|].
  - apply Hne. unfold slice in E.
    apply (f_equal (lookup (i - Z.to_nat off)%nat)) in E.
    rewrite !lookup_take_lt, !lookup_drop in E by lia.
    replace (Z.to_nat off + (i - Z.to_nat off))%nat with i in E by lia.
    rewrite list_lookup_insert_eq in E by (unfold len in *; lia). done.
  - unfold slice. by rewrite !length_take, !length_drop, length_insert.
Qed.

Lemma crc_insert_differs l i b :
  is_bytes l → is_byte b → (i < length l)%nat → l !! i ≠ Some b →
  aetherfs_crc32c_data (<[i:=b]> l) ≠ aetherfs_crc32c_data l.
Proof.
  intros Hl Hb Hi Hne. destruct (lookup_lt_is_Some_2 l i Hi) as [x Hx].
  rewrite <-(take_drop_middle l i x Hx) at 2.
  rewrite insert_take_drop by done.
  assert (is_byte x) by (eapply Forall_lookup_1; eauto).
  apply (crc_data_burst (take i l) [b] [x] (drop (S i) l)).
  - by apply Forall_take.
  - by apply Forall_singleton.
  - by apply Forall_singleton.
  - by apply Forall_drop.
  - done.
  - simpl. lia.
  - congruence.
Qed.

(** A sealed structure stops verifying when one byte of it changes. *)
Lemma verify_byte_flip {A} `{Covering A} (l : bytes) (i : nat) (b : Z) :
  is_bytes l → is_byte b → len l = sizeof A → (i < length l)%nat → l !! i ≠ Some b →
  verify (decode l : A) = true → verify (decode (<[i:=b]> l) : A) = false.
Proof.
  intros Hl Hb Hlen Hi Hne Hv. unfold verify in *. apply Z.eqb_eq in Hv.
  apply Z.eqb_neq. destruct (csum_off_bound (A:=A)) as [Ho1 Ho2].
  assert (is_bytes (<[i:=b]> l)) as Hl' by by apply Forall_insert.
  assert (len (<[i:=b]> l) = sizeof A) as Hlen' by (unfold len in *; by rewrite length_insert).
  assert (encode (decode l : A) = l) as El by (rewrite encode_dec by (done || lia); by apply slice_all).
  assert (encode (decode (<[i:=b]> l) : A) = <[i:=b]> l) as El'
    by (rewrite encode_dec by (done || lia); by apply slice_all).
  rewrite csum_field_at, csum_at, El in Hv by (apply wf_decode; [done|lia]).
  rewrite csum_field_at, csum_at, El' by (apply wf_decode; [done|lia]).
  destruct (decide (csum_off ≤ Z.of_nat i < csum_off + 4)) as [Hin|Hout].
  - rewrite splice_insert_inside by (rewrite ?len_zeros; lia). rewrite <-Hv.
    apply le_val_slice_insert; (done || lia).
  - rewrite splice_insert_outside by (rewrite ?len_zeros; lia).
    rewrite slice_insert_outside by lia. rewrite Hv. intros E. symmetry in E.
    revert E. apply crc_insert_differs.
    + apply is_bytes_splice; [apply is_bytes_zeros|done].
    + done.
    + pose proof (len_splice csum_off (zeros 4) l) as Hls. rewrite len_zeros in Hls by lia.
      unfold len in *. lia.
    + by rewrite lookup_splice_outside by (rewrite ?len_zeros; lia).
Qed.

(** The same for a structure at the start of a larger block. *)
Lemma verify_block_flip {A} `{Covering A} (b : bytes) (i : nat) (v : Z) :
  is_bytes b → is_byte v → sizeof A ≤ len b → Z.of_nat i < sizeof A → b !! i ≠ Some v →
  verify (decode b : A) = true → verify (decode (<[i:=v]> b) : A) = false.
Proof.
  intros Hb Hv Hl Hi Hne.
  assert (∀ l : bytes, (decode l : A) = decode (slice 0 (sizeof A) l)) as Hd.
  { intros l. unfold decode. f_equal. unfold slice. rewrite !drop_0, take_take. f_equal. lia. }
  rewrite (Hd b), (Hd (<[i:=v]> b)).
  assert (slice 0 (sizeof A) (<[i:=v]> b) = <[i:=v]> (slice 0 (sizeof A) b)) as ->.
  { unfold slice. rewrite !drop_0. apply take_insert_lt. lia. }
  pose proof (len_slice 0 (sizeof A) b ltac:(lia) ltac:(unfold sizeof; lia) Hl) as Hs.
  apply verify_byte_flip; [by apply is_bytes_slice|done|done|unfold len in Hs; lia|].
  unfold slice. rewrite drop_0, lookup_take_lt by lia. done.
Qed.

(** A change of up to four neighbouring bytes outside the checksum. *)
Lemma verify_window_change {A} `{Covering A} (b w : bytes) off :
  is_bytes b → is_bytes w → (length w ≤ 4)%nat → 0 ≤ off → off + len w ≤ sizeof A → sizeof A ≤ len b →
  off + len w ≤ csum_off ∨ csum_off + 4 ≤ off → slice off (len w) b ≠ w →
  verify (decode b : A) = true → verify (decode (splice off w b) : A) = false.
Proof.
  intros Hb Hw H4 Ho Hs Hl Hc Hne Hv. pose proof (len_nonneg w). unfold verify in *. apply Z.eqb_eq in Hv. apply Z.eqb_neq.
  destruct (csum_off_bound (A:=A)) as [Ho1 Ho2].
  assert (is_bytes (splice off w b)) as Hb' by by apply is_bytes_splice.
  assert (len (splice off w b) = len b) as Hl' by (apply len_splice; lia).
  rewrite csum_field_at, csum_at, encode_dec in Hv by (done || lia || (apply wf_decode; [done|lia])).
  rewrite csum_field_at, csum_at, encode_dec by (done || lia || (apply wf_decode; [done|lia])).
  rewrite slice_splice_top by lia. set (l := slice 0 (sizeof A) b) in *.
  assert (len l = sizeof A) as Hll by (apply len_slice; lia).
  assert (is_bytes l) as Hlb by by apply is_bytes_slice.
  rewrite (splice_comm csum_off) by (rewrite ?len_zeros; lia).
  replace (slice csum_off 4 (splice off w l)) with (slice csum_off 4 l).
  2: { symmetry. destruct Hc; [apply slice_splice_after|apply slice_splice_before]; lia. }
  rewrite Hv. set (X := splice csum_off (zeros 4) l). intros E.
  assert (is_bytes X) as HX by by (apply is_bytes_splice; [apply is_bytes_zeros|]).
  assert (len X = sizeof A) as HlX by (unfold X; rewrite len_splice; rewrite ?len_zeros; lia).
  assert (slice off (len w) X = slice off (len w) b) as HsX.
  { unfold X. transitivity (slice off (len w) l).
    - destruct Hc; [apply slice_splice_before|apply slice_splice_after]; rewrite ?len_zeros; lia.
    - unfold l, slice, len in *. rewrite drop_0, skipn_firstn_comm, take_take. f_equal. lia. }
  assert (X = take (Z.to_nat off) X ++ slice off (len w) X ++ drop (Z.to_nat off + length w) X) as EX.
  { unfold slice, len. rewrite <-drop_drop, Nat2Z.id, !take_drop. done. }
  rewrite EX in E at 1. revert E. unfold splice at 1. apply crc_data_burst.
  - by apply Forall_take.
  - by apply is_bytes_slice.
  - done.
  - by apply Forall_drop.
  - assert (len (slice off (len w) X) = len w) as E by (apply len_slice; lia). unfold len in *. lia.
  - assert (len (slice off (len w) X) = len w) as E by (apply len_slice; lia). unfold len in *. lia.
  - by rewrite HsX.
Qed.

(** ** The structures of the format *)

(** Unfolds an encoding to the concatenation of its fields and walks a splice
    or slice to the checksum field. *)
Lemma len_le_bytes n z : len (le_bytes n z) = Z.of_nat n.
Proof. unfold len. by rewrite length_le_bytes. Qed.

Ltac walk_fields :=
  repeat first
    [ rewrite slice_here by (rewrite ?len_le_bytes; done)
    | rewrite splice_here by (rewrite ?len_le_bytes; done)
    | rewrite slice_skip by (rewrite ?len_le_bytes; done)
    | rewrite splice_skip by (rewrite ?len_le_bytes; done) ];
  rewrite ?len_le_bytes.

(** Well-formedness of a structure after a field update. *)
Ltac solve_wf_set :=
  intros; cbn in *; destruct_and?;
  repeat match goal with |- _ ∧ _ => split end;
  first [assumption | by (unfold le_range; lia)].

Lemma u32_zero : is_u32 0.
Proof. unfold is_u32. lia. Qed.

(** The obligations of the two classes for a structure laid out as
    [pre ++ csum ++ post]. *)
Ltac solve_csum_u32 :=
  intros; apply aetherfs_crc32c_data_range, is_bytes_encode; solve_wf_set.

Ltac solve_field_at :=
  intros a Ha; cbn; walk_fields; symmetry; apply le_val_bytes; cbn in Ha;
  by destruct_and!.

Ltac solve_csum_at := intros a Ha; cbn; f_equal; cbn; walk_fields; reflexivity.

#[export] Instance super_checksummed : Checksummed aetherfs_super.
Proof.
  refine {| csum_field := s_checksum; set_csum := set_s_checksum;
            csum := aetherfs_super_checksum |};
    [done|done|solve_wf_set|solve_csum_u32].
Defined.

#[export] Instance super_covering : Covering aetherfs_super.
Proof.
  refine {| csum_off := 44 |}; [by rewrite sizeof_super|solve_field_at|solve_csum_at].
Defined.

#[export] Instance inode_checksummed : Checksummed aetherfs_inode.
Proof.
  refine {| csum_field := i_checksum; set_csum := set_i_checksum;
            csum := aetherfs_inode_checksum |};
    [done|done|solve_wf_set|solve_csum_u32].
Defined.

#[export] Instance inode_covering : Covering aetherfs_inode.
Proof.
  refine {| csum_off := 100 |}; [by rewrite sizeof_inode|solve_field_at|solve_csum_at].
Defined.

#[export] Instance bitmap_checksummed : Checksummed aetherfs_bitmap_block.
Proof.
  refine {| csum_field := bb_checksum; set_csum := set_bb_checksum;
            csum := aetherfs_bitmap_checksum |};
    [done|done|solve_wf_set|solve_csum_u32].
Defined.

#[export] Instance bitmap_covering : Covering aetherfs_bitmap_block.
Proof.
  refine {| csum_off := 0 |}; [by rewrite sizeof_bitmap|solve_field_at|solve_csum_at].
Defined.

#[export] Instance extent_node_checksummed : Checksummed aetherfs_extent_node.
Proof.
  refine {| csum_field := en_checksum; set_csum := set_en_checksum;
            csum := aetherfs_extent_node_checksum |};
    [done|done|solve_wf_set|solve_csum_u32].
Defined.

#[export] Instance extent_node_covering : Covering aetherfs_extent_node.
Proof.
  refine {| csum_off := 12 |}; [by rewrite sizeof_extent_node|solve_field_at|solve_csum_at].
Defined.

#[export] Instance checksum_block_checksummed : Checksummed aetherfs_checksum_block.
Proof.
  refine {| csum_field := cb_checksum; set_csum := set_cb_checksum;
            csum := aetherfs_checksum_block_checksum |};
    [done|done|solve_wf_set|solve_csum_u32].
Defined.

#[export] Instance checksum_block_covering : Covering aetherfs_checksum_block.
Proof.
  refine {| csum_off := 12 |}; [by rewrite sizeof_checksum_block|solve_field_at|solve_csum_at].
Defined.

#[export] Instance pool_label_checksummed : Checksummed aetherfs_pool_label.
Proof.
  refine {| csum_field := pl_checksum; set_csum := set_pl_checksum;
            csum := aetherfs_pool_label_checksum |};
    [done|done|solve_wf_set|solve_csum_u32].
Defined.

#[export] Instance pool_label_covering : Covering aetherfs_pool_label.
Proof.
  refine {| csum_off := 8 |}; [by rewrite sizeof_pool_label|solve_field_at|solve_csum_at].
Defined.

#[export] Instance checkpoint_root_checksummed : Checksummed aetherfs_checkpoint_root.
Proof.
  refine {| csum_field := cr_checksum; set_csum := set_cr_checksum;
            csum := aetherfs_checkpoint_root_checksum |};
    [done|done|solve_wf_set|solve_csum_u32].
Defined.

#[export] Instance checkpoint_root_covering : Covering aetherfs_checkpoint_root.
Proof.
  refine {| csum_off := 8 |}; [by rewrite sizeof_checkpoint_root|solve_field_at|solve_csum_at].
Defined.

(** The journal header's checksum stops at its own field, so it is
    [Checksummed] without being [Covering]: [il_reserved] is not summed. *)
Lemma journal_summed_bytes j :
  slice 0 40 (encode j) =
  le_bytes 8 (il_start j) ++ le_bytes 8 (il_end j) ++ le_bytes 8 (il_head j) ++
  le_bytes 8 (il_commit j) ++ le_bytes 4 (il_total j) ++ le_bytes 4 (il_outstanding j).
Proof.
  cbn. repeat rewrite slice_0_skip by (rewrite ?len_le_bytes; done).
  rewrite !len_le_bytes. change (40 - _ - _ - _ - _ - _ - _) with 0.
  unfold slice. by rewrite take_0, app_nil_r.
Qed.

#[export] Instance journal_checksummed : Checksummed aetherfs_intent_log.
Proof.
  refine {| csum_field := il_checksum; set_csum := set_il_checksum;
            csum := aetherfs_journal_checksum |}.
  - done.
  - intros. unfold aetherfs_journal_checksum. by rewrite !journal_summed_bytes.
  - solve_wf_set.
  - intros. by apply aetherfs_crc32c_data_range, is_bytes_slice, is_bytes_encode.
Defined.

#[global] Arguments aetherfs_super_checksum : simpl never.
#[global] Arguments aetherfs_inode_checksum : simpl never.
#[global] Arguments aetherfs_bitmap_checksum : simpl never.
#[global] Arguments aetherfs_extent_node_checksum : simpl never.
#[global] Arguments aetherfs_checksum_block_checksum : simpl never.
#[global] Arguments aetherfs_pool_label_checksum : simpl never.
#[global] Arguments aetherfs_checkpoint_root_checksum : simpl never.
#[global] Arguments aetherfs_journal_checksum : simpl never.

(** ** Properties *)

(** Every structure of the format survives the trip through a block: what a
    writer encodes at the start of a zeroed 4096-byte block is what a reader
    decodes from it, and the block has exactly that size. *)
Theorem block_roundtrip {A} `{OnDisk A} (a : A) :
  wf a → sizeof A ≤ AETHERFS_DEF_BLOCK_SIZE →
  decode (to_block AETHERFS_DEF_BLOCK_SIZE a) = a ∧
  len (to_block AETHERFS_DEF_BLOCK_SIZE a) = AETHERFS_DEF_BLOCK_SIZE ∧
  is_bytes (to_block AETHERFS_DEF_BLOCK_SIZE a).
Proof.
  intros. split; [by apply decode_to_block|]. split; [by apply len_to_block|].
  by apply is_bytes_to_block.
Qed.

(** An inode with a distinct value in each word. *)
Definition sample_inode : aetherfs_inode :=
  decode (flat_map (λ n, le_bytes 8 (n * 1000003)) (seqZ 1 64)).

Lemma sample_inode_wf : wf sample_inode.
Proof.
  apply wf_decode.
  - apply Forall_forall. intros x Hx%list_elem_of_In%in_flat_map.
    destruct Hx as (n & _ & Hx%list_elem_of_In).
    by apply (proj1 (Forall_forall _ _) (is_bytes_le_bytes 8 (n * 1000003))).
  - rewrite sizeof_inode. vm_compute. discriminate.
Qed.

Lemma block_roundtrip_witness :
  decode (to_block AETHERFS_DEF_BLOCK_SIZE sample_inode) = sample_inode ∧
  i_mtime sample_inode ≠ 0.
Proof.
  split; [|vm_compute; discriminate]. apply block_roundtrip.
  - apply sample_inode_wf.
  - rewrite sizeof_inode. vm_compute. discriminate.
Defined.

(** A structure whose checksum [sum], once stored, is in the field and changes away from it
    when any one of the first [n] bytes of the encoding, the field's among them, is changed. *)
Definition protects {A} `{OnDisk A} (field sum : A → Z) (store : Z → A → A) (n : Z) : Prop :=
  ∀ a, wf a → let l := encode (store (sum a) a) in
    let read := decode l : A in
    field read = sum read ∧
    ∀ i b, Z.of_nat i < n → is_byte b → l !! i ≠ Some b →
      let read := decode (<[i := b]> l) : A in field read ≠ sum read.

Lemma covering_protects {A} `{Covering A} : protects (A := A) csum_field csum set_csum (sizeof A).
Proof.
  intros a Ha. change (set_csum (csum a) a) with (seal a). pose proof (seal_wf a Ha) as Hw. cbv zeta.
  assert (verify (decode (encode (seal a)) : A) = true) as Hv
    by (rewrite decode_encode by done; by apply verify_seal).
  split; [by apply Z.eqb_eq|]. intros i b Hi Hb Hne. apply Z.eqb_neq.
  apply (verify_byte_flip (encode (seal a)) i b); try done.
  - by apply is_bytes_encode.
  - by apply len_encode.
  - pose proof (len_encode _ Hw) as Hl. unfold len in Hl. lia.
Qed.

(** The journal's checksum and field as bytes of the encoding. *)
Lemma journal_field_at j : wf j → il_checksum j = le_val (slice 40 4 (encode j)).
Proof. revert j. solve_field_at. Qed.

Lemma decode_whole {A} `{OnDisk A} (l : bytes) : is_bytes l → len l = sizeof A →
  wf (decode l : A) ∧ encode (decode l : A) = l.
Proof.
  intros Hb Hl. split; [apply wf_decode; [done|lia]|]. rewrite encode_dec by (done || lia).
  by apply slice_all.
Qed.

Lemma journal_protects : protects il_checksum aetherfs_journal_checksum set_il_checksum 44.
Proof.
  intros j Hj. change (set_il_checksum _ j) with (seal j). pose proof (seal_wf j Hj) as Hw. cbv zeta.
  pose proof (verify_seal j Hj) as Hv. apply Z.eqb_eq in Hv. cbn [csum_field csum journal_checksummed] in Hv.
  rewrite decode_encode by done. split; [exact Hv|]. intros i b Hi Hb Hne.
  pose proof (is_bytes_encode _ Hw) as Hby. pose proof (len_encode _ Hw) as Hl.
  rewrite sizeof_intent_log in Hl.
  assert (is_bytes (<[i:=b]> (encode (seal j)))) as Hby' by by apply Forall_insert.
  destruct (decode_whole (A := aetherfs_intent_log) (<[i:=b]> (encode (seal j)))) as [Hw' El];
    [done|unfold len in *; by rewrite length_insert|].
  rewrite journal_field_at by exact Hw'. rewrite journal_field_at in Hv by exact Hw.
  unfold aetherfs_journal_checksum in *. rewrite El.
  destruct (decide (40 ≤ Z.of_nat i)) as [Hin|Hout].
  - rewrite (slice_insert_outside _ i b 0 40) by lia. rewrite <-Hv. apply le_val_slice_insert; (done || lia).
  - rewrite (slice_insert_outside _ i b 40 4) by lia. rewrite Hv. intros E. symmetry in E. revert E.
    assert (slice 0 40 (<[i:=b]> (encode (seal j))) = <[i:=b]> (slice 0 40 (encode (seal j)))) as ->.
    { unfold slice. rewrite !drop_0. apply take_insert_lt. lia. }
    apply crc_insert_differs; [by apply is_bytes_slice|done| |].
    + unfold slice, len in *. rewrite length_take, length_drop. lia.
    + unfold slice. rewrite drop_0, lookup_take_lt by lia. done.
Qed.

(** The bytes behind the journal's checksum are its own affair. *)
Lemma journal_ignores_tail (j : aetherfs_intent_log) i b : wf j → 44 ≤ Z.of_nat i < sizeof aetherfs_intent_log → is_byte b →
  let l := encode (seal j) in let read := decode (<[i := b]> l) : aetherfs_intent_log in
  il_checksum read = aetherfs_journal_checksum read.
Proof.
  intros Hj Hi Hb. cbv zeta. pose proof (seal_wf j Hj) as Hw.
  pose proof (verify_seal j Hj) as Hv. apply Z.eqb_eq in Hv. cbn [csum_field csum journal_checksummed] in Hv.
  pose proof (is_bytes_encode _ Hw) as Hby.
  assert (len (encode (seal j)) = 48) as Hl by exact (len_encode _ Hw).
  rewrite sizeof_intent_log in Hi.
  assert (is_bytes (<[i:=b]> (encode (seal j)))) as Hby' by by apply Forall_insert.
  destruct (decode_whole (A := aetherfs_intent_log) (<[i:=b]> (encode (seal j)))) as [Hw' El];
    [done|unfold len in *; by rewrite length_insert|].
  rewrite journal_field_at by exact Hw'. rewrite journal_field_at in Hv by exact Hw.
  unfold aetherfs_journal_checksum in *. rewrite El.
  rewrite (slice_insert_outside _ i b 40 4) by lia. rewrite (slice_insert_outside _ i b 0 40) by lia. exact Hv.
Qed.

Ltac protects_of A :=
  let H := fresh in pose proof (covering_protects (A := A)) as H;
  cbn [csum_field csum set_csum super_checksummed inode_checksummed bitmap_checksummed
    extent_node_checksummed checksum_block_checksummed pool_label_checksummed
    checkpoint_root_checksummed] in H;
  exact H.

(** C25: the checksums of the format protect their structures.  Once stored, the checksum of a
    superblock, an inode, the inode bitmap, an extent node, a checksum block, a pool label or a
    checkpoint root is the one read back, and when any one byte of the structure is changed,
    of the payload or of the checksum, the two differ.  Of the intent log this holds of the
    first 44 bytes, up to the end of its checksum; no change behind them is noticed. *)
Theorem sealed_detects_byte_corruption :
  protects s_checksum aetherfs_super_checksum set_s_checksum (sizeof aetherfs_super) ∧
  protects i_checksum aetherfs_inode_checksum set_i_checksum (sizeof aetherfs_inode) ∧
  protects bb_checksum aetherfs_bitmap_checksum set_bb_checksum (sizeof aetherfs_bitmap_block) ∧
  protects en_checksum aetherfs_extent_node_checksum set_en_checksum (sizeof aetherfs_extent_node) ∧
  protects cb_checksum aetherfs_checksum_block_checksum set_cb_checksum (sizeof aetherfs_checksum_block) ∧
  protects pl_checksum aetherfs_pool_label_checksum set_pl_checksum (sizeof aetherfs_pool_label) ∧
  protects cr_checksum aetherfs_checkpoint_root_checksum set_cr_checksum (sizeof aetherfs_checkpoint_root) ∧
  protects il_checksum aetherfs_journal_checksum set_il_checksum 44 ∧
  ∀ (j : aetherfs_intent_log) i b, wf j → 44 ≤ Z.of_nat i < sizeof aetherfs_intent_log → is_byte b →
    let l := encode (set_il_checksum (aetherfs_journal_checksum j) j) in
    let read := decode (<[i := b]> l) : aetherfs_intent_log in
    il_checksum read = aetherfs_journal_checksum read.
Proof.
  split; [protects_of aetherfs_super|].
  split; [protects_of aetherfs_inode|].
  split; [protects_of aetherfs_bitmap_block|].
  split; [protects_of aetherfs_extent_node|].
  split; [protects_of aetherfs_checksum_block|].
  split; [protects_of aetherfs_pool_label|].
  split; [protects_of aetherfs_checkpoint_root|].
  split; [exact journal_protects|exact journal_ignores_tail].
Qed.

(** A changed byte of an inode, and one behind the checksum of a journal header. *)
Lemma sealed_detects_byte_corruption_witness :
  (let read := decode (<[7%nat := 255]> (encode (seal sample_inode))) : aetherfs_inode in
   i_checksum read ≠ aetherfs_inode_checksum read) ∧
  (let read := decode (<[46%nat := 255]> (encode (seal (decode (zeros 48) : aetherfs_intent_log)))) in
   il_checksum read = aetherfs_journal_checksum read).
Proof.
  split.
  - destruct sealed_detects_byte_corruption as (_ & H & _).
    destruct (H sample_inode sample_inode_wf) as [_ Hi]. apply Hi.
    + by vm_compute.
    + by vm_compute.
    + vm_compute. discriminate.
  - destruct sealed_detects_byte_corruption as (_ & _ & _ & _ & _ & _ & _ & _ & H). apply H.
    + by vm_compute.
    + by vm_compute.
    + by vm_compute.
Defined.
