(* ===== verification/SysIo.v ===== *)
(** * Positional I/O

    [aetherfs_read_all] and [aetherfs_write_all] loop over [pread] and [pwrite],
    which may be interrupted, fail, or transfer fewer bytes than asked.  The
    operating system's choices are a list of [io_event]s; the loops consume one
    per call, and [None] means the list ran out before the loop ended.  [read_at]
    and [write_at] are the atomic transfers the loops implement; the rest of the
    development reads and writes through them. *)

From S2P Require Import Prelude.

(** What one [pread] or [pwrite] does: be interrupted, fail with an errno other
    than [EINTR], or move at most [n] bytes (at least one if any can be moved). *)
Inductive io_event :=
| Interrupted
| Failed (e : errno)
| Transfer (n : Z).

(** ** The system calls *)

(** The bytes a [pread] of [n] bytes at [off] returns when it moves at most
    [most] of them; the empty list at end of file. *)
Definition sys_pread (data : bytes) (off n most : Z) : bytes :=
  slice off (Z.min n (Z.max 1 most)) data.

(** A [pwrite] of [buf] that moves at most [most] bytes and does not reach past
    the end of the data: the number of bytes moved and the new data. *)
Definition sys_pwrite (data : bytes) (off : Z) (buf : bytes) (most : Z) : Z * bytes :=
  let n := Z.min (Z.min (len buf) (Z.max 1 most)) (len data - off) in
  (n, splice off (slice 0 n buf) data).

#[global] Arguments sys_pread : simpl never.
#[global] Arguments sys_pwrite : simpl never.

(** ** The loops *)

Fixpoint read_all_loop (evs : list io_event) (data : bytes) (offset n : Z)
    (cursor : bytes) : option (result bytes) :=
  let read_total := len cursor in
  if read_total <? n then
    match evs with
    | [] => None
    | Interrupted :: evs => read_all_loop evs data offset n cursor
    | Failed e :: _ => Some (Err e)
    | Transfer most :: evs =>
        let got := sys_pread data (offset + read_total) (n - read_total) most in
        if len got =? 0 then Some (Err EIO)
        else read_all_loop evs data offset n (cursor ++ got)
    end
  else Some (Ok cursor).

Definition aetherfs_read_all (evs : list io_event) (data : bytes) (offset n : Z)
    : option (result bytes) :=
  read_all_loop evs data offset n [].

Fixpoint write_all_loop (evs : list io_event) (data : bytes) (offset : Z)
    (buf : bytes) (written : Z) : option (result unit * bytes) :=
  if written <? len buf then
    match evs with
    | [] => None
    | Interrupted :: evs => write_all_loop evs data offset buf written
    | Failed e :: _ => Some (Err e, data)
    | Transfer most :: evs =>
        let '(rc, data') :=
          sys_pwrite data (offset + written) (slice written (len buf - written) buf) most in
        if rc =? 0 then Some (Err EIO, data)
        else write_all_loop evs data' offset buf (written + rc)
    end
  else Some (Ok tt, data).

Definition aetherfs_write_all (evs : list io_event) (data : bytes) (offset : Z)
    (buf : bytes) : option (result unit * bytes) :=
  write_all_loop evs data offset buf 0.

(** ** The atomic transfers *)

Definition read_at (data : bytes) (offset n : Z) : result bytes :=
  if offset + n <=? len data then Ok (slice offset n data) else Err EIO.

Definition write_at (data : bytes) (offset : Z) (buf : bytes) : bytes :=
  splice offset buf data.

(** Events under which the loop cannot fail: no error, and at least [n]
    transfers among any number of interruptions. *)
Definition no_failure (evs : list io_event) : Prop :=
  Forall (λ ev, match ev with Failed _ => False | _ => True end) evs.

Definition transfers (evs : list io_event) : Z :=
  len (List.filter (λ ev, match ev with Transfer _ => true | _ => false end) evs).

(** ** Refinement *)

Lemma slice_app_slice {A} (l : list A) off n m :
  0 ≤ off → 0 ≤ n → 0 ≤ m → slice off n l ++ slice (off + n) m l = slice off (n + m) l.
Proof.
  intros. unfold slice. rewrite !Z2Nat.inj_add by lia.
  rewrite <-drop_drop. by rewrite take_take_drop.
Qed.

Lemma len_slice_min {A} off n (l : list A) :
  0 ≤ off → 0 ≤ n → len (slice off n l) = Z.min n (Z.max 0 (len l - off)).
Proof. intros. unfold len, slice. rewrite length_take, length_drop. lia. Qed.

Lemma slice_exact {A} off n (l : list A) :
  0 ≤ off → 0 ≤ n → slice off n l = slice off (len (slice off n l)) l.
Proof.
  intros. rewrite len_slice_min by lia. unfold len, slice.
  destruct (decide (n ≤ len l - off)) as [Hn|Hn]; unfold len in Hn.
  - f_equal. lia.
  - rewrite !take_ge; [done|rewrite length_drop; lia..].
Qed.

(** The cursor of the read loop: what has been read so far is a prefix of the
    requested range, inside the data. *)
Definition read_prefix (data : bytes) (offset n : Z) (cursor : bytes) : Prop :=
  cursor = slice offset (len cursor) data ∧ len cursor ≤ n ∧
  (len cursor = 0 ∨ offset + len cursor ≤ len data).

Lemma read_prefix_step data offset n cursor most :
  0 ≤ offset → read_prefix data offset n cursor → len cursor < n →
  let got := sys_pread data (offset + len cursor) (n - len cursor) most in
  len got ≠ 0 → read_prefix data offset n (cursor ++ got) ∧ len cursor < len (cursor ++ got).
Proof.
  intros Ho (Hc & Hn & Hb) Hlt got Hgot. pose proof (len_nonneg cursor) as H0.
  assert (len got ≤ n - len cursor ∧ offset + len cursor + len got ≤ len data).
  { revert Hgot. subst got. unfold sys_pread. rewrite len_slice_min by lia. lia. }
  assert (got = slice (offset + len cursor) (len got) data) as Egot.
  { subst got. unfold sys_pread. apply slice_exact; lia. }
  pose proof (len_nonneg got). unfold read_prefix. rewrite len_app. repeat split; [|lia..].
  rewrite Egot at 1. rewrite Hc at 1. apply slice_app_slice; lia.
Qed.

Lemma read_all_loop_sound evs data offset n cursor r :
  0 ≤ offset → read_prefix data offset n cursor →
  read_all_loop evs data offset n cursor = Some (Ok r) → n ≤ len cursor ∨ 0 < n →
  r = slice offset n data ∧ (0 < n → offset + n ≤ len data).
Proof.
  intros Ho. revert cursor.
  induction evs as [|ev evs IH]; intros cursor Hp; simpl;
    destruct (Z.ltb_spec (len cursor) n) as [Hlt|Hge]; try done.
  - intros [= ->] _. destruct Hp as (Hc & Hn & Hb). replace n with (len r) by lia.
    split; [done|lia].
  - destruct ev as [|e|most]; [by apply IH|done|].
    destruct (Z.eqb_spec (len (sys_pread data (offset + len cursor) (n - len cursor) most)) 0)
      as [E|E]; [done|].
    intros Hr _. destruct (read_prefix_step data offset n cursor most Ho Hp Hlt E) as [Hp' Hl].
    eapply IH; [exact Hp'|exact Hr|]. pose proof (len_nonneg cursor). lia.
  - intros [= ->] _. destruct Hp as (Hc & Hn & Hb). replace n with (len r) by lia.
    split; [done|lia].
Qed.

Lemma transfers_cons ev evs :
  transfers (ev :: evs) =
  (match ev with Transfer _ => 1 | _ => 0 end) + transfers evs.
Proof. unfold transfers, len. destruct ev; simpl; lia. Qed.

(** Without a failing call the loop ends as the atomic read does, past the end of the data
    included: the transfer that moves nothing comes after at most [n - 1] that move a byte. *)
Lemma read_all_loop_ends evs data offset n cursor :
  0 ≤ offset → 0 < n → no_failure evs → read_prefix data offset n cursor →
  n - len cursor ≤ transfers evs →
  read_all_loop evs data offset n cursor = Some (read_at data offset n).
Proof.
  intros Ho H0 Hf. revert cursor.
  assert (∀ cursor, read_prefix data offset n cursor → n ≤ len cursor → Ok cursor = read_at data offset n) as Hend.
  { intros cursor (Hc & Hn & Hb) Hge. unfold read_at. rewrite (proj2 (Z.leb_le _ _)) by lia.
    replace n with (len cursor) by lia. by rewrite <-Hc. }
  induction Hf as [|ev evs Hev Hf IH]; intros cursor Hp Ht; simpl;
    destruct (Z.ltb_spec (len cursor) n) as [Hlt|Hge].
  - unfold transfers, len in Ht. simpl in Ht. unfold len in *. lia.
  - by rewrite <-(Hend cursor Hp Hge).
  - rewrite transfers_cons in Ht. destruct ev as [|e|most]; [by apply IH; try lia|done|].
    destruct (Z.eqb_spec (len (sys_pread data (offset + len cursor) (n - len cursor) most)) 0)
      as [E|E].
    + pose proof (len_nonneg cursor). unfold sys_pread in E. rewrite len_slice_min in E by lia.
      unfold read_at. by rewrite (proj2 (Z.leb_gt _ _)) by lia.
    + destruct (read_prefix_step data offset n cursor most Ho Hp Hlt E) as [Hp' Hl].
      apply IH; [done|lia].
  - by rewrite <-(Hend cursor Hp Hge).
Qed.

(** An error is that of a failing call, or [EIO] past the end. *)
Lemma read_all_loop_error evs data offset n cursor e :
  0 ≤ offset → read_prefix data offset n cursor →
  read_all_loop evs data offset n cursor = Some (Err e) →
  Failed e ∈ evs ∨ e = EIO ∧ len data < offset + n.
Proof.
  intros Ho. revert cursor. induction evs as [|ev evs IH]; intros cursor Hp; simpl;
    destruct (Z.ltb_spec (len cursor) n) as [Hlt|Hge]; try done.
  destruct ev as [|e'|most].
  - intros [H|H]%IH; [left; by right|by right|done].
  - intros [= ->]. left. by left.
  - destruct (Z.eqb_spec (len (sys_pread data (offset + len cursor) (n - len cursor) most)) 0)
      as [E|E].
    + intros [= <-]. right. split; [done|]. pose proof (len_nonneg cursor).
      unfold sys_pread in E. rewrite len_slice_min in E by lia. lia.
    + destruct (read_prefix_step data offset n cursor most Ho Hp Hlt E) as [Hp' _].
      intros [H|H]%IH; [left; by right|by right|done].
Qed.

Lemma splice_adjacent {A} off (x y l : list A) :
  0 ≤ off → off + len x + len y ≤ len l →
  splice (off + len x) y (splice off x l) = splice off (x ++ y) l.
Proof.
  unfold len, splice. intros Ho Hl. rewrite length_app.
  rewrite take_app_ge by (rewrite length_take; lia).
  rewrite take_app_length' by (rewrite length_take; lia).
  rewrite <-!app_assoc. do 3 f_equal.
  rewrite !drop_app_ge by (rewrite length_take; lia).
  rewrite length_take, drop_drop. f_equal. lia.
Qed.

Lemma splice_nil {A} off (l : list A) : splice off [] l = l.
Proof. unfold splice. simpl. rewrite Nat.add_0_r. apply take_drop. Qed.

(** The data after [w] bytes of [buf] have reached [offset]. *)
Definition written_prefix (data : bytes) (offset : Z) (buf : bytes) (w : Z) : bytes :=
  splice offset (slice 0 w buf) data.

Lemma len_prefix {A} w (buf : list A) : 0 ≤ w ≤ len buf → len (slice 0 w buf) = w.
Proof. intros. apply len_slice; lia. Qed.

Lemma written_prefix_step data offset buf w most n data' :
  0 ≤ offset → offset + len buf ≤ len data → 0 ≤ w < len buf →
  sys_pwrite (written_prefix data offset buf w) (offset + w)
    (slice w (len buf - w) buf) most = (n, data') →
  0 < n ∧ w + n ≤ len buf ∧ data' = written_prefix data offset buf (w + n).
Proof.
  intros Ho Hd Hw [= En Ed].
  assert (len (written_prefix data offset buf w) = len data) as El.
  { unfold written_prefix. rewrite len_splice; rewrite ?len_prefix; lia. }
  rewrite El, len_slice in * by lia.
  assert (0 < n ∧ w + n ≤ len buf) as [Hn1 Hn2] by lia. repeat split; [done..|].
  rewrite <-Ed, En. unfold written_prefix.
  rewrite <-(len_prefix w buf) at 1 by lia.
  rewrite splice_adjacent; rewrite ?len_prefix; try lia.
  - f_equal. unfold slice at 2 3. rewrite drop_0, take_take, Nat.min_l by lia.
    fold (slice w n buf). rewrite slice_app_slice by lia. done.
  - rewrite len_slice; lia.
Qed.

Lemma write_all_loop_inv evs data offset buf w r data' :
  0 ≤ offset → offset + len buf ≤ len data → 0 ≤ w ≤ len buf →
  write_all_loop evs (written_prefix data offset buf w) offset buf w = Some (r, data') →
  ∃ w', w ≤ w' ≤ len buf ∧ data' = written_prefix data offset buf w' ∧
        (r = Ok tt → w' = len buf).
Proof.
  intros Ho Hd. revert w.
  induction evs as [|ev evs IH]; intros w Hw; cbn [write_all_loop];
    destruct (Z.ltb_spec w (len buf)) as [Hlt|Hge]; try done.
  - intros [= <- <-]. exists w. repeat split; lia.
  - destruct ev as [|e|most]; [by apply IH|intros [= <- <-]; exists w; by repeat split; try lia|].
    destruct (sys_pwrite (written_prefix data offset buf w) (offset + w)
      (slice w (len buf - w) buf) most) as [n d] eqn:E.
    apply written_prefix_step in E as (Hn & Hn' & ->); [|lia..].
    destruct (Z.eqb_spec n 0); [lia|]. intros Hr.
    apply IH in Hr as (w' & ? & ? & ?); [|lia]. exists w'. split; [lia|done].
  - intros [= <- <-]. exists w. repeat split; lia.
Qed.

Lemma write_all_loop_complete evs data offset buf w :
  0 ≤ offset → offset + len buf ≤ len data → 0 ≤ w ≤ len buf → no_failure evs →
  len buf - w ≤ transfers evs →
  ∃ data', write_all_loop evs (written_prefix data offset buf w) offset buf w
           = Some (Ok tt, data').
Proof.
  intros Ho Hd Hw Hf. revert w Hw.
  induction Hf as [|ev evs Hev Hf IH]; intros w Hw Ht; cbn [write_all_loop];
    destruct (Z.ltb_spec w (len buf)) as [Hlt|Hge]; try by eexists.
  - unfold transfers, len in Ht. simpl in Ht. unfold len in *. lia.
  - rewrite transfers_cons in Ht. destruct ev as [|e|most]; [by apply IH|done|].
    destruct (sys_pwrite (written_prefix data offset buf w) (offset + w)
      (slice w (len buf - w) buf) most) as [n d] eqn:E.
    apply written_prefix_step in E as (Hn & Hn' & ->); [|lia..].
    destruct (Z.eqb_spec n 0); [lia|]. apply IH; lia.
Qed.

Lemma written_prefix_0 data offset buf : written_prefix data offset buf 0 = data.
Proof. unfold written_prefix, slice. rewrite take_0. apply splice_nil. Qed.

Lemma written_prefix_all data offset buf :
  written_prefix data offset buf (len buf) = write_at data offset buf.
Proof. unfold written_prefix, write_at. by rewrite slice_all. Qed.

(** ** Properties *)

(** C26: the read loop implements the atomic read.  Whatever the system calls do, a
    successful result is exactly the requested range, which then lies inside the data, and
    an error is that of a failing call, or [EIO] for a range that passes the end; if no call
    fails and enough of them transfer (interruptions in any number between them), the loop
    ends as the atomic read does: with the range, or with [EIO] when it passes the end. *)
Theorem read_all_refines_read_at evs data offset n :
  0 ≤ offset → 0 < n →
  (∀ r, aetherfs_read_all evs data offset n = Some (Ok r) → read_at data offset n = Ok r) ∧
  (∀ e, aetherfs_read_all evs data offset n = Some (Err e) →
    Failed e ∈ evs ∨ e = EIO ∧ read_at data offset n = Err EIO) ∧
  (no_failure evs → n ≤ transfers evs →
   aetherfs_read_all evs data offset n = Some (read_at data offset n)).
Proof.
  intros Ho Hn. assert (read_prefix data offset n []) as Hp by (repeat split; unfold len; simpl; lia).
  unfold aetherfs_read_all. split; [|split].
  - intros r Hr. apply read_all_loop_sound in Hr as [-> Hb]; [|done..|lia].
    unfold read_at. by rewrite (proj2 (Z.leb_le _ _)) by auto.
  - intros e He. apply read_all_loop_error in He as [H|[-> H]]; [by left| |done|done].
    right. split; [done|]. unfold read_at. by rewrite (proj2 (Z.leb_gt _ _)).
  - intros Hf Ht. apply read_all_loop_ends; [done..|]. unfold len at 1. simpl. lia.
Qed.

(** A range inside the data, and one that passes its end. *)
Lemma read_all_refines_read_at_witness :
  aetherfs_read_all [Interrupted; Transfer 2; Interrupted; Transfer 1; Transfer 1]
    [7; 8; 9; 10; 11] 1 3 = Some (Ok [8; 9; 10]) ∧
  aetherfs_read_all [Transfer 2; Interrupted; Transfer 1; Transfer 1] [7; 8; 9; 10; 11] 3 3 = Some (Err EIO).
Proof.
  split.
  - apply (read_all_refines_read_at _ [7; 8; 9; 10; 11] 1 3); [lia|lia|repeat constructor|].
    vm_compute. discriminate.
  - apply (read_all_refines_read_at _ [7; 8; 9; 10; 11] 3 3); [lia|lia|repeat constructor|].
    vm_compute. discriminate.
Defined.

(** A write that stays inside the file is torn only at a prefix.  However
    the system calls behave, the file afterwards is the old one with some prefix
    of the buffer in place; success means the whole buffer; and without a failing
    call the loop does succeed, leaving the atomic write. *)
Theorem write_all_writes_prefix evs data offset buf :
  0 ≤ offset → offset + len buf ≤ len data →
  (∀ r data', aetherfs_write_all evs data offset buf = Some (r, data') →
     ∃ w, 0 ≤ w ≤ len buf ∧ data' = splice offset (slice 0 w buf) data ∧
          (r = Ok tt → data' = write_at data offset buf)) ∧
  (no_failure evs → len buf ≤ transfers evs →
   aetherfs_write_all evs data offset buf = Some (Ok tt, write_at data offset buf)).
Proof.
  intros Ho Hd. pose proof (len_nonneg buf). unfold aetherfs_write_all.
  assert (∀ r data', write_all_loop evs data offset buf 0 = Some (r, data') →
     ∃ w, 0 ≤ w ≤ len buf ∧ data' = written_prefix data offset buf w ∧
          (r = Ok tt → data' = write_at data offset buf)) as Hinv.
  { intros r data' Hr. rewrite <-(written_prefix_0 data offset buf) in Hr.
    apply write_all_loop_inv in Hr as (w & Hw & -> & Hok); [|lia..].
    exists w. repeat split; try lia. intros E. rewrite (Hok E). apply written_prefix_all. }
  split; [exact Hinv|]. intros Hf Ht.
  destruct (write_all_loop_complete evs data offset buf 0) as [d Ed]; [lia..|done|lia|].
  rewrite written_prefix_0 in Ed. rewrite Ed. by destruct (Hinv _ _ Ed) as (w & _ & _ & ->).
Qed.

Lemma write_all_writes_prefix_witness :
  aetherfs_write_all [Transfer 1; Interrupted; Transfer 5] [0; 0; 0; 0] 1 [5; 6; 7]
  = Some (Ok tt, [0; 5; 6; 7]) ∧
  ∃ w, 0 ≤ w ≤ 3 ∧ [0; 5; 0; 0] = splice 1 (slice 0 w [5; 6; 7]) [0; 0; 0; 0].
Proof.
  split; [vm_compute; reflexivity|].
  destruct (write_all_writes_prefix [Transfer 1; Failed EIO] [0; 0; 0; 0] 1 [5; 6; 7])
    as [H _]; [lia|vm_compute; discriminate|].
  destruct (H (Err EIO) [0; 5; 0; 0]) as (w & Hw & E & _); [vm_compute; reflexivity|].
  exists w. split; [exact Hw|exact E].
Defined.
