(* ===== verification/State.v ===== *)
(** * The opened image

    [struct aetherfs_image] and [struct aetherfs_image_member] of [image.h], and
    the files behind the member descriptors. *)

From S2P Require Import Prelude Codec Format.

(** [struct aetherfs_image_member] *)
Record aetherfs_image_member := Member {
  m_fd : Z;
  m_is_block_device : bool;
  m_size_bytes : Z;
  m_blocks : Z;
  m_class_mask : Z;
  m_role_mask : Z;
  m_member_index : Z;
}.

(** [struct aetherfs_image].  [inode_table] holds the inodes of the one block
    [aetherfs_image_load] reads; the rest of the C array keeps the zeroes of the
    [memset] at open, see [inode_at]. *)
Record aetherfs_image := Image {
  fd : Z;
  writable : bool;
  is_block_device : bool;
  size_bytes : Z;
  blocks : Z;
  member_count : Z;
  pool_label : aetherfs_pool_label;
  checkpoint_root : aetherfs_checkpoint_root;
  members : list aetherfs_image_member;
  super : aetherfs_super;
  journal : aetherfs_intent_log;
  inode_bitmap : aetherfs_bitmap_block;
  free_extents : aetherfs_extent_node;
  inode_table : list aetherfs_inode;
  root_dir : bytes;
}.

(** The files open under each descriptor: their contents. *)
Abbreviation disks := (gmap Z bytes).

(** Files hold bytes. *)
Definition disks_bytes (d : disks) : Prop := map_Forall (λ _ data, is_bytes data) d.

(** [memset(&x, 0, sizeof x)] *)
Definition zeroed {A} `{OnDisk A} : A := decode (zeros (sizeof A)).

Definition member_zero : aetherfs_image_member := Member 0 false 0 0 0 0 0.

Definition get_member (image : aetherfs_image) (index : Z) : aetherfs_image_member :=
  default member_zero (members image !! Z.to_nat index).

Definition get_pool_member (label : aetherfs_pool_label) (index : Z) : aetherfs_pool_member :=
  default zeroed (pl_members label !! Z.to_nat index).

Definition zero_inode : aetherfs_inode := zeroed.

Definition inode_at (image : aetherfs_image) (index : Z) : aetherfs_inode :=
  if index <? len (inode_table image)
  then default zero_inode (inode_table image !! Z.to_nat index) else zero_inode.

Definition set_blocks (v : Z) (i : aetherfs_image) : aetherfs_image :=
  Image (fd i) (writable i) (is_block_device i) (size_bytes i) v (member_count i)
    (pool_label i) (checkpoint_root i) (members i) (super i) (journal i)
    (inode_bitmap i) (free_extents i) (inode_table i) (root_dir i).

Definition set_super (v : aetherfs_super) (i : aetherfs_image) : aetherfs_image :=
  Image (fd i) (writable i) (is_block_device i) (size_bytes i) (blocks i)
    (member_count i) (pool_label i) (checkpoint_root i) (members i) v (journal i)
    (inode_bitmap i) (free_extents i) (inode_table i) (root_dir i).

Definition set_checkpoint_root (v : aetherfs_checkpoint_root) (i : aetherfs_image) : aetherfs_image :=
  Image (fd i) (writable i) (is_block_device i) (size_bytes i) (blocks i)
    (member_count i) (pool_label i) v (members i) (super i) (journal i)
    (inode_bitmap i) (free_extents i) (inode_table i) (root_dir i).

Definition set_journal (v : aetherfs_intent_log) (i : aetherfs_image) : aetherfs_image :=
  Image (fd i) (writable i) (is_block_device i) (size_bytes i) (blocks i)
    (member_count i) (pool_label i) (checkpoint_root i) (members i) (super i) v
    (inode_bitmap i) (free_extents i) (inode_table i) (root_dir i).

Definition set_inode_bitmap (v : aetherfs_bitmap_block) (i : aetherfs_image) : aetherfs_image :=
  Image (fd i) (writable i) (is_block_device i) (size_bytes i) (blocks i)
    (member_count i) (pool_label i) (checkpoint_root i) (members i) (super i)
    (journal i) v (free_extents i) (inode_table i) (root_dir i).

Definition set_free_extents (v : aetherfs_extent_node) (i : aetherfs_image) : aetherfs_image :=
  Image (fd i) (writable i) (is_block_device i) (size_bytes i) (blocks i)
    (member_count i) (pool_label i) (checkpoint_root i) (members i) (super i)
    (journal i) (inode_bitmap i) v (inode_table i) (root_dir i).

Definition set_inode_table (v : list aetherfs_inode) (i : aetherfs_image) : aetherfs_image :=
  Image (fd i) (writable i) (is_block_device i) (size_bytes i) (blocks i)
    (member_count i) (pool_label i) (checkpoint_root i) (members i) (super i)
    (journal i) (inode_bitmap i) (free_extents i) v (root_dir i).

Definition set_root_dir (v : bytes) (i : aetherfs_image) : aetherfs_image :=
  Image (fd i) (writable i) (is_block_device i) (size_bytes i) (blocks i)
    (member_count i) (pool_label i) (checkpoint_root i) (members i) (super i)
    (journal i) (inode_bitmap i) (free_extents i) (inode_table i) v.
