(* ===== verification/Pool.v ===== *)
(** * Pool geometry

    The member masks of a pool label, the checks of [aetherfs_pool_label_validate]
    and the four mappings from logical data blocks to member blocks, from
    [aetherfsprogs/image.c]. *)

From S2P Require Import Prelude Codec Crc Format Integrity State.

(** ** Member masks *)

(** [mask & (1U << index)] *)
Definition mask_has (mask index : Z) : bool :=
  negb (Z.land mask (Z.shiftl 1 index) =? 0).

(** [for (index = 0; index < AETHERFS_MAX_DEVICES; ++index)] *)
Definition device_indices : list Z := seqZ 0 AETHERFS_MAX_DEVICES.

Fixpoint mask_first_from (indices : list Z) (mask : Z) : Z :=
  match indices with
  | [] => -1
  | index :: rest => if mask_has mask index then index else mask_first_from rest mask
  end.

Definition aetherfs_mask_first (mask : Z) : Z := mask_first_from device_indices mask.

(** [__builtin_popcount] *)
Fixpoint pos_popcount (p : positive) : Z :=
  match p with
  | xH => 1
  | xO p => pos_popcount p
  | xI p => 1 + pos_popcount p
  end.

Definition popcount (x : Z) : Z :=
  match x with Zpos p => pos_popcount p | _ => 0 end.

Definition aetherfs_mask_count (mask : Z) : Z := popcount mask.

Fixpoint mask_nth_from (indices : list Z) (mask ordinal : Z) : Z :=
  match indices with
  | [] => -1
  | index :: rest =>
      if negb (mask_has mask index) then mask_nth_from rest mask ordinal
      else if ordinal =? 0 then index
      else mask_nth_from rest mask (ordinal - 1)
  end.

Definition aetherfs_mask_nth (mask ordinal : Z) : Z :=
  mask_nth_from device_indices mask ordinal.

Definition aetherfs_pool_member_limit_mask (image : aetherfs_image) : Z :=
  if 32 <=? member_count image then UINT32_MAX
  else if member_count image =? 0 then 0
  else u32 (Z.shiftl 1 (member_count image)) - 1.

Definition aetherfs_pool_profile (image : aetherfs_image) : Z :=
  pl_profile (pool_label image).

(** [mask &= limit; if (mask == 0 && image->member_count > 0) mask = 1U;] *)
Definition limited_mask (image : aetherfs_image) (mask : Z) : Z :=
  let mask := Z.land mask (aetherfs_pool_member_limit_mask image) in
  if (mask =? 0) && (0 <? member_count image) then 1 else mask.

Definition aetherfs_pool_metadata_mask (image : aetherfs_image) : Z :=
  limited_mask image (pl_metadata_mask (pool_label image)).

Definition aetherfs_pool_data_mask (image : aetherfs_image) : Z :=
  limited_mask image (pl_data_mask (pool_label image)).

Definition aetherfs_pool_log_mask (image : aetherfs_image) : Z :=
  let mask := Z.land (pl_log_mask (pool_label image))
                     (aetherfs_pool_member_limit_mask image) in
  if mask =? 0 then aetherfs_pool_metadata_mask image else mask.

Definition aetherfs_pool_member_total_blocks (image : aetherfs_image) (index : Z) : Z :=
  let total := pm_total_blocks (get_pool_member (pool_label image) index) in
  if total =? 0 then m_blocks (get_member image index) else total.

Definition aetherfs_pool_member_data_blocks (image : aetherfs_image) (index : Z) : Z :=
  let data := pm_data_blocks (get_pool_member (pool_label image) index) in
  let total := aetherfs_pool_member_total_blocks image index in
  if (data =? 0) && (AETHERFS_DATA_START_BLOCK <? total)
  then total - AETHERFS_DATA_START_BLOCK else data.

Definition aetherfs_pool_role_mask_for_bootstrap_block (image : aetherfs_image)
    (block : Z) : Z :=
  if block =? AETHERFS_JOURNAL_BLOCK then aetherfs_pool_log_mask image
  else aetherfs_pool_metadata_mask image.

(** ** Label validation *)

Fixpoint validate_label_members (indices : list Z) (label : aetherfs_pool_label)
    : result unit :=
  match indices with
  | [] => Ok tt
  | index :: rest =>
      let member := get_pool_member label index in
      return_if negb (pm_index member =? index) with EINVAL ;;
      return_if pm_total_blocks member <? AETHERFS_BOOTSTRAP_BLOCKS with EINVAL ;;
      return_if u64 (pm_total_blocks member - AETHERFS_DATA_START_BLOCK)
                  <? pm_data_blocks member with EINVAL ;;
      validate_label_members rest label
  end.

(** [(mask & ~limit_mask) != 0], on 32 bits *)
Definition mask_exceeds (mask limit_mask : Z) : bool :=
  negb (Z.land mask (Z.lxor limit_mask UINT32_MAX) =? 0).

Definition aetherfs_pool_label_validate (label : aetherfs_pool_label) : result unit :=
  return_if negb (pl_magic label =? AETHERFS_POOL_MAGIC) with EINVAL ;;
  return_if negb (pl_version label =? AETHERFS_POOL_VERSION) with EINVAL ;;
  return_if negb (pl_checksum label =? aetherfs_pool_label_checksum label) with EILSEQ ;;
  let count := pl_member_count label in
  let profile := pl_profile label in
  return_if (count =? 0) || (AETHERFS_MAX_DEVICES <? count) with EINVAL ;;
  return_if count <=? pl_member_index label with EINVAL ;;
  return_if AETHERFS_POOL_PROFILE_TIERED <? profile with EINVAL ;;
  return_if pl_stripe_blocks label =? 0 with EINVAL ;;
  return_if pl_logical_blocks label <? AETHERFS_DATA_START_BLOCK with EINVAL ;;
  return_if negb (pl_logical_blocks label =?
    u64 (pl_logical_data_blocks label + AETHERFS_DATA_START_BLOCK)) with EINVAL ;;
  let limit_mask := Z.shiftl 1 count - 1 in
  return_if mask_exceeds (pl_metadata_mask label) limit_mask
         || mask_exceeds (pl_data_mask label) limit_mask
         || mask_exceeds (pl_log_mask label) limit_mask
         || mask_exceeds (pl_cache_mask label) limit_mask with EINVAL ;;
  validate_label_members (seqZ 0 count) label.

Definition aetherfs_pool_label_normalize (label : aetherfs_pool_label)
    : aetherfs_pool_label :=
  set_pl_member_index 0 (set_pl_checksum 0 label).

(** [memcmp] of the two normalized labels. *)
Definition aetherfs_pool_labels_equivalent (left right : aetherfs_pool_label) : bool :=
  bool_decide (encode (aetherfs_pool_label_normalize left) =
               encode (aetherfs_pool_label_normalize right)).

(** ** Mappings *)

(** [struct aetherfs_pool_mapping] *)
Record aetherfs_pool_mapping := Mapping {
  member_index : Z;
  parity_member_index : Z;
  member_block : Z;
}.

Fixpoint map_linear_loop (ordinals : list Z) (image : aetherfs_image) (mask remaining : Z)
    : result aetherfs_pool_mapping :=
  match ordinals with
  | [] => Err ERANGE
  | ordinal :: rest =>
      let index := aetherfs_mask_nth mask ordinal in
      if index <? 0 then Err ERANGE
      else
        let blocks := aetherfs_pool_member_data_blocks image index in
        if remaining <? blocks
        then Ok (Mapping index UINT32_MAX (u64 (AETHERFS_DATA_START_BLOCK + remaining)))
        else map_linear_loop rest image mask (u64 (remaining - blocks))
  end.

Definition aetherfs_pool_map_linear (image : aetherfs_image) (logical_block : Z)
    : result aetherfs_pool_mapping :=
  let mask := aetherfs_pool_data_mask image in
  let remaining := u64 (logical_block - AETHERFS_DATA_START_BLOCK) in
  map_linear_loop (seqZ 0 (aetherfs_mask_count mask)) image mask remaining.

Definition aetherfs_pool_map_mirror (image : aetherfs_image) (logical_block : Z)
    : result aetherfs_pool_mapping :=
  let index := aetherfs_mask_first (aetherfs_pool_data_mask image) in
  return_if index <? 0 with EINVAL ;;
  Ok (Mapping index UINT32_MAX logical_block).

(** [AETHERFS_DATA_START_BLOCK + aetherfs_pool_member_data_blocks(image, index)] *)
Definition member_data_end (image : aetherfs_image) (index : Z) : Z :=
  u64 (AETHERFS_DATA_START_BLOCK + aetherfs_pool_member_data_blocks image index).

Definition aetherfs_pool_map_stripe (image : aetherfs_image) (logical_block : Z)
    : result aetherfs_pool_mapping :=
  let mask := aetherfs_pool_data_mask image in
  let data_members := aetherfs_mask_count mask in
  let stripe_blocks := pl_stripe_blocks (pool_label image) in
  let relative := u64 (logical_block - AETHERFS_DATA_START_BLOCK) in
  return_if (data_members =? 0) || (stripe_blocks =? 0) with EINVAL ;;
  let stripe_number := relative / stripe_blocks in
  let member_ordinal := u32 (stripe_number mod data_members) in
  let member_stripe := stripe_number / data_members in
  let within_stripe := relative mod stripe_blocks in
  let index := aetherfs_mask_nth mask member_ordinal in
  return_if index <? 0 with EINVAL ;;
  let block := u64 (AETHERFS_DATA_START_BLOCK +
                    member_stripe * stripe_blocks + within_stripe) in
  return_if member_data_end image index <=? block with ERANGE ;;
  Ok (Mapping index UINT32_MAX block).

Definition aetherfs_pool_map_parity (image : aetherfs_image) (logical_block : Z)
    : result aetherfs_pool_mapping :=
  let mask := aetherfs_pool_data_mask image in
  let data_members := aetherfs_mask_count mask in
  let stripe_blocks := pl_stripe_blocks (pool_label image) in
  let relative := u64 (logical_block - AETHERFS_DATA_START_BLOCK) in
  return_if (data_members <? 3) || (stripe_blocks =? 0) with EINVAL ;;
  let row_blocks := u64 ((data_members - 1) * stripe_blocks) in
  let row := relative / row_blocks in
  let position := relative mod row_blocks in
  let parity_ordinal := u32 (row mod data_members) in
  let data_ordinal := u32 (position / stripe_blocks) in
  let actual_ordinal :=
    if parity_ordinal <=? data_ordinal then u32 (data_ordinal + 1) else data_ordinal in
  let within_stripe := position mod stripe_blocks in
  let index := aetherfs_mask_nth mask actual_ordinal in
  let parity_index := aetherfs_mask_nth mask parity_ordinal in
  return_if (index <? 0) || (parity_index <? 0) with EINVAL ;;
  let block := u64 (AETHERFS_DATA_START_BLOCK + row * stripe_blocks + within_stripe) in
  return_if (member_data_end image index <=? block)
         || (member_data_end image parity_index <=? block) with ERANGE ;;
  Ok (Mapping index parity_index block).

Definition aetherfs_pool_map_data_block (image : aetherfs_image) (logical_block : Z)
    : result aetherfs_pool_mapping :=
  let profile := aetherfs_pool_profile image in
  if (profile =? AETHERFS_POOL_PROFILE_SINGLE) || (profile =? AETHERFS_POOL_PROFILE_TIERED)
  then aetherfs_pool_map_linear image logical_block
  else if profile =? AETHERFS_POOL_PROFILE_MIRROR
  then aetherfs_pool_map_mirror image logical_block
  else if profile =? AETHERFS_POOL_PROFILE_STRIPE
  then aetherfs_pool_map_stripe image logical_block
  else if profile =? AETHERFS_POOL_PROFILE_PARITY
  then aetherfs_pool_map_parity image logical_block
  else Err EINVAL.

(** ** Masks as member lists *)

Definition members_of (mask : Z) : list Z := List.filter (mask_has mask) device_indices.

Lemma mask_first_members mask :
  aetherfs_mask_first mask = default (-1) (head (members_of mask)).
Proof.
  unfold aetherfs_mask_first, members_of. generalize device_indices.
  induction l as [|i l IH]; simpl; [done|]. by destruct (mask_has mask i).
Qed.

Lemma mask_nth_members mask ordinal : 0 ≤ ordinal →
  aetherfs_mask_nth mask ordinal = default (-1) (members_of mask !! Z.to_nat ordinal).
Proof.
  unfold aetherfs_mask_nth, members_of. generalize device_indices.
  intros l. revert ordinal. induction l as [|i l IH]; intros o Ho; [done|].
  cbn [mask_nth_from List.filter]. destruct (mask_has mask i); cbn [negb]; [|by apply IH].
  destruct (Z.eqb_spec o 0) as [->|Hne]; [done|]. rewrite IH by lia.
  replace (Z.to_nat o) with (S (Z.to_nat (o - 1))) by lia. done.
Qed.

Lemma mask_count_members mask : 0 ≤ mask < 256 →
  aetherfs_mask_count mask = len (members_of mask).
Proof.
  assert (forallb (λ m, aetherfs_mask_count m =? len (members_of m)) (seqZ 0 256) = true)
    as Hall by (vm_compute; reflexivity).
  rewrite forallb_forall in Hall. intros Hm.
  apply Z.eqb_eq, Hall, list_elem_of_In, elem_of_seqZ. lia.
Qed.

Lemma NoDup_members_of mask : NoDup (members_of mask).
Proof. apply NoDup_ListNoDup, List.NoDup_filter, NoDup_ListNoDup, NoDup_seqZ. Qed.

Lemma members_of_spec mask i :
  i ∈ members_of mask ↔ 0 ≤ i < 8 ∧ mask_has mask i = true.
Proof.
  unfold members_of, device_indices, AETHERFS_MAX_DEVICES.
  rewrite list_elem_of_In, List.filter_In, <-list_elem_of_In, elem_of_seqZ.
  by rewrite Z.add_0_l.
Qed.

Lemma mask_has_testbit mask i : 0 ≤ i → mask_has mask i = Z.testbit mask i.
Proof.
  intros Hi. unfold mask_has. rewrite Z.shiftl_1_l.
  destruct (Z.testbit mask i) eqn:E.
  - apply negb_true_iff, Z.eqb_neq. intros H0.
    apply (f_equal (λ z, Z.testbit z i)) in H0.
    by rewrite Z.land_spec, E, Z.pow2_bits_true, Z.testbit_0_l in H0 by lia.
  - apply negb_false_iff, Z.eqb_eq, Z.bits_inj'. intros j Hj.
    rewrite Z.land_spec, Z.testbit_0_l.
    destruct (decide (i = j)) as [<-|?]; [by rewrite E|].
    rewrite Z.pow2_bits_false by lia. apply andb_false_r.
Qed.

Lemma mask_has_bound mask i n :
  0 ≤ i → 0 ≤ mask < 2 ^ n → 0 ≤ n → mask_has mask i = true → i < n.
Proof.
  intros Hi Hm Hn. rewrite mask_has_testbit by done. intros E.
  destruct (decide (i < n)); [done|].
  rewrite <-(Z.mod_small mask (2 ^ n)), Z.mod_pow2_bits_high in E by lia. done.
Qed.

Lemma mask_nth_lookup mask ordinal : 0 ≤ mask < 256 →
  0 ≤ ordinal < aetherfs_mask_count mask →
  members_of mask !! Z.to_nat ordinal = Some (aetherfs_mask_nth mask ordinal).
Proof.
  intros Hm Ho. rewrite mask_count_members in Ho by done. unfold len in Ho.
  rewrite mask_nth_members by lia.
  destruct (lookup_lt_is_Some_2 (members_of mask) (Z.to_nat ordinal)) as [x Hx]; [lia|].
  by rewrite Hx.
Qed.

Lemma mask_nth_ok mask ordinal n : 0 ≤ mask < 2 ^ n → 0 ≤ n ≤ 8 →
  0 ≤ ordinal < aetherfs_mask_count mask →
  0 ≤ aetherfs_mask_nth mask ordinal < n.
Proof.
  intros Hm Hn Ho.
  assert (2 ^ n ≤ 2 ^ 8) by (apply Z.pow_le_mono_r; lia).
  pose proof (mask_nth_lookup mask ordinal ltac:(lia) Ho) as Hl.
  apply list_elem_of_lookup_2, members_of_spec in Hl as [H1 H2].
  split; [lia|]. eapply mask_has_bound; [lia|exact Hm|lia|exact H2].
Qed.

Lemma mask_nth_inj mask a b : 0 ≤ mask < 256 →
  0 ≤ a < aetherfs_mask_count mask → 0 ≤ b < aetherfs_mask_count mask →
  aetherfs_mask_nth mask a = aetherfs_mask_nth mask b → a = b.
Proof.
  intros Hm Ha Hb E.
  pose proof (mask_nth_lookup mask a Hm Ha) as La.
  pose proof (mask_nth_lookup mask b Hm Hb) as Lb. rewrite <-E in Lb.
  pose proof (NoDup_lookup _ _ _ _ (NoDup_members_of mask) La Lb). lia.
Qed.

Lemma mask_count_pos mask : 0 < mask → 0 < aetherfs_mask_count mask.
Proof.
  intros Hm. destruct mask as [|p|p]; try lia. clear Hm. unfold aetherfs_mask_count, popcount.
  induction p; simpl; lia.
Qed.

(** The number of members of a usable image. *)
Definition members_ok (image : aetherfs_image) : Prop := 1 ≤ member_count image ≤ 8.

Lemma limited_mask_range image mask : members_ok image → 0 ≤ mask →
  0 < limited_mask image mask < 2 ^ member_count image.
Proof.
  intros Hc Hm. unfold limited_mask, aetherfs_pool_member_limit_mask, members_ok in *.
  destruct (Z.leb_spec 32 (member_count image)); [lia|].
  destruct (Z.eqb_spec (member_count image) 0); [lia|].
  rewrite Z.shiftl_1_l, u32_small; last first.
  { unfold is_u32. split; [lia|]. apply Z.pow_lt_mono_r; lia. }
  replace (2 ^ member_count image - 1) with (Z.ones (member_count image))
    by (rewrite Z.ones_equiv; lia).
  rewrite Z.land_ones by lia.
  pose proof (Z.mod_pos_bound mask (2 ^ member_count image) ltac:(lia)).
  assert (2 ^ 1 ≤ 2 ^ member_count image) by (apply Z.pow_le_mono_r; lia).
  destruct (Z.eqb_spec (mask mod 2 ^ member_count image) 0);
    destruct (Z.ltb_spec 0 (member_count image)); simpl; lia.
Qed.

(** ** Geometry *)

(** What an opened image guarantees to the mappings: at least one and at most
    eight members, and label fields and member sizes within their widths. *)
Record geometry_ok (image : aetherfs_image) : Prop := {
  geo_members : members_ok image;
  geo_label : wf (pool_label image);
  geo_blocks : Forall (λ m, is_u64 (m_blocks m)) (members image);
}.

Lemma zeroed_wf {A} `{OnDisk A} : wf (zeroed : A).
Proof.
  apply wf_decode; [apply is_bytes_zeros|]. rewrite len_zeros; unfold sizeof; lia.
Qed.

Lemma label_wf_fields label : wf label →
  is_u32 (pl_metadata_mask label) ∧ is_u32 (pl_data_mask label) ∧
  is_u32 (pl_log_mask label) ∧ is_u32 (pl_stripe_blocks label) ∧
  is_u64 (pl_logical_blocks label) ∧ Forall wf (pl_members label).
Proof.
  intros H. cbn in H. destruct_and!.
  repeat match goal with |- _ ∧ _ => split end; assumption.
Qed.

Lemma pool_member_wf_fields m : wf m →
  is_u64 (pm_total_blocks m) ∧ is_u64 (pm_data_blocks m).
Proof. intros H. cbn in H. destruct_and!. split; assumption. Qed.

Lemma get_pool_member_wf label index : wf label → wf (get_pool_member label index).
Proof.
  intros Hl. unfold get_pool_member.
  destruct (pl_members label !! Z.to_nat index) as [m|] eqn:E; [|apply zeroed_wf].
  apply label_wf_fields in Hl as (_ & _ & _ & _ & _ & Hm). eapply Forall_lookup_1; eauto.
Qed.

Lemma stripe_decompose r sb dm :
  0 ≤ r → 0 < sb → 0 < dm →
  let b := r / sb / dm * sb + r mod sb in
  0 ≤ b ∧ b ≤ r ∧ b / sb = r / sb / dm ∧ b mod sb = r mod sb ∧
  r = (r / sb / dm * dm + (r / sb) mod dm) * sb + r mod sb.
Proof.
  intros Hr Hsb Hdm b.
  pose proof (Z.mod_pos_bound r sb Hsb) as Hm.
  pose proof (Z.div_mod r sb ltac:(lia)) as E1.
  pose proof (Z.div_mod (r / sb) dm ltac:(lia)) as E2.
  pose proof (Z.mod_pos_bound (r / sb) dm Hdm) as Hm2.
  assert (0 ≤ r / sb) by (apply Z.div_pos; lia).
  assert (0 ≤ r / sb / dm) by (apply Z.div_pos; lia).
  assert (b / sb = r / sb / dm) by (symmetry; apply Z.div_unique with (r mod sb); lia).
  assert (b mod sb = r mod sb)
    by (symmetry; apply Z.mod_unique with (r / sb / dm); lia).
  repeat split; try done; nia.
Qed.

Lemma parity_decompose r sb dm :
  0 ≤ r → 0 < sb → 3 ≤ dm →
  let row := r / ((dm - 1) * sb) in
  let pos := r mod ((dm - 1) * sb) in
  let b := row * sb + pos mod sb in
  0 ≤ b ∧ b ≤ r ∧ b / sb = row ∧ b mod sb = pos mod sb ∧ 0 ≤ pos / sb < dm - 1 ∧
  r = row * ((dm - 1) * sb) + pos / sb * sb + pos mod sb.
Proof.
  intros Hr Hsb Hdm row pos b.
  assert (0 < (dm - 1) * sb) as Hrow by nia.
  pose proof (Z.div_mod r ((dm - 1) * sb) ltac:(lia)) as E1. fold row pos in E1.
  pose proof (Z.mod_pos_bound r ((dm - 1) * sb) Hrow) as Hp. fold pos in Hp.
  assert (0 ≤ row) by (apply Z.div_pos; lia).
  pose proof (Z.div_mod pos sb ltac:(lia)) as E2.
  pose proof (Z.mod_pos_bound pos sb Hsb) as Hm.
  assert (0 ≤ pos / sb) by (apply Z.div_pos; lia).
  assert (pos / sb < dm - 1) by (apply Z.div_lt_upper_bound; lia).
  assert (b / sb = row) by (symmetry; apply Z.div_unique with (pos mod sb); lia).
  assert (b mod sb = pos mod sb) by (symmetry; apply Z.mod_unique with row; lia).
  repeat split; try done; nia.
Qed.

Section geometry.
Context (image : aetherfs_image) (Hgeo : geometry_ok image).

Lemma data_mask_range :
  0 < aetherfs_pool_data_mask image < 2 ^ member_count image.
Proof.
  destruct Hgeo as [Hm Hl _]. apply limited_mask_range; [done|].
  apply label_wf_fields in Hl. unfold is_u32 in Hl. lia.
Qed.

Lemma member_count_pow : 2 ^ member_count image ≤ 256.
Proof.
  destruct Hgeo as [Hm _ _]. unfold members_ok in Hm.
  apply (Z.pow_le_mono_r 2 _ 8); lia.
Qed.

Lemma data_mask_small : 0 ≤ aetherfs_pool_data_mask image < 256.
Proof. pose proof data_mask_range. pose proof member_count_pow. lia. Qed.

Lemma data_members_bounds :
  1 ≤ aetherfs_mask_count (aetherfs_pool_data_mask image) ≤ 8.
Proof.
  pose proof data_mask_range as Hr.
  pose proof (mask_count_pos (aetherfs_pool_data_mask image)).
  rewrite mask_count_members by apply data_mask_small.
  rewrite mask_count_members in * by apply data_mask_small.
  pose proof (List.filter_length_le (mask_has (aetherfs_pool_data_mask image)) device_indices)
    as Hf. unfold members_of, len in *. change (length device_indices) with 8%nat in Hf. lia.
Qed.

Lemma total_blocks_u64 index : is_u64 (aetherfs_pool_member_total_blocks image index).
Proof.
  destruct Hgeo as [_ Hl Hb]. unfold aetherfs_pool_member_total_blocks.
  destruct (Z.eqb_spec (pm_total_blocks (get_pool_member (pool_label image) index)) 0).
  - unfold get_member. destruct (members image !! Z.to_nat index) as [m|] eqn:E; simpl.
    + by apply (Forall_lookup_1 _ _ _ _ Hb E).
    + unfold is_u64. lia.
  - apply pool_member_wf_fields, get_pool_member_wf, Hl.
Qed.

Lemma data_blocks_u64 index : is_u64 (aetherfs_pool_member_data_blocks image index).
Proof.
  pose proof (total_blocks_u64 index) as Ht. destruct Hgeo as [_ Hl _].
  pose proof (pool_member_wf_fields _ (get_pool_member_wf _ index Hl)) as [_ Hd].
  unfold aetherfs_pool_member_data_blocks. case_match eqn:E; [|done].
  apply andb_true_iff in E as [_ E]. apply Z.ltb_lt in E.
  unfold is_u64, AETHERFS_DATA_START_BLOCK in *. lia.
Qed.

(** *** Linear *)

Definition linear_sum (ordinals : list Z) : Z :=
  foldr (λ o acc, aetherfs_pool_member_data_blocks image
                    (aetherfs_mask_nth (aetherfs_pool_data_mask image) o) + acc) 0 ordinals.

Lemma linear_sum_nonneg ordinals : 0 ≤ linear_sum ordinals.
Proof.
  induction ordinals as [|o os IH]; simpl; [lia|].
  pose proof (data_blocks_u64 (aetherfs_mask_nth (aetherfs_pool_data_mask image) o)).
  unfold is_u64 in *. fold (linear_sum os) in *. lia.
Qed.

Lemma map_linear_loop_sound ordinals remaining m :
  0 ≤ remaining → remaining + 8 < 2 ^ 64 →
  map_linear_loop ordinals image (aetherfs_pool_data_mask image) remaining = Ok m →
  ∃ pre o post, ordinals = pre ++ o :: post ∧
    member_index m = aetherfs_mask_nth (aetherfs_pool_data_mask image) o ∧
    0 ≤ member_index m ∧
    0 ≤ member_block m - 8 < aetherfs_pool_member_data_blocks image (member_index m) ∧
    remaining = linear_sum pre + (member_block m - 8).
Proof.
  revert remaining. induction ordinals as [|o os IH]; intros r Hr Hlt; simpl; [done|].
  destruct (Z.ltb_spec (aetherfs_mask_nth (aetherfs_pool_data_mask image) o) 0); [done|].
  pose proof (data_blocks_u64 (aetherfs_mask_nth (aetherfs_pool_data_mask image) o)) as Hd.
  set (d := aetherfs_pool_member_data_blocks image
              (aetherfs_mask_nth (aetherfs_pool_data_mask image) o)) in *.
  unfold is_u64 in Hd.
  destruct (Z.ltb_spec r d) as [Hin|Hout].
  - intros Hm; inv_ok. exists [], o, os. cbn [member_index member_block app].
    unfold AETHERFS_DATA_START_BLOCK.
    rewrite u64_small by (unfold is_u64; lia). fold d.
    repeat split; try done; unfold linear_sum; cbn [foldr]; lia.
  - rewrite u64_small by (unfold is_u64; lia). intros Hm.
    apply IH in Hm as (pre & o' & post & -> & Hi & Hp & Hb & Hs); [|lia..].
    exists (o :: pre), o', post. cbn [app linear_sum foldr]. fold d. fold (linear_sum pre).
    repeat split; try done; lia.
Qed.

Lemma map_linear_loop_complete ordinals remaining :
  0 ≤ remaining < linear_sum ordinals → remaining + 8 < 2 ^ 64 →
  Forall (λ o, 0 ≤ aetherfs_mask_nth (aetherfs_pool_data_mask image) o) ordinals →
  is_ok (map_linear_loop ordinals image (aetherfs_pool_data_mask image) remaining) = true.
Proof.
  intros Hr Hlt Hf. revert remaining Hr Hlt.
  induction Hf as [|o os Ho Hf IH]; intros r Hr Hlt; simpl in *; [lia|].
  destruct (Z.ltb_spec (aetherfs_mask_nth (aetherfs_pool_data_mask image) o) 0); [lia|].
  pose proof (data_blocks_u64 (aetherfs_mask_nth (aetherfs_pool_data_mask image) o)) as Hd.
  fold (linear_sum os) in *.
  set (d := aetherfs_pool_member_data_blocks image
              (aetherfs_mask_nth (aetherfs_pool_data_mask image) o)) in *.
  unfold is_u64 in Hd.
  destruct (Z.ltb_spec r d) as [Hin|Hout]; [done|].
  rewrite u64_small by (unfold is_u64; lia). apply IH; lia.
Qed.

Lemma map_linear_inj l1 l2 m1 m2 :
  8 ≤ l1 < 2 ^ 64 → 8 ≤ l2 < 2 ^ 64 →
  aetherfs_pool_map_linear image l1 = Ok m1 → aetherfs_pool_map_linear image l2 = Ok m2 →
  member_index m1 = member_index m2 → member_block m1 = member_block m2 → l1 = l2.
Proof.
  unfold aetherfs_pool_map_linear, AETHERFS_DATA_START_BLOCK. intros H1 H2.
  rewrite !u64_small by (unfold is_u64; lia). intros E1 E2 Ei Eb.
  set (n := aetherfs_mask_count _) in *.
  apply map_linear_loop_sound in E1 as (p1 & o1 & q1 & L1 & I1 & _ & _ & S1); [|lia..].
  apply map_linear_loop_sound in E2 as (p2 & o2 & q2 & L2 & I2 & _ & _ & S2); [|lia..].
  assert (∀ p o q, seqZ 0 n = p ++ o :: q → o = len p ∧ 0 ≤ o < n) as Hpos.
  { intros p o q Hs. assert (seqZ 0 n !! length p = Some o) as Hl
      by (rewrite Hs; by apply list_lookup_middle).
    apply lookup_seqZ in Hl. unfold len. lia. }
  destruct (Hpos _ _ _ L1) as [P1 B1], (Hpos _ _ _ L2) as [P2 B2].
  assert (o1 = o2) as Eo.
  { apply (mask_nth_inj (aetherfs_pool_data_mask image)); [apply data_mask_small|done|done|congruence]. }
  assert (p1 = p2) as Ep.
  { assert (length p1 = length p2) by (unfold len in *; lia).
    rewrite L1 in L2. by apply app_inj_1 in L2 as [? _]. }
  rewrite Ep, Eb in S1. lia.
Qed.

(** *** Striped *)

Lemma map_stripe_inv l m :
  8 ≤ l < 2 ^ 64 → aetherfs_pool_map_stripe image l = Ok m →
  let dm := aetherfs_mask_count (aetherfs_pool_data_mask image) in
  let sb := pl_stripe_blocks (pool_label image) in
  let b := member_block m - 8 in
  ∃ ord, 0 ≤ ord < dm ∧ 0 < sb ∧ 0 ≤ b ∧
    member_index m = aetherfs_mask_nth (aetherfs_pool_data_mask image) ord ∧
    0 ≤ member_index m ∧
    member_block m < member_data_end image (member_index m) ∧
    l - 8 = (b / sb * dm + ord) * sb + b mod sb.
Proof.
  intros Hl H dm sb b. pose proof data_members_bounds as Hdm. fold dm in Hdm.
  assert (is_u32 sb) as Hsb by (apply label_wf_fields, Hgeo). unfold is_u32 in Hsb.
  unfold aetherfs_pool_map_stripe, AETHERFS_DATA_START_BLOCK in H. fold dm sb in H.
  inv_ok. bool_to_prop. subst b. cbn [member_index member_block] in *.
  rewrite (u64_small (l - 8)) in * by (unfold is_u64; lia). set (r := l - 8) in *.
  pose proof (Z.mod_pos_bound (r / sb) dm ltac:(lia)) as Hord.
  rewrite u32_small in * by (unfold is_u32; lia).
  destruct (stripe_decompose r sb dm) as (Hb0 & Hbr & Hdiv & Hmod & Hr); [lia..|].
  rewrite (u64_small (8 + _ + _)), <-(Z.add_assoc 8) in * by (unfold is_u64; lia).
  exists ((r / sb) mod dm). rewrite Z.add_simpl_l, Hdiv, Hmod. repeat split; try lia; done.
Qed.

Lemma map_stripe_inj l1 l2 m1 m2 :
  8 ≤ l1 < 2 ^ 64 → 8 ≤ l2 < 2 ^ 64 →
  aetherfs_pool_map_stripe image l1 = Ok m1 → aetherfs_pool_map_stripe image l2 = Ok m2 →
  member_index m1 = member_index m2 → member_block m1 = member_block m2 → l1 = l2.
Proof.
  intros H1 H2 E1 E2 Ei Eb.
  apply map_stripe_inv in E1 as (o1 & B1 & _ & _ & I1 & _ & _ & R1); [|done].
  apply map_stripe_inv in E2 as (o2 & B2 & _ & _ & I2 & _ & _ & R2); [|done].
  assert (o1 = o2) as ->.
  { eapply mask_nth_inj; [apply data_mask_small|done|done|congruence]. }
  rewrite Eb in R1. lia.
Qed.

(** *** Rotating parity *)

Lemma map_parity_inv l m :
  8 ≤ l < 2 ^ 64 → aetherfs_pool_map_parity image l = Ok m →
  let mask := aetherfs_pool_data_mask image in
  let dm := aetherfs_mask_count mask in
  let sb := pl_stripe_blocks (pool_label image) in
  let b := member_block m - 8 in
  ∃ ord par, 0 ≤ ord < dm ∧ par = (b / sb) mod dm ∧ ord ≠ par ∧
    3 ≤ dm ∧ 0 < sb ∧ 0 ≤ b ∧
    member_index m = aetherfs_mask_nth mask ord ∧
    parity_member_index m = aetherfs_mask_nth mask par ∧
    0 ≤ member_index m ∧ 0 ≤ parity_member_index m ∧
    member_block m < member_data_end image (member_index m) ∧
    member_block m < member_data_end image (parity_member_index m) ∧
    l - 8 = b / sb * ((dm - 1) * sb) + (if par <? ord then ord - 1 else ord) * sb + b mod sb.
Proof.
  intros Hl H mask dm sb b. pose proof data_members_bounds as Hdm. fold mask dm in Hdm.
  assert (is_u32 sb) as Hsb by (apply label_wf_fields, Hgeo). unfold is_u32 in Hsb.
  unfold aetherfs_pool_map_parity, AETHERFS_DATA_START_BLOCK in H. fold mask dm sb in H.
  inv_ok. bool_to_prop. subst b. cbn [member_index member_block parity_member_index] in *.
  rewrite (u64_small (l - 8)) in * by (unfold is_u64; lia). set (r := l - 8) in *.
  rewrite (u64_small ((dm - 1) * sb)) in * by (unfold is_u64; nia).
  destruct (parity_decompose r sb dm) as (Hb0 & Hbr & Hdiv & Hmod & Hd & Hr); [lia..|].
  set (row := r / ((dm - 1) * sb)) in *. set (pos := r mod ((dm - 1) * sb)) in *.
  pose proof (Z.mod_pos_bound row dm ltac:(lia)) as Hpar.
  rewrite (u32_small (row mod dm)), (u32_small (pos / sb)) in * by (unfold is_u32; lia).
  rewrite (u64_small (8 + _ + _)), <-(Z.add_assoc 8) in * by (unfold is_u64; lia).
  rewrite (u32_small (pos / sb + 1)) in * by (unfold is_u32; lia).
  exists (if row mod dm <=? pos / sb then pos / sb + 1 else pos / sb), (row mod dm).
  rewrite Z.add_simpl_l, Hdiv, Hmod.
  destruct (Z.leb_spec (row mod dm) (pos / sb)).
  - rewrite (proj2 (Z.ltb_lt (row mod dm) (pos / sb + 1))) by lia.
    rewrite Z.add_simpl_r. repeat split; try lia; done.
  - rewrite (proj2 (Z.ltb_ge (row mod dm) (pos / sb))) by lia.
    repeat split; try lia; done.
Qed.

Lemma map_parity_inj l1 l2 m1 m2 :
  8 ≤ l1 < 2 ^ 64 → 8 ≤ l2 < 2 ^ 64 →
  aetherfs_pool_map_parity image l1 = Ok m1 → aetherfs_pool_map_parity image l2 = Ok m2 →
  member_index m1 = member_index m2 → member_block m1 = member_block m2 → l1 = l2.
Proof.
  intros H1 H2 E1 E2 Ei Eb.
  apply map_parity_inv in E1 as (o1 & p1 & B1 & P1 & _ & _ & _ & _ & I1 & _ & _ & _ & _ & _ & R1);
    [|done].
  apply map_parity_inv in E2 as (o2 & p2 & B2 & P2 & _ & _ & _ & _ & I2 & _ & _ & _ & _ & _ & R2);
    [|done].
  assert (o1 = o2) as ->.
  { eapply mask_nth_inj; [apply data_mask_small|done|done|congruence]. }
  rewrite Eb in P1. rewrite <-P2 in P1. subst p1. rewrite Eb in R1. lia.
Qed.
End geometry.
