(* ===== verification/Blocks.v ===== *)
(** * Block access

    Reading and writing logical blocks of an opened image: the physical member
    access, the replicated bootstrap region, and the data region under each pool
    profile, from [aetherfsprogs/image.c]. *)

From S2P Require Import Prelude Codec Crc Format Integrity SysIo State Pool.

(** ** Physical members *)

(** [block * AETHERFS_DEF_BLOCK_SIZE], as the [uint64_t] handed to [pread]. *)
Definition block_offset (block : Z) : Z := u64 (block * AETHERFS_DEF_BLOCK_SIZE).

(** The offset is cast to [off_t]: above [2^63 - 1] the call fails. *)
Definition off_t_ok (offset : Z) : bool := offset <? 2 ^ 63.

Definition aetherfs_member_read_block (d : disks) (member : aetherfs_image_member)
    (block : Z) : result bytes :=
  return_if m_fd member <? 0 with EINVAL ;;
  match d !! m_fd member with
  | None => Err EBADF
  | Some data =>
      return_if negb (off_t_ok (block_offset block)) with EINVAL ;;
      read_at data (block_offset block) AETHERFS_DEF_BLOCK_SIZE
  end.

(** [pwrite] past the end: a regular file grows, with zeroes in the gap; a block
    device takes what fits and then fails. *)
Definition pwrite_file (is_block : bool) (data : bytes) (offset : Z) (buf : bytes)
    : result unit * bytes :=
  if offset + len buf <=? len data then (Ok tt, write_at data offset buf)
  else if is_block then
    (Err ENOSPC,
     if offset <? len data then write_at data offset (slice 0 (len data - offset) buf)
     else data)
  else (Ok tt, write_at (data ++ zeros (offset + len buf - len data)) offset buf).

Definition aetherfs_member_write_block (d : disks) (member : aetherfs_image_member)
    (block : Z) (buf : bytes) : result unit * disks :=
  if m_fd member <? 0 then (Err EINVAL, d)
  else match d !! m_fd member with
  | None => (Err EBADF, d)
  | Some data =>
      if negb (off_t_ok (block_offset block)) then (Err EINVAL, d)
      else
        let '(r, data') :=
          pwrite_file (m_is_block_device member) data (block_offset block) buf in
        (r, <[m_fd member := data']> d)
  end.

Definition aetherfs_image_read_physical_member (d : disks) (image : aetherfs_image)
    (index block : Z) : result bytes :=
  return_if member_count image <=? index with EINVAL ;;
  aetherfs_member_read_block d (get_member image index) block.

Definition aetherfs_image_write_physical_member (d : disks) (image : aetherfs_image)
    (index block : Z) (buf : bytes) : result unit * disks :=
  if member_count image <=? index then (Err EINVAL, d)
  else aetherfs_member_write_block d (get_member image index) block buf.

(** ** Logical blocks *)

(** The replica loop of [aetherfs_image_read_block]: the first readable copy. *)
Fixpoint read_replicas (ordinals : list Z) (d : disks) (image : aetherfs_image)
    (mask block : Z) : result bytes :=
  match ordinals with
  | [] => Err EIO
  | ordinal :: rest =>
      let index := aetherfs_mask_nth mask ordinal in
      if index <? 0 then Err EIO
      else match aetherfs_image_read_physical_member d image index block with
           | Ok buf => Ok buf
           | Err _ => read_replicas rest d image mask block
           end
  end.

Definition aetherfs_image_read_block (d : disks) (image : aetherfs_image) (block : Z)
    : result bytes :=
  if block <? AETHERFS_DATA_START_BLOCK then
    let mask := aetherfs_pool_role_mask_for_bootstrap_block image block in
    read_replicas (seqZ 0 (aetherfs_mask_count mask)) d image mask block
  else
    mapping ← aetherfs_pool_map_data_block image block;
    aetherfs_image_read_physical_member d image (member_index mapping) (member_block mapping).

(** The loop writing one block to every member of a mask. *)
Fixpoint write_replicas (ordinals : list Z) (d : disks) (image : aetherfs_image)
    (mask block : Z) (buf : bytes) : result unit * disks :=
  match ordinals with
  | [] => (Ok tt, d)
  | ordinal :: rest =>
      let index := aetherfs_mask_nth mask ordinal in
      if index <? 0 then (Ok tt, d)
      else match aetherfs_image_write_physical_member d image index block buf with
           | (Err e, d') => (Err e, d')
           | (Ok _, d') => write_replicas rest d' image mask block buf
           end
  end.

Definition xor_blocks (a b : bytes) : bytes := zip_with Z.lxor a b.

(** The read-modify-write of the parity profile. *)
Definition write_parity (d : disks) (image : aetherfs_image)
    (mapping : aetherfs_pool_mapping) (buf : bytes) : result unit * disks :=
  let block := member_block mapping in
  match aetherfs_image_read_physical_member d image (member_index mapping) block with
  | Err e => (Err e, d)
  | Ok old_data =>
      match aetherfs_image_read_physical_member d image (parity_member_index mapping) block with
      | Err e => (Err e, d)
      | Ok old_parity =>
          let new_parity := xor_blocks (xor_blocks old_parity old_data) buf in
          match aetherfs_image_write_physical_member d image
                  (parity_member_index mapping) block new_parity with
          | (Err e, d') => (Err e, d')
          | (Ok _, d') =>
              aetherfs_image_write_physical_member d' image (member_index mapping) block buf
          end
      end
  end.

Definition aetherfs_image_write_block (d : disks) (image : aetherfs_image) (block : Z)
    (buf : bytes) : result unit * disks :=
  if negb (writable image) then (Err EBADF, d)
  else if block <? AETHERFS_DATA_START_BLOCK then
    let mask := aetherfs_pool_role_mask_for_bootstrap_block image block in
    if mask =? 0 then (Err EINVAL, d)
    else write_replicas (seqZ 0 (aetherfs_mask_count mask)) d image mask block buf
  else
    match aetherfs_pool_map_data_block image block with
    | Err e => (Err e, d)
    | Ok mapping =>
        let profile := aetherfs_pool_profile image in
        if (profile =? AETHERFS_POOL_PROFILE_SINGLE) || (profile =? AETHERFS_POOL_PROFILE_TIERED)
           || (profile =? AETHERFS_POOL_PROFILE_STRIPE)
        then aetherfs_image_write_physical_member d image (member_index mapping)
               (member_block mapping) buf
        else if profile =? AETHERFS_POOL_PROFILE_MIRROR then
          let mask := aetherfs_pool_data_mask image in
          write_replicas (seqZ 0 (aetherfs_mask_count mask)) d image mask
            (member_block mapping) buf
        else if profile =? AETHERFS_POOL_PROFILE_PARITY then write_parity d image mapping buf
        else (Err EINVAL, d)
    end.

(** ** Physical frame lemmas *)

Lemma block_offset_small block : 0 ≤ block < 2 ^ 51 →
  block_offset block = block * 4096 ∧ off_t_ok (block_offset block) = true.
Proof.
  intros Hb. unfold block_offset, off_t_ok, AETHERFS_DEF_BLOCK_SIZE.
  rewrite u64_small by (unfold is_u64; lia). split; [done|]. apply Z.ltb_lt. lia.
Qed.

(** A write that reports success put the buffer in place and kept the rest. *)
Lemma pwrite_file_ok is_block data offset buf data' :
  0 ≤ offset → pwrite_file is_block data offset buf = (Ok tt, data') →
  read_at data' offset (len buf) = Ok buf ∧
  (∀ o n, 0 ≤ o → 0 ≤ n → (o + n ≤ offset ∨ offset + len buf ≤ o) → o + n ≤ len data →
     read_at data' o n = read_at data o n).
Proof.
  unfold pwrite_file, read_at, write_at. intros Ho H. pose proof (len_nonneg buf).
  pose proof (len_nonneg data).
  destruct (Z.leb_spec (offset + len buf) (len data)) as [Hin|Hout].
  - injection H as <-. rewrite len_splice by lia. split.
    + rewrite (proj2 (Z.leb_le _ _)) by lia. by rewrite slice_splice_eq by lia.
    + intros o n Ho1 Hn1 Hdj Hb. case_match; [|done]. f_equal.
      destruct Hdj; [by apply slice_splice_before|by apply slice_splice_after].
  - destruct is_block; [done|]. injection H as <-.
    set (ext := data ++ zeros (offset + len buf - len data)).
    assert (len ext = offset + len buf) as He by (unfold ext; rewrite len_app, len_zeros; lia).
    rewrite len_splice by lia. rewrite He. split.
    + rewrite (proj2 (Z.leb_le _ _)) by lia. by rewrite slice_splice_eq by lia.
    + intros o n Ho1 Hn1 Hdj Hb. rewrite !(proj2 (Z.leb_le _ _)) by lia. f_equal.
      destruct Hdj; [rewrite slice_splice_before by lia|lia].
      unfold ext. by apply slice_app_l.
Qed.

(** Distinct members have distinct descriptors. *)
Definition fds_distinct (image : aetherfs_image) : Prop :=
  ∀ i j, 0 ≤ i < member_count image → 0 ≤ j < member_count image →
    m_fd (get_member image i) = m_fd (get_member image j) → i = j.

Lemma read_physical_ok d image index block buf :
  aetherfs_image_read_physical_member d image index block = Ok buf ↔
  index < member_count image ∧ 0 ≤ m_fd (get_member image index) ∧
  off_t_ok (block_offset block) = true ∧
  ∃ data, d !! m_fd (get_member image index) = Some data ∧
    read_at data (block_offset block) 4096 = Ok buf.
Proof.
  unfold aetherfs_image_read_physical_member, aetherfs_member_read_block. split.
  - intros H. inv_ok. bool_to_prop.
    destruct (d !! _) as [data|]; [|done]. inv_ok. bool_to_prop.
    repeat split; [done..|]. by exists data.
  - intros (H1 & H2 & H3 & data & H4 & H5).
    rewrite (proj2 (Z.leb_gt _ _)), (proj2 (Z.ltb_ge _ _)), H4, H3 by lia. exact H5.
Qed.

Lemma write_physical_ok d image index block buf d' :
  aetherfs_image_write_physical_member d image index block buf = (Ok tt, d') ↔
  index < member_count image ∧ 0 ≤ m_fd (get_member image index) ∧
  off_t_ok (block_offset block) = true ∧
  ∃ data data', d !! m_fd (get_member image index) = Some data ∧
    pwrite_file (m_is_block_device (get_member image index)) data
      (block_offset block) buf = (Ok tt, data') ∧
    d' = <[m_fd (get_member image index) := data']> d.
Proof.
  unfold aetherfs_image_write_physical_member, aetherfs_member_write_block. split.
  - destruct (Z.leb_spec (member_count image) index); [done|].
    destruct (Z.ltb_spec (m_fd (get_member image index)) 0); [done|].
    destruct (d !! _) as [data|]; [|done].
    destruct (off_t_ok (block_offset block)); [|done]. simpl.
    destruct (pwrite_file _ _ _ _) as [r data'] eqn:E. intros [= -> <-]. eauto 10.
  - intros (H1 & H2 & H3 & data & data' & H4 & H5 & ->).
    rewrite (proj2 (Z.leb_gt _ _)), (proj2 (Z.ltb_ge _ _)), H4, H3 by lia. simpl.
    by rewrite H5.
Qed.

Lemma read_written_physical d image index block buf d' :
  len buf = 4096 →
  aetherfs_image_write_physical_member d image index block buf = (Ok tt, d') →
  aetherfs_image_read_physical_member d' image index block = Ok buf.
Proof.
  intros Hb (H1 & H2 & H3 & data & data' & H4 & H5 & ->)%write_physical_ok.
  apply read_physical_ok. repeat split; [done..|]. exists data'.
  rewrite lookup_insert_eq. split; [done|].
  apply pwrite_file_ok in H5 as [H5 _]; [by rewrite Hb in H5|].
  pose proof (u64_range (block * AETHERFS_DEF_BLOCK_SIZE)) as Hr. apply Hr.
Qed.

(** Another block of a member, or any block of another member, is kept. *)
Lemma read_physical_frame d image index block buf d' index' block' old :
  fds_distinct image → len buf = 4096 →
  aetherfs_image_write_physical_member d image index block buf = (Ok tt, d') →
  aetherfs_image_read_physical_member d image index' block' = Ok old →
  0 ≤ index → 0 ≤ index' → 0 ≤ block < 2 ^ 51 → 0 ≤ block' < 2 ^ 51 →
  (index, block) ≠ (index', block') →
  aetherfs_image_read_physical_member d' image index' block' = Ok old.
Proof.
  intros Hfd Hb (H1 & H2 & H3 & data & data' & H4 & H5 & ->)%write_physical_ok.
  rewrite !read_physical_ok. intros (R1 & R2 & R3 & rdata & R4 & R5) Hi Hi' Hbl Hbl' Hne.
  repeat split; [done..|].
  destruct (decide (m_fd (get_member image index) = m_fd (get_member image index'))) as [E|E].
  - apply Hfd in E as <-; [|lia..]. exists data'. rewrite lookup_insert_eq.
    split; [done|]. rewrite H4 in R4. injection R4 as <-.
    assert (block ≠ block') by congruence.
    destruct (block_offset_small block Hbl) as [Eo _], (block_offset_small block' Hbl') as [Eo' _].
    apply pwrite_file_ok in H5 as [_ Hf]; [|lia]. rewrite Hf; [done|lia..|].
    unfold read_at in R5. case_match eqn:EE; [|done]. apply Z.leb_le in EE. lia.
  - exists rdata. by rewrite lookup_insert_ne.
Qed.

(** ** Replicated writes *)

Lemma write_replicas_ok ordinals d image mask block buf d' :
  fds_distinct image → len buf = 4096 → 0 ≤ block < 2 ^ 51 →
  Forall (λ o, 0 ≤ aetherfs_mask_nth mask o) ordinals →
  write_replicas ordinals d image mask block buf = (Ok tt, d') →
  (∀ o, o ∈ ordinals →
     aetherfs_image_read_physical_member d' image (aetherfs_mask_nth mask o) block = Ok buf) ∧
  (∀ index' block' old, 0 ≤ index' → 0 ≤ block' < 2 ^ 51 →
     (∀ o, o ∈ ordinals → (aetherfs_mask_nth mask o, block) ≠ (index', block')) →
     aetherfs_image_read_physical_member d image index' block' = Ok old →
     aetherfs_image_read_physical_member d' image index' block' = Ok old).
Proof.
  intros Hfd Hb Hbl Hf. revert d. induction Hf as [|o os Ho Hf IH]; intros d.
  { intros [= <-]. split; [by intros o ?%not_elem_of_nil|done]. }
  cbn [write_replicas]. rewrite (proj2 (Z.ltb_ge _ _)) by done.
  destruct (aetherfs_image_write_physical_member d image (aetherfs_mask_nth mask o) block buf)
    as [[[]|e] d1] eqn:E; [|done].
  intros Hw. destruct (IH _ Hw) as [Hread Hframe]. split.
  - intros o' [->|Hin]%elem_of_cons; [|by apply Hread].
    destruct (decide (aetherfs_mask_nth mask o ∈ aetherfs_mask_nth mask <$> os)) as [Hin|Hnin].
    + apply list_elem_of_fmap in Hin as (o' & -> & Hin). by apply Hread.
    + apply Hframe; [done|lia| |by eapply read_written_physical].
      intros o' Hin' [= Eo]. apply Hnin. rewrite <-Eo. by apply list_elem_of_fmap_2.
  - intros index' block' old Hi Hb' Hne Hold. apply Hframe; [done|lia| |].
    + intros o' Hin. apply Hne. by apply elem_of_cons; right.
    + apply (read_physical_frame d image (aetherfs_mask_nth mask o) block buf d1); try done.
      apply Hne. by apply elem_of_cons; left.
Qed.

Lemma read_replicas_first ordinals d image mask block buf :
  Forall (λ o, 0 ≤ aetherfs_mask_nth mask o) ordinals → ordinals ≠ [] →
  (∀ o, o ∈ ordinals →
     aetherfs_image_read_physical_member d image (aetherfs_mask_nth mask o) block = Ok buf) →
  read_replicas ordinals d image mask block = Ok buf.
Proof.
  intros Hf Hne Hr. destruct Hf as [|o os Ho Hf]; [done|]. simpl.
  rewrite (proj2 (Z.ltb_ge _ _)) by done. rewrite Hr; [done|]. by apply elem_of_cons; left.
Qed.

(** Reading replicas after some other block changed, when no replica failed. *)
Lemma read_replicas_frame ordinals d d' image mask block old :
  (∀ o, o ∈ ordinals → ∃ r,
     aetherfs_image_read_physical_member d image (aetherfs_mask_nth mask o) block = Ok r ∧
     aetherfs_image_read_physical_member d' image (aetherfs_mask_nth mask o) block = Ok r) →
  read_replicas ordinals d image mask block = Ok old →
  read_replicas ordinals d' image mask block = Ok old.
Proof.
  destruct ordinals as [|o os]; intros Hr; [done|]. simpl.
  destruct (aetherfs_mask_nth mask o <? 0); [done|].
  destruct (Hr o) as (r & -> & ->); [|done]. by apply elem_of_cons; left.
Qed.

(** ** Logical round trip and frame *)

(** What an image opened on members of sane size guarantees to block access:
    no byte offset reaches the sign bit of [off_t]. *)
Record access_ok (image : aetherfs_image) : Prop := {
  acc_geo : geometry_ok image;
  acc_fds : fds_distinct image;
  acc_sizes : ∀ index, aetherfs_pool_member_data_blocks image index ≤ 2 ^ 51 - 8;
}.

Lemma role_mask_range image block : geometry_ok image →
  0 < aetherfs_pool_role_mask_for_bootstrap_block image block < 2 ^ member_count image.
Proof.
  intros [Hm Hl _]. apply label_wf_fields in Hl as (Hmeta & _ & Hlog & _).
  unfold is_u32 in *.
  assert (0 < aetherfs_pool_metadata_mask image < 2 ^ member_count image)
    by (apply limited_mask_range; [done|lia]).
  unfold aetherfs_pool_role_mask_for_bootstrap_block. case_match; [|done].
  pose proof (limited_mask_range image (pl_log_mask (pool_label image)) Hm ltac:(lia)) as Hr.
  unfold limited_mask in Hr. unfold aetherfs_pool_log_mask.
  destruct (Z.eqb_spec (Z.land (pl_log_mask (pool_label image))
    (aetherfs_pool_member_limit_mask image)) 0); [done|]. by simpl in Hr.
Qed.

Lemma mask_ordinals_ok image mask : geometry_ok image → 0 < mask < 2 ^ member_count image →
  Forall (λ o, 0 ≤ aetherfs_mask_nth mask o < member_count image)
    (seqZ 0 (aetherfs_mask_count mask)) ∧ seqZ 0 (aetherfs_mask_count mask) ≠ [].
Proof.
  intros [Hm _ _] Hr. unfold members_ok in Hm. split.
  - apply Forall_forall. intros o [Ho1 Ho2]%elem_of_seqZ.
    apply mask_nth_ok; lia.
  - pose proof (mask_count_pos mask ltac:(lia)). rewrite seqZ_cons by lia. done.
Qed.

Lemma ordinals_nonneg image mask : geometry_ok image → 0 < mask < 2 ^ member_count image →
  Forall (λ o, 0 ≤ aetherfs_mask_nth mask o) (seqZ 0 (aetherfs_mask_count mask)).
Proof.
  intros Hg Hr. eapply Forall_impl; [apply (mask_ordinals_ok image mask Hg Hr)|].
  intros o Ho. simpl in Ho. lia.
Qed.

Lemma mask_first_ok image mask : geometry_ok image → 0 < mask < 2 ^ member_count image →
  aetherfs_mask_first mask = aetherfs_mask_nth mask 0.
Proof.
  intros _ _. rewrite mask_first_members, mask_nth_members by lia.
  by destruct (members_of mask).
Qed.

Lemma map_data_block_bounds image l m : access_ok image → 8 ≤ l < 2 ^ 51 →
  aetherfs_pool_map_data_block image l = Ok m →
  0 ≤ member_index m < member_count image ∧ 8 ≤ member_block m < 2 ^ 51.
Proof.
  intros [Hg _ Hs] Hl. unfold aetherfs_pool_map_data_block.
  pose proof (data_mask_range image Hg) as Hr.
  pose proof (mask_ordinals_ok image _ Hg Hr) as [Hall _].
  rewrite Forall_forall in Hall. setoid_rewrite elem_of_seqZ in Hall.
  assert (∀ index, member_data_end image index ≤ 2 ^ 51) as Hend.
  { intros index. pose proof (data_blocks_u64 image Hg index). unfold is_u64 in *.
    specialize (Hs index). unfold member_data_end, AETHERFS_DATA_START_BLOCK.
    rewrite u64_small; unfold is_u64; lia. }
  repeat case_match; [..|done].
  - intros H1. unfold aetherfs_pool_map_linear in H1.
    rewrite u64_small in H1 by (unfold is_u64, AETHERFS_DATA_START_BLOCK; lia).
    apply map_linear_loop_sound in H1 as (pre & o & post & Eo & -> & _ & Hb & _);
      [|done|unfold AETHERFS_DATA_START_BLOCK; lia..].
    split.
    + apply Hall. rewrite <-elem_of_seqZ, Eo, elem_of_app, elem_of_cons. auto.
    + specialize (Hs (aetherfs_mask_nth (aetherfs_pool_data_mask image) o)). lia.
  - intros H1. unfold aetherfs_pool_map_mirror in H1. inv_ok.
    cbn [member_index member_block]. rewrite (mask_first_ok image) by done. split; [|lia].
    apply Hall. pose proof (mask_count_pos (aetherfs_pool_data_mask image)). lia.
  - intros (o & Ho & _ & Hb & -> & _ & He & _)%map_stripe_inv; [|done|lia].
    split; [apply Hall; lia|]. specialize (Hend (aetherfs_mask_nth (aetherfs_pool_data_mask image) o)). lia.
  - intros (o & p & Ho & _ & _ & _ & _ & Hb & -> & _ & _ & _ & He & _)%map_parity_inv; [|done|lia].
    split; [apply Hall; lia|]. specialize (Hend (aetherfs_mask_nth (aetherfs_pool_data_mask image) o)). lia.
Qed.

Lemma map_data_block_inj image l1 l2 m1 m2 : geometry_ok image →
  8 ≤ l1 < 2 ^ 64 → 8 ≤ l2 < 2 ^ 64 →
  aetherfs_pool_map_data_block image l1 = Ok m1 →
  aetherfs_pool_map_data_block image l2 = Ok m2 →
  member_index m1 = member_index m2 → member_block m1 = member_block m2 → l1 = l2.
Proof.
  intros Hg H1 H2. unfold aetherfs_pool_map_data_block. repeat case_match; [..|done].
  - by apply map_linear_inj.
  - unfold aetherfs_pool_map_mirror. intros E1 E2. inv_ok. done.
  - by apply map_stripe_inj.
  - by apply map_parity_inj.
Qed.

(** The physical blocks a logical write may change. *)
Definition touched (image : aetherfs_image) (block i b : Z) : Prop :=
  if block <? AETHERFS_DATA_START_BLOCK then b = block
  else ∃ m, aetherfs_pool_map_data_block image block = Ok m ∧ b = member_block m ∧
       (i = member_index m ∨ aetherfs_pool_profile image = AETHERFS_POOL_PROFILE_MIRROR ∨
        aetherfs_pool_profile image = AETHERFS_POOL_PROFILE_PARITY ∧ i = parity_member_index m).

Definition keeps_untouched (image : aetherfs_image) (block : Z) (d d' : disks) : Prop :=
  ∀ i b old, 0 ≤ i → 0 ≤ b < 2 ^ 51 → ¬ touched image block i b →
    aetherfs_image_read_physical_member d image i b = Ok old →
    aetherfs_image_read_physical_member d' image i b = Ok old.

Lemma parity_members image l m : access_ok image → 8 ≤ l < 2 ^ 51 →
  aetherfs_pool_map_parity image l = Ok m →
  0 ≤ parity_member_index m ∧ parity_member_index m ≠ member_index m.
Proof.
  intros [Hg _ _] Hl (o & p & Ho & Hp & Hne & H3 & Hsb & _ & -> & -> & _ & Hpp & _)%map_parity_inv;
    [|done|lia].
  split; [done|]. intros E. apply Hne. symmetry.
  eapply mask_nth_inj; [by apply data_mask_small| |done|exact E].
  rewrite Hp. apply Z.mod_pos_bound. lia.
Qed.

Lemma write_parity_ok image l m d d' buf :
  access_ok image → 8 ≤ l < 2 ^ 51 → len buf = 4096 →
  aetherfs_pool_map_parity image l = Ok m → 0 ≤ member_index m → 0 ≤ member_block m < 2 ^ 51 →
  write_parity d image m buf = (Ok tt, d') →
  aetherfs_image_read_physical_member d' image (member_index m) (member_block m) = Ok buf ∧
  (∃ old_data old_parity,
     aetherfs_image_read_physical_member d image (member_index m) (member_block m) = Ok old_data ∧
     aetherfs_image_read_physical_member d image (parity_member_index m) (member_block m) = Ok old_parity ∧
     aetherfs_image_read_physical_member d' image (parity_member_index m) (member_block m)
       = Ok (xor_blocks (xor_blocks old_parity old_data) buf)) ∧
  (∀ i b old, 0 ≤ i → 0 ≤ b < 2 ^ 51 →
     (i, b) ≠ (member_index m, member_block m) → (i, b) ≠ (parity_member_index m, member_block m) →
     aetherfs_image_read_physical_member d image i b = Ok old →
     aetherfs_image_read_physical_member d' image i b = Ok old).
Proof.
  intros Hacc Hl Hb Hm Hi Hbl. destruct (parity_members image l m Hacc Hl Hm) as [Hp Hne].
  pose proof (acc_fds _ Hacc) as Hfd. unfold write_parity.
  destruct (aetherfs_image_read_physical_member d image (member_index m) (member_block m))
    as [old|] eqn:Eo; [|done].
  destruct (aetherfs_image_read_physical_member d image (parity_member_index m) (member_block m))
    as [par|] eqn:Ep; [|done].
  set (np := xor_blocks (xor_blocks par old) buf).
  destruct (aetherfs_image_write_physical_member d image (parity_member_index m) (member_block m) np)
    as [[[]|] d1] eqn:E1; [|done]. intros E2.
  assert (∀ r i b x, aetherfs_image_read_physical_member r image i b = Ok x → len x = 4096) as Hlen.
  { intros r i b x (_ & _ & _ & data & _ & Hr)%read_physical_ok. unfold read_at in Hr.
    case_match eqn:EE; [|done]. injection Hr as <-. apply Z.leb_le in EE.
    apply len_slice; [|lia|lia].
    pose proof (u64_range (b * AETHERFS_DEF_BLOCK_SIZE)) as Hu. apply Hu. }
  assert (len np = 4096) as Hnp.
  { apply Hlen in Eo, Ep. unfold np, xor_blocks, len in *. rewrite !length_zip_with. lia. }
  repeat split.
  - by eapply read_written_physical.
  - exists old, par. repeat split.
    eapply read_physical_frame; [done|exact Hb|exact E2| |done..|].
    + by eapply read_written_physical.
    + intros [= ?]. congruence.
  - intros i b x Hi0 Hb0 H1 H2 Hx.
    eapply read_physical_frame; [done|exact Hb|exact E2| |done..|congruence].
    eapply read_physical_frame; [done|exact Hnp|exact E1|exact Hx|done..|congruence].
Qed.

(** A mirrored write is read back from the first data member. *)
Lemma write_mirror_ok image block m d d' buf :
  access_ok image → 8 ≤ block → 0 ≤ member_block m < 2 ^ 51 → len buf = 4096 →
  aetherfs_pool_profile image = AETHERFS_POOL_PROFILE_MIRROR →
  aetherfs_pool_map_data_block image block = Ok m →
  write_replicas (seqZ 0 (aetherfs_mask_count (aetherfs_pool_data_mask image))) d image
    (aetherfs_pool_data_mask image) (member_block m) buf = (Ok tt, d') →
  aetherfs_image_read_physical_member d' image (member_index m) (member_block m) = Ok buf ∧
  ∀ i b old, 0 ≤ i → 0 ≤ b < 2 ^ 51 → b ≠ member_block m →
    aetherfs_image_read_physical_member d image i b = Ok old →
    aetherfs_image_read_physical_member d' image i b = Ok old.
Proof.
  intros [Hg Hfd _] Hbl Hmb Hb Emi Em Hw. pose proof (data_mask_range image Hg) as Hr.
  apply write_replicas_ok in Hw as [Hread Hframe]; [|done|done|lia|by apply (ordinals_nonneg image)].
  split.
  - replace (member_index m) with (aetherfs_mask_nth (aetherfs_pool_data_mask image) 0).
    + apply Hread, elem_of_seqZ. pose proof (mask_count_pos (aetherfs_pool_data_mask image)). lia.
    + rewrite <-(mask_first_ok image) by done. unfold aetherfs_pool_map_data_block in Em.
      rewrite Emi in Em. simpl in Em. unfold aetherfs_pool_map_mirror in Em. by inv_ok.
  - intros i b old Hi0 Hb0 Hne. apply Hframe; [done|done|]. intros o _ [= _ ?]. by apply Hne.
Qed.

Lemma write_block_ok image block d d' buf :
  access_ok image → 0 ≤ block < 2 ^ 51 → len buf = 4096 →
  aetherfs_image_write_block d image block buf = (Ok tt, d') →
  aetherfs_image_read_block d' image block = Ok buf ∧ keeps_untouched image block d d'.
Proof.
  intros Hacc Hbl Hb. pose proof Hacc as [Hg Hfd _].
  unfold aetherfs_image_write_block, aetherfs_image_read_block, keeps_untouched, touched.
  destruct (writable image); [|done]. simpl.
  destruct (Z.ltb_spec block AETHERFS_DATA_START_BLOCK) as [Hlt|Hge].
  - pose proof (role_mask_range image block Hg) as Hr.
    set (mask := aetherfs_pool_role_mask_for_bootstrap_block image block) in *.
    destruct (Z.eqb_spec mask 0); [done|]. intros Hw.
    apply write_replicas_ok in Hw as [Hread Hframe]; [|done..|by apply (ordinals_nonneg image)].
    split.
    + apply read_replicas_first; [by apply (ordinals_nonneg image)| |done].
      by apply (mask_ordinals_ok image).
    + intros i b old Hi Hb0 Hnt. apply Hframe; [done|done|]. intros o _ [= _ ?]. by apply Hnt.
  - destruct (aetherfs_pool_map_data_block image block) as [m|] eqn:Em; [|done]. simpl.
    destruct (map_data_block_bounds image block m Hacc) as [Hi Hmb];
      [unfold AETHERFS_DATA_START_BLOCK in *; lia|done|].
    destruct ((aetherfs_pool_profile image =? AETHERFS_POOL_PROFILE_SINGLE) ||
       (aetherfs_pool_profile image =? AETHERFS_POOL_PROFILE_TIERED) ||
       (aetherfs_pool_profile image =? AETHERFS_POOL_PROFILE_STRIPE)) eqn:Ep; [|
    destruct (Z.eqb_spec (aetherfs_pool_profile image) AETHERFS_POOL_PROFILE_MIRROR) as [Emi|Emi];
      [|destruct (Z.eqb_spec (aetherfs_pool_profile image) AETHERFS_POOL_PROFILE_PARITY) as [Epa|Epa];
        [|done]]].
    + intros Hw. split; [by eapply read_written_physical|].
      intros i b old Hi0 Hb0 Hnt Hold.
      eapply read_physical_frame; [done|exact Hb|exact Hw|exact Hold|lia..|].
      intros [= <- <-]. apply Hnt. eauto.
    + intros Hw. apply (write_mirror_ok image block m) in Hw as [Hread Hframe];
        [|done|unfold AETHERFS_DATA_START_BLOCK in *; lia|lia|done..].
      split; [done|]. intros i b old Hi0 Hb0 Hnt. apply Hframe; [done|done|].
      intros ->. apply Hnt. eauto 10.
    + intros Hw. assert (aetherfs_pool_map_parity image block = Ok m) as Emp.
      { unfold aetherfs_pool_map_data_block in Em. by rewrite Epa in Em. }
      apply (write_parity_ok image block) in Hw as (Hread & _ & Hframe);
        [|done|unfold AETHERFS_DATA_START_BLOCK in *; lia|done|done|lia|lia].
      split; [done|]. intros i b old Hi0 Hb0 Hnt. apply Hframe; [done|done|..].
      * intros [= -> ->]. apply Hnt. eauto.
      * intros [= -> ->]. apply Hnt. eauto 10.
Qed.

(** What a read of another logical block sees when the untouched physical blocks
    are kept. *)
Lemma read_block_frame image block d d' :
  access_ok image → 0 ≤ block < 2 ^ 51 → keeps_untouched image block d d' →
  ∀ block' old, 0 ≤ block' < 2 ^ 51 → block' ≠ block →
    aetherfs_image_read_block d image block' = Ok old →
    (block' < 8 → ∀ index, index ∈ members_of (aetherfs_pool_role_mask_for_bootstrap_block image block') →
       is_ok (aetherfs_image_read_physical_member d image index block') = true) →
    aetherfs_image_read_block d' image block' = Ok old.
Proof.
  intros Hacc Hbl Hkeep. pose proof (acc_geo _ Hacc) as Hg.
  intros block' old Hbl' Hne Hold Hrep. unfold aetherfs_image_read_block in *.
  destruct (Z.ltb_spec block' AETHERFS_DATA_START_BLOCK) as [Hlt|Hge];
    unfold AETHERFS_DATA_START_BLOCK in *.
  - revert Hold. apply read_replicas_frame. intros o Ho.
    pose proof (role_mask_range image block' Hg) as Hr.
    pose proof (mask_ordinals_ok image _ Hg Hr) as [Hall _].
    rewrite Forall_forall in Hall. specialize (Hall o Ho). apply elem_of_seqZ in Ho.
    pose proof (member_count_pow image Hg).
    assert (is_ok (aetherfs_image_read_physical_member d image
      (aetherfs_mask_nth (aetherfs_pool_role_mask_for_bootstrap_block image block') o) block')
      = true) as Hok.
    { apply Hrep; [lia|]. eapply list_elem_of_lookup_2, mask_nth_lookup; lia. }
    destruct (aetherfs_image_read_physical_member d image _ block') as [r|] eqn:E; [|done].
    exists r. split; [done|]. apply Hkeep; [lia|lia| |done].
    unfold touched, AETHERFS_DATA_START_BLOCK. case_match eqn:EE; [lia|].
    intros (m & Em & Eb & _). apply Z.ltb_ge in EE.
    apply (map_data_block_bounds image block m Hacc) in Em; lia.
  - destruct (aetherfs_pool_map_data_block image block') as [m'|] eqn:Em'; [|done]. simpl in *.
    pose proof (map_data_block_bounds image block' m' Hacc ltac:(lia) Em') as [Hi' Hb'].
    apply Hkeep; [lia|lia| |done].
    unfold touched, AETHERFS_DATA_START_BLOCK. case_match eqn:EE.
    + apply Z.ltb_lt in EE. lia.
    + apply Z.ltb_ge in EE. intros (m & Em & Eb & Ht). apply Hne.
      destruct Ht as [Ei|[Emi|[Epa Ei]]].
      * eapply map_data_block_inj; eauto; lia.
      * unfold aetherfs_pool_map_data_block in Em, Em'. rewrite Emi in Em, Em'. simpl in Em, Em'.
        unfold aetherfs_pool_map_mirror in Em, Em'. by inv_ok.
      * exfalso. unfold aetherfs_pool_map_data_block in Em, Em'. rewrite Epa in Em, Em'.
        simpl in Em, Em'. destruct (parity_members image block' m' Hacc ltac:(lia) Em') as [_ Hne'].
        apply map_parity_inv in Em as (o1 & p1 & _ & P1 & _ & _ & _ & _ & _ & I1 & _); [|done|lia].
        apply map_parity_inv in Em' as (o2 & p2 & _ & P2 & _ & _ & _ & _ & _ & I2 & _); [|done|lia].
        rewrite Eb, <-P1 in P2. subst p2. congruence.
Qed.

(** ** Parity rows *)

(** The inner loop of [aetherfs_image_validate_parity]: the exclusive or of one
    member block over all data members. *)
Fixpoint row_parity (ordinals : list Z) (d : disks) (image : aetherfs_image)
    (mask block : Z) (parity : bytes) : result bytes :=
  match ordinals with
  | [] => Ok parity
  | ordinal :: rest =>
      let index := aetherfs_mask_nth mask ordinal in
      return_if index <? 0 with EINVAL ;;
      buf ← aetherfs_image_read_physical_member d image index block;
      row_parity rest d image mask block (xor_blocks parity buf)
  end.

Definition pool_row_parity (d : disks) (image : aetherfs_image) (block : Z) : result bytes :=
  let mask := aetherfs_pool_data_mask image in
  row_parity (seqZ 0 (aetherfs_mask_count mask)) d image mask block
    (zeros AETHERFS_DEF_BLOCK_SIZE).

Lemma xor_blocks_comm a b : xor_blocks a b = xor_blocks b a.
Proof.
  unfold xor_blocks. revert b. induction a as [|x a IH]; intros [|y b]; simpl; [done..|].
  by rewrite IH, Z.lxor_comm.
Qed.

Lemma xor_blocks_assoc a b c :
  xor_blocks (xor_blocks a b) c = xor_blocks a (xor_blocks b c).
Proof.
  unfold xor_blocks. revert b c. induction a as [|x a IH]; intros [|y b] [|z c]; simpl; [done..|].
  by rewrite IH, Z.lxor_assoc.
Qed.

Lemma len_xor_blocks a b n : len a = n → len b = n → len (xor_blocks a b) = n.
Proof. unfold len, xor_blocks. intros. rewrite length_zip_with. lia. Qed.

(** Exclusive or with the same block twice cancels. *)
Lemma xor_blocks_cancel a b : len a = len b → xor_blocks (xor_blocks a b) b = a.
Proof.
  unfold len, xor_blocks. revert b.
  induction a as [|x a IH]; intros [|y b] Hl; simpl in *; try lia; [done|].
  rewrite IH by lia. by rewrite Z.lxor_assoc, Z.lxor_nilpotent, Z.lxor_0_r.
Qed.

Lemma foldl_xor_perm z (l k : list bytes) :
  l ≡ₚ k → foldl xor_blocks z l = foldl xor_blocks z k.
Proof.
  intros Hp. revert z. induction Hp as [| |x y l|l k m H1 IH1 H2 IH2]; intros z; simpl; auto.
  - f_equal. by rewrite !xor_blocks_assoc, (xor_blocks_comm x).
  - by rewrite IH1.
Qed.

Definition read_or_nil (d : disks) (image : aetherfs_image) (mask block o : Z) : bytes :=
  match aetherfs_image_read_physical_member d image (aetherfs_mask_nth mask o) block with
  | Ok buf => buf
  | Err _ => []
  end.

Lemma row_parity_ok ordinals d image mask block z p :
  Forall (λ o, 0 ≤ aetherfs_mask_nth mask o) ordinals →
  row_parity ordinals d image mask block z = Ok p ↔
  Forall (λ o, is_ok (aetherfs_image_read_physical_member d image
                        (aetherfs_mask_nth mask o) block) = true) ordinals ∧
  p = foldl xor_blocks z (read_or_nil d image mask block <$> ordinals).
Proof.
  intros Hf. revert z. induction Hf as [|o os Ho Hf IH]; intros z.
  { simpl. split; [intros [= ->]; done|intros [_ ->]; done]. }
  cbn [row_parity]. rewrite (proj2 (Z.ltb_ge _ _)), Forall_cons by done. simpl.
  unfold read_or_nil at 1.
  destruct (aetherfs_image_read_physical_member d image (aetherfs_mask_nth mask o) block)
    as [x|]; simpl; [|naive_solver].
  rewrite IH. naive_solver.
Qed.

Lemma read_physical_len d image i b x :
  aetherfs_image_read_physical_member d image i b = Ok x → len x = 4096.
Proof.
  intros (_ & _ & _ & data & _ & Hr)%read_physical_ok. unfold read_at in Hr.
  case_match eqn:EE; [|done]. injection Hr as <-. apply Z.leb_le in EE.
  apply len_slice; [|lia|lia].
  pose proof (u64_range (b * AETHERFS_DEF_BLOCK_SIZE)) as Hu. apply Hu.
Qed.

Lemma perm_two (l : list Z) a b :
  NoDup l → a ∈ l → b ∈ l → a ≠ b → ∃ k, l ≡ₚ (a :: b :: k) ∧ (a ∉ k) ∧ (b ∉ k).
Proof.
  intros Hnd Ha Hb Hne. apply list_elem_of_split in Ha as (l1 & l2 & ->).
  assert (b ∈ l1 ++ l2) as Hb' by set_solver.
  apply list_elem_of_split in Hb' as (k1 & k2 & Ek).
  exists (k1 ++ k2).
  assert (l1 ++ a :: l2 ≡ₚ (a :: b :: k1 ++ k2)) as Hp.
  { rewrite <-Permutation_middle. constructor. by rewrite Ek, <-Permutation_middle. }
  split; [done|]. rewrite Hp in Hnd.
  apply NoDup_cons in Hnd as [H1 H2]. apply NoDup_cons in H2 as [H2 _]. set_solver.
Qed.

Lemma xor_swap z old par buf :
  len old = 4096 → len par = 4096 → len buf = 4096 → len z = 4096 →
  xor_blocks (xor_blocks z buf) (xor_blocks (xor_blocks par old) buf) =
  xor_blocks (xor_blocks z old) par.
Proof.
  intros H1 H2 H3 H4.
  rewrite <-(xor_blocks_assoc (xor_blocks z buf)), (xor_blocks_assoc z buf).
  rewrite (xor_blocks_comm buf), <-xor_blocks_assoc.
  rewrite xor_blocks_cancel.
  - by rewrite (xor_blocks_comm par old), <-xor_blocks_assoc.
  - rewrite (len_xor_blocks _ _ 4096); [done|done|]. by apply len_xor_blocks.
Qed.

(** Replacing one block and correcting the parity leaves the sum of a row as it is. *)
Lemma parity_sum_kept (f g : Z → bytes) (l : list Z) od op z buf :
  NoDup l → od ∈ l → op ∈ l → od ≠ op →
  len (f od) = 4096 → len (f op) = 4096 → len buf = 4096 → len z = 4096 →
  g od = buf → g op = xor_blocks (xor_blocks (f op) (f od)) buf →
  (∀ o, o ∈ l → o ≠ od → o ≠ op → g o = f o) →
  foldl xor_blocks z (g <$> l) = foldl xor_blocks z (f <$> l).
Proof.
  intros Hnd Hod Hop Hne H1 H2 H3 H4 Hd Hp Hsame.
  destruct (perm_two l od op Hnd Hod Hop Hne) as (k & Hk & Hdk & Hpk).
  rewrite !(foldl_xor_perm _ _ _ (fmap_Permutation _ _ _ Hk)), !fmap_cons, Hd, Hp.
  cbn [foldl]. rewrite xor_swap by done. f_equal. apply list_fmap_ext.
  intros i o Ho%list_elem_of_lookup_2. apply Hsame; [rewrite Hk; set_solver|set_solver..].
Qed.

Lemma read_or_nil_ok d image mask block o buf :
  aetherfs_image_read_physical_member d image (aetherfs_mask_nth mask o) block = Ok buf →
  read_or_nil d image mask block o = buf.
Proof. intros H. unfold read_or_nil. by rewrite H. Qed.

(** The other rows, and the other members of the row, keep their blocks; the
    row of the write swaps [old] for [buf] and patches the parity by the same
    difference. *)
Lemma write_parity_row image l m d d' buf b :
  access_ok image → 8 ≤ l < 2 ^ 51 → len buf = 4096 →
  aetherfs_pool_map_parity image l = Ok m → 0 ≤ member_index m → 0 ≤ member_block m < 2 ^ 51 →
  write_parity d image m buf = (Ok tt, d') → 0 ≤ b < 2 ^ 51 → ∀ p,
  pool_row_parity d image b = Ok p → pool_row_parity d' image b = Ok p.
Proof.
  intros Hacc Hl Hb Hm Hi Hbl Hw Hb0 p. pose proof (acc_geo _ Hacc) as Hg.
  apply (write_parity_ok image l) in Hw as (Hread & (old & par & Hold & Hpar & Hnew) & Hframe);
    [|done..].
  pose proof Hm as (od & op & Hod & Hop & Hne & H3 & Hsb & Hmb & Ei & Ep & _)%map_parity_inv;
    [|done|lia].
  unfold pool_row_parity. set (mask := aetherfs_pool_data_mask image) in *.
  set (n := aetherfs_mask_count mask) in *.
  assert (0 ≤ op < n) as Hop' by (rewrite Hop; apply Z.mod_pos_bound; lia).
  pose proof (ordinals_nonneg image mask Hg (data_mask_range image Hg)) as Hnn.
  fold n in Hnn. rewrite !row_parity_ok by done. intros [Hok ->].
  assert (∀ o, o ∈ seqZ 0 n → o ≠ od ∨ b ≠ member_block m → o ≠ op ∨ b ≠ member_block m →
    aetherfs_image_read_physical_member d' image (aetherfs_mask_nth mask o) b =
    aetherfs_image_read_physical_member d image (aetherfs_mask_nth mask o) b) as Hsame.
  { intros o Ho Hx Hy. rewrite Forall_forall in Hok, Hnn. specialize (Hok o Ho).
    destruct (aetherfs_image_read_physical_member d image (aetherfs_mask_nth mask o) b)
      as [x|] eqn:E; [|done].
    apply elem_of_seqZ in Ho as Ho'.
    apply Hframe; [by apply Hnn|done|intros [= E1 ->]..|done]; [destruct Hx as [H0|H0]|destruct Hy as [H0|H0]];
      try done; apply H0, (mask_nth_inj mask);
      first [by apply data_mask_small|fold n; lia|done|congruence]. }
  rewrite Ei in Hread, Hold. rewrite Ep in Hnew, Hpar. split.
  - apply Forall_forall. intros o Ho. rewrite Forall_forall in Hok.
    destruct (decide (b = member_block m)) as [->|?]; [|rewrite Hsame; auto].
    destruct (decide (o = od)) as [->|?]; [by rewrite Hread|].
    destruct (decide (o = op)) as [->|?]; [by rewrite Hnew|]. rewrite Hsame; auto.
  - destruct (decide (b = member_block m)) as [->|?].
    + symmetry. apply (parity_sum_kept _ _ (seqZ 0 n) od op _ buf);
        rewrite ?(read_or_nil_ok _ _ _ _ _ _ Hread), ?(read_or_nil_ok _ _ _ _ _ _ Hnew),
          ?(read_or_nil_ok _ _ _ _ _ _ Hold), ?(read_or_nil_ok _ _ _ _ _ _ Hpar);
        try first [done|apply NoDup_seqZ|apply elem_of_seqZ; lia|by eapply read_physical_len|by apply len_zeros].
      intros o Ho ? ?. unfold read_or_nil. rewrite Hsame; auto.
    + f_equal. apply list_fmap_ext. intros i o Ho%list_elem_of_lookup_2.
      unfold read_or_nil. rewrite Hsame; auto.
Qed.

(** ** Sample pools *)

(** Bounding every member bounds every index. *)
Lemma sizes_of_members image (bound : Z) : 0 ≤ bound →
  Forall (λ m, pm_total_blocks m ≤ bound ∧ pm_data_blocks m ≤ bound) (pl_members (pool_label image)) →
  Forall (λ m, m_blocks m ≤ bound) (members image) →
  ∀ index, aetherfs_pool_member_data_blocks image index ≤ bound.
Proof.
  intros H0 Hp Hm index.
  assert (pm_total_blocks (get_pool_member (pool_label image) index) ≤ bound ∧
          pm_data_blocks (get_pool_member (pool_label image) index) ≤ bound) as [Ht Hd].
  { unfold get_pool_member. destruct (_ !! Z.to_nat index) eqn:E; simpl.
    - by apply (Forall_lookup_1 _ _ _ _ Hp E).
    - done. }
  assert (m_blocks (get_member image index) ≤ bound).
  { unfold get_member. destruct (members image !! Z.to_nat index) eqn:E; simpl; [|done].
    by apply (Forall_lookup_1 _ _ _ _ Hm E). }
  unfold aetherfs_pool_member_data_blocks, aetherfs_pool_member_total_blocks.
  destruct (pm_total_blocks _ =? 0); case_match; unfold AETHERFS_DATA_START_BLOCK; lia.
Qed.

Definition sample_pool_member (index : Z) : aetherfs_pool_member :=
  PoolMember (zeros 16) 12 4 0 7 index 0.

(** Three twelve-block members, stripes of one block. *)
Definition sample_label (profile logical_data : Z) : aetherfs_pool_label :=
  seal (PoolLabel AETHERFS_POOL_MAGIC AETHERFS_POOL_VERSION 0 profile 3 0 1 0 7 7 7 0
    (logical_data + 8) logical_data (zeros 16)
    [sample_pool_member 0; sample_pool_member 1; sample_pool_member 2;
     zeroed; zeroed; zeroed; zeroed; zeroed] (zeros 45)).

Definition sample_members : list aetherfs_image_member :=
  [Member 3 false 49152 12 0 7 0; Member 4 false 49152 12 0 7 1; Member 5 false 49152 12 0 7 2;
   member_zero; member_zero; member_zero; member_zero; member_zero].

Definition sample_image (profile logical_data : Z) : aetherfs_image :=
  Image 3 true false ((logical_data + 8) * 4096) (logical_data + 8) 3
    (sample_label profile logical_data) zeroed sample_members zeroed zeroed zeroed zeroed [] [].

Definition sample_disks : disks :=
  {[ 3 := zeros 49152; 4 := zeros 49152; 5 := zeros 49152 ]}.

Lemma sample_label_wf profile logical_data :
  is_u32 profile → 0 ≤ logical_data < 2 ^ 63 → wf (sample_label profile logical_data).
Proof.
  intros Hp Hl. apply seal_wf.
  assert (∀ i, is_u32 i → wf (sample_pool_member i)) as Hm.
  { intros i Hi. cbn. repeat match goal with |- _ ∧ _ => split end;
      try done; try (unfold le_range; lia). by repeat constructor; unfold le_range; lia. }
  assert (Forall wf [sample_pool_member 0; sample_pool_member 1; sample_pool_member 2;
     zeroed; zeroed; zeroed; zeroed; zeroed]) as Hall
    by (repeat apply Forall_cons_2; try apply Forall_nil_2; try apply zeroed_wf;
        apply Hm; unfold is_u32; lia).
  cbn -[replicate zeroed sample_pool_member].
  repeat match goal with |- _ ∧ _ => split end; try done; try (unfold le_range; lia).
  - by repeat constructor; unfold le_range; lia.
  - by repeat constructor; unfold le_range; lia.
Qed.

Lemma sample_access_ok profile logical_data :
  is_u32 profile → 0 ≤ logical_data < 2 ^ 63 → access_ok (sample_image profile logical_data).
Proof.
  intros Hp Hl. split; [split|..].
  - unfold members_ok. simpl. lia.
  - by apply sample_label_wf.
  - cbn. repeat apply Forall_cons_2; try apply Forall_nil_2; simpl; unfold is_u64; lia.
  - intros i j Hi Hj. simpl in Hi, Hj.
    assert (∀ k, 0 ≤ k < 3 → m_fd (get_member (sample_image profile logical_data) k) = 3 + k) as Hk.
    { intros k Hk. assert (k = 0 ∨ k = 1 ∨ k = 2) as [-> | [-> | ->]] by lia; done. }
    rewrite !Hk by lia. lia.
  - intros index. etransitivity; [apply (sizes_of_members _ 12)|]; [lia|..|lia].
    + cbn. repeat apply Forall_cons_2; try apply Forall_nil_2; vm_compute; split; discriminate.
    + cbn. repeat apply Forall_cons_2; try apply Forall_nil_2; vm_compute; discriminate.
Qed.

(** ** Properties *)

(** C4: no double mapping.  Under every pool profile, two different logical data
    blocks are never mapped to the same block of the same member, a mapped block
    lies on an existing member inside its data area, and under rotating parity a
    data block never shares its member with the parity of its row. *)
Theorem pool_map_no_aliasing image l1 l2 m1 m2 :
  access_ok image → 8 ≤ l1 < 2 ^ 51 → 8 ≤ l2 < 2 ^ 51 →
  aetherfs_pool_map_data_block image l1 = Ok m1 →
  aetherfs_pool_map_data_block image l2 = Ok m2 →
  (l1 ≠ l2 → (member_index m1, member_block m1) ≠ (member_index m2, member_block m2)) ∧
  0 ≤ member_index m1 < member_count image ∧ 8 ≤ member_block m1 ∧
  (aetherfs_pool_profile image = AETHERFS_POOL_PROFILE_PARITY →
   member_block m1 = member_block m2 →
   parity_member_index m1 = parity_member_index m2 ∧
   member_index m1 ≠ parity_member_index m2).
Proof.
  intros Hacc H1 H2 E1 E2. pose proof (acc_geo _ Hacc) as Hg.
  split; [|split; [|split]].
  - intros Hne [= Ei Eb]. apply Hne. eapply map_data_block_inj; eauto; lia.
  - apply (map_data_block_bounds image l1 m1 Hacc H1 E1).
  - apply (map_data_block_bounds image l1 m1 Hacc H1 E1).
  - intros Hpar Eb. unfold aetherfs_pool_map_data_block in E1, E2. rewrite Hpar in E1, E2.
    simpl in E1, E2. pose proof (parity_members _ _ _ Hacc H1 E1) as [_ Hne].
    apply map_parity_inv in E1 as (o1 & p1 & _ & P1 & _ & _ & _ & _ & _ & I1 & _); [|done|lia].
    apply map_parity_inv in E2 as (o2 & p2 & _ & P2 & _ & _ & _ & _ & _ & I2 & _); [|done|lia].
    rewrite Eb, <-P2 in P1. subst p2. rewrite I2, <-I1. split; [done|congruence].
Qed.

Lemma pool_map_no_aliasing_witness :
  aetherfs_pool_map_data_block (sample_image 3 8) 9 = Ok (Mapping 2 0 8) ∧
  aetherfs_pool_map_data_block (sample_image 3 8) 8 = Ok (Mapping 1 0 8) ∧
  2 ≠ parity_member_index (Mapping 1 0 8).
Proof.
  assert (aetherfs_pool_map_data_block (sample_image 3 8) 9 = Ok (Mapping 2 0 8)) as E1
    by (vm_compute; reflexivity).
  assert (aetherfs_pool_map_data_block (sample_image 3 8) 8 = Ok (Mapping 1 0 8)) as E2
    by (vm_compute; reflexivity).
  split; [exact E1|split; [exact E2|]].
  refine (proj2 (proj2 (proj2 (proj2 (pool_map_no_aliasing (sample_image 3 8) 9 8
    (Mapping 2 0 8) (Mapping 1 0 8) _ _ _ E1 E2))) eq_refl eq_refl)).
  - apply sample_access_ok; [unfold is_u32|]; lia.
  - lia.
  - lia.
Defined.

(** C3: block round trip and isolation.  Whatever the profile, on members that can be
    accessed ([access_ok]) and for block numbers below 2^51, a logical block that was written
    reads back as written, and every other logical block that could be read (through all of
    its replicas, in the bootstrap region) still reads as before, even though mirrored and
    parity writes change several members. *)
Theorem write_block_roundtrip image block d d' buf :
  access_ok image → 0 ≤ block < 2 ^ 51 → len buf = 4096 →
  aetherfs_image_write_block d image block buf = (Ok tt, d') →
  aetherfs_image_read_block d' image block = Ok buf ∧
  ∀ block' old, 0 ≤ block' < 2 ^ 51 → block' ≠ block →
    aetherfs_image_read_block d image block' = Ok old →
    (block' < 8 → ∀ index, index ∈ members_of (aetherfs_pool_role_mask_for_bootstrap_block image block') →
       is_ok (aetherfs_image_read_physical_member d image index block') = true) →
    aetherfs_image_read_block d' image block' = Ok old.
Proof.
  intros Hacc Hbl Hb Hw. apply write_block_ok in Hw as [Hread Hkeep]; [|done..].
  split; [done|]. by apply read_block_frame.
Qed.

Lemma write_block_roundtrip_witness :
  ∃ d', aetherfs_image_write_block sample_disks (sample_image 3 8) 9 (replicate 4096 77)
        = (Ok tt, d') ∧
        aetherfs_image_read_block d' (sample_image 3 8) 9 = Ok (replicate 4096 77) ∧
        aetherfs_image_read_block d' (sample_image 3 8) 8 = Ok (zeros 4096).
Proof.
  destruct (aetherfs_image_write_block sample_disks (sample_image 3 8) 9 (replicate 4096 77))
    as [r d'] eqn:E.
  assert (r = Ok tt) as ->.
  { change r with (fst (r, d')). rewrite <-E. vm_compute. reflexivity. }
  destruct (write_block_roundtrip (sample_image 3 8) 9 sample_disks d' (replicate 4096 77))
    as [H1 H2].
  - apply sample_access_ok; [unfold is_u32|]; lia.
  - lia.
  - vm_compute. reflexivity.
  - exact E.
  - exists d'. split; [reflexivity|]. split; [exact H1|].
    apply H2; [lia|lia|vm_compute; reflexivity|lia].
Defined.

(** C2: parity writes keep every row at parity.  After a successful logical write
    to a rotating-parity pool, the exclusive or over all data members is, row by
    row, what it was: rows at zero parity stay at zero parity, which is what
    [aetherfs_image_validate_parity] checks. *)
Theorem parity_write_keeps_rows image block d d' buf b p :
  access_ok image → aetherfs_pool_profile image = AETHERFS_POOL_PROFILE_PARITY →
  8 ≤ block < 2 ^ 51 → len buf = 4096 → 0 ≤ b < 2 ^ 51 →
  aetherfs_image_write_block d image block buf = (Ok tt, d') →
  pool_row_parity d image b = Ok p → pool_row_parity d' image b = Ok p.
Proof.
  intros Hacc Hpr Hbl Hb Hb0 Hw Hp.
  unfold aetherfs_image_write_block in Hw. destruct (writable image); [|done]. simpl in Hw.
  rewrite (proj2 (Z.ltb_ge _ _)) in Hw by (unfold AETHERFS_DATA_START_BLOCK; lia).
  destruct (aetherfs_pool_map_data_block image block) as [m|] eqn:Em; [|done].
  destruct (map_data_block_bounds image block m Hacc Hbl Em) as [Hi Hmb].
  unfold aetherfs_pool_map_data_block in Em. rewrite Hpr in Em, Hw. simpl in Em, Hw.
  by apply (write_parity_row image block m d d' buf b); try lia.
Qed.

Lemma parity_write_keeps_rows_witness :
  ∃ d', aetherfs_image_write_block sample_disks (sample_image 3 8) 9 (replicate 4096 77)
        = (Ok tt, d') ∧ pool_row_parity d' (sample_image 3 8) 8 = Ok (zeros 4096).
Proof.
  destruct (aetherfs_image_write_block sample_disks (sample_image 3 8) 9 (replicate 4096 77))
    as [r d'] eqn:E.
  assert (r = Ok tt) as ->.
  { change r with (fst (r, d')). rewrite <-E. vm_compute. reflexivity. }
  exists d'. split; [reflexivity|].
  apply (parity_write_keeps_rows (sample_image 3 8) 9 sample_disks d' (replicate 4096 77)).
  - apply sample_access_ok; [unfold is_u32|]; lia.
  - vm_compute. reflexivity.
  - lia.
  - vm_compute. reflexivity.
  - lia.
  - exact E.
  - vm_compute. reflexivity.
Defined.

Lemma xor_zeros_l x : len x = 4096 → xor_blocks (zeros 4096) x = x.
Proof.
  unfold len, xor_blocks, zeros. intros Hl.
  replace (Z.to_nat 4096) with (length x) by lia. clear Hl.
  induction x as [|b x IH]; simpl; [done|]. by rewrite IH.
Qed.

Lemma len_foldl_xor z l : len z = 4096 → Forall (λ o, len o = 4096) l →
  len (foldl xor_blocks z l) = 4096.
Proof.
  intros Hz Hl. revert z Hz. induction Hl as [|o l Ho Hl IH]; intros z Hz; simpl; [done|].
  apply IH. by apply len_xor_blocks.
Qed.

Lemma xor_eq_zeros x y : len x = len y → xor_blocks x y = zeros 4096 → len x = 4096 → x = y.
Proof.
  intros Hl Hz Hx. rewrite <-(xor_blocks_cancel x y) by done. rewrite Hz.
  apply xor_zeros_l. lia.
Qed.

Lemma perm_filter_out (l : list Z) a :
  NoDup l → a ∈ l → l ≡ₚ (a :: filter (λ b, b ≠ a) l).
Proof.
  intros Hnd Ha. apply NoDup_Permutation; [done|..].
  - apply NoDup_cons. split; [|by apply NoDup_filter]. rewrite list_elem_of_filter. naive_solver.
  - intros b. rewrite elem_of_cons, list_elem_of_filter. destruct (decide (b = a)); naive_solver.
Qed.

Lemma foldl_xor_split z l : len z = 4096 →
  foldl xor_blocks z l = xor_blocks z (foldl xor_blocks (zeros 4096) l).
Proof.
  intros Hz.
  assert (∀ a b, foldl xor_blocks (xor_blocks a b) l = xor_blocks a (foldl xor_blocks b l)) as Hg.
  { clear. induction l as [|o l IH]; intros a b; simpl; [done|].
    by rewrite xor_blocks_assoc, IH. }
  rewrite <-Hg. f_equal. rewrite xor_blocks_comm. symmetry. by apply xor_zeros_l.
Qed.

(** A row at zero parity determines each of its blocks.  The block of any one
    data member is the exclusive or of the same block of the remaining members,
    so the contents of one lost member can be rebuilt row by row. *)
Lemma parity_row_rebuild image d b o x :
  geometry_ok image →
  o ∈ seqZ 0 (aetherfs_mask_count (aetherfs_pool_data_mask image)) →
  aetherfs_image_read_physical_member d image
    (aetherfs_mask_nth (aetherfs_pool_data_mask image) o) b = Ok x →
  pool_row_parity d image b = Ok (zeros 4096) →
  row_parity (filter (λ o', o' ≠ o) (seqZ 0 (aetherfs_mask_count (aetherfs_pool_data_mask image))))
    d image (aetherfs_pool_data_mask image) b (zeros 4096) = Ok x.
Proof.
  intros Hg Ho Hx. unfold pool_row_parity.
  set (mask := aetherfs_pool_data_mask image) in *. set (ords := seqZ 0 _) in *.
  pose proof (ordinals_nonneg image mask Hg (data_mask_range image Hg)) as Hnn. fold ords in Hnn.
  rewrite row_parity_ok by done. intros [Hok Hz].
  assert (ords ≡ₚ (o :: filter (λ o', o' ≠ o) ords)) as Hp.
  { apply perm_filter_out; [apply NoDup_seqZ|done]. }
  rewrite row_parity_ok by by apply Forall_filter_keep.
  split; [by apply Forall_filter_keep|].
  rewrite (foldl_xor_perm _ _ _ (fmap_Permutation _ _ _ Hp)), fmap_cons in Hz.
  assert (read_or_nil d image mask b o = x) as Ex by (unfold read_or_nil; by rewrite Hx).
  assert (len x = 4096) as Hlx by by eapply read_physical_len.
  change AETHERFS_DEF_BLOCK_SIZE with 4096 in Hz. cbn [foldl] in Hz.
  rewrite Ex, (xor_zeros_l x) in Hz by done.
  set (rest := read_or_nil d image mask b <$> filter (λ o', o' ≠ o) ords) in *.
  assert (Forall (λ r, len r = 4096) rest) as Hrest.
  { apply Forall_fmap, Forall_filter_keep. eapply Forall_impl; [exact Hok|].
    intros o' Ho'. cbn in *. unfold read_or_nil.
    destruct (aetherfs_image_read_physical_member d image (aetherfs_mask_nth mask o') b)
      as [r|] eqn:E; [|done].
    apply (read_physical_len _ _ _ _ _ E). }
  rewrite foldl_xor_split in Hz by done.
  apply (xor_eq_zeros x); [|by symmetry|done].
  rewrite Hlx. symmetry. apply len_foldl_xor; [by apply len_zeros|done].
Qed.
