(* ===== verification/Bitmap.v ===== *)
(** * The inode bitmap

    [aetherfs_image_bitmap_count_set], [_test], [_set] and [_clear] of
    [aetherfsprogs/image.c], and the copies of two of them in [mkfs.c]. *)

From S2P Require Import Prelude Codec Crc Format Integrity State Pool.

(** [bitmap->bb_bits[i]]; the callers keep [i] below [AETHERFS_BITMAP_BYTES]. *)
Definition bitmap_byte (bitmap : aetherfs_bitmap_block) (i : Z) : Z :=
  default 0 (bb_bits bitmap !! Z.to_nat i).

(** [(uint8_t)(1U << (bit % 8U))] *)
Definition bit_of (bit : Z) : Z := u8 (Z.shiftl 1 (bit mod 8)).

Definition aetherfs_image_bitmap_count_set (bitmap : aetherfs_bitmap_block) : Z :=
  foldl (λ count byte, u32 (count + popcount byte)) 0 (bb_bits bitmap).

Definition aetherfs_image_bitmap_test (bitmap : aetherfs_bitmap_block) (bit : Z) : bool :=
  negb (Z.land (bitmap_byte bitmap (bit / 8)) (bit_of bit) =? 0).

Definition aetherfs_image_bitmap_set (bitmap : aetherfs_bitmap_block) (bit : Z)
    : aetherfs_bitmap_block :=
  set_bb_bits (<[Z.to_nat (bit / 8) := Z.lor (bitmap_byte bitmap (bit / 8)) (bit_of bit)]>
    (bb_bits bitmap)) bitmap.

(** [&= (uint8_t)~(1U << (bit % 8U))] *)
Definition aetherfs_image_bitmap_clear (bitmap : aetherfs_bitmap_block) (bit : Z)
    : aetherfs_bitmap_block :=
  set_bb_bits (<[Z.to_nat (bit / 8) :=
      Z.land (bitmap_byte bitmap (bit / 8)) (u8 (Z.lnot (Z.shiftl 1 (bit mod 8))))]>
    (bb_bits bitmap)) bitmap.

Definition bitmap_ok (bitmap : aetherfs_bitmap_block) : Prop :=
  length (bb_bits bitmap) = Z.to_nat AETHERFS_BITMAP_BYTES ∧ is_bytes (bb_bits bitmap).

Definition bit_ok (bit : Z) : Prop := 0 ≤ bit < AETHERFS_MAX_INODES.

Lemma bitmap_ok_wf bitmap : wf bitmap → bitmap_ok bitmap.
Proof. intros H. cbn in H. destruct_and!. by split. Qed.

(** ** Bytes *)

(** The byte operations, checked on all bytes and bit positions. *)
Lemma byte_bit_ops :
  forallb (λ b, forallb (λ k,
    let m := u8 (Z.shiftl 1 k) in let c := u8 (Z.lnot (Z.shiftl 1 k)) in
    (popcount (Z.lor b m) =? popcount b + (if Z.land b m =? 0 then 1 else 0)) &&
    (popcount (Z.land b c) =? popcount b - (if Z.land b m =? 0 then 0 else 1)) &&
    (0 <=? popcount b) && (popcount b <=? 8) &&
    (0 <=? Z.lor b m) && (Z.lor b m <? 256) && (0 <=? Z.land b c) && (Z.land b c <? 256) &&
    forallb (λ j, let m' := u8 (Z.shiftl 1 j) in
      Bool.eqb (Z.land (Z.lor b m) m' =? 0) (negb (j =? k) && (Z.land b m' =? 0)) &&
      Bool.eqb (Z.land (Z.land b c) m' =? 0) ((j =? k) || (Z.land b m' =? 0)))
      (seqZ 0 8))
    (seqZ 0 8)) (seqZ 0 256) = true.
Proof. vm_compute. reflexivity. Qed.

Lemma byte_bit_ops_at b k j : is_byte b → 0 ≤ k < 8 → 0 ≤ j < 8 →
  let m := u8 (Z.shiftl 1 k) in let c := u8 (Z.lnot (Z.shiftl 1 k)) in
  let m' := u8 (Z.shiftl 1 j) in
  popcount (Z.lor b m) = popcount b + (if Z.land b m =? 0 then 1 else 0) ∧
  popcount (Z.land b c) = popcount b - (if Z.land b m =? 0 then 0 else 1) ∧
  0 ≤ popcount b ≤ 8 ∧ is_byte (Z.lor b m) ∧ is_byte (Z.land b c) ∧
  (Z.land (Z.lor b m) m' =? 0) = negb (j =? k) && (Z.land b m' =? 0) ∧
  (Z.land (Z.land b c) m' =? 0) = (j =? k) || (Z.land b m' =? 0).
Proof.
  intros Hb Hk Hj m c m'. pose proof byte_bit_ops as H.
  assert (∀ x lo n, lo ≤ x < lo + n → In x (seqZ lo n)) as Hin
    by (intros; apply list_elem_of_In, elem_of_seqZ; lia).
  rewrite forallb_forall in H. specialize (H b (Hin b 0 256 Hb)).
  rewrite forallb_forall in H. specialize (H k (Hin k 0 8 Hk)). cbv zeta in H.
  rewrite !andb_true_iff, forallb_forall in H. destruct H as [H Hall].
  specialize (Hall j (Hin j 0 8 Hj)). rewrite andb_true_iff, !eqb_true_iff in Hall.
  unfold is_byte. subst m c m'. rewrite !Z.eqb_eq, !Z.leb_le, !Z.ltb_lt in H. tauto.
Qed.

Lemma bit_of_land bit : 0 ≤ bit mod 8 < 8.
Proof. apply Z.mod_pos_bound. lia. Qed.

Lemma bit_split bit bit' : bit / 8 = bit' / 8 → bit mod 8 = bit' mod 8 → bit = bit'.
Proof. intros. rewrite (Z.div_mod bit 8), (Z.div_mod bit' 8) by lia. lia. Qed.

Lemma bit_index_ok bit : bit_ok bit → 0 ≤ bit / 8 < AETHERFS_BITMAP_BYTES.
Proof.
  unfold bit_ok, AETHERFS_MAX_INODES, AETHERFS_BITMAP_BITS, AETHERFS_BITMAP_BYTES.
  intros. split; [apply Z.div_pos|apply Z.div_lt_upper_bound]; lia.
Qed.

Section bitmap.
Context (bitmap : aetherfs_bitmap_block) (Hok : bitmap_ok bitmap).

Lemma bitmap_byte_lookup bit : bit_ok bit →
  bb_bits bitmap !! Z.to_nat (bit / 8) = Some (bitmap_byte bitmap (bit / 8)).
Proof.
  intros Hb%bit_index_ok. unfold bitmap_byte. destruct Hok as [Hl _].
  destruct (lookup_lt_is_Some_2 (bb_bits bitmap) (Z.to_nat (bit / 8))) as [x ->]; [lia|done].
Qed.

Lemma bitmap_byte_is_byte bit : bit_ok bit → is_byte (bitmap_byte bitmap (bit / 8)).
Proof. intros Hb%bitmap_byte_lookup. by apply (Forall_lookup_1 _ _ _ _ (proj2 Hok) Hb). Qed.

(** The byte of another bit after one byte was replaced. *)
Lemma bitmap_byte_update bit bit' v : bit_ok bit → bit_ok bit' →
  bitmap_byte (set_bb_bits (<[Z.to_nat (bit / 8) := v]> (bb_bits bitmap)) bitmap) (bit' / 8) =
  if bit / 8 =? bit' / 8 then v else bitmap_byte bitmap (bit' / 8).
Proof.
  intros Hb Hb'. pose proof (bit_index_ok bit Hb). pose proof (bit_index_ok bit' Hb').
  unfold bitmap_byte at 1. simpl. destruct (Z.eqb_spec (bit / 8) (bit' / 8)) as [<-|Hne].
  - rewrite list_lookup_insert_eq; [done|]. destruct Hok as [Hl _]. lia.
  - rewrite list_lookup_insert_ne by lia. done.
Qed.

Lemma test_set_bit bit bit' : bit_ok bit → bit_ok bit' →
  aetherfs_image_bitmap_test (aetherfs_image_bitmap_set bitmap bit) bit' =
  (bit =? bit') || aetherfs_image_bitmap_test bitmap bit'.
Proof.
  intros Hb Hb'. unfold aetherfs_image_bitmap_test, aetherfs_image_bitmap_set.
  rewrite bitmap_byte_update by done.
  destruct (byte_bit_ops_at (bitmap_byte bitmap (bit / 8)) (bit mod 8) (bit' mod 8))
    as (_ & _ & _ & _ & _ & Hset & _);
    [by apply bitmap_byte_is_byte|apply bit_of_land..|].
  destruct (Z.eqb_spec (bit / 8) (bit' / 8)) as [E|E].
  - unfold bit_of. rewrite Hset, <-E, negb_andb, negb_involutive. f_equal.
    destruct (Z.eqb_spec (bit' mod 8) (bit mod 8)), (Z.eqb_spec bit bit'); subst; try done.
    exfalso. eauto using bit_split.
  - destruct (Z.eqb_spec bit bit') as [->|]; done.
Qed.

Lemma test_clear_bit bit bit' : bit_ok bit → bit_ok bit' →
  aetherfs_image_bitmap_test (aetherfs_image_bitmap_clear bitmap bit) bit' =
  negb (bit =? bit') && aetherfs_image_bitmap_test bitmap bit'.
Proof.
  intros Hb Hb'. unfold aetherfs_image_bitmap_test, aetherfs_image_bitmap_clear.
  rewrite bitmap_byte_update by done.
  destruct (byte_bit_ops_at (bitmap_byte bitmap (bit / 8)) (bit mod 8) (bit' mod 8))
    as (_ & _ & _ & _ & _ & _ & Hclr);
    [by apply bitmap_byte_is_byte|apply bit_of_land..|].
  destruct (Z.eqb_spec (bit / 8) (bit' / 8)) as [E|E].
  - unfold bit_of. rewrite Hclr, <-E, negb_orb. f_equal. f_equal.
    destruct (Z.eqb_spec (bit' mod 8) (bit mod 8)), (Z.eqb_spec bit bit'); subst; try done.
    exfalso. eauto using bit_split.
  - destruct (Z.eqb_spec bit bit') as [->|]; done.
Qed.
End bitmap.

(** ** Counting *)

Definition popcount_sum (l : bytes) : Z := foldr (λ b n, popcount b + n) 0 l.

Lemma popcount_byte b : is_byte b → 0 ≤ popcount b ≤ 8.
Proof.
  intros Hb. apply (byte_bit_ops_at b 0 0 Hb); lia.
Qed.

Lemma popcount_sum_bounds l : is_bytes l → 0 ≤ popcount_sum l ≤ 8 * len l.
Proof.
  induction 1 as [|b l Hb Hl IH]; unfold len in *; simpl; [lia|].
  pose proof (popcount_byte b Hb). fold (popcount_sum l). lia.
Qed.

(** The 32-bit counter never wraps: the bitmap has [32640] bits. *)
Lemma count_set_sum bitmap : bitmap_ok bitmap →
  aetherfs_image_bitmap_count_set bitmap = popcount_sum (bb_bits bitmap).
Proof.
  intros [Hl Hb]. unfold aetherfs_image_bitmap_count_set.
  assert (∀ l n, is_bytes l → 0 ≤ n → n + 8 * len l < 2 ^ 32 →
    foldl (λ count byte, u32 (count + popcount byte)) n l = n + popcount_sum l) as Hg.
  { clear. intros l n Hl. revert n. induction Hl as [|b l Hb Hl IH]; intros n Hn Hlt; simpl; [lia|].
    pose proof (popcount_byte b Hb). unfold len in Hlt. simpl in Hlt.
    rewrite u32_small by (unfold is_u32; lia).
    rewrite IH; [fold (popcount_sum l); lia|lia|unfold len; lia]. }
  rewrite Hg; [lia|done|lia|]. unfold len. rewrite Hl. unfold AETHERFS_BITMAP_BYTES. lia.
Qed.

Lemma popcount_sum_insert l i b v : l !! i = Some b →
  popcount_sum (<[i:=v]> l) = popcount_sum l - popcount b + popcount v.
Proof.
  revert i. induction l as [|x l IH]; intros [|i] Hi; simplify_eq/=; fold (popcount_sum l); [lia|].
  fold (popcount_sum (<[i:=v]> l)). rewrite IH by done. lia.
Qed.

(** ** Properties *)

(** C27: the bitmap operations implement a set of inode numbers with its
    cardinality: setting or clearing a bit changes the membership of that inode
    only, and the counted population moves by exactly one when the membership
    changed (the [uint32_t] accumulator cannot wrap). *)
Theorem bitmap_set_clear_spec bitmap bit :
  bitmap_ok bitmap → bit_ok bit →
  (∀ bit', bit_ok bit' →
     aetherfs_image_bitmap_test (aetherfs_image_bitmap_set bitmap bit) bit' =
       (bit =? bit') || aetherfs_image_bitmap_test bitmap bit' ∧
     aetherfs_image_bitmap_test (aetherfs_image_bitmap_clear bitmap bit) bit' =
       negb (bit =? bit') && aetherfs_image_bitmap_test bitmap bit') ∧
  aetherfs_image_bitmap_count_set (aetherfs_image_bitmap_set bitmap bit) =
    aetherfs_image_bitmap_count_set bitmap +
    (if aetherfs_image_bitmap_test bitmap bit then 0 else 1) ∧
  aetherfs_image_bitmap_count_set (aetherfs_image_bitmap_clear bitmap bit) =
    aetherfs_image_bitmap_count_set bitmap -
    (if aetherfs_image_bitmap_test bitmap bit then 1 else 0).
Proof.
  intros Hok Hb. split; [intros; split; [by apply test_set_bit|by apply test_clear_bit]|].
  pose proof (bitmap_byte_is_byte bitmap Hok bit Hb) as Hbyte.
  pose proof (bitmap_byte_lookup bitmap Hok bit Hb) as Hl.
  destruct (byte_bit_ops_at (bitmap_byte bitmap (bit / 8)) (bit mod 8) (bit mod 8))
    as (Hor & Hand & _ & Hb1 & Hb2 & _); [done|apply bit_of_land..|].
  assert (∀ v, is_byte v → bitmap_ok (set_bb_bits (<[Z.to_nat (bit / 8):=v]> (bb_bits bitmap)) bitmap))
    as Hupd.
  { intros v Hv. destruct Hok as [H1 H2]. split; simpl; [by rewrite length_insert|].
    by apply Forall_insert. }
  unfold aetherfs_image_bitmap_test, bit_of. rewrite !(count_set_sum bitmap) by done. split.
  - rewrite count_set_sum by by apply Hupd. simpl.
    rewrite (popcount_sum_insert _ _ _ _ Hl). unfold bit_of. rewrite Hor. case_match; simpl; lia.
  - rewrite count_set_sum by by apply Hupd. simpl.
    rewrite (popcount_sum_insert _ _ _ _ Hl). rewrite Hand. case_match; simpl; lia.
Qed.

Lemma bitmap_set_clear_spec_witness :
  let b := aetherfs_image_bitmap_set zeroed 9 in
  aetherfs_image_bitmap_test b 9 = true ∧ aetherfs_image_bitmap_test b 10 = false ∧
  aetherfs_image_bitmap_count_set b = 1.
Proof.
  destruct (bitmap_set_clear_spec zeroed 9) as (H1 & H2 & _).
  - apply bitmap_ok_wf, zeroed_wf.
  - vm_compute. split; [discriminate|reflexivity].
  - simpl. destruct (H1 9) as [-> _]; [vm_compute; split; [discriminate|reflexivity]|].
    destruct (H1 10) as [-> _]; [vm_compute; split; [discriminate|reflexivity]|].
    rewrite H2. vm_compute. split; [reflexivity|split; reflexivity].
Defined.
