(* ===== verification/Open.v ===== *)
(** * Opening images and pools

    [aetherfs_member_open_path], [aetherfs_member_read_pool_label],
    [aetherfs_image_synthesize_single_label], [aetherfs_image_open],
    [aetherfs_image_open_pool] and [aetherfs_image_close] of
    [aetherfsprogs/image.c].  The descriptor table is part of the state: [open]
    adds a descriptor to the [disks], [close] removes it. *)

From S2P Require Import Prelude Codec Crc Format Integrity SysIo State Pool Blocks.

(** ** The operating system *)

Inductive file_kind := S_IFREG | S_IFBLK | S_IFOTHER.

(** What [open], [fstat] and [ioctl(BLKGETSIZE64)] report of a path, and its
    contents. *)
Record open_file := OpenFile {
  of_stat : result file_kind;
  of_ioctl : result unit;
  of_data : bytes;
}.

(** POSIX: the lowest descriptor that is not open. *)
Definition fresh_fd (d : disks) : Z :=
  default 0 (head (List.filter (λ fd, bool_decide (d !! fd = None))
    (seqZ 0 (Z.of_nat (size d) + 1)))).

(** [struct aetherfs_image] after [memset] and [image->fd = -1]. *)
Definition image_zero (writable : bool) (member_count : Z) : aetherfs_image :=
  Image (-1) writable false 0 0 member_count zeroed zeroed
    (replicate (Z.to_nat AETHERFS_MAX_DEVICES) member_zero) zeroed zeroed zeroed zeroed []
    (zeros AETHERFS_DEF_BLOCK_SIZE).

Definition set_m_fd (v : Z) (m : aetherfs_image_member) : aetherfs_image_member :=
  Member v (m_is_block_device m) (m_size_bytes m) (m_blocks m) (m_class_mask m)
    (m_role_mask m) (m_member_index m).

Definition set_m_masks (class role : Z) (m : aetherfs_image_member) : aetherfs_image_member :=
  Member (m_fd m) (m_is_block_device m) (m_size_bytes m) (m_blocks m) class role
    (m_member_index m).

Definition set_members (v : list aetherfs_image_member) (i : aetherfs_image) : aetherfs_image :=
  Image (fd i) (writable i) (is_block_device i) (size_bytes i) (blocks i)
    (member_count i) (pool_label i) (checkpoint_root i) v (super i) (journal i)
    (inode_bitmap i) (free_extents i) (inode_table i) (root_dir i).

Definition set_label (count : Z) (label : aetherfs_pool_label) (blocks : Z)
    (i : aetherfs_image) : aetherfs_image :=
  Image (fd i) (writable i) (is_block_device i) (size_bytes i) blocks count label
    (checkpoint_root i) (members i) (super i) (journal i) (inode_bitmap i)
    (free_extents i) (inode_table i) (root_dir i).

Definition set_aliases (fd : Z) (is_block_device : bool) (size_bytes : Z)
    (i : aetherfs_image) : aetherfs_image :=
  Image fd (writable i) is_block_device size_bytes (blocks i) (member_count i)
    (pool_label i) (checkpoint_root i) (members i) (super i) (journal i)
    (inode_bitmap i) (free_extents i) (inode_table i) (root_dir i).

(** ** Closing *)

(** [if (fd >= 0) close(fd);] *)
Definition close_fd (fd : Z) (d : disks) : disks := if 0 <=? fd then delete fd d else d.

Fixpoint close_members (indices : list Z) (image : aetherfs_image) (d : disks)
    : aetherfs_image * disks :=
  match indices with
  | [] => (image, d)
  | index :: rest =>
      let m := get_member image index in
      if 0 <=? m_fd m
      then close_members rest
             (set_members (<[Z.to_nat index := set_m_fd (-1) m]> (members image)) image)
             (delete (m_fd m) d)
      else close_members rest image d
  end.

Definition aetherfs_image_close (image : aetherfs_image) (d : disks)
    : aetherfs_image * disks :=
  let '(image, d) := close_members (seqZ 0 (member_count image)) image d in
  (set_aliases (-1) (is_block_device image) (size_bytes image) image, d).

(** ** Labels *)

Definition aetherfs_image_assign_primary_aliases (image : aetherfs_image) : aetherfs_image :=
  let primary := aetherfs_mask_first (aetherfs_pool_metadata_mask image) in
  let primary := if primary <? 0 then 0 else primary in
  let m := get_member image primary in
  let single := member_count image =? 1 in
  set_aliases (m_fd m) (if single then m_is_block_device m else false)
    (if single then m_size_bytes m
     else u64 (pl_logical_blocks (pool_label image) * AETHERFS_DEF_BLOCK_SIZE)) image.

Definition single_roles : Z :=
  Z.lor (Z.lor AETHERFS_POOL_MEMBER_DATA AETHERFS_POOL_MEMBER_METADATA)
    AETHERFS_POOL_MEMBER_LOG.

(** The label built for a bare image of [blocks] blocks. *)
Definition single_label (blocks : Z) : aetherfs_pool_label :=
  let data := u64 (blocks - AETHERFS_DATA_START_BLOCK) in
  seal (PoolLabel AETHERFS_POOL_MAGIC AETHERFS_POOL_VERSION 0 AETHERFS_POOL_PROFILE_SINGLE
    1 0 1 0 1 1 1 0 blocks data (zeros 16)
    (PoolMember (zeros 16) blocks data 0 single_roles 0 0 :: replicate 7 zeroed) (zeros 45)).

Definition aetherfs_image_synthesize_single_label (image : aetherfs_image) : aetherfs_image :=
  let m := get_member image 0 in
  let image := set_label 1 (single_label (m_blocks m)) (m_blocks m) image in
  let image := set_members (<[0%nat := set_m_masks (m_class_mask m) single_roles m]>
    (members image)) image in
  aetherfs_image_assign_primary_aliases image.

(** [*label] and [*present]: [None] when the block holds no pool magic. *)
Definition aetherfs_member_read_pool_label (d : disks) (member : aetherfs_image_member)
    : result (option aetherfs_pool_label) :=
  block ← aetherfs_member_read_block d member AETHERFS_POOL_LABEL_BLOCK;
  let label := decode block : aetherfs_pool_label in
  if negb (pl_magic label =? AETHERFS_POOL_MAGIC) then Ok None
  else _ ← aetherfs_pool_label_validate label; Ok (Some label).

(** ** Opening *)

Section open.
Context {path : Type} (sys_open : path → bool → result open_file).

Definition aetherfs_member_open_path (d : disks) (p : path) (writable : bool)
    : result aetherfs_image_member * disks :=
  match sys_open p writable with
  | Err e => (Err e, d)
  | Ok f =>
      let fd := fresh_fd d in
      let d := <[fd := of_data f]> d in
      let size_bytes := len (of_data f) in
      let blocks := size_bytes / AETHERFS_DEF_BLOCK_SIZE in
      match of_stat f with
      | Err e => (Err e, delete fd d)
      | Ok S_IFOTHER => (Err EINVAL, delete fd d)
      | Ok S_IFBLK =>
          match of_ioctl f with
          | Err e => (Err e, delete fd d)
          | Ok _ => (Ok (Member fd true size_bytes blocks 0 0 0), d)
          end
      | Ok S_IFREG => (Ok (Member fd false size_bytes blocks 0 0 0), d)
      end
  end.

Definition aetherfs_image_open (d : disks) (p : path) (writable : bool)
    : result aetherfs_image * disks :=
  match aetherfs_member_open_path d p writable with
  | (Err e, d) => (Err e, d)
  | (Ok m, d) =>
      let image := image_zero writable 1 in
      let image := set_members (<[0%nat := m]> (members image)) image in
      match aetherfs_member_read_pool_label d m with
      | Err e => (Err e, (aetherfs_image_close image d).2)
      | Ok (Some label) =>
          if negb (pl_member_count label =? 1)
          then (Err EXDEV, (aetherfs_image_close image d).2)
          else
            let pm := get_pool_member label 0 in
            let image := set_label 1 label (pl_logical_blocks label) image in
            let image := set_members (<[0%nat :=
              set_m_masks (pm_class_mask pm) (pm_role_mask pm) m]> (members image)) image in
            (Ok (aetherfs_image_assign_primary_aliases image), d)
      | Ok None => (Ok (aetherfs_image_synthesize_single_label image), d)
      end
  end.

(** A member opened by the first loop of [aetherfs_image_open_pool]: its entry of
    [opened[]] and of [labels[]]. *)
Definition opened_member : Type := aetherfs_image_member * aetherfs_pool_label.

(** The first loop: the members opened so far, and on failure the descriptor the
    failing iteration left in its slot of [opened[]]. *)
Fixpoint open_members (paths : list path) (d : disks) (writable : bool)
    (opened : list opened_member) : (result (list opened_member)) * list Z * disks :=
  match paths with
  | [] => (Ok opened, map (λ o : opened_member, m_fd o.1) opened, d)
  | p :: rest =>
      match aetherfs_member_open_path d p writable with
      | (Err e, d) => (Err e, map (λ o : opened_member, m_fd o.1) opened ++ [-1], d)
      | (Ok m, d) =>
          let fds := map (λ o : opened_member, m_fd o.1) opened ++ [m_fd m] in
          match aetherfs_member_read_pool_label d m with
          | Err e => (Err e, fds, d)
          | Ok None => (Err EINVAL, fds, d)
          | Ok (Some label) => open_members rest d writable (opened ++ [(m, label)])
          end
      end
  end.

(** [image->members[member_index] = opened[index]] with the fields of the label. *)
Definition pool_member_of (label : aetherfs_pool_label) (member_index : Z)
    (m : aetherfs_image_member) : aetherfs_image_member :=
  let pm := get_pool_member label member_index in
  Member (m_fd m) (m_is_block_device m)
    (u64 (pm_total_blocks pm * AETHERFS_DEF_BLOCK_SIZE)) (pm_total_blocks pm)
    (pm_class_mask pm) (pm_role_mask pm) member_index.

(** The second loop.  [seen] is [seen_indices], [fds] the descriptors left in
    [opened[]]: a placed member's slot is reset to [-1]. *)
Fixpoint place_members (member_count : Z) (base : aetherfs_pool_label)
    (opened : list opened_member) (seen : list Z) (placed : list aetherfs_image_member)
    : result (list Z * list aetherfs_image_member) * list Z :=
  match opened with
  | [] => (Ok (seen, placed), [])
  | (m, label) :: rest =>
      let member_index := pl_member_index label in
      let fds := map (λ o : opened_member, m_fd o.1) opened in
      if negb (aetherfs_pool_labels_equivalent base label) then (Err EINVAL, fds)
      else if (member_count <=? member_index) || bool_decide (member_index ∈ seen)
      then (Err EINVAL, fds)
      else place_members member_count base rest (member_index :: seen)
             (<[Z.to_nat member_index := pool_member_of label member_index m]> placed)
  end.

(** The [fail] path: every slot of [opened[]] below [member_count] is closed if
    it is not negative; [garbage] holds the slots no iteration has written.
    [image->member_count] is still 0, so [aetherfs_image_close] closes nothing. *)
Definition open_pool_fail (member_count : Z) (garbage : Z → Z) (fds : list Z) (d : disks)
    : disks :=
  foldl (λ d index, close_fd (default (garbage index) (fds !! Z.to_nat index)) d)
    d (seqZ 0 member_count).

Definition aetherfs_image_open_pool (garbage : Z → Z) (d : disks) (paths : list path)
    (writable : bool) : result aetherfs_image * disks :=
  let member_count := len paths in
  if (member_count =? 0) || (AETHERFS_MAX_DEVICES <? member_count) then (Err EINVAL, d)
  else match paths with
  | [p] => aetherfs_image_open d p writable
  | _ =>
    let image := image_zero writable 0 in
    let fail e fds d := (Err e, open_pool_fail member_count garbage fds d) in
    match open_members paths d writable [] with
    | (Err e, fds, d) => fail e fds d
    | (Ok [], fds, d) => fail EINVAL fds d
    | (Ok (((_, base_label) :: _) as opened), fds, d) =>
        if negb (pl_member_count base_label =? member_count) then fail EINVAL fds d
        else match place_members member_count base_label opened [] (members image) with
        | (Err e, rest) =>
            (* the slots before the failing one were reset to [-1] *)
            fail e (replicate (length opened - length rest)%nat (-1) ++ rest) d
        | (Ok (seen, placed), _) =>
            if negb (forallb (λ index, bool_decide (index ∈ seen)) (seqZ 0 member_count))
            then fail EINVAL (replicate (length opened) (-1)) d
            else
              let label := seal (set_pl_member_index 0 base_label) in
              let image := set_members placed image in
              let image := set_label member_count label (pl_logical_blocks label) image in
              (Ok (aetherfs_image_assign_primary_aliases image), d)
        end
    end
  end.
End open.

(** ** Descriptors *)

Lemma fresh_fd_spec (d : disks) : 0 ≤ fresh_fd d ∧ d !! fresh_fd d = None.
Proof.
  unfold fresh_fd. set (fds := seqZ 0 _).
  destruct (List.filter _ fds) as [|fd l] eqn:E.
  - exfalso.
    assert (list_to_set fds ⊆ dom d) as Hsub.
    { intros fd Hfd%elem_of_list_to_set%list_elem_of_In. apply elem_of_dom.
      destruct (d !! fd) eqn:El; [done|]. exfalso.
      assert (In fd []) as []. rewrite <-E. apply filter_In. split; [done|].
      by apply bool_decide_eq_true. }
    apply subseteq_size in Hsub. rewrite size_list_to_set, size_dom in Hsub by apply NoDup_seqZ.
    unfold fds in Hsub. rewrite length_seqZ in Hsub. lia.
  - assert (In fd (fd :: l)) as Hin by by left. rewrite <-E in Hin.
    apply filter_In in Hin as [Hin%list_elem_of_In%elem_of_seqZ Hd%bool_decide_eq_true].
    simpl. split; [lia|done].
Qed.

Section open_proofs.
Context {path : Type} (sys_open : path → bool → result open_file).

Lemma member_open_ok d p w m d' :
  aetherfs_member_open_path sys_open d p w = (Ok m, d') →
  ∃ f, sys_open p w = Ok f ∧ m_fd m = fresh_fd d ∧ d' = <[fresh_fd d := of_data f]> d ∧
    m_blocks m = len (of_data f) / 4096 ∧ m_size_bytes m = len (of_data f) ∧
    m_class_mask m = 0 ∧ m_role_mask m = 0.
Proof.
  unfold aetherfs_member_open_path. destruct (sys_open p w) as [f|]; [|done].
  destruct (of_stat f) as [[]|]; try done; [|destruct (of_ioctl f); [|done]];
    intros [= <- <-]; exists f; done.
Qed.

Lemma member_open_err d p w e d' :
  aetherfs_member_open_path sys_open d p w = (Err e, d') → d' = d.
Proof.
  unfold aetherfs_member_open_path. destruct (fresh_fd_spec d) as [_ Hf].
  destruct (sys_open p w) as [f|]; [|by intros [= _ <-]].
  destruct (of_stat f) as [[]|]; try (destruct (of_ioctl f)); intros [= _ <-];
    by apply delete_insert_id.
Qed.

(** Closing the image of a single open member. *)
Lemma image_close_single d data m w :
  d !! m_fd m = None → 0 ≤ m_fd m →
  (aetherfs_image_close (set_members (<[0%nat := m]> (members (image_zero w 1))) (image_zero w 1))
    (<[m_fd m := data]> d)).2 = d.
Proof.
  intros Hd Hm. apply Z.leb_le in Hm. unfold aetherfs_image_close.
  set (image := set_members _ _). change (seqZ 0 (member_count image)) with [0].
  cbn [close_members]. change (get_member image 0) with m. rewrite Hm.
  by apply delete_insert_id.
Qed.
(** An entry of [opened[]] and [labels[]]: the label is the one on the member. *)
Definition labelled (d : disks) (o : opened_member) : Prop :=
  aetherfs_member_read_pool_label d o.1 = Ok (Some o.2).

Lemma labelled_mono d d' o : d ⊆ d' → labelled d o → labelled d' o.
Proof.
  unfold labelled, aetherfs_member_read_pool_label, aetherfs_member_read_block. intros Hs H.
  inv_ok. destruct (d !! m_fd o.1) as [data|] eqn:Ed; [|done].
  rewrite (lookup_weaken _ _ _ _ Ed Hs). unfold reject. rewrite H0. simpl in *. by rewrite E.
Qed.

Lemma open_members_ok paths d w opened opened' fds d' :
  open_members sys_open paths d w opened = (Ok opened', fds, d') →
  Forall (λ o, is_Some (d !! m_fd o.1) ∧ labelled d o) opened →
  NoDup (map (λ o : opened_member, m_fd o.1) opened) →
  length opened' = (length opened + length paths)%nat ∧ d ⊆ d' ∧
  Forall (λ o, is_Some (d' !! m_fd o.1) ∧ labelled d' o) opened' ∧
  NoDup (map (λ o : opened_member, m_fd o.1) opened').
Proof.
  revert d opened. induction paths as [|p paths IH]; intros d opened; simpl.
  { intros [= <- _ <-] Hf Hn. repeat split; [lia|done..]. }
  destruct (aetherfs_member_open_path sys_open d p w) as [[m|e] d1] eqn:Eo; [|done].
  apply member_open_ok in Eo as (f & _ & Hm & -> & _).
  destruct (fresh_fd_spec d) as [_ Hfresh].
  destruct (aetherfs_member_read_pool_label _ m) as [[label|]|e] eqn:El; [|done..].
  intros H Hf Hn.
  assert (d ⊆ <[fresh_fd d := of_data f]> d) as Hsub by by apply insert_subseteq.
  apply IH in H as (H1 & H2 & H3 & H4).
  - rewrite H1, length_app. simpl. repeat split; [lia|by etransitivity|done..].
  - apply Forall_app; split.
    + eapply Forall_impl; [exact Hf|]. intros o [[x Hx] Ho]. split.
      * exists x. by eapply lookup_weaken.
      * by eapply labelled_mono.
    + apply Forall_singleton. simpl. split; [rewrite Hm, lookup_insert_eq; eauto|done].
  - rewrite map_app. apply NoDup_app; split; [done|]. split.
    + intros x (o & -> & Ho)%list_elem_of_fmap [Hx|Hx]%elem_of_cons; [|by apply elem_of_nil in Hx].
      apply (proj1 (Forall_forall _ _) Hf) in Ho as [[y Hy] _]. simpl in Hx. congruence.
    + apply NoDup_singleton.
Qed.

Lemma place_members_ok count base opened seen placed seen' placed' fds :
  place_members count base opened seen placed = (Ok (seen', placed'), fds) →
  count ≤ len placed → Forall (λ o : opened_member, 0 ≤ pl_member_index o.2) opened →
  length placed' = length placed ∧
  (∀ i, i ∈ seen' ↔ i ∈ seen ∨ (∃ o, o ∈ opened ∧ pl_member_index o.2 = i)) ∧
  (∀ o, o ∈ opened → aetherfs_pool_labels_equivalent base o.2 = true ∧
     (pl_member_index o.2 ∉ seen) ∧
     placed' !! Z.to_nat (pl_member_index o.2) =
       Some (pool_member_of o.2 (pl_member_index o.2) o.1)) ∧
  (∀ i, i ∈ seen → 0 ≤ i → placed' !! Z.to_nat i = placed !! Z.to_nat i).
Proof.
  revert seen placed. induction opened as [|[m l] opened IH]; intros seen placed; cbn [place_members].
  { intros [= <- <- _] _ _. split; [done|]. split; [|split; [|done]].
    - intros i. split; [auto|]. intros [?|(o & Ho & _)]; [done|]. by apply elem_of_nil in Ho.
    - intros o Ho. by apply elem_of_nil in Ho. }
  destruct (aetherfs_pool_labels_equivalent base l) eqn:Eq; [simpl|done].
  destruct (Z.leb_spec count (pl_member_index l)) as [|Hlt]; [done|simpl].
  case_bool_decide as Hseen; [done|]. intros H Hlen [Hl Hops]%Forall_cons. simpl in Hl.
  apply IH in H as (H1 & H2 & H3 & H4); [|unfold len in *; by rewrite length_insert|done].
  rewrite length_insert in H1. split; [done|]. split; [|split].
  - intros i. rewrite H2, elem_of_cons. split.
    + intros [[->|?]|(o & Ho & Hi)]; [right|by left|right].
      * exists (m, l). split; [by left|done].
      * exists o. split; [by right|done].
    + intros [?|(o & [->|Ho]%elem_of_cons & Hi)]; [auto|auto|right; eauto].
  - intros o [->|Ho]%elem_of_cons.
    + split; [done|]. split; [done|]. rewrite H4; [|by left|done].
      rewrite list_lookup_insert_eq; [done|]. unfold len in Hlen. simpl in *. lia.
    + destruct (H3 o Ho) as (E1 & E2 & E3). split; [done|]. split; [|done].
      intros Hs. apply E2. by right.
  - intros i Hi Hi0. rewrite H4; [|by right|done]. apply list_lookup_insert_ne.
    intros E. apply Z2Nat.inj in E; [|done..]. by subst.
Qed.

Context (Hbytes : ∀ p w f, sys_open p w = Ok f → is_bytes (of_data f)).

Lemma open_members_bytes paths d w opened r fds d' :
  open_members sys_open paths d w opened = (r, fds, d') → disks_bytes d → disks_bytes d'.
Proof.
  revert d opened. induction paths as [|p paths IH]; intros d opened; simpl.
  { intros [= _ _ <-]. done. }
  destruct (aetherfs_member_open_path sys_open d p w) as [[m|e] d1] eqn:Eo.
  2:{ apply member_open_err in Eo as ->. by intros [= _ _ <-]. }
  apply member_open_ok in Eo as (f & Hf & _ & -> & _). intros H Hd.
  assert (disks_bytes (<[fresh_fd d := of_data f]> d)) by (apply map_Forall_insert_2; eauto).
  destruct (aetherfs_member_read_pool_label _ m) as [[label|]|e]; [by eapply IH|..];
    by injection H as _ _ <-.
Qed.

Lemma labelled_wf d o : disks_bytes d → labelled d o →
  wf o.2 ∧ aetherfs_pool_label_validate o.2 = Ok tt.
Proof.
  unfold labelled, aetherfs_member_read_pool_label, aetherfs_member_read_block. intros Hd H.
  inv_ok. destruct (d !! m_fd o.1) as [data|] eqn:Ed; [|done]. inv_ok.
  unfold read_at in E. destruct (Z.leb_spec (block_offset AETHERFS_POOL_LABEL_BLOCK +
    AETHERFS_DEF_BLOCK_SIZE) (len data)) as [Hl|]; [|done]. inv_ok.
  destruct (negb (pl_magic _ =? _)); [done|]. inv_ok. rewrite <-H.
  match goal with u : unit |- _ => destruct u end. split; [|done].
  apply wf_decode.
  - apply is_bytes_slice. by apply (Hd _ _ Ed).
  - rewrite len_slice by (vm_compute in Hl |- *; (done || lia)). by rewrite sizeof_pool_label.
Qed.

Lemma label_validate_index label : aetherfs_pool_label_validate label = Ok tt →
  pl_magic label = AETHERFS_POOL_MAGIC ∧ pl_member_index label < pl_member_count label.
Proof. unfold aetherfs_pool_label_validate. intros H. inv_ok. by bool_to_prop. Qed.

Lemma labels_equivalent_refl label : aetherfs_pool_labels_equivalent label label = true.
Proof. by apply bool_decide_true. Qed.

Lemma read_label_ok d m data label :
  0 ≤ m_fd m → read_at data 0 4096 = Ok (to_block 4096 label) → wf label →
  aetherfs_pool_label_validate label = Ok tt →
  aetherfs_member_read_pool_label (<[m_fd m := data]> d) m = Ok (Some label).
Proof.
  intros Hm Hr Hwf Hv. unfold aetherfs_member_read_pool_label, aetherfs_member_read_block.
  rewrite (proj2 (Z.ltb_ge _ _)), lookup_insert_eq by done.
  change (block_offset AETHERFS_POOL_LABEL_BLOCK) with 0. change (off_t_ok 0) with true.
  cbn -[read_at decode aetherfs_pool_label_validate].
  change AETHERFS_DEF_BLOCK_SIZE with 4096. rewrite Hr.
  cbn -[decode aetherfs_pool_label_validate]. rewrite decode_to_block by done. destruct (label_validate_index label Hv) as [-> _].
  by rewrite Hv.
Qed.

Lemma label_index_u32 label : wf label → 0 ≤ pl_member_index label.
Proof. intros H. cbn in H. destruct_and!. unfold le_range in *. lia. Qed.

Lemma place_members_Forall count base opened seen placed seen' placed' fds :
  place_members count base opened seen placed = (Ok (seen', placed'), fds) →
  Forall (λ o : opened_member, wf o.2) opened →
  Forall (λ m, is_u64 (m_blocks m)) placed → Forall (λ m, is_u64 (m_blocks m)) placed'.
Proof.
  revert seen placed. induction opened as [|[m l] opened IH]; intros seen placed; cbn [place_members].
  { by intros [= _ <- _]. }
  destruct (negb _); [done|]. destruct (_ || _); [done|].
  intros H [Hl Hw]%Forall_cons Hp. eapply IH; [exact H|done|]. apply Forall_insert; [done|].
  simpl. by apply pool_member_wf_fields, get_pool_member_wf.
Qed.

Lemma fd_inj {A B} (f : A → B) l a b :
  NoDup (map f l) → a ∈ l → b ∈ l → f a = f b → a = b.
Proof.
  intros Hn [i Hi]%list_elem_of_lookup [j Hj]%list_elem_of_lookup E.
  assert (i = j) as <-; [|congruence].
  eapply (NoDup_lookup (map f l)); [done|..].
  - apply list_lookup_fmap_Some. eauto.
  - apply list_lookup_fmap_Some. eauto.
Qed.

(** ** Properties *)

(** C12: opening a pool establishes what block access relies on.  Every member
    slot is filled by exactly the file whose label carries that index (in
    whatever order the paths were given), all labels agree with the image's, the
    label is valid, descriptors are distinct and no descriptor that was open
    before is disturbed. *)
Theorem open_pool_sound garbage d paths w image d' :
  disks_bytes d → 2 ≤ len paths →
  aetherfs_image_open_pool sys_open garbage d paths w = (Ok image, d') →
  member_count image = len paths ∧ writable image = w ∧ geometry_ok image ∧
  fds_distinct image ∧ d ⊆ d' ∧ verify (pool_label image) = true ∧
  blocks image = pl_logical_blocks (pool_label image) ∧
  (∀ i, 0 ≤ i < member_count image → ∃ label,
     labelled d' (get_member image i, label) ∧ pl_member_index label = i ∧
     aetherfs_pool_label_validate label = Ok tt ∧
     aetherfs_pool_labels_equivalent (pool_label image) label = true).
Proof.
  intros Hd Hlen. unfold aetherfs_image_open_pool.
  destruct (_ || _) eqn:Eg; [done|]. apply orb_false_iff in Eg as [_ H8%Z.ltb_ge].
  unfold AETHERFS_MAX_DEVICES in H8.
  destruct paths as [|p [|p' paths]]; [done|unfold len in Hlen; simpl in Hlen; lia|].
  set (ps := p :: p' :: paths) in *.
  destruct (open_members sys_open ps d w []) as [[[opened|e] fds] d1] eqn:Eo; [|done].
  pose proof (open_members_bytes _ _ _ _ _ _ _ Eo Hd) as Hd1.
  apply open_members_ok in Eo as (Hl & Hsub & Hops & Hnd); [|by constructor|by constructor].
  destruct opened as [|[m0 base] opened']; [done|]. set (opened := (m0, base) :: opened') in *.
  destruct (negb _); [done|].
  destruct (place_members _ _ _ _ _) as [[[seen placed]|e] rest] eqn:Ep; [|done].
  destruct (negb _) eqn:Eseen; [done|]. apply negb_false_iff in Eseen.
  rewrite forallb_forall in Eseen. intros [= <- <-].
  assert (Forall (λ o, wf o.2 ∧ aetherfs_pool_label_validate o.2 = Ok tt) opened) as Hwf.
  { eapply Forall_impl; [exact Hops|]. intros o [_ Ho]. by eapply labelled_wf. }
  assert (wf base) as Hbase by apply (Forall_inv Hwf).
  assert (wf (set_pl_member_index 0 base)) as Hbase0 by (revert Hbase; solve_wf_set).
  pose proof (place_members_Forall _ _ _ _ _ _ _ _ Ep
    (Forall_impl _ _ _ Hwf (λ _, @proj1 _ _))) as Hblocks.
  apply place_members_ok in Ep as (Hlp & Hseen & Hplace & _); [|done|].
  2:{ eapply Forall_impl; [exact Hwf|]. intros o [Ho _]. by apply label_index_u32. }
  assert (∀ i, 0 ≤ i < len ps → ∃ o, o ∈ opened ∧ pl_member_index o.2 = i ∧
    placed !! Z.to_nat i = Some (pool_member_of o.2 i o.1)) as Hslot.
  { intros i Hi. specialize (Eseen i). rewrite <-list_elem_of_In, elem_of_seqZ in Eseen.
    specialize (Eseen ltac:(lia)). apply bool_decide_eq_true in Eseen.
    apply Hseen in Eseen as [[]%elem_of_nil|(o & Ho & <-)]. exists o. split; [done|].
    split; [done|]. apply (Hplace o Ho). }
  split; [done|]. split; [done|]. split; [split; simpl; [unfold members_ok; simpl; lia|exact (seal_wf _ Hbase0)|apply Hblocks]|].
  { by repeat constructor. }
  split; [|split; [done|split; [exact (verify_seal _ Hbase0)|split; [done|]]]].
  - intros i j Hi Hj. simpl in Hi, Hj. unfold get_member. simpl.
    destruct (Hslot i Hi) as (o & Ho & Hoi & ->), (Hslot j Hj) as (o' & Ho' & Hoj & ->).
    simpl. intros E. rewrite (fd_inj _ _ _ _ Hnd Ho Ho' E) in Hoi. congruence.
  - intros i Hi. simpl in Hi. destruct (Hslot i Hi) as (o & Ho & Hoi & Hl').
    exists o.2. unfold get_member. simpl. rewrite Hl'. simpl.
    destruct (proj1 (Forall_forall _ _) Hops o Ho) as [_ Hlab].
    split; [exact Hlab|]. split; [done|]. split; [apply (proj1 (Forall_forall _ _) Hwf o Ho)|].
    apply (Hplace o Ho).
Qed.
(** The label block of an image opened alone: no label, or a valid label of one
    member. *)
Definition sole_label (f : open_file) : Prop :=
  ∃ block, read_at (of_data f) 0 4096 = Ok block ∧
    (pl_magic (decode block) = AETHERFS_POOL_MAGIC →
     aetherfs_pool_label_validate (decode block) = Ok tt ∧ pl_member_count (decode block) = 1).

Lemma image_open_ok d p w image d' :
  aetherfs_image_open sys_open d p w = (Ok image, d') →
  ∃ f kind, sys_open p w = Ok f ∧ of_stat f = Ok kind ∧ kind ≠ S_IFOTHER ∧
    d' = <[fresh_fd d := of_data f]> d ∧ m_fd (get_member image 0) = fresh_fd d ∧
    member_count image = 1 ∧ sole_label f.
Proof.
  unfold aetherfs_image_open. destruct (fresh_fd_spec d) as [Hf1 Hf2].
  destruct (aetherfs_member_open_path sys_open d p w) as [[m|e] d1] eqn:Eo; [|done].
  pose proof Eo as Hk. apply member_open_ok in Eo as (f & Hs & Hm & -> & _).
  assert (∃ kind, of_stat f = Ok kind ∧ kind ≠ S_IFOTHER) as (kind & Hst & Hne).
  { unfold aetherfs_member_open_path in Hk. rewrite Hs in Hk.
    destruct (of_stat f) as [[]|]; try done; eauto. }
  destruct (aetherfs_member_read_pool_label _ m) as [o|e] eqn:El; [|done].
  assert (∃ block, read_at (of_data f) 0 4096 = Ok block ∧
    o = (if pl_magic (decode block) =? AETHERFS_POOL_MAGIC then Some (decode block) else None) ∧
    (pl_magic (decode block) = AETHERFS_POOL_MAGIC →
     aetherfs_pool_label_validate (decode block) = Ok tt)) as (block & Hr & Ho & Hv).
  { unfold aetherfs_member_read_pool_label, aetherfs_member_read_block in El.
    rewrite Hm, lookup_insert_eq in El. inv_ok. exists a. split; [done|].
    destruct (pl_magic (decode a) =? _) eqn:Em; cbn [negb] in El; inv_ok.
    - destruct a0. done.
    - split; [done|]. intros Hc. apply Z.eqb_neq in Em. done. }
  intros H. exists f, kind. split; [done|]. split; [done|]. split; [done|].
  destruct (pl_magic (decode block) =? _) eqn:Em; subst o.
  - destruct (negb _) eqn:En; [done|]. bool_to_prop. injection H as <- <-.
    repeat (split; [done|]). exists block. eauto.
  - injection H as <- <-. repeat (split; [done|]). exists block. split; [done|].
    intros Hc. apply Z.eqb_neq in Em. done.
Qed.

Lemma image_open_err d p w e d' :
  aetherfs_image_open sys_open d p w = (Err e, d') → d' = d.
Proof.
  unfold aetherfs_image_open. destruct (fresh_fd_spec d) as [Hf1 Hf2].
  destruct (aetherfs_member_open_path sys_open d p w) as [[m|e'] d1] eqn:Eo.
  2:{ apply member_open_err in Eo as ->. by intros [= _ <-]. }
  apply member_open_ok in Eo as (f & Hs & Hm & -> & _). rewrite <-Hm in *.
  destruct (aetherfs_member_read_pool_label _ m) as [[label|]|]; [destruct (negb _)| |];
    intros [= _ <-]; by apply image_close_single.
Qed.

(** Closing an image of one member. *)
Lemma image_close_one image d : member_count image = 1 → 0 ≤ m_fd (get_member image 0) →
  (aetherfs_image_close image d).2 = delete (m_fd (get_member image 0)) d.
Proof.
  intros Hc Hm. apply Z.leb_le in Hm. unfold aetherfs_image_close. rewrite Hc.
  change (seqZ 0 1) with [0]. cbn [close_members]. by rewrite Hm.
Qed.

(** Opening a single image never leaks a descriptor: every failure, after the
    [open] as well as before it, leaves the descriptor table as it was, and a
    success adds exactly the image's own descriptor with the file's contents. *)
Theorem image_open_descriptors d p w r d' :
  aetherfs_image_open sys_open d p w = (r, d') →
  match r with
  | Err _ => d' = d
  | Ok image => ∃ f, sys_open p w = Ok f ∧ d' = <[fresh_fd d := of_data f]> d ∧
      m_fd (get_member image 0) = fresh_fd d ∧ member_count image = 1
  end.
Proof.
  destruct r as [image|e]; intros H.
  - apply image_open_ok in H as (f & kind & Hs & _ & _ & -> & Hm & Hc & _). by exists f.
  - by eapply image_open_err.
Qed.

(** The error path of opening a pool closes descriptors it does not own: when
    the first member cannot be opened, [opened[1]] has not been written yet, and
    whatever descriptor number the stack slot holds is closed. *)
Theorem open_pool_failure_closes_garbage garbage d p1 p2 w e :
  sys_open p1 w = Err e →
  aetherfs_image_open_pool sys_open garbage d [p1; p2] w = (Err e, close_fd (garbage 1) d).
Proof.
  intros H. unfold aetherfs_image_open_pool.
  change ((len [p1; p2] =? 0) || (AETHERFS_MAX_DEVICES <? len [p1; p2])) with false.
  cbn [open_members]. unfold aetherfs_member_open_path. rewrite H. reflexivity.
Qed.

(** The error path also leaks: given the same two-member file twice, the pool
    is refused (no file can fill two slots), but the first descriptor has moved to
    [image->members] with [image->member_count] still 0, so it stays open. *)
Theorem open_pool_same_file_leaks garbage d p w f label :
  sys_open p w = Ok f → of_stat f = Ok S_IFREG →
  read_at (of_data f) 0 4096 = Ok (to_block 4096 label) →
  wf label → aetherfs_pool_label_validate label = Ok tt → pl_member_count label = 2 →
  aetherfs_image_open_pool sys_open garbage d [p; p] w =
    (Err EINVAL, <[fresh_fd d := of_data f]> d).
Proof.
  intros Hp Hst Hr Hwf Hv Hc. unfold aetherfs_image_open_pool.
  change ((len [p; p] =? 0) || (AETHERFS_MAX_DEVICES <? len [p; p])) with false.
  change (len [p; p]) with 2. cbn [open_members].
  set (d1 := <[fresh_fd d := of_data f]> d). set (d2 := <[fresh_fd d1 := of_data f]> d1).
  set (m n := Member n false (len (of_data f)) (len (of_data f) / 4096) 0 0 0).
  assert (∀ d, aetherfs_member_open_path sys_open d p w =
    (Ok (m (fresh_fd d)), <[fresh_fd d := of_data f]> d)) as Hopen.
  { intros d0. unfold aetherfs_member_open_path. by rewrite Hp, Hst. }
  assert (∀ d, aetherfs_member_read_pool_label (<[fresh_fd d := of_data f]> d) (m (fresh_fd d)) =
    Ok (Some label)) as Hlab by (intros d0; apply (read_label_ok d0 (m (fresh_fd d0))); [apply fresh_fd_spec|done..]).
  rewrite Hopen. cbn [map app]. rewrite (Hlab d). fold d1. cbn [open_members].
  rewrite Hopen. cbn [map app]. rewrite (Hlab d1). fold d2. rewrite Hc. cbn [negb Z.eqb Pos.eqb app].
  destruct (label_validate_index label Hv) as [_ Hi]. rewrite Hc in Hi.
  cbn [place_members]. rewrite !labels_equivalent_refl. cbn [negb].
  rewrite (proj2 (Z.leb_gt _ _) Hi). cbn [orb]. rewrite bool_decide_false by apply not_elem_of_nil.
  rewrite bool_decide_true by by left. cbn [map fst m_fd length Nat.sub replicate app].
  unfold open_pool_fail. change (seqZ 0 2) with [0; 1]. cbn [foldl]. change (close_fd _ d2) with d2 at 1.
  change (default _ _) with (fresh_fd d1). destruct (fresh_fd_spec d1) as [H1 H2].
  unfold close_fd. rewrite (proj2 (Z.leb_le _ _) H1). unfold d2. by rewrite delete_insert_id.
Qed.
End open_proofs.

(** ** Witnesses *)

(** Three files of one pool, named by their member index, and nothing else. *)
Definition sample_pool_file (i : Z) : bytes :=
  to_block 4096 (seal (set_pl_member_index i (sample_label AETHERFS_POOL_PROFILE_MIRROR 4))).

Definition sample_open (p : Z) (writable : bool) : result open_file :=
  if (0 <=? p) && (p <? 3) then Ok (OpenFile (Ok S_IFREG) (Ok tt) (sample_pool_file p))
  else Err ENOENT.

Lemma sample_pool_file_label i : 0 ≤ i < 3 →
  wf (seal (set_pl_member_index i (sample_label AETHERFS_POOL_PROFILE_MIRROR 4))).
Proof.
  intros Hi. apply seal_wf.
  assert (wf (sample_label AETHERFS_POOL_PROFILE_MIRROR 4)) as H
    by (apply sample_label_wf; [unfold is_u32, AETHERFS_POOL_PROFILE_MIRROR; lia|lia]).
  revert H. generalize (sample_label AETHERFS_POOL_PROFILE_MIRROR 4). clear - Hi. solve_wf_set.
Qed.

Lemma sample_open_bytes p w f : sample_open p w = Ok f → is_bytes (of_data f).
Proof.
  unfold sample_open. destruct (_ && _) eqn:E; [|done]. intros [= <-].
  apply andb_true_iff in E as [H1%Z.leb_le H2%Z.ltb_lt].
  apply is_bytes_to_block, sample_pool_file_label. lia.
Qed.

Lemma open_pool_sound_witness :
  ∃ image d', aetherfs_image_open_pool sample_open (λ _, 0) ∅ [2; 0; 1] true = (Ok image, d') ∧
    member_count image = 3 ∧ fds_distinct image ∧
    (∀ i, 0 ≤ i < 3 → ∃ label, labelled d' (get_member image i, label) ∧ pl_member_index label = i).
Proof.
  destruct (aetherfs_image_open_pool sample_open (λ _, 0) ∅ [2; 0; 1] true) as [[image|e] d'] eqn:E.
  - pose proof (open_pool_sound sample_open sample_open_bytes (λ _, 0) ∅ [2; 0; 1] true image d')
      as (H1 & _ & _ & H2 & _ & _ & _ & H3); [apply map_Forall_empty|done|exact E|].
    exists image, d'. split; [done|]. split; [exact H1|]. split; [exact H2|].
    intros i Hi. destruct (H3 i) as (label & L1 & L2 & _); [by rewrite H1|]. eauto.
  - exfalso. revert E. vm_compute. discriminate.
Defined.

Lemma image_open_descriptors_witness :
  aetherfs_image_open sample_open ∅ 1 true = (Err EXDEV, ∅) ∧ (∅ : disks) = ∅.
Proof.
  assert (aetherfs_image_open sample_open ∅ 1 true = (Err EXDEV, ∅)) as E
    by (vm_compute; reflexivity).
  split; [exact E|]. exact (image_open_descriptors sample_open ∅ 1 true (Err EXDEV) ∅ E).
Defined.

Lemma open_pool_failure_closes_garbage_witness :
  aetherfs_image_open_pool sample_open (λ _, 7) {[ 7 := [1] ]} [9; 0] true = (Err ENOENT, ∅).
Proof.
  rewrite (open_pool_failure_closes_garbage sample_open (λ _, 7) {[ 7 := [1] ]} 9 0 true ENOENT)
    by reflexivity.
  vm_compute. reflexivity.
Defined.

(** A pool of two members whose first file is given twice. *)
Definition sample_twin_label : aetherfs_pool_label :=
  seal (PoolLabel AETHERFS_POOL_MAGIC AETHERFS_POOL_VERSION 0 AETHERFS_POOL_PROFILE_MIRROR 2 0
    1 0 3 3 3 0 12 4 (zeros 16)
    (sample_pool_member 0 :: sample_pool_member 1 :: replicate 6 zeroed) (zeros 45)).

Definition sample_twin_open (p : unit) (writable : bool) : result open_file :=
  Ok (OpenFile (Ok S_IFREG) (Ok tt) (to_block 4096 sample_twin_label)).

Lemma sample_twin_label_wf : wf sample_twin_label.
Proof.
  apply (seal_wf (PoolLabel _ _ _ _ _ _ _ _ _ _ _ _ _ _ _ _ _)).
  assert (Forall wf (sample_pool_member 0 :: sample_pool_member 1 :: replicate 6 zeroed)) as Hm.
  { pose proof (sample_label_wf 1 4 ltac:(unfold is_u32; lia) ltac:(lia)) as Hw.
    apply label_wf_fields in Hw as (_ & _ & _ & _ & _ & Hw). cbn -[sample_pool_member] in Hw.
    rewrite !Forall_cons in Hw. destruct_and!. repeat constructor; (done || apply zeroed_wf). }
  cbn -[replicate zeroed sample_pool_member].
  repeat match goal with |- _ ∧ _ => split end; try done; try (unfold le_range; lia).
  - apply Forall_replicate. unfold le_range. lia.
  - apply Forall_replicate. unfold le_range. lia.
Qed.

Lemma open_pool_same_file_leaks_witness :
  aetherfs_image_open_pool sample_twin_open (λ _, -1) ∅ [tt; tt] true =
    (Err EINVAL, {[ 0 := to_block 4096 sample_twin_label ]}).
Proof.
  refine (open_pool_same_file_leaks sample_twin_open (λ _, -1) ∅ tt true _ sample_twin_label
    eq_refl eq_refl _ sample_twin_label_wf _ eq_refl).
  - vm_compute. reflexivity.
  - vm_compute. reflexivity.
Defined.
