(* ===== verification/Load.v ===== *)
(** * Loading an image

    The readers and writers of the metadata blocks and [aetherfs_image_load], from
    [aetherfsprogs/image.c]. *)

From S2P Require Import Prelude Codec Crc Format Integrity SysIo State Pool Blocks Bitmap.

(** ** Extent nodes and checksum blocks *)

Definition aetherfs_read_extent_node (d : disks) (image : aetherfs_image) (blocknr : Z)
    : result aetherfs_extent_node :=
  buf ← aetherfs_image_read_block d image blocknr;
  let node := decode buf : aetherfs_extent_node in
  return_if negb (en_checksum node =? aetherfs_extent_node_checksum node) with EILSEQ ;;
  return_if AETHERFS_EXTENT_LOG_MAX <? en_count node with EINVAL ;;
  Ok node.

(** Returns the node with its checksum stored, as the caller's buffer has it. *)
Definition aetherfs_write_extent_node (d : disks) (image : aetherfs_image) (blocknr : Z)
    (node : aetherfs_extent_node) : result unit * disks * aetherfs_extent_node :=
  let node := set_en_checksum (aetherfs_extent_node_checksum node) node in
  (aetherfs_image_write_block d image blocknr (encode node), node).

Definition aetherfs_read_checksum_block (d : disks) (image : aetherfs_image) (blocknr : Z)
    : result aetherfs_checksum_block :=
  buf ← aetherfs_image_read_block d image blocknr;
  let block := decode buf : aetherfs_checksum_block in
  return_if negb (cb_checksum block =? aetherfs_checksum_block_checksum block) with EILSEQ ;;
  return_if AETHERFS_CHECKSUMS_PER_BLOCK <? cb_entries block with EINVAL ;;
  Ok block.

Definition aetherfs_write_checksum_block (d : disks) (image : aetherfs_image) (blocknr : Z)
    (block : aetherfs_checksum_block) : result unit * disks * aetherfs_checksum_block :=
  let block := set_cb_checksum (aetherfs_checksum_block_checksum block) block in
  (aetherfs_image_write_block d image blocknr (encode block), block).

(** ** Validation of the roots *)

Definition aetherfs_image_validate_super (image : aetherfs_image) : result unit :=
  let super := super image in
  return_if negb (s_magic super =? AETHERFS_MAGIC) with EINVAL ;;
  return_if negb (s_version super =? AETHERFS_VERSION) with EINVAL ;;
  return_if negb (s_blocksize super =? AETHERFS_DEF_BLOCK_SIZE) with EINVAL ;;
  return_if negb (s_checksum super =? aetherfs_super_checksum super) with EILSEQ ;;
  return_if s_blocks_count super <? AETHERFS_BOOTSTRAP_BLOCKS with EINVAL ;;
  return_if negb (s_blocks_count super =? pl_logical_blocks (pool_label image)) with EINVAL ;;
  return_if negb (s_device_count super =? member_count image) with EINVAL ;;
  return_if negb (default 0 (s_checkpoint super !! 0%nat) =? AETHERFS_CHECKPOINT_ROOT_BLOCK)
    with EINVAL ;;
  return_if negb (s_inodes_count super =? AETHERFS_MAX_INODES) with EINVAL ;;
  return_if negb (s_meta_tree super =? AETHERFS_INODE_BITMAP_BLOCK) with EINVAL ;;
  return_if negb (s_extent_tree super =? 0) with EINVAL ;;
  return_if negb (s_free_tree super =? AETHERFS_FREE_EXTENT_BLOCK) with EINVAL ;;
  return_if negb (s_snap_tree super =? 0) with EINVAL ;;
  Ok tt.

Definition aetherfs_image_validate_checkpoint_root (image : aetherfs_image) : result unit :=
  let root := checkpoint_root image in
  let super := super image in
  return_if negb (cr_magic root =? AETHERFS_CHECKPOINT_ROOT_MAGIC) with EINVAL ;;
  return_if negb (cr_version root =? AETHERFS_CHECKPOINT_ROOT_VERSION) with EINVAL ;;
  return_if negb (cr_checksum root =? aetherfs_checkpoint_root_checksum root) with EILSEQ ;;
  return_if negb (cr_generation root =? s_generation super) with EINVAL ;;
  return_if negb (cr_ag_count root =? s_ag_count super) with EINVAL ;;
  return_if negb (cr_region_count root =? 2) with EINVAL ;;
  return_if negb (cr_super_block root =? AETHERFS_SUPERBLOCK_BLOCK) with EINVAL ;;
  return_if negb (cr_root_inode_block root =? s_root_inode super) with EINVAL ;;
  return_if negb (cr_root_dir_block root =? AETHERFS_ROOT_DIR_BLOCK) with EINVAL ;;
  return_if negb (cr_journal_block root =? s_journal_addr super) with EINVAL ;;
  return_if negb (cr_inode_bitmap_block root =? s_meta_tree super) with EINVAL ;;
  return_if negb (cr_free_space_root root =? s_free_tree super) with EINVAL ;;
  return_if negb (cr_metadata_tree_root root =? s_meta_tree super) with EINVAL ;;
  return_if negb (cr_extent_tree_root root =? s_extent_tree super) with EINVAL ;;
  return_if negb (cr_snapshot_root root =? s_snap_tree super) with EINVAL ;;
  return_if negb (cr_scrub_journal root =? s_scrub_journal super) with EINVAL ;;
  return_if negb (cr_health_journal root =? s_health_journal super) with EINVAL ;;
  return_if negb (cr_metadata_region_start root =? AETHERFS_SUPERBLOCK_BLOCK) with EINVAL ;;
  return_if negb (cr_metadata_region_end root =? AETHERFS_CHECKPOINT_ROOT_BLOCK) with EINVAL ;;
  return_if negb (cr_data_region_start root =? AETHERFS_DATA_START_BLOCK) with EINVAL ;;
  return_if negb (cr_data_region_end root =? blocks image) with EINVAL ;;
  return_if negb (cr_special_metadata_root root =? 0) || negb (cr_cache_root root =? 0)
         || negb (cr_parity_root root =? 0) with EINVAL ;;
  Ok tt.

Definition aetherfs_image_validate_bitmap (bitmap : aetherfs_bitmap_block)
    (expected_bits : Z) : result unit :=
  return_if negb (bb_total_bits bitmap =? expected_bits) with EINVAL ;;
  return_if negb (bb_checksum bitmap =? aetherfs_bitmap_checksum bitmap) with EILSEQ ;;
  return_if negb (bb_set_bits bitmap =? aetherfs_image_bitmap_count_set bitmap) with EILSEQ ;;
  Ok tt.

(** ** Loading *)

(** The inodes of one block. *)
Definition AETHERFS_INODES_PER_BLOCK : Z := AETHERFS_DEF_BLOCK_SIZE / AETHERFS_INODE_SIZE.

Definition decode_inode_table (block : bytes) : list aetherfs_inode :=
  map (λ k, decode (slice (k * AETHERFS_INODE_SIZE) AETHERFS_INODE_SIZE block))
    (seqZ 0 AETHERFS_INODES_PER_BLOCK).

(** The first block of [image->inode_table] as bytes. *)
Definition encode_inode_table (image : aetherfs_image) : bytes :=
  flat_map (λ k, encode (inode_at image k)) (seqZ 0 AETHERFS_INODES_PER_BLOCK).

(** On failure the callers close and drop the image, so the fields already
    filled in are not part of the result. *)
Definition aetherfs_image_load (d : disks) (image : aetherfs_image) : result aetherfs_image :=
  block ← aetherfs_image_read_block d image AETHERFS_SUPERBLOCK_BLOCK;
  let image := set_super (decode block) image in
  _ ← aetherfs_image_validate_super image;
  let image := set_blocks (s_blocks_count (super image)) image in
  block ← aetherfs_image_read_block d image (default 0 (s_checkpoint (super image) !! 0%nat));
  let image := set_checkpoint_root (decode block) image in
  _ ← aetherfs_image_validate_checkpoint_root image;
  block ← aetherfs_image_read_block d image (cr_journal_block (checkpoint_root image));
  let image := set_journal (decode block) image in
  return_if negb (il_checksum (journal image) =? aetherfs_journal_checksum (journal image))
    with EILSEQ ;;
  block ← aetherfs_image_read_block d image (cr_inode_bitmap_block (checkpoint_root image));
  let image := set_inode_bitmap (decode block) image in
  _ ← aetherfs_image_validate_bitmap (inode_bitmap image) AETHERFS_MAX_INODES;
  node ← aetherfs_read_extent_node d image (cr_free_space_root (checkpoint_root image));
  let image := set_free_extents node image in
  block ← aetherfs_image_read_block d image (cr_root_inode_block (checkpoint_root image));
  let image := set_inode_table (decode_inode_table block) image in
  block ← aetherfs_image_read_block d image (cr_root_dir_block (checkpoint_root image));
  Ok (set_root_dir block image).

(** ** Writing the metadata back *)

Definition aetherfs_image_write_super (d : disks) (image : aetherfs_image)
    : result unit * disks * aetherfs_image :=
  let image := set_super (set_s_checksum (aetherfs_super_checksum (super image)) (super image)) image in
  (aetherfs_image_write_block d image AETHERFS_SUPERBLOCK_BLOCK
     (to_block AETHERFS_DEF_BLOCK_SIZE (super image)), image).

Definition aetherfs_image_write_journal (d : disks) (image : aetherfs_image)
    : result unit * disks * aetherfs_image :=
  let image :=
    set_journal (set_il_checksum (aetherfs_journal_checksum (journal image)) (journal image)) image in
  (aetherfs_image_write_block d image AETHERFS_JOURNAL_BLOCK
     (to_block AETHERFS_DEF_BLOCK_SIZE (journal image)), image).

Definition aetherfs_image_write_inode_table (d : disks) (image : aetherfs_image)
    : result unit * disks :=
  aetherfs_image_write_block d image AETHERFS_ROOT_INODE_BLOCK (encode_inode_table image).

Definition aetherfs_image_write_free_extents (d : disks) (image : aetherfs_image)
    : result unit * disks * aetherfs_image :=
  let '(r, node) := aetherfs_write_extent_node d image AETHERFS_FREE_EXTENT_BLOCK (free_extents image) in
  (r, set_free_extents node image).

(** ** Images over the same pool

    Block access sees an image only through its label and members: the metadata
    the loader fills in can change freely. *)

Definition same_pool (i j : aetherfs_image) : Prop :=
  pool_label i = pool_label j ∧ members i = members j ∧ member_count i = member_count j.

#[export] Instance same_pool_equiv : Equivalence same_pool.
Proof.
  split.
  - intros i. done.
  - intros i j (E1 & E2 & E3). done.
  - intros i j k (E1 & E2 & E3) (F1 & F2 & F3). unfold same_pool. by rewrite E1, E2, E3.
Qed.

Ltac solve_same_pool :=
  intros i j (E1 & E2 & E3);
  repeat (unfold aetherfs_pool_metadata_mask, aetherfs_pool_data_mask, aetherfs_pool_log_mask,
    aetherfs_pool_profile, limited_mask, aetherfs_pool_member_limit_mask, member_data_end,
    aetherfs_pool_member_data_blocks, aetherfs_pool_member_total_blocks, get_member,
    aetherfs_pool_map_mirror, aetherfs_pool_map_stripe, aetherfs_pool_map_parity,
    aetherfs_image_read_physical_member, aetherfs_image_write_physical_member,
    aetherfs_pool_role_mask_for_bootstrap_block);
  by rewrite ?E1, ?E2, ?E3.

#[export] Instance data_mask_proper : Proper (same_pool ==> eq) aetherfs_pool_data_mask.
Proof. solve_same_pool. Qed.
#[export] Instance role_mask_proper :
  Proper (same_pool ==> eq ==> eq) aetherfs_pool_role_mask_for_bootstrap_block.
Proof. intros i j Hij b ? <-. revert i j Hij. solve_same_pool. Qed.
#[export] Instance profile_proper : Proper (same_pool ==> eq) aetherfs_pool_profile.
Proof. solve_same_pool. Qed.
#[export] Instance data_blocks_proper :
  Proper (same_pool ==> eq ==> eq) aetherfs_pool_member_data_blocks.
Proof. intros i j Hij b ? <-. revert i j Hij. solve_same_pool. Qed.
#[export] Instance read_physical_proper :
  Proper (eq ==> same_pool ==> eq ==> eq ==> eq) aetherfs_image_read_physical_member.
Proof. intros d ? <- i j Hij k ? <- b ? <-. revert i j Hij. solve_same_pool. Qed.

#[export] Instance map_linear_loop_proper :
  Proper (eq ==> same_pool ==> eq ==> eq ==> eq) map_linear_loop.
Proof.
  intros os ? <- i j Hij mask ? <- r ? <-. revert r.
  induction os as [|o os IH]; intros r; [done|]. cbn [map_linear_loop].
  rewrite (data_blocks_proper i j Hij (aetherfs_mask_nth mask o) _ eq_refl). by rewrite IH.
Qed.

#[export] Instance map_data_block_proper :
  Proper (same_pool ==> eq ==> eq) aetherfs_pool_map_data_block.
Proof.
  intros i j Hij b ? <-. unfold aetherfs_pool_map_data_block.
  rewrite (profile_proper i j Hij).
  assert (aetherfs_pool_map_linear i b = aetherfs_pool_map_linear j b) as ->.
  { unfold aetherfs_pool_map_linear. rewrite (data_mask_proper i j Hij). by rewrite Hij. }
  assert (aetherfs_pool_map_mirror i b = aetherfs_pool_map_mirror j b) as ->
    by (revert i j Hij; solve_same_pool).
  assert (aetherfs_pool_map_stripe i b = aetherfs_pool_map_stripe j b) as ->
    by (revert i j Hij; solve_same_pool).
  assert (aetherfs_pool_map_parity i b = aetherfs_pool_map_parity j b) as ->
    by (revert i j Hij; solve_same_pool).
  done.
Qed.

#[export] Instance read_replicas_proper :
  Proper (eq ==> eq ==> same_pool ==> eq ==> eq ==> eq) read_replicas.
Proof.
  intros os ? <- d ? <- i j Hij mask ? <- b ? <-.
  induction os as [|o os IH]; [done|]. cbn [read_replicas]. rewrite IH.
  by rewrite Hij.
Qed.

#[export] Instance read_block_proper :
  Proper (eq ==> same_pool ==> eq ==> eq) aetherfs_image_read_block.
Proof.
  intros d ? <- i j Hij b ? <-. unfold aetherfs_image_read_block.
  rewrite (role_mask_proper i j Hij b b eq_refl), (map_data_block_proper i j Hij b b eq_refl).
  rewrite Hij at 1. destruct (aetherfs_pool_map_data_block j b) as [m|]; [|done]. simpl.
  by rewrite Hij.
Qed.

#[export] Instance read_extent_node_proper :
  Proper (eq ==> same_pool ==> eq ==> eq) aetherfs_read_extent_node.
Proof.
  intros d ? <- i j Hij b ? <-. unfold aetherfs_read_extent_node. by rewrite Hij.
Qed.

#[export] Instance read_checksum_block_proper :
  Proper (eq ==> same_pool ==> eq ==> eq) aetherfs_read_checksum_block.
Proof.
  intros d ? <- i j Hij b ? <-. unfold aetherfs_read_checksum_block. by rewrite Hij.
Qed.

#[global] Arguments aetherfs_image_read_block : simpl never.
#[global] Arguments aetherfs_image_write_block : simpl never.
#[global] Arguments aetherfs_image_validate_super : simpl never.
#[global] Arguments aetherfs_image_validate_checkpoint_root : simpl never.
#[global] Arguments aetherfs_image_validate_bitmap : simpl never.
#[global] Arguments decode_inode_table : simpl never.

(** ** What a load establishes *)

Lemma read_physical_bytes d image i b x : disks_bytes d →
  aetherfs_image_read_physical_member d image i b = Ok x → is_bytes x ∧ len x = 4096.
Proof.
  intros Hd Hr. split; [|by eapply read_physical_len].
  apply read_physical_ok in Hr as (_ & _ & _ & data & Hl & Hr).
  unfold read_at in Hr. case_match; [|done]. injection Hr as <-.
  by apply is_bytes_slice, (Hd _ _ Hl).
Qed.

Lemma read_block_len d image block x :
  aetherfs_image_read_block d image block = Ok x → len x = 4096.
Proof.
  unfold aetherfs_image_read_block. case_match.
  - generalize (seqZ 0 (aetherfs_mask_count
      (aetherfs_pool_role_mask_for_bootstrap_block image block))). intros os.
    induction os as [|o os IH]; [done|]. cbn [read_replicas]. case_match; [done|].
    destruct (aetherfs_image_read_physical_member _ _ _ _) eqn:E; [|done].
    intros [= <-]. by eapply read_physical_len.
  - intros Hr. inv_ok. by eapply read_physical_len.
Qed.

Lemma read_block_bytes d image block x : disks_bytes d →
  aetherfs_image_read_block d image block = Ok x → is_bytes x ∧ len x = 4096.
Proof.
  intros Hd. unfold aetherfs_image_read_block. case_match.
  - generalize (seqZ 0 (aetherfs_mask_count
      (aetherfs_pool_role_mask_for_bootstrap_block image block))). intros os.
    induction os as [|o os IH]; [done|]. cbn [read_replicas]. case_match; [done|].
    destruct (aetherfs_image_read_physical_member _ _ _ _) eqn:E; [|done].
    intros [= <-]. by eapply read_physical_bytes.
  - intros Hr. inv_ok. by eapply read_physical_bytes.
Qed.

(** The image the loader builds from the seven blocks it reads. *)
Definition loaded_image (image : aetherfs_image) (bs bc bj bb bf bi bd : bytes)
    : aetherfs_image :=
  Image (fd image) (writable image) (is_block_device image) (size_bytes image)
    (s_blocks_count (decode bs)) (member_count image) (pool_label image) (decode bc)
    (members image) (decode bs) (decode bj) (decode bb) (decode bf) (decode_inode_table bi) bd.

Record loads (d : disks) (image im : aetherfs_image) (bs bc bj bb bf bi bd : bytes) : Prop := {
  ld_image : im = loaded_image image bs bc bj bb bf bi bd;
  ld_super : aetherfs_image_read_block d image 1 = Ok bs;
  ld_root : aetherfs_image_read_block d image 7 = Ok bc;
  ld_journal : aetherfs_image_read_block d image (s_journal_addr (super im)) = Ok bj;
  ld_bitmap : aetherfs_image_read_block d image 5 = Ok bb;
  ld_free : aetherfs_image_read_block d image 6 = Ok bf;
  ld_inodes : aetherfs_image_read_block d image (s_root_inode (super im)) = Ok bi;
  ld_dir : aetherfs_image_read_block d image 3 = Ok bd;
  ld_super_ok : aetherfs_image_validate_super im = Ok tt;
  ld_root_ok : aetherfs_image_validate_checkpoint_root im = Ok tt;
  ld_journal_ok : verify (journal im) = true;
  ld_bitmap_ok : aetherfs_image_validate_bitmap (inode_bitmap im) AETHERFS_MAX_INODES = Ok tt;
  ld_free_ok : verify (free_extents im) = true ∧ en_count (free_extents im) ≤ 102;
}.

Lemma validate_super_fields image : aetherfs_image_validate_super image = Ok tt →
  verify (super image) = true ∧ s_checkpoint (super image) !! 0%nat = Some 7 ∧
  s_meta_tree (super image) = 5 ∧ s_free_tree (super image) = 6 ∧
  8 ≤ s_blocks_count (super image) ∧
  s_blocks_count (super image) = pl_logical_blocks (pool_label image).
Proof.
  unfold aetherfs_image_validate_super. intros H. inv_ok. bool_to_prop.
  split; [by apply Z.eqb_eq|]. split; [|by repeat split].
  destruct (s_checkpoint (super image) !! 0%nat); [|done]. by f_equal.
Qed.

Lemma validate_root_fields image : aetherfs_image_validate_checkpoint_root image = Ok tt →
  verify (checkpoint_root image) = true ∧ cr_root_dir_block (checkpoint_root image) = 3 ∧
  cr_journal_block (checkpoint_root image) = s_journal_addr (super image) ∧
  cr_root_inode_block (checkpoint_root image) = s_root_inode (super image) ∧
  cr_inode_bitmap_block (checkpoint_root image) = s_meta_tree (super image) ∧
  cr_free_space_root (checkpoint_root image) = s_free_tree (super image).
Proof.
  unfold aetherfs_image_validate_checkpoint_root. intros H. inv_ok. bool_to_prop.
  split; [by apply Z.eqb_eq|]. by repeat split.
Qed.

(** The fields the two validators look at. *)
Lemma validate_super_congr i j :
  super i = super j → pool_label i = pool_label j → member_count i = member_count j →
  aetherfs_image_validate_super i = aetherfs_image_validate_super j.
Proof. unfold aetherfs_image_validate_super. by intros -> -> ->. Qed.

Lemma validate_root_congr i j :
  super i = super j → checkpoint_root i = checkpoint_root j → blocks i = blocks j →
  aetherfs_image_validate_checkpoint_root i = aetherfs_image_validate_checkpoint_root j.
Proof. unfold aetherfs_image_validate_checkpoint_root. by intros -> -> ->. Qed.

(** Computes the fields of an image after a chain of setters. *)
Ltac image_fields :=
  cbn [set_super set_blocks set_checkpoint_root set_journal set_inode_bitmap set_free_extents
       set_inode_table set_root_dir super blocks checkpoint_root journal inode_bitmap
       free_extents inode_table root_dir pool_label members member_count fd writable
       is_block_device size_bytes] in *.

Lemma read_same_pool d i j b : pool_label i = pool_label j → members i = members j →
  member_count i = member_count j →
  aetherfs_image_read_block d i b = aetherfs_image_read_block d j b.
Proof. intros E1 E2 E3. by rewrite (conj E1 (conj E2 E3) : same_pool i j). Qed.

Lemma load_gives_loads d image im : aetherfs_image_load d image = Ok im →
  ∃ bs bc bj bb bf bi bd, loads d image im bs bc bj bb bf bi bd.
Proof.
  unfold aetherfs_image_load, aetherfs_read_extent_node. intros H.
  apply bind_ok in H as (bs & R1 & H). image_fields.
  apply bind_ok in H as ([] & V1 & H). rewrite (read_same_pool d _ image) in H by reflexivity.
  apply bind_ok in H as (bc & R7 & H). image_fields.
  apply bind_ok in H as ([] & V7 & H). rewrite (read_same_pool d _ image) in H by reflexivity.
  apply bind_ok in H as (bj & Rj & H). image_fields.
  apply reject_ok in H as [Vj H]. rewrite (read_same_pool d _ image) in H by reflexivity.
  apply bind_ok in H as (bb & R5 & H). image_fields.
  apply bind_ok in H as ([] & V5 & H). rewrite (read_same_pool d _ image) in H by reflexivity.
  apply bind_ok in H as (nf & Hf & H). apply bind_ok in Hf as (bf & R6 & Hf).
  apply reject_ok in Hf as [Vf1 Hf]. apply reject_ok in Hf as [Vf2 Hf]. injection Hf as <-.
  image_fields. rewrite (read_same_pool d _ image) in H by reflexivity.
  apply bind_ok in H as (bi & Ri & H). image_fields.
  rewrite (read_same_pool d _ image) in H by reflexivity.
  apply bind_ok in H as (bd & R3 & H). image_fields. injection H as <-.
  pose proof (validate_super_fields _ V1) as (_ & F1 & F2 & F3 & _).
  pose proof (validate_root_fields _ V7) as (_ & G1 & G2 & G3 & G4 & G5). image_fields.
  rewrite F1 in R7. rewrite G2 in Rj. rewrite G4, F2 in R5. rewrite G5, F3 in R6.
  rewrite G3 in Ri. rewrite G1 in R3. apply negb_false_iff in Vj, Vf1. apply Z.ltb_ge in Vf2.
  exists bs, bc, bj, bb, bf, bi, bd. unfold loaded_image. split; image_fields;
    [reflexivity|assumption..| | |assumption|assumption|by split].
  - rewrite <-V1. by apply validate_super_congr.
  - rewrite <-V7. by apply validate_root_congr.
Qed.

Lemma loads_gives_load d image im :
  (∃ bs bc bj bb bf bi bd, loads d image im bs bc bj bb bf bi bd) → aetherfs_image_load d image = Ok im.
Proof.
  unfold aetherfs_image_load, aetherfs_read_extent_node.
  intros (bs & bc & bj & bb & bf & bi & bd & [-> R1 R7 Rj R5 R6 Ri R3 V1 V7 Vj V5 [Vf1 Vf2]]).
  pose proof (validate_super_fields _ V1) as (_ & F1 & F2 & F3 & _).
  pose proof (validate_root_fields _ V7) as (_ & G1 & G2 & G3 & G4 & G5).
  unfold loaded_image in *. image_fields.
  apply bind_ok. exists bs. split; [exact R1|]. image_fields.
  apply bind_ok. exists tt. split; [rewrite <-V1; by apply validate_super_congr|].
  rewrite (read_same_pool d _ image) by reflexivity.
  apply bind_ok. exists bc. split; [by rewrite F1|]. image_fields.
  apply bind_ok. exists tt. split; [rewrite <-V7; by apply validate_root_congr|].
  rewrite (read_same_pool d _ image) by reflexivity.
  apply bind_ok. exists bj. split; [by rewrite G2|]. image_fields.
  apply reject_ok. split; [by apply negb_false_iff|].
  rewrite (read_same_pool d _ image) by reflexivity.
  apply bind_ok. exists bb. split; [by rewrite G4, F2|]. image_fields.
  apply bind_ok. exists tt. split; [exact V5|].
  rewrite (read_same_pool d _ image) by reflexivity.
  apply bind_ok. exists (decode bf). split.
  { apply bind_ok. exists bf. split; [by rewrite G5, F3|].
    apply reject_ok. split; [by apply negb_false_iff|].
    apply reject_ok. split; [by apply Z.ltb_ge|done]. }
  image_fields. rewrite (read_same_pool d _ image) by reflexivity.
  apply bind_ok. exists bi. split; [by rewrite G3|]. image_fields.
  rewrite (read_same_pool d _ image) by reflexivity.
  apply bind_ok. exists bd. split; [by rewrite G1|]. image_fields. done.
Qed.

Lemma load_loads d image im :
  aetherfs_image_load d image = Ok im ↔
  ∃ bs bc bj bb bf bi bd, loads d image im bs bc bj bb bf bi bd.
Proof. split; [apply load_gives_loads|apply loads_gives_load]. Qed.

Lemma loads_same_pool d image im bs bc bj bb bf bi bd :
  loads d image im bs bc bj bb bf bi bd → same_pool im image.
Proof. by intros [-> _ _ _ _ _ _ _ _ _ _ _ _]. Qed.

(** Every replica of the bootstrap blocks can be read. *)
Definition replicas_readable (d : disks) (image : aetherfs_image) : Prop :=
  ∀ b, 0 ≤ b < 8 →
    ∀ index, index ∈ members_of (aetherfs_pool_role_mask_for_bootstrap_block image b) →
      is_ok (aetherfs_image_read_physical_member d image index b) = true.

#[export] Instance access_ok_proper : Proper (same_pool ==> iff) access_ok.
Proof.
  assert (∀ i j, same_pool i j → access_ok i → access_ok j) as H.
  { intros i j Hij [[H1 H2 H3] H4 H5]. pose proof Hij as (E1 & E2 & E3).
    split; [split|..].
    - unfold members_ok in *. by rewrite <-E3.
    - by rewrite <-E1.
    - by rewrite <-E2.
    - unfold fds_distinct, get_member in *. by rewrite <-E2, <-E3.
    - intros k. by rewrite <-Hij. }
  intros i j Hij. split; apply H; [done|by symmetry].
Qed.

#[export] Instance replicas_readable_proper :
  Proper (eq ==> same_pool ==> iff) replicas_readable.
Proof.
  intros d ? <- i j Hij. unfold replicas_readable. split; intros H b Hb k.
  - rewrite <-Hij. by apply H.
  - rewrite Hij. by apply H.
Qed.

(** A write to one bootstrap block seen from the others. *)
Lemma read_bootstrap_frame image b d d' buf :
  access_ok image → replicas_readable d image → 0 ≤ b < 8 → len buf = 4096 →
  aetherfs_image_write_block d image b buf = (Ok tt, d') →
  aetherfs_image_read_block d' image b = Ok buf ∧
  ∀ b' old, 0 ≤ b' < 8 → b' ≠ b →
    aetherfs_image_read_block d image b' = Ok old → aetherfs_image_read_block d' image b' = Ok old.
Proof.
  intros Hacc Hrep Hb Hl Hw. apply write_block_ok in Hw as [Hr Hk]; [|done|lia|done].
  split; [done|]. intros b' old Hb' Hne Hold.
  apply (read_block_frame image b d d' Hacc ltac:(lia) Hk b' old); [lia|done|done|].
  intros _. by apply Hrep.
Qed.

(** The superblock's fields the validator checks, apart from its checksum, do
    not include the free count. *)
Lemma validate_super_free image image' n :
  wf (super image) → is_u64 n →
  aetherfs_image_validate_super image = Ok tt →
  super image' = seal (set_s_free_blocks n (super image)) →
  pool_label image' = pool_label image → member_count image' = member_count image →
  aetherfs_image_validate_super image' = Ok tt.
Proof.
  intros Hwf Hn H Hs Hp Hm.
  assert (verify (super image') = true) as Hv.
  { rewrite Hs. apply verify_seal. revert Hwf Hn. generalize (super image). solve_wf_set. }
  pose proof (validate_super_fields _ H) as (Hv0 & _). rewrite <-H.
  unfold aetherfs_image_validate_super. unfold verify in Hv, Hv0. cbn [csum_field csum super_checksummed] in *.
  rewrite Hv, Hv0, Hp, Hm, Hs. reflexivity.
Qed.

(** ** Properties *)

(** A load never accepts a superblock with one corrupted byte.  If an image
    loads and one of the 256 bytes of its superblock is then changed, in whatever
    way the rest of the storage is changed with it, the load fails. *)
Theorem load_rejects_corrupted_super d d' image block i v :
  disks_bytes d → is_ok (aetherfs_image_load d image) = true →
  aetherfs_image_read_block d image AETHERFS_SUPERBLOCK_BLOCK = Ok block →
  (i < 256)%nat → is_byte v → block !! i ≠ Some v →
  aetherfs_image_read_block d' image AETHERFS_SUPERBLOCK_BLOCK = Ok (<[i:=v]> block) →
  is_ok (aetherfs_image_load d' image) = false.
Proof.
  intros Hd Hok Hb Hi Hv Hne Hb'.
  destruct (aetherfs_image_load d image) as [im|] eqn:E; [|done].
  destruct (aetherfs_image_load d' image) as [im'|] eqn:E'; [exfalso|done].
  apply load_loads in E as (bs & ? & ? & ? & ? & ? & ? & L).
  apply load_loads in E' as (bs' & ? & ? & ? & ? & ? & ? & L').
  pose proof (validate_super_fields _ (ld_super_ok _ _ _ _ _ _ _ _ _ _ L)) as (V & _).
  pose proof (validate_super_fields _ (ld_super_ok _ _ _ _ _ _ _ _ _ _ L')) as (V' & _).
  pose proof (ld_super _ _ _ _ _ _ _ _ _ _ L) as R. rewrite (ld_image _ _ _ _ _ _ _ _ _ _ L) in V.
  pose proof (ld_super _ _ _ _ _ _ _ _ _ _ L') as R'. rewrite (ld_image _ _ _ _ _ _ _ _ _ _ L') in V'.
  change 1 with AETHERFS_SUPERBLOCK_BLOCK in R, R'. rewrite Hb in R. rewrite Hb' in R'.
  injection R as <-. injection R' as <-. unfold loaded_image in V, V'. image_fields.
  apply read_block_bytes in Hb as [Hby Hlen]; [|done].
  rewrite verify_block_flip in V'; try done; rewrite sizeof_super; lia.
Qed.

Section flush.
Context (d d' : disks) (image im im' : aetherfs_image) (n : Z) (bs bc bj bb bf bi bd : bytes).
Let s' : aetherfs_super := seal (set_s_free_blocks n (super im)).
Hypothesis Hload : loads d image im bs bc bj bb bf bi bd.
Hypothesis Hwf : wf (super im).
Hypothesis Hn : is_u64 n.
Hypothesis Hroot : s_root_inode (super im) = AETHERFS_ROOT_INODE_BLOCK.
Hypothesis Hj : s_journal_addr (super im) = AETHERFS_JOURNAL_BLOCK.
Hypothesis Him' : set_super s' im = im'.

(** The new superblock in place and the other blocks as before, the flushed image loads. *)
Lemma flushed_loads :
  aetherfs_image_read_block d' image AETHERFS_SUPERBLOCK_BLOCK = Ok (to_block AETHERFS_DEF_BLOCK_SIZE s') →
  (∀ b old, 0 ≤ b < 8 → b ≠ 1 → aetherfs_image_read_block d image b = Ok old →
    aetherfs_image_read_block d' image b = Ok old) →
  loads d' image im' (to_block AETHERFS_DEF_BLOCK_SIZE s') bc bj bb bf bi bd.
Proof.
  intros Hr Hframe. destruct Hload as [Him R1 R7 Rj R5 R6 Ri R3 V1 V7 Vj V5 Vf].
  assert (super im = decode bs) as Hs by by rewrite Him.
  assert (super im' = s') as Hs' by by rewrite <-Him'.
  assert (wf s') as Hws by (apply seal_wf; revert Hwf Hn; generalize (super im); solve_wf_set).
  rewrite Hroot in Ri. rewrite Hj in Rj. split.
  - unfold loaded_image. rewrite decode_to_block by done. rewrite <-Him', Him.
    unfold loaded_image, s'. rewrite Hs. reflexivity.
  - exact Hr.
  - by apply Hframe.
  - rewrite Hs'. change (s_journal_addr s') with (s_journal_addr (super im)).
    rewrite Hj. by apply Hframe.
  - by apply Hframe.
  - by apply Hframe.
  - rewrite Hs'. change (s_root_inode s') with (s_root_inode (super im)).
    rewrite Hroot. by apply Hframe.
  - by apply Hframe.
  - apply (validate_super_free im im' n Hwf Hn V1 Hs'); by rewrite <-Him'.
  - rewrite <-V7. unfold aetherfs_image_validate_checkpoint_root. rewrite Hs'.
    by rewrite <-Him'.
  - by rewrite <-Him'.
  - by rewrite <-Him'.
  - by rewrite <-Him'.
Qed.
End flush.

(** C13: a flushed superblock is what the next load sees.  After
    [aetherfs_image_write_super] of a loaded image with a new free count (the
    update every allocation path ends with), loading again succeeds and yields
    exactly the flushed image: its other metadata blocks are untouched on all
    replicas and the stored checksum is the one the loader expects. *)
Theorem flush_super_roundtrip d image im n d' im' :
  access_ok image → disks_bytes d → replicas_readable d image → is_u64 n →
  aetherfs_image_load d image = Ok im →
  s_root_inode (super im) = AETHERFS_ROOT_INODE_BLOCK →
  s_journal_addr (super im) = AETHERFS_JOURNAL_BLOCK →
  aetherfs_image_write_super d (set_super (set_s_free_blocks n (super im)) im) = (Ok tt, d', im') →
  aetherfs_image_load d' image = Ok im' ∧ s_free_blocks (super im') = n.
Proof.
  intros Hacc Hd Hrep Hn Hload Hroot Hj Hw.
  apply load_loads in Hload as (bs & bc & bj & bb & bf & bi & bd & L).
  pose proof (loads_same_pool _ _ _ _ _ _ _ _ _ _ L) as Hpool.
  assert (wf (super im)) as Hwf.
  { destruct L as [-> R1]. destruct (read_block_bytes _ _ _ _ Hd R1) as [Hby Hlen].
    apply (wf_decode (A := aetherfs_super)); [done|rewrite sizeof_super; lia]. }
  assert (wf (seal (set_s_free_blocks n (super im)))) as Hws.
  { apply seal_wf. revert Hwf Hn. generalize (super im). solve_wf_set. }
  pose proof (f_equal snd Hw) as Him'. apply (f_equal fst) in Hw.
  unfold aetherfs_image_write_super in Hw, Him'. cbn [fst snd] in Hw, Him'.
  set (s' := seal (set_s_free_blocks n (super im))) in *.
  change (set_s_checksum _ _) with s' in Hw, Him'. rewrite Him' in Hw.
  assert (super im' = s') as Hs' by by rewrite <-Him'.
  assert (same_pool im' image) as Hpool' by by rewrite <-Him', <-Hpool.
  apply read_bootstrap_frame in Hw as [Hr Hf];
    [|first [done|by rewrite Hpool'].. |rewrite Hs'; apply len_to_block; [done|by rewrite sizeof_super]].
  rewrite Hs', Hpool' in Hr. split; [|by rewrite Hs']. apply load_loads.
  exists (to_block AETHERFS_DEF_BLOCK_SIZE s'), bc, bj, bb, bf, bi, bd.
  apply (flushed_loads d d' image im im' n bs); try done.
  intros b old Hb Hne. rewrite <-Hpool'. by apply Hf.
Qed.
