(* ===== verification/RootDir.v ===== *)
(** * The root directory block

    [aetherfs_dirent_checksum] and [aetherfs_image_validate_root_dir] of
    [aetherfsprogs/image.c], and [aetherfs_init_root_dir] of [mkfs.c].  The C code
    walks the block with pointers; a read outside the 4096-byte buffer is undefined
    there and [Err EFAULT] here, a value no source function returns. *)

From S2P Require Import Prelude Codec Crc Format Integrity State.

(** ** Entries *)

(** The bytes of an entry: the header and [name_len] bytes of name. *)
Definition dirent_bytes (entry : aetherfs_dir_entry) (name : bytes) : bytes :=
  encode entry ++ name.

(** [aetherfs_dirent_checksum(entry)]; the copy in [mkfs.c] has no length check
    and is only called with names of one and two bytes. *)
Definition aetherfs_dirent_checksum (entry : aetherfs_dir_entry) (name : bytes) : Z :=
  if AETHERFS_MAX_NAMELEN <? de_name_len entry then 0
  else Z.land (aetherfs_crc32c_data (dirent_bytes (set_de_checksum 0 entry) name)) 0xFF.

(** [(struct aetherfs_dir_entry * )(block + offset)], header only. *)
Definition entry_at (block : bytes) (offset : Z) : result aetherfs_dir_entry :=
  if offset + AETHERFS_DIR_ENTRY_BASE_SIZE <=? len block
  then Ok (decode (slice offset AETHERFS_DIR_ENTRY_BASE_SIZE block)) else Err EFAULT.

(** [entry->name], [name_len] bytes of it. *)
Definition name_at (block : bytes) (offset name_len : Z) : result bytes :=
  if offset + AETHERFS_DIR_ENTRY_BASE_SIZE + name_len <=? len block
  then Ok (slice (offset + AETHERFS_DIR_ENTRY_BASE_SIZE) name_len block) else Err EFAULT.

Definition dot_name : bytes := [46].
Definition dotdot_name : bytes := [46; 46].

(** ** The walk *)

(** [saw_dot], [saw_dotdot] and the inode indices whose [dir_refs] is true. *)
Record dir_state := DirState {
  saw_dot : bool;
  saw_dotdot : bool;
  dir_refs : gset Z;
}.

(** The loop body for an entry in use. *)
Definition dir_use_entry (ino : Z) (name : bytes) (st : dir_state) : result dir_state :=
  if bool_decide (name = dot_name) then
    return_if negb (ino =? AETHERFS_ROOT_INO) with EINVAL ;;
    Ok (DirState true (saw_dotdot st) (dir_refs st))
  else if bool_decide (name = dotdot_name) then
    return_if negb (ino =? AETHERFS_ROOT_INO) with EINVAL ;;
    Ok (DirState (saw_dot st) true (dir_refs st))
  else
    return_if (ino <? AETHERFS_ROOT_INO) || (AETHERFS_ROOT_INO + AETHERFS_MAX_INODES <=? ino)
      with EINVAL ;;
    let inode_index := ino - AETHERFS_ROOT_INO in
    return_if bool_decide (inode_index ∈ dir_refs st) with EEXIST ;;
    Ok (DirState (saw_dot st) (saw_dotdot st) ({[ inode_index ]} ∪ dir_refs st)).

(** One iteration: the next offset and state. *)
Definition dir_step (block : bytes) (offset : Z) (st : dir_state) : result (Z * dir_state) :=
  entry ← entry_at block offset;
  let rec_len := de_rec_len entry in
  let name_len := de_name_len entry in
  let ino := de_ino entry in
  return_if (rec_len =? 0) || negb (Z.land rec_len 3 =? 0)
         || (AETHERFS_DEF_BLOCK_SIZE <? offset + rec_len) with EINVAL ;;
  return_if (u32 (rec_len - AETHERFS_DIR_ENTRY_BASE_SIZE) <? name_len)
         || (AETHERFS_MAX_NAMELEN <? name_len) with EINVAL ;;
  if ino =? 0 then Ok (offset + rec_len, st)
  else
    name ← name_at block offset name_len;
    return_if negb (de_checksum entry =? aetherfs_dirent_checksum entry name) with EILSEQ ;;
    st ← dir_use_entry ino name st;
    Ok (offset + rec_len, st).

(** [None] when the fuel runs out. *)
Fixpoint dir_loop (fuel : nat) (block : bytes) (offset : Z) (st : dir_state)
    : option (result dir_state) :=
  if offset <? AETHERFS_DEF_BLOCK_SIZE then
    match fuel with
    | O => None
    | S fuel =>
        match dir_step block offset st with
        | Err e => Some (Err e)
        | Ok (offset, st) => dir_loop fuel block offset st
        end
    end
  else Some (Ok st).

(** Every step advances by a positive multiple of 4. *)
Definition dir_fuel : nat := 1024.

Definition aetherfs_image_validate_root_dir (image : aetherfs_image) : result (gset Z) :=
  st ← default (Err EFAULT) (dir_loop dir_fuel (root_dir image) 0 (DirState false false ∅));
  if saw_dot st && saw_dotdot st then Ok (dir_refs st) else Err EINVAL.

(** ** Formatting *)

Definition root_dirent (rec_len : Z) (name : bytes) : aetherfs_dir_entry :=
  let entry := DirEntry AETHERFS_ROOT_INO rec_len (len name) AETHERFS_FT_DIR 0 in
  set_de_checksum (aetherfs_dirent_checksum entry name) entry.

Definition aetherfs_init_root_dir : bytes :=
  let dot_len := AETHERFS_DIR_REC_LEN 1 in
  let block := zeros AETHERFS_DEF_BLOCK_SIZE in
  let block := splice 0 (dirent_bytes (root_dirent dot_len dot_name) dot_name) block in
  splice dot_len (dirent_bytes (root_dirent (u16 (AETHERFS_DEF_BLOCK_SIZE - dot_len)) dotdot_name)
    dotdot_name) block.

(** ** Termination *)

Lemma dir_step_advances block offset st offset' st' :
  is_bytes block → 0 ≤ offset → offset mod 4 = 0 → dir_step block offset st = Ok (offset', st') →
  offset + 4 ≤ offset' ≤ AETHERFS_DEF_BLOCK_SIZE ∧ offset' mod 4 = 0.
Proof.
  unfold dir_step. intros Hb Ho Hm H. inv_ok. rename a into entry.
  match goal with H : (_ || _) || _ = false |- _ => apply orb_false_iff in H as [H Hend];
    apply orb_false_iff in H as [Hz Hal] end.
  assert (offset' = offset + de_rec_len entry) as ->.
  { destruct (de_ino entry =? 0); inv_ok; congruence. }
  apply Z.eqb_neq in Hz. apply negb_false_iff, Z.eqb_eq in Hal. apply Z.ltb_ge in Hend.
  change 3 with (Z.ones 2) in Hal. rewrite Z.land_ones in Hal by lia. change (2 ^ 2) with 4 in Hal.
  assert (0 ≤ de_rec_len entry).
  { unfold entry_at in E. destruct (Z.leb_spec (offset + AETHERFS_DIR_ENTRY_BASE_SIZE) (len block));
      [|done]. injection E as <-.
    assert (wf (decode (slice offset AETHERFS_DIR_ENTRY_BASE_SIZE block) : aetherfs_dir_entry)) as Hw.
    { apply wf_decode; [by apply is_bytes_slice|].
      rewrite len_slice, sizeof_dir_entry by (unfold AETHERFS_DIR_ENTRY_BASE_SIZE in *; lia). lia. }
    cbn in Hw. destruct_and!. unfold le_range in *. lia. }
  pose proof (Z.div_mod (de_rec_len entry) 4 ltac:(lia)).
  split; [lia|]. rewrite Z.add_mod, Hm, Hal by lia. done.
Qed.

Lemma dir_loop_total fuel block offset st :
  is_bytes block → 0 ≤ offset → offset mod 4 = 0 → 4096 - offset ≤ 4 * Z.of_nat fuel →
  is_Some (dir_loop fuel block offset st).
Proof.
  intros Hb. revert offset st. induction fuel as [|fuel IH]; intros offset st Ho Hm Hf; simpl;
    destruct (Z.ltb_spec offset AETHERFS_DEF_BLOCK_SIZE) as [Hlt|]; try done;
    unfold AETHERFS_DEF_BLOCK_SIZE in Hlt; [lia|].
  destruct (dir_step block offset st) as [[offset' st']|] eqn:E; [|done].
  apply dir_step_advances in E as [H1 H2]; [|done..]. apply IH; lia.
Qed.

(** ** What the walk accepts *)

(** The entries in use of a chain of records from an offset to the end of the
    block, each with a readable name and a matching checksum. *)
Inductive dir_chain (block : bytes) : Z → list (aetherfs_dir_entry * bytes) → Prop :=
| chain_end : dir_chain block AETHERFS_DEF_BLOCK_SIZE []
| chain_free offset e rest :
    entry_at block offset = Ok e → de_ino e = 0 →
    dir_chain block (offset + de_rec_len e) rest → dir_chain block offset rest
| chain_used offset e name rest :
    entry_at block offset = Ok e → de_ino e ≠ 0 →
    name_at block offset (de_name_len e) = Ok name →
    de_checksum e = aetherfs_dirent_checksum e name →
    dir_chain block (offset + de_rec_len e) rest →
    dir_chain block offset ((e, name) :: rest).

Definition is_child (e : aetherfs_dir_entry * bytes) : bool :=
  negb (bool_decide (e.2 = dot_name)) && negb (bool_decide (e.2 = dotdot_name)).

(** The inode indices the named children refer to. *)
Definition children (entries : list (aetherfs_dir_entry * bytes)) : list Z :=
  map (λ e : aetherfs_dir_entry * bytes, de_ino e.1 - AETHERFS_ROOT_INO)
    (List.filter is_child entries).

Definition has_name (name : bytes) (entries : list (aetherfs_dir_entry * bytes)) : bool :=
  existsb (λ e : aetherfs_dir_entry * bytes, bool_decide (e.2 = name)) entries.

(** What the walk has established about the entries it passed, from the state
    before to the state after. *)
Record dir_walked (st st' : dir_state) (entries : list (aetherfs_dir_entry * bytes)) : Prop := {
  wk_dot : saw_dot st' = saw_dot st || has_name dot_name entries;
  wk_dotdot : saw_dotdot st' = saw_dotdot st || has_name dotdot_name entries;
  wk_refs : dir_refs st' = list_to_set (children entries) ∪ dir_refs st;
  wk_nodup : NoDup (children entries);
  wk_fresh : Forall (λ i, i ∉ dir_refs st) (children entries);
  wk_range : Forall (λ i, 0 ≤ i < AETHERFS_MAX_INODES) (children entries);
  wk_self : Forall (λ e, is_child e = false → de_ino e.1 = AETHERFS_ROOT_INO) entries;
}.

Lemma dir_use_entry_ok e name st st1 st' rest :
  dir_use_entry (de_ino e) name st = Ok st1 → dir_walked st1 st' rest →
  dir_walked st st' ((e, name) :: rest).
Proof.
  unfold dir_use_entry. intros H [W1 W2 W3 W4 W5 W6 W7].
  destruct (bool_decide (name = dot_name)) eqn:Ed.
  { inv_ok. bool_to_prop. assert (children ((e, name) :: rest) = children rest) as Hc
      by (unfold children; cbn; unfold is_child; cbn; by rewrite Ed).
    apply bool_decide_eq_true in Ed as ->.
    split; rewrite ?Hc; try done; cbn.
    - by rewrite orb_true_r.
    - by apply Forall_cons. }
  destruct (bool_decide (name = dotdot_name)) eqn:Edd.
  { inv_ok. bool_to_prop. assert (children ((e, name) :: rest) = children rest) as Hc
      by (unfold children; cbn; unfold is_child; cbn; by rewrite Ed, Edd).
    apply bool_decide_eq_true in Edd as ->.
    split; rewrite ?Hc; try done; cbn.
    - by rewrite orb_true_r.
    - by apply Forall_cons. }
  inv_ok. assert (is_child (e, name) = true) as Hchild
    by (unfold is_child; cbn; by rewrite Ed, Edd).
  set (i := de_ino e - AETHERFS_ROOT_INO) in *.
  assert (children ((e, name) :: rest) = i :: children rest) as Hc
    by (unfold children; cbn; by rewrite Hchild).
  match goal with H : _ || _ = false |- _ => apply orb_false_iff in H as [Hlo Hhi] end.
  match goal with H : bool_decide _ = false |- _ => apply bool_decide_eq_false in H as Hnew end.
  apply Z.ltb_ge in Hlo. apply Z.leb_gt in Hhi. cbn in W1, W2, W3, W5.
  split; rewrite ?Hc; cbn; rewrite ?Ed, ?Edd; cbn; try done.
  - rewrite W3. set_solver.
  - apply NoDup_cons; split; [|done]. intros Hi.
    apply (proj1 (Forall_forall _ _) W5 i Hi). set_solver.
  - apply Forall_cons; split; [done|]. eapply Forall_impl; [exact W5|]. set_solver.
  - apply Forall_cons; split; [unfold i; lia|done].
  - apply Forall_cons; split; [by rewrite Hchild|done].
Qed.

Lemma dir_loop_walks fuel block offset st st' :
  is_bytes block → 0 ≤ offset ≤ AETHERFS_DEF_BLOCK_SIZE → offset mod 4 = 0 →
  dir_loop fuel block offset st = Some (Ok st') →
  ∃ entries, dir_chain block offset entries ∧ dir_walked st st' entries.
Proof.
  intros Hb. revert offset st. induction fuel as [|fuel IH]; intros offset st Ho Hm; simpl;
    destruct (Z.ltb_spec offset AETHERFS_DEF_BLOCK_SIZE) as [Hlt|Hge].
  1: done. 2: destruct (dir_step block offset st) as [[offset' st1]|] eqn:E; [|done].
  1,3: intros [= <-]; assert (offset = AETHERFS_DEF_BLOCK_SIZE) as -> by lia;
    exists []; split; [constructor|]; split; cbn; rewrite ?orb_false_r; try done;
    [set_solver|constructor].
  intros Hl. pose proof (dir_step_advances _ _ _ _ _ Hb (proj1 Ho) Hm E) as [Ha1 Ha2].
  apply IH in Hl as (entries & Hc & Hw); [|lia|done].
  unfold dir_step in E. apply bind_ok in E as (e & He & E).
  apply reject_ok in E as [_ E]. apply reject_ok in E as [_ E].
  destruct (Z.eqb_spec (de_ino e) 0) as [Hz|Hnz].
  - injection E as <- <-. exists entries. split; [by eapply chain_free|done].
  - apply bind_ok in E as (name & Hn & E). apply reject_ok in E as [Hs E].
    apply bind_ok in E as (st2 & Hu & E). injection E as <- <-. bool_to_prop.
    exists ((e, name) :: entries). split; [by eapply chain_used|by eapply dir_use_entry_ok].
Qed.

(** What the walk as a whole establishes. *)
Lemma root_dir_accepts image refs :
  is_bytes (root_dir image) → aetherfs_image_validate_root_dir image = Ok refs →
  ∃ entries, dir_chain (root_dir image) 0 entries ∧
    has_name dot_name entries = true ∧ has_name dotdot_name entries = true ∧
    Forall (λ e, is_child e = false → de_ino e.1 = AETHERFS_ROOT_INO) entries ∧
    NoDup (children entries) ∧ Forall (λ i, 0 ≤ i < AETHERFS_MAX_INODES) (children entries) ∧
    (∀ i, i ∈ refs ↔ i ∈ children entries).
Proof.
  intros Hb H. unfold aetherfs_image_validate_root_dir in H. apply bind_ok in H as (st & Hl & H).
  destruct (dir_loop dir_fuel _ _ _) as [r|] eqn:E; [|done]. simpl in Hl. subst r.
  apply dir_loop_walks in E as (entries & Hc & [W1 W2 W3 W4 _ W6 W7]); [|done| |done].
  2:{ unfold AETHERFS_DEF_BLOCK_SIZE. lia. }
  destruct (saw_dot st && saw_dotdot st) eqn:Es; [|done]. injection H as <-.
  apply andb_true_iff in Es as [Es1 Es2]. simpl in W1, W2.
  exists entries. split; [done|]. split; [congruence|]. split; [congruence|].
  split; [done|]. split; [done|]. split; [done|]. intros i. rewrite W3. set_solver.
Qed.

(** ** Properties *)

(** The walk over the root directory terminates within its bound: whatever
    bytes the block holds, 1024 records are enough to reach the end or an error,
    because an accepted record is a positive multiple of four bytes long. *)
Theorem root_dir_walk_terminates block :
  is_bytes block → is_Some (dir_loop dir_fuel block 0 (DirState false false ∅)).
Proof. intros Hb. apply dir_loop_total; [done|lia|done|]. unfold dir_fuel. lia. Qed.

(** C28: an accepted root directory is a directory: the block is a gapless chain of
    records whose entries in use carry the right checksums; [.] and [..] are among
    them and name the root; the other names refer to pairwise different inodes of
    the table, and [dir_refs] marks exactly these. *)
Theorem root_dir_sound image refs :
  is_bytes (root_dir image) → aetherfs_image_validate_root_dir image = Ok refs →
  ∃ entries, dir_chain (root_dir image) 0 entries ∧
    has_name dot_name entries = true ∧ has_name dotdot_name entries = true ∧
    Forall (λ e, is_child e = false → de_ino e.1 = AETHERFS_ROOT_INO) entries ∧
    NoDup (children entries) ∧ Forall (λ i, 0 ≤ i < AETHERFS_MAX_INODES) (children entries) ∧
    (∀ i, i ∈ refs ↔ i ∈ children entries).
Proof. apply root_dir_accepts. Qed.

(** An image holding only a root directory block. *)
Definition dir_image (block : bytes) : aetherfs_image :=
  Image (-1) false false 0 0 0 zeroed zeroed [] zeroed zeroed zeroed zeroed [] block.

(** [.], [..] and one child, inode 17. *)
Definition sample_root_dir : bytes :=
  let child := DirEntry 17 4060 3 1 0 in
  let child := set_de_checksum (aetherfs_dirent_checksum child [97; 98; 99]) child in
  splice 36 (dirent_bytes child [97; 98; 99])
    (splice 16 (dirent_bytes (root_dirent 20 dotdot_name) dotdot_name)
      (splice 0 (dirent_bytes (root_dirent 16 dot_name) dot_name) (zeros 4096))).

Lemma sample_root_dir_bytes : is_bytes sample_root_dir.
Proof.
  repeat apply is_bytes_splice; try apply is_bytes_zeros;
    vm_compute; repeat (constructor; [split; [discriminate|reflexivity]|]); constructor.
Qed.

Lemma root_dir_walk_terminates_witness :
  is_Some (dir_loop dir_fuel sample_root_dir 0 (DirState false false ∅)).
Proof. apply root_dir_walk_terminates, sample_root_dir_bytes. Defined.

Lemma root_dir_sound_witness :
  ∃ entries, dir_chain sample_root_dir 0 entries ∧ has_name dot_name entries = true ∧
    1 ∈ children entries.
Proof.
  destruct (root_dir_sound (dir_image sample_root_dir) {[ 1 ]}) as (entries & H1 & H2 & _ & _ & _ & _ & H3).
  - exact sample_root_dir_bytes.
  - vm_compute. reflexivity.
  - exists entries. split; [exact H1|]. split; [exact H2|]. apply H3. set_solver.
Defined.

(** [.] and [..], the latter four bytes short of the end of the block. *)
Definition short_root_dir : bytes :=
  splice 16 (dirent_bytes (root_dirent 4076 dotdot_name) dotdot_name)
    (splice 0 (dirent_bytes (root_dirent 16 dot_name) dot_name) (zeros 4096)).

(** The walk can leave the buffer: a record length is only checked to be a
    multiple of four inside the block, not to hold an entry header, so a record
    ending four bytes before the end makes the next iteration read its header
    from beyond the 4096-byte directory buffer. *)
Theorem root_dir_reads_outside :
  len short_root_dir = 4096 ∧
  aetherfs_image_validate_root_dir (dir_image short_root_dir) = Err EFAULT.
Proof. vm_compute. split; reflexivity. Qed.
