(* ===== verification/Validate.v ===== *)
(** * Image validation

    [aetherfs_image_validate] of [aetherfsprogs/image.c], the check behind scrub,
    mount, health and rebalance: the inode walk with its extents and checksum
    chains, the free list, the coverage of the data area, and the redundancy checks
    of the pool. *)

From stdpp Require Import sorting.
From S2P Require Import Prelude Codec Crc Format Integrity SysIo State Pool Blocks Bitmap Load.
From S2P Require Import RootDir.

(** ** Interval lists *)

(** [struct aetherfs_interval] *)
Record aetherfs_interval := Interval {
  iv_start : Z;
  iv_len : Z;
}.

#[export] Instance interval_eq_dec : EqDecision aetherfs_interval.
Proof. solve_decision. Defined.

(** [aetherfs_interval_list_append]; the growing of the array is not modelled,
    an allocation succeeds. *)
Definition aetherfs_interval_list_append (l : list aetherfs_interval) (start len : Z)
    : list aetherfs_interval :=
  if len =? 0 then l else l ++ [Interval start len].

Definition aetherfs_interval_compare (lhs rhs : aetherfs_interval) : Z :=
  if iv_start lhs <? iv_start rhs then -1
  else if iv_start rhs <? iv_start lhs then 1
  else if iv_len lhs <? iv_len rhs then -1
  else if iv_len rhs <? iv_len lhs then 1
  else 0.

Definition interval_le (a b : aetherfs_interval) : Prop := aetherfs_interval_compare a b ≤ 0.
#[export] Instance interval_le_dec a b : Decision (interval_le a b) := Z_le_dec _ _.

(** [qsort(items, count, sizeof *items, aetherfs_interval_compare)]: intervals that
    compare equal are equal, so the sorted array is unique. *)
Definition sort_intervals (l : list aetherfs_interval) : list aetherfs_interval :=
  merge_sort interval_le l.

(** ** Regular files *)

(** The sum of each data block a checksum block describes. *)
Fixpoint check_sums (sum_indices : list Z) (d : disks) (image : aetherfs_image)
    (sums : aetherfs_checksum_block) (first : Z) : result unit :=
  match sum_indices with
  | [] => Ok tt
  | sum_index :: rest =>
      let checksum := default 0 (cb_sums sums !! Z.to_nat sum_index) in
      block ← aetherfs_image_read_block d image (u64 (first + sum_index));
      return_if negb (aetherfs_crc32c_data block =? checksum) with EILSEQ ;;
      check_sums rest d image sums first
  end.

(** [while (validated < len)]: the chain of checksum blocks of one extent, [None]
    when the fuel runs out. *)
Fixpoint csum_loop (fuel : nat) (d : disks) (image : aetherfs_image) (pstart len : Z)
    (csum_block validated : Z) (used : list aetherfs_interval)
    : option (result (list aetherfs_interval)) :=
  if validated <? len then
    match fuel with
    | O => None
    | S fuel =>
        let used := aetherfs_interval_list_append used csum_block 1 in
        match aetherfs_read_checksum_block d image csum_block with
        | Err e => Some (Err e)
        | Ok sums =>
            let entries := cb_entries sums in
            if (entries =? 0) || (AETHERFS_CHECKSUMS_PER_BLOCK <? entries)
               || (u64 (len - validated) <? entries) then Some (Err EINVAL)
            else match check_sums (seqZ 0 entries) d image sums (u64 (pstart + validated)) with
            | Err e => Some (Err e)
            | Ok _ =>
                let validated := u64 (validated + entries) in
                let next := cb_next sums in
                if validated <? len then
                  if (next <? AETHERFS_DATA_START_BLOCK) || (blocks image <=? next)
                  then Some (Err EINVAL)
                  else csum_loop fuel d image pstart len next validated used
                else if negb (next =? 0) then Some (Err EINVAL)
                else csum_loop fuel d image pstart len csum_block validated used
            end
        end
    end
  else Some (Ok used).

(** Every checksum block accounts for at least one data block. *)
Definition check_extent_sums (d : disks) (image : aetherfs_image) (pstart len csum_block : Z)
    (used : list aetherfs_interval) : result (list aetherfs_interval) :=
  default (Err EFAULT) (csum_loop (Z.to_nat len) d image pstart len csum_block 0 used).

(** The locals of the inode loop. *)
Record walk_state := Walk {
  w_used : list aetherfs_interval;
  w_files : Z;
  w_directories : Z;
  w_data_blocks : Z;
}.

(** The extent loop of one inode: [used], [logical_cursor] (which is also
    [file_blocks]) and [data_blocks]. *)
Fixpoint check_extents (extents : list aetherfs_extent) (d : disks) (image : aetherfs_image)
    (logical_cursor data_blocks : Z) (used : list aetherfs_interval)
    : result (list aetherfs_interval * Z * Z) :=
  match extents with
  | [] => Ok (used, logical_cursor, data_blocks)
  | extent :: rest =>
      let len := e_len extent in
      let pstart := e_pstart extent in
      let csum_block := e_csum_start extent in
      return_if (len =? 0) || negb (e_lstart extent =? logical_cursor)
             || (pstart <? AETHERFS_DATA_START_BLOCK) || (blocks image <? u64 (pstart + len))
             || (csum_block <? AETHERFS_DATA_START_BLOCK) || (blocks image <=? csum_block)
        with EINVAL ;;
      let used := aetherfs_interval_list_append used pstart len in
      used ← check_extent_sums d image pstart len csum_block used;
      check_extents rest d image (u64 (logical_cursor + len)) (u64 (data_blocks + len)) used
  end.

(** [(!file_blocks && inode_size != 0) || ...] *)
Definition size_mismatch (file_blocks inode_size : Z) : bool :=
  ((file_blocks =? 0) && negb (inode_size =? 0)) ||
  (negb (file_blocks =? 0) &&
   ((u64 (file_blocks * AETHERFS_DEF_BLOCK_SIZE) <? inode_size) ||
    (inode_size <=? u64 ((file_blocks - 1) * AETHERFS_DEF_BLOCK_SIZE)))).

Definition check_file (d : disks) (image : aetherfs_image) (inode : aetherfs_inode)
    (st : walk_state) : result walk_state :=
  let extent_root := i_extent_root inode in
  return_if (extent_root <? AETHERFS_DATA_START_BLOCK) || (blocks image <=? extent_root)
    with EINVAL ;;
  let used := aetherfs_interval_list_append (w_used st) extent_root 1 in
  extents ← aetherfs_read_extent_node d image extent_root;
  return_if negb (en_next extents =? 0) with EOPNOTSUPP ;;
  '(used, file_blocks, data_blocks) ←
    check_extents (take (Z.to_nat (en_count extents)) (en_extents extents)) d image 0
      (w_data_blocks st) used;
  return_if negb (file_blocks =? i_blocks inode) with EINVAL ;;
  return_if size_mismatch file_blocks (i_size inode) with EINVAL ;;
  Ok (Walk used (u32 (w_files st + 1)) (w_directories st) data_blocks).

(** ** The inode table *)

(** One iteration of the inode loop. *)
Definition check_inode (d : disks) (image : aetherfs_image) (refs : gset Z) (index : Z)
    (st : walk_state) : result walk_state :=
  let inode := inode_at image index in
  let mode := i_mode inode in
  if negb (aetherfs_image_bitmap_test (inode_bitmap image) index) then
    return_if negb (mode =? 0) with EINVAL ;;
    Ok st
  else
    return_if mode =? 0 with EINVAL ;;
    return_if negb (i_checksum inode =? aetherfs_inode_checksum inode) with EILSEQ ;;
    if S_ISDIR mode then
      return_if negb (index =? 0)
             || negb (i_extent_root inode =? cr_root_dir_block (checkpoint_root image))
        with EINVAL ;;
      Ok (Walk (w_used st) (w_files st) (u32 (w_directories st + 1)) (w_data_blocks st))
    else
      return_if negb (S_ISREG mode) || negb (bool_decide (index ∈ refs)) with EINVAL ;;
      check_file d image inode st.

Fixpoint check_inodes (indices : list Z) (d : disks) (image : aetherfs_image) (refs : gset Z)
    (st : walk_state) : result walk_state :=
  match indices with
  | [] => Ok st
  | index :: rest =>
      st ← check_inode d image refs index st;
      check_inodes rest d image refs st
  end.

(** ** Free space *)

(** The free list: [coverage], [free_blocks] and [last_end]. *)
Fixpoint check_free (extents : list aetherfs_extent) (image : aetherfs_image)
    (last_end free_blocks : Z) (coverage : list aetherfs_interval)
    : result (list aetherfs_interval * Z) :=
  match extents with
  | [] => Ok (coverage, free_blocks)
  | extent :: rest =>
      let start := e_pstart extent in
      let len := e_len extent in
      return_if (len =? 0) || (start <? last_end) || (blocks image <? u64 (start + len))
        with EINVAL ;;
      check_free rest image (u64 (start + len)) (u64 (free_blocks + len))
        (aetherfs_interval_list_append coverage start len)
  end.

Definition check_free_list (image : aetherfs_image) : result (list aetherfs_interval * Z) :=
  let free_count := en_count (free_extents image) in
  return_if negb (en_next (free_extents image) =? 0) || (AETHERFS_EXTENT_LOG_MAX <? free_count)
    with EINVAL ;;
  check_free (take (Z.to_nat free_count) (en_extents (free_extents image))) image
    AETHERFS_DATA_START_BLOCK 0 [].

(** [if (used.items[index].start < AETHERFS_DATA_START_BLOCK) continue;] *)
Definition in_data_area (iv : aetherfs_interval) : bool :=
  negb (iv_start iv <? AETHERFS_DATA_START_BLOCK).

Definition add_used (used coverage : list aetherfs_interval) : list aetherfs_interval :=
  foldl (λ coverage iv, aetherfs_interval_list_append coverage (iv_start iv) (iv_len iv))
    coverage (List.filter in_data_area used).

(** The walk over the sorted coverage. *)
Fixpoint check_cover (coverage : list aetherfs_interval) (cursor limit : Z) : result unit :=
  match coverage with
  | [] => return_if negb (cursor =? limit) with EINVAL ;; Ok tt
  | iv :: rest =>
      return_if negb (iv_start iv =? cursor) with EINVAL ;;
      check_cover rest (u64 (iv_start iv + iv_len iv)) limit
  end.

(** ** Redundancy *)

(** The inner loop: every further member of the mask holds [baseline]. *)
Fixpoint check_copies (ordinals : list Z) (d : disks) (image : aetherfs_image)
    (mask block : Z) (baseline : bytes) : result unit :=
  match ordinals with
  | [] => Ok tt
  | ordinal :: rest =>
      let index := aetherfs_mask_nth mask ordinal in
      return_if index <? 0 with EINVAL ;;
      candidate ← aetherfs_image_read_physical_member d image index block;
      return_if negb (bool_decide (baseline = candidate)) with EILSEQ ;;
      check_copies rest d image mask block baseline
  end.

(** All copies of one member block, for a mask of more than one member. *)
Definition check_mirrored (d : disks) (image : aetherfs_image) (mask first_member block : Z)
    : result unit :=
  baseline ← aetherfs_image_read_physical_member d image first_member block;
  check_copies (seqZ 1 (aetherfs_mask_count mask - 1)) d image mask block baseline.

Fixpoint check_bootstrap (bootstrap : list Z) (d : disks) (image : aetherfs_image) : result unit :=
  match bootstrap with
  | [] => Ok tt
  | block :: rest =>
      let mask := aetherfs_pool_role_mask_for_bootstrap_block image block in
      if aetherfs_mask_count mask <=? 1 then check_bootstrap rest d image
      else
        let first_member := aetherfs_mask_first mask in
        return_if first_member <? 0 with EINVAL ;;
        _ ← check_mirrored d image mask first_member block;
        check_bootstrap rest d image
  end.

Definition aetherfs_image_validate_bootstrap_replicas (d : disks) (image : aetherfs_image)
    : result unit :=
  check_bootstrap (seqZ AETHERFS_SUPERBLOCK_BLOCK
    (AETHERFS_DATA_START_BLOCK - AETHERFS_SUPERBLOCK_BLOCK)) d image.

(** A check of every block of every used interval of the data area. *)
Fixpoint for_blocks (offsets : list Z) (start : Z) (check : Z → result unit) : result unit :=
  match offsets with
  | [] => Ok tt
  | offset :: rest => _ ← check (u64 (start + offset)); for_blocks rest start check
  end.

Fixpoint for_used (used : list aetherfs_interval) (check : Z → result unit) : result unit :=
  match used with
  | [] => Ok tt
  | iv :: rest =>
      if iv_start iv <? AETHERFS_DATA_START_BLOCK then for_used rest check
      else
        _ ← for_blocks (seqZ 0 (iv_len iv)) (iv_start iv) check;
        for_used rest check
  end.

Definition aetherfs_image_validate_mirror_data (d : disks) (image : aetherfs_image)
    (used : list aetherfs_interval) : result unit :=
  let mask := aetherfs_pool_data_mask image in
  if aetherfs_mask_count mask <=? 1 then Ok tt
  else
    let first_member := aetherfs_mask_first mask in
    return_if first_member <? 0 with EINVAL ;;
    for_used used (check_mirrored d image mask first_member).

(** The row of a block: [row_parity] is the exclusive or over the data members. *)
Definition check_row (d : disks) (image : aetherfs_image) (block : Z) : result unit :=
  mapping ← aetherfs_pool_map_parity image block;
  parity ← pool_row_parity d image (member_block mapping);
  return_if negb (forallb (Z.eqb 0) parity) with EILSEQ ;;
  Ok tt.

Definition aetherfs_image_validate_parity (d : disks) (image : aetherfs_image)
    (used : list aetherfs_interval) : result unit :=
  let mask := aetherfs_pool_data_mask image in
  return_if aetherfs_mask_count mask <? 3 with EINVAL ;;
  for_used used (check_row d image).

Definition aetherfs_image_validate_pool_redundancy (d : disks) (image : aetherfs_image)
    (used : list aetherfs_interval) : result unit :=
  _ ← aetherfs_image_validate_bootstrap_replicas d image;
  let profile := aetherfs_pool_profile image in
  if profile =? AETHERFS_POOL_PROFILE_MIRROR
  then aetherfs_image_validate_mirror_data d image used
  else if profile =? AETHERFS_POOL_PROFILE_PARITY
  then aetherfs_image_validate_parity d image used
  else Ok tt.

(** ** The whole check *)

(** [struct aetherfs_scrub_report] *)
Record aetherfs_scrub_report := Report {
  files : Z;
  directories : Z;
  inodes_used : Z;
  data_blocks : Z;
  free_blocks : Z;
}.

Definition aetherfs_image_validate (d : disks) (image : aetherfs_image)
    : result aetherfs_scrub_report :=
  return_if negb (il_outstanding (journal image) =? 0) with EUCLEAN ;;
  let root_dir_block := cr_root_dir_block (checkpoint_root image) in
  return_if negb (aetherfs_image_bitmap_test (inode_bitmap image) 0) with EINVAL ;;
  refs ← aetherfs_image_validate_root_dir image;
  let used := aetherfs_interval_list_append [] root_dir_block 1 in
  st ← check_inodes (count_up (Z.to_nat AETHERFS_MAX_INODES) 0) d image refs (Walk used 0 0 0);
  '(coverage, free_blocks) ← check_free_list image;
  let used := sort_intervals (w_used st) in
  let coverage := sort_intervals (add_used used coverage) in
  _ ← check_cover coverage AETHERFS_DATA_START_BLOCK (blocks image);
  return_if negb (s_free_blocks (super image) =? free_blocks) with EINVAL ;;
  _ ← aetherfs_image_validate_pool_redundancy d image used;
  Ok (Report (w_files st) (w_directories st) (bb_set_bits (inode_bitmap image))
    (w_data_blocks st) free_blocks).
