(* ===== verification/Reopen.v ===== *)
(** * Opening an image again

    Loading and validating see an image through its label, the number of its members and the
    contents of their blocks: not through the descriptors, the table they are in, the mode of
    opening or the sizes of files that carry a label.  Two views of the same contents are
    loaded and validated alike, so the verdict of one command holds for the next. *)

From S2P Require Import Prelude Codec Crc Format Integrity SysIo State Pool Blocks Bitmap.
From S2P Require Import Open Load RootDir Validate.

Lemma bind_ext {A B} (m : result A) (k k' : A → result B) : (∀ a, k a = k' a) → (m ≫= k) = (m ≫= k').
Proof. intros H. destruct m; [apply H|done]. Qed.

(** ** Two views of one image *)

Record same_view (d : disks) (i : aetherfs_image) (d' : disks) (j : aetherfs_image) : Prop := {
  sv_label : pool_label i = pool_label j;
  sv_count : member_count i = member_count j;
  sv_total : ∀ k, aetherfs_pool_member_total_blocks i k = aetherfs_pool_member_total_blocks j k;
  sv_read : ∀ k b, aetherfs_image_read_physical_member d i k b = aetherfs_image_read_physical_member d' j k b;
}.

(** What the loader fills in. *)
Record same_metadata (i j : aetherfs_image) : Prop := {
  sm_blocks : blocks i = blocks j;
  sm_root : checkpoint_root i = checkpoint_root j;
  sm_super : super i = super j;
  sm_journal : journal i = journal j;
  sm_bitmap : inode_bitmap i = inode_bitmap j;
  sm_free : free_extents i = free_extents j;
  sm_inodes : inode_table i = inode_table j;
  sm_dir : root_dir i = root_dir j;
}.

Lemma same_view_pool d i i' d' j j' : same_pool i i' → same_pool j j' → same_view d i d' j →
  same_view d i' d' j'.
Proof.
  intros Hi Hj [H1 H2 H3 H4]. pose proof Hi as (L1 & M1 & C1). pose proof Hj as (L2 & M2 & C2).
  split; [congruence|congruence| |].
  - intros k. specialize (H3 k). unfold aetherfs_pool_member_total_blocks, get_member in *.
    by rewrite <-L1, <-M1, <-L2, <-M2.
  - intros k b. by rewrite <-Hi, <-Hj.
Qed.

Section view.
Context (d : disks) (i : aetherfs_image) (d' : disks) (j : aetherfs_image).
Context (Hv : same_view d i d' j).

Lemma view_data_blocks k : aetherfs_pool_member_data_blocks i k = aetherfs_pool_member_data_blocks j k.
Proof.
  destruct Hv as [Hl _ Ht _]. unfold aetherfs_pool_member_data_blocks. by rewrite Hl, Ht.
Qed.

Lemma view_limited mask : limited_mask i mask = limited_mask j mask.
Proof.
  destruct Hv as [_ Hc _ _]. unfold limited_mask, aetherfs_pool_member_limit_mask. by rewrite Hc.
Qed.

Lemma view_data_mask : aetherfs_pool_data_mask i = aetherfs_pool_data_mask j.
Proof. unfold aetherfs_pool_data_mask. by rewrite view_limited, (sv_label _ _ _ _ Hv). Qed.

Lemma view_role_mask b :
  aetherfs_pool_role_mask_for_bootstrap_block i b = aetherfs_pool_role_mask_for_bootstrap_block j b.
Proof.
  unfold aetherfs_pool_role_mask_for_bootstrap_block, aetherfs_pool_log_mask, aetherfs_pool_metadata_mask,
    aetherfs_pool_member_limit_mask.
  by rewrite !view_limited, (sv_label _ _ _ _ Hv), (sv_count _ _ _ _ Hv).
Qed.

Lemma view_linear_loop os mask r : map_linear_loop os i mask r = map_linear_loop os j mask r.
Proof.
  revert r. induction os as [|o os IH]; intros r; [done|]. cbn [map_linear_loop].
  by rewrite view_data_blocks, IH.
Qed.

Lemma view_map b : aetherfs_pool_map_data_block i b = aetherfs_pool_map_data_block j b.
Proof.
  unfold aetherfs_pool_map_data_block, aetherfs_pool_profile, aetherfs_pool_map_linear,
    aetherfs_pool_map_mirror, aetherfs_pool_map_stripe, aetherfs_pool_map_parity, member_data_end.
  rewrite view_data_mask, view_linear_loop, (sv_label _ _ _ _ Hv). cbv zeta. by rewrite !view_data_blocks.
Qed.

Lemma view_parity_map b : aetherfs_pool_map_parity i b = aetherfs_pool_map_parity j b.
Proof.
  unfold aetherfs_pool_map_parity, member_data_end.
  rewrite view_data_mask, (sv_label _ _ _ _ Hv). cbv zeta. by rewrite !view_data_blocks.
Qed.

Lemma view_replicas os mask b : read_replicas os d i mask b = read_replicas os d' j mask b.
Proof.
  induction os as [|o os IH]; [done|]. cbn [read_replicas]. by rewrite IH, (sv_read _ _ _ _ Hv).
Qed.

Lemma view_read b : aetherfs_image_read_block d i b = aetherfs_image_read_block d' j b.
Proof.
  unfold aetherfs_image_read_block. rewrite view_role_mask, view_replicas, view_map.
  destruct (aetherfs_pool_map_data_block j b); [|done]. cbn [mbind result_bind].
  by rewrite (sv_read _ _ _ _ Hv).
Qed.

Lemma view_extent_node b : aetherfs_read_extent_node d i b = aetherfs_read_extent_node d' j b.
Proof. unfold aetherfs_read_extent_node. by rewrite view_read. Qed.

Lemma view_checksum_block b : aetherfs_read_checksum_block d i b = aetherfs_read_checksum_block d' j b.
Proof. unfold aetherfs_read_checksum_block. by rewrite view_read. Qed.

(** ** The redundancy checks *)

Lemma view_copies os mask b base : check_copies os d i mask b base = check_copies os d' j mask b base.
Proof.
  induction os as [|o os IH]; [done|]. cbn [check_copies]. by rewrite (sv_read _ _ _ _ Hv), IH.
Qed.

Lemma view_mirrored mask m b : check_mirrored d i mask m b = check_mirrored d' j mask m b.
Proof.
  unfold check_mirrored. rewrite (sv_read _ _ _ _ Hv).
  destruct (aetherfs_image_read_physical_member d' j m b); [|done]. apply view_copies.
Qed.

Lemma view_bootstrap l : check_bootstrap l d i = check_bootstrap l d' j.
Proof.
  induction l as [|b l IH]; [done|]. cbn [check_bootstrap]. by rewrite view_role_mask, view_mirrored, IH.
Qed.

Lemma view_row_parity os mask b p : row_parity os d i mask b p = row_parity os d' j mask b p.
Proof.
  revert p. induction os as [|o os IH]; intros p; [done|]. cbn [row_parity].
  rewrite (sv_read _ _ _ _ Hv). destruct (reject _ _); [|done].
  destruct (aetherfs_image_read_physical_member d' j _ b); [|done]. apply IH.
Qed.

Lemma view_row b : check_row d i b = check_row d' j b.
Proof.
  unfold check_row, pool_row_parity. rewrite view_parity_map, view_data_mask.
  destruct (aetherfs_pool_map_parity j b); [|done]. cbn [mbind result_bind]. by rewrite view_row_parity.
Qed.
End view.

(** A check that gives the same verdicts gives the same verdict over all blocks. *)
Lemma for_used_ext used f g : (∀ b, f b = g b) → for_used used f = for_used used g.
Proof.
  intros Hfg. induction used as [|iv used IH]; [done|]. cbn [for_used].
  assert (∀ l s, for_blocks l s f = for_blocks l s g) as ->.
  { intros l s. induction l as [|o l IHl]; [done|]. cbn [for_blocks]. by rewrite Hfg, IHl. }
  by rewrite IH.
Qed.

Lemma view_redundancy d i d' j used : same_view d i d' j →
  aetherfs_image_validate_pool_redundancy d i used = aetherfs_image_validate_pool_redundancy d' j used.
Proof.
  intros Hv. unfold aetherfs_image_validate_pool_redundancy, aetherfs_image_validate_bootstrap_replicas,
    aetherfs_image_validate_mirror_data, aetherfs_image_validate_parity, aetherfs_pool_profile.
  rewrite (view_bootstrap _ _ _ _ Hv), (view_data_mask _ _ _ _ Hv), (sv_label _ _ _ _ Hv).
  rewrite (for_used_ext used (check_row d i) (check_row d' j)) by (intros b; by apply view_row).
  rewrite (for_used_ext used (check_mirrored d i _ _) (check_mirrored d' j _ _))
    by (intros b; by apply view_mirrored).
  done.
Qed.

(** ** The walk over the inodes *)

Section walk.
Context (d : disks) (i : aetherfs_image) (d' : disks) (j : aetherfs_image).
Context (Hv : same_view d i d' j) (Hm : same_metadata i j).

Lemma view_sums l sums first : check_sums l d i sums first = check_sums l d' j sums first.
Proof.
  induction l as [|k l IH]; [done|]. cbn [check_sums]. by rewrite (view_read _ _ _ _ Hv), IH.
Qed.

Lemma view_csum_loop fuel pstart n : ∀ c v used,
  csum_loop fuel d i pstart n c v used = csum_loop fuel d' j pstart n c v used.
Proof.
  induction fuel as [|fuel IH]; intros c v used; [done|]. cbn [csum_loop].
  rewrite (view_checksum_block _ _ _ _ Hv), (sm_blocks _ _ Hm).
  destruct (_ <? _); [|done]. destruct (aetherfs_read_checksum_block d' j c); [|done].
  destruct (_ || _); [done|]. rewrite view_sums. destruct (check_sums _ _ _ _ _); [|done].
  cbv zeta. by rewrite !IH.
Qed.

Lemma view_extents es : ∀ c n used, check_extents es d i c n used = check_extents es d' j c n used.
Proof.
  induction es as [|e es IH]; intros c n used; [done|]. cbn [check_extents].
  unfold check_extent_sums. rewrite (sm_blocks _ _ Hm), view_csum_loop.
  destruct (reject _ _); [|done]. cbn [mbind result_bind].
  destruct (default _ _); [|done]. apply IH.
Qed.

Lemma view_file inode st : check_file d i inode st = check_file d' j inode st.
Proof.
  unfold check_file. rewrite (view_extent_node _ _ _ _ Hv), (sm_blocks _ _ Hm).
  destruct (reject _ _); [|done]. cbn [mbind result_bind].
  destruct (aetherfs_read_extent_node d' j _); [|done]. cbn [mbind result_bind]. by rewrite view_extents.
Qed.

Lemma view_inode refs index st : check_inode d i refs index st = check_inode d' j refs index st.
Proof.
  unfold check_inode, inode_at. by rewrite (sm_inodes _ _ Hm), (sm_bitmap _ _ Hm), (sm_root _ _ Hm), view_file.
Qed.

Lemma view_inodes l refs st : check_inodes l d i refs st = check_inodes l d' j refs st.
Proof.
  revert st. induction l as [|k l IH]; intros st; [done|]. cbn [check_inodes]. rewrite view_inode.
  destruct (check_inode d' j refs k st); [|done]. apply IH.
Qed.

Lemma view_free es : ∀ e n c, check_free es i e n c = check_free es j e n c.
Proof.
  induction es as [|x es IH]; intros e n c; [done|]. cbn [check_free]. rewrite (sm_blocks _ _ Hm).
  destruct (reject _ _); [|done]. apply IH.
Qed.

Lemma view_validate : aetherfs_image_validate d i = aetherfs_image_validate d' j.
Proof.
  unfold aetherfs_image_validate, check_free_list, aetherfs_image_validate_root_dir.
  rewrite (sm_journal _ _ Hm), (sm_root _ _ Hm), (sm_bitmap _ _ Hm), (sm_free _ _ Hm), (sm_super _ _ Hm),
    (sm_blocks _ _ Hm), view_free, (sm_dir _ _ Hm).
  do 2 (apply bind_ext; intros _). apply bind_ext. intros refs. rewrite view_inodes.
  apply bind_ext. intros st. apply bind_ext. intros [coverage n]. do 2 (apply bind_ext; intros _).
  by rewrite (view_redundancy _ _ _ _ _ Hv).
Qed.
End walk.

(** ** Loading *)

Definition same_loaded (d d' : disks) (r r' : result aetherfs_image) : Prop :=
  match r, r' with
  | Ok i, Ok j => same_view d i d' j ∧ same_metadata i j
  | Err e, Err e' => e = e'
  | _, _ => False
  end.

(** A step of the loader that fails or goes on alike. *)
Lemma same_loaded_bind {A} d d' (m m' : result A) (k k' : A → result aetherfs_image) :
  m = m' → (∀ x, same_loaded d d' (k x) (k' x)) → same_loaded d d' (m ≫= k) (m' ≫= k').
Proof. intros <- H. destruct m; [apply H|done]. Qed.

Lemma view_load d i d' j : same_view d i d' j →
  same_loaded d d' (aetherfs_image_load d i) (aetherfs_image_load d' j).
Proof.
  intros Hv. unfold aetherfs_image_load.
  assert (∀ i' j', same_pool i i' → same_pool j j' → same_view d i' d' j') as Hp
    by (intros i' j' H1 H2; by apply (same_view_pool d i i' d' j j')).
  repeat first
    [ apply same_loaded_bind;
      [first [ apply view_read; apply Hp; done | apply view_extent_node; apply Hp; done
             | unfold aetherfs_image_validate_super; cbn; by rewrite (sv_label _ _ _ _ Hv), (sv_count _ _ _ _ Hv)
             | reflexivity ]
      | intros ?; cbv zeta ] ].
  split; [apply Hp; done|done].
Qed.

(** Loading and validating give the same report or the same error. *)
Lemma view_verdict d i d' j : same_view d i d' j →
  (im ← aetherfs_image_load d i; aetherfs_image_validate d im) =
  (im ← aetherfs_image_load d' j; aetherfs_image_validate d' im).
Proof.
  intros Hv. pose proof (view_load d i d' j Hv) as H.
  destruct (aetherfs_image_load d i) as [im|e], (aetherfs_image_load d' j) as [im'|e'];
    cbn [same_loaded mbind result_bind] in *; [|done..|congruence].
  destruct H as [H1 H2]. by apply view_validate.
Qed.

(** ** Opening

    What an image of one member is opened as depends on its first block and its size: a
    file without a label is given one made from the size. *)

(** The first block as a label, if it is one. *)
Definition label_seen (data : bytes) : result (option aetherfs_pool_label) :=
  block ← read_at data 0 AETHERFS_DEF_BLOCK_SIZE;
  let label := decode block : aetherfs_pool_label in
  if negb (pl_magic label =? AETHERFS_POOL_MAGIC) then Ok None
  else _ ← aetherfs_pool_label_validate label; Ok (Some label).

Lemma member_label_seen d m data : 0 ≤ m_fd m → d !! m_fd m = Some data →
  aetherfs_member_read_pool_label d m = label_seen data.
Proof.
  intros Hf Hd. unfold aetherfs_member_read_pool_label, aetherfs_member_read_block.
  by rewrite (proj2 (Z.ltb_ge _ _) Hf), Hd.
Qed.

(** The two images [aetherfs_image_open] builds. *)
Definition opened_image (w : bool) (m : aetherfs_image_member) (label : option aetherfs_pool_label)
    : aetherfs_image :=
  let image := set_members (<[0%nat := m]> (members (image_zero w 1))) (image_zero w 1) in
  match label with
  | None => aetherfs_image_synthesize_single_label image
  | Some label =>
      let pm := get_pool_member label 0 in
      let image := set_label 1 label (pl_logical_blocks label) image in
      aetherfs_image_assign_primary_aliases (set_members
        (<[0%nat := set_m_masks (pm_class_mask pm) (pm_role_mask pm) m]> (members image)) image)
  end.

Definition sole_seen (o : option aetherfs_pool_label) : bool :=
  match o with Some label => pl_member_count label =? 1 | None => true end.

Lemma open_seen {path} (sys_open : path → bool → result open_file) d p w image d' f :
  sys_open p w = Ok f → aetherfs_image_open sys_open d p w = (Ok image, d') →
  ∃ o m, label_seen (of_data f) = Ok o ∧ sole_seen o = true ∧ image = opened_image w m o ∧
    m_fd m = fresh_fd d ∧ m_blocks m = len (of_data f) / 4096.
Proof.
  intros Hf. unfold aetherfs_image_open.
  destruct (aetherfs_member_open_path sys_open d p w) as [[m|] d1] eqn:Em; [|done].
  apply member_open_ok in Em as (f' & Hf' & Hm & -> & Hb & _).
  rewrite Hf in Hf'. injection Hf' as <-. destruct (fresh_fd_spec d) as [H0 _].
  rewrite (member_label_seen _ _ (of_data f)); [|by rewrite Hm|by rewrite Hm, lookup_insert_eq].
  destruct (label_seen (of_data f)) as [[label|]|] eqn:El; [| |done].
  - destruct (Z.eqb_spec (pl_member_count label) 1) as [E|]; [|done]. cbn [negb].
    intros [= <- _]. exists (Some label), m. split; [done|]. split; [by apply Z.eqb_eq|]. by split.
  - intros [= <- _]. by exists None, m.
Qed.

Lemma open_regular {path} (sys_open : path → bool → result open_file) d p w data o io :
  sys_open p w = Ok (OpenFile (Ok S_IFREG) io data) →
  label_seen data = Ok o → sole_seen o = true →
  aetherfs_image_open sys_open d p w =
    (Ok (opened_image w (Member (fresh_fd d) false (len data) (len data / AETHERFS_DEF_BLOCK_SIZE) 0 0 0) o),
     <[fresh_fd d := data]> d).
Proof.
  intros Hf Hl Hs. unfold aetherfs_image_open, aetherfs_member_open_path. rewrite Hf.
  cbn [of_stat of_data]. destruct (fresh_fd_spec d) as [H0 _].
  rewrite (member_label_seen _ _ data); [|exact H0|by rewrite lookup_insert_eq]. rewrite Hl.
  destruct o as [label|]; [|done]. cbn [sole_seen] in Hs. by rewrite Hs.
Qed.

Lemma get_opened w m o k : m_blocks (get_member (opened_image w m o) k) = if k <=? 0 then m_blocks m else 0.
Proof.
  assert (∀ m', m_blocks m' = m_blocks m →
    m_blocks (default member_zero ((<[0%nat := m']> (<[0%nat := m]> (replicate 8 member_zero))) !! Z.to_nat k))
      = if k <=? 0 then m_blocks m else 0) as H.
  { intros m' E. destruct (Z.leb_spec k 0) as [Hk|Hk].
    - replace (Z.to_nat k) with 0%nat by lia. exact E.
    - rewrite !list_lookup_insert_ne by lia.
      destruct (replicate 8 member_zero !! Z.to_nat k) as [x|] eqn:Ex; [|done].
      by apply lookup_replicate in Ex as [-> _]. }
  destruct o as [label|]; apply (H (set_m_masks _ _ m)); reflexivity.
Qed.

Lemma opened_alike w m w' m' o : m_blocks m = m_blocks m' →
  let i := opened_image w m o in let j := opened_image w' m' o in
  pool_label i = pool_label j ∧ member_count i = 1 ∧ member_count j = 1 ∧
  m_fd (get_member i 0) = m_fd m ∧ m_fd (get_member j 0) = m_fd m' ∧
  ∀ k, aetherfs_pool_member_total_blocks i k = aetherfs_pool_member_total_blocks j k.
Proof.
  intros E i j. assert (pool_label i = pool_label j) as El.
  { destruct o as [label|]; [reflexivity|].
    change (single_label (m_blocks m) = single_label (m_blocks m')). by rewrite E. }
  split; [exact El|]. do 4 (split; [by destruct o|]). intros k.
  unfold aetherfs_pool_member_total_blocks. rewrite El. unfold i, j. by rewrite !get_opened, E.
Qed.

(** Block access of an image of one member. *)
Lemma sole_member_read image d data k b : member_count image = 1 → 0 ≤ m_fd (get_member image 0) →
  d !! m_fd (get_member image 0) = Some data →
  aetherfs_image_read_physical_member d image k b =
    if 1 <=? k then Err EINVAL
    else return_if negb (off_t_ok (block_offset b)) with EINVAL ;;
         read_at data (block_offset b) AETHERFS_DEF_BLOCK_SIZE.
Proof.
  intros Hc Hf Hd. unfold aetherfs_image_read_physical_member, aetherfs_member_read_block. rewrite Hc.
  destruct (Z.leb_spec 1 k); [done|]. cbn [reject mbind result_bind].
  assert (get_member image k = get_member image 0) as ->
    by (unfold get_member; by replace (Z.to_nat k) with (Z.to_nat 0) by lia).
  by rewrite (proj2 (Z.ltb_ge _ _) Hf), Hd.
Qed.

(** Two openings of files that agree in their label and size are views of one image as
    soon as the contents agree. *)
Lemma opened_same_view d w m d' w' m' o data : m_blocks m = m_blocks m' → 0 ≤ m_fd m → 0 ≤ m_fd m' →
  d !! m_fd m = Some data → d' !! m_fd m' = Some data →
  same_view d (opened_image w m o) d' (opened_image w' m' o).
Proof.
  intros E H0 H0' Hd Hd'. destruct (opened_alike w m w' m' o E) as (Hl & Hc & Hc' & Hf & Hf' & Ht).
  split; [done|congruence|done|]. intros k b.
  by rewrite (sole_member_read _ d data), (sole_member_read _ d' data) by (rewrite ?Hf, ?Hf'; done).
Qed.
