(* ===== verification/Coverage.v ===== *)
(** * Coverage of the data area

    What an accepted image guarantees about its blocks: the proofs about the
    interval walk and the inode walk of [Validate]. *)

From stdpp Require Import sorting.
From S2P Require Import Prelude Codec Crc Format Integrity SysIo State Pool Blocks Bitmap Load.
From S2P Require Import RootDir Validate.

(** ** Counting the intervals over a block *)

Definition covers (b : Z) (iv : aetherfs_interval) : bool :=
  (iv_start iv <=? b) && (b <? iv_start iv + iv_len iv).

(** In how many intervals of the list the block lies. *)
Definition cover_count (l : list aetherfs_interval) (b : Z) : Z :=
  len (List.filter (covers b) l).

Definition total_len (l : list aetherfs_interval) : Z :=
  foldr (λ iv n, iv_len iv + n) 0 l.

Lemma cover_count_perm l k b : l ≡ₚ k → cover_count l b = cover_count k b.
Proof.
  intros H. unfold cover_count, len. f_equal.
  induction H as [|x l k H IH|x y l|l k m H1 IH1 H2 IH2]; simpl; try done.
  - destruct (covers b x); simpl; by rewrite IH.
  - destruct (covers b x), (covers b y); done.
  - by rewrite IH1.
Qed.

Lemma total_len_perm l k : l ≡ₚ k → total_len l = total_len k.
Proof. induction 1; simpl; lia. Qed.

(** Intervals laid end to end from [lo] to [hi]. *)
Fixpoint contiguous (l : list aetherfs_interval) (lo hi : Z) : Prop :=
  match l with
  | [] => lo = hi
  | iv :: rest => iv_start iv = lo ∧ 0 < iv_len iv ∧ contiguous rest (lo + iv_len iv) hi
  end.

Lemma contiguous_le l lo hi : contiguous l lo hi → lo ≤ hi.
Proof.
  revert lo. induction l as [|iv l IH]; intros lo; simpl; [lia|].
  intros (_ & Hl & H%IH). lia.
Qed.

(** Every interval of a contiguous list lies between its ends. *)
Lemma contiguous_member l lo hi iv : contiguous l lo hi → iv ∈ l →
  lo ≤ iv_start iv ∧ iv_start iv + iv_len iv ≤ hi ∧ 0 < iv_len iv.
Proof.
  revert lo. induction l as [|c l IH]; intros lo; cbn [contiguous]; [by intros _ []%elem_of_nil|].
  intros (<- & Hl & Hc) Hiv. pose proof (contiguous_le _ _ _ Hc).
  apply elem_of_cons in Hiv as [->|Hiv]; [lia|]. specialize (IH _ Hc Hiv). lia.
Qed.

Lemma contiguous_cover l lo hi b : contiguous l lo hi →
  cover_count l b = if (lo <=? b) && (b <? hi) then 1 else 0.
Proof.
  revert lo. induction l as [|iv l IH]; intros lo; cbn [contiguous].
  { intros <-. unfold cover_count. simpl. destruct (Z.leb_spec lo b), (Z.ltb_spec b lo); done || lia. }
  intros (<- & Hl & Hc). pose proof (contiguous_le _ _ _ Hc). specialize (IH _ Hc).
  unfold cover_count in *. simpl. unfold covers at 1.
  destruct (Z.leb_spec (iv_start iv) b), (Z.ltb_spec b (iv_start iv + iv_len iv)); cbn [andb].
  - unfold len in *. simpl. destruct (Z.leb_spec (iv_start iv + iv_len iv) b); [lia|].
    cbn [andb] in IH. rewrite (proj2 (Z.ltb_lt b hi)) by lia. lia.
  - rewrite IH. by rewrite (proj2 (Z.leb_le (iv_start iv + iv_len iv) b)) by lia.
  - rewrite IH. by rewrite (proj2 (Z.leb_gt (iv_start iv + iv_len iv) b)) by lia.
  - lia.
Qed.

Lemma contiguous_total l lo hi : contiguous l lo hi → total_len l = hi - lo.
Proof.
  revert lo. induction l as [|iv l IH]; intros lo; simpl; [lia|].
  intros (_ & _ & H%IH). lia.
Qed.

(** ** The sort *)

Lemma interval_le_start a b : interval_le a b → iv_start a ≤ iv_start b.
Proof. unfold interval_le, aetherfs_interval_compare. repeat case_match; lia. Qed.

#[export] Instance interval_le_total : Total interval_le.
Proof.
  intros a b. unfold interval_le, aetherfs_interval_compare.
  destruct (Z.ltb_spec (iv_start a) (iv_start b)), (Z.ltb_spec (iv_start b) (iv_start a)),
    (Z.ltb_spec (iv_len a) (iv_len b)), (Z.ltb_spec (iv_len b) (iv_len a)); lia.
Qed.

#[export] Instance interval_le_trans : Transitive interval_le.
Proof.
  intros a b c. unfold interval_le, aetherfs_interval_compare.
  repeat match goal with |- context [?x <? ?y] => destruct (Z.ltb_spec x y) end; lia.
Qed.

Lemma sort_intervals_perm l : sort_intervals l ≡ₚ l.
Proof. apply merge_sort_Permutation. Qed.

Lemma sort_intervals_sorted l : StronglySorted interval_le (sort_intervals l).
Proof. apply StronglySorted_merge_sort; apply _. Qed.

(** ** The walk over the sorted coverage *)

(** What every collected interval satisfies: 64-bit, not empty, and its wrapped
    end inside the image. *)
Definition iv_ok (limit : Z) (iv : aetherfs_interval) : Prop :=
  is_u64 (iv_start iv) ∧ 0 < iv_len iv < 2 ^ 64 ∧ u64 (iv_start iv + iv_len iv) ≤ limit.

(** The walk is exact although [start + len] can wrap: a wrapped end lies before
    the interval's own start, where the sorted order leaves no successor. *)
Lemma check_cover_contiguous l cursor limit :
  StronglySorted interval_le l → Forall (iv_ok limit) l → is_u64 limit → cursor ≤ limit →
  check_cover l cursor limit = Ok tt → contiguous l cursor limit.
Proof.
  intros Hs Hok Hlim. revert cursor Hs. induction Hok as [|iv l Hiv Hok IH];
    intros cursor Hs Hc; cbn [check_cover contiguous]; intros H; inv_ok; bool_to_prop; [done|].
  destruct Hiv as (Hu & Hl & He). apply StronglySorted_inv in Hs as [Hs Hle].
  unfold is_u64 in *.
  destruct (u64_add_cases (iv_start iv) (iv_len iv)) as [[Eq Hlt]|[Eq Hge]];
    [unfold is_u64; lia|unfold is_u64; lia|..].
  - rewrite Eq in *. apply IH in H; [|done|lia]. split; [done|]. split; [lia|]. by subst cursor.
  - exfalso. rewrite Eq in *. destruct l as [|iv' l'].
    + cbn [check_cover] in H. inv_ok. bool_to_prop. lia.
    + cbn [check_cover] in H. inv_ok. bool_to_prop.
      apply Forall_cons in Hle as [Hle%interval_le_start _]. lia.
Qed.

(** ** Interval lists *)

Lemma add_used_app used coverage : Forall (λ iv, iv_len iv ≠ 0) used →
  add_used used coverage = coverage ++ List.filter in_data_area used.
Proof.
  unfold add_used. intros Hu.
  assert (Forall (λ iv, iv_len iv ≠ 0) (List.filter in_data_area used)) as Hf.
  { induction Hu; simpl; [constructor|]. case_match; [by constructor|done]. }
  revert coverage. induction Hf as [|iv l Hiv Hf IH]; intros coverage; simpl.
  - by rewrite app_nil_r.
  - rewrite IH. unfold aetherfs_interval_list_append.
    rewrite (proj2 (Z.eqb_neq _ _) Hiv), <-app_assoc. simpl. by destruct iv.
Qed.

Lemma filter_data_perm l k : l ≡ₚ k → List.filter in_data_area l ≡ₚ List.filter in_data_area k.
Proof.
  induction 1 as [|x l k H IH|x y l|l k m H1 IH1 H2 IH2]; simpl.
  - done.
  - by case_match; rewrite IH.
  - repeat case_match; done || apply Permutation_swap.
  - by etransitivity.
Qed.

Lemma append_ok limit l start n :
  Forall (iv_ok limit) l → (n ≠ 0 → iv_ok limit (Interval start n)) →
  Forall (iv_ok limit) (aetherfs_interval_list_append l start n).
Proof.
  intros Hl Hn. unfold aetherfs_interval_list_append.
  destruct (Z.eqb_spec n 0); [done|]. apply Forall_app; split; [done|]. by constructor; [apply Hn|].
Qed.

Lemma unit_ok limit start : is_u64 limit → 0 ≤ start < limit → iv_ok limit (Interval start 1).
Proof.
  unfold iv_ok, is_u64. simpl. intros. split; [lia|]. split; [lia|].
  rewrite u64_small; [lia|unfold is_u64; lia].
Qed.

(** ** Files *)

Lemma read_checksum_block_wf d image b sums : disks_bytes d →
  aetherfs_read_checksum_block d image b = Ok sums →
  wf sums ∧ verify sums = true ∧ 0 ≤ cb_entries sums ≤ 1020.
Proof.
  intros Hd H. unfold aetherfs_read_checksum_block in H. inv_ok. bool_to_prop.
  apply read_block_bytes in E as [Hb Hl]; [|done].
  assert (wf (decode a : aetherfs_checksum_block)) as Hw
    by (apply wf_decode; [done|rewrite sizeof_checksum_block; unfold AETHERFS_DEF_BLOCK_SIZE; lia]).
  split; [done|]. split; [by apply Z.eqb_eq|]. unfold AETHERFS_CHECKSUMS_PER_BLOCK in *.
  cbn in Hw. destruct_and!. unfold le_range in *. lia.
Qed.

Lemma read_extent_node_wf d image b node : disks_bytes d →
  aetherfs_read_extent_node d image b = Ok node →
  wf node ∧ verify node = true ∧ 0 ≤ en_count node ≤ 102.
Proof.
  intros Hd H. unfold aetherfs_read_extent_node in H. inv_ok. bool_to_prop.
  apply read_block_bytes in E as [Hb Hl]; [|done].
  assert (wf (decode a : aetherfs_extent_node)) as Hw
    by (apply wf_decode; [done|rewrite sizeof_extent_node; unfold AETHERFS_DEF_BLOCK_SIZE; lia]).
  split; [done|]. split; [by apply Z.eqb_eq|]. unfold AETHERFS_EXTENT_LOG_MAX in *.
  cbn in Hw. destruct_and!. unfold le_range in *. lia.
Qed.

Lemma extents_wf node : wf node →
  Forall (λ e, is_u64 (e_pstart e) ∧ is_u64 (e_len e) ∧ is_u64 (e_csum_start e)) (en_extents node).
Proof.
  intros Hw. cbn in Hw. destruct_and!.
  match goal with H : Forall _ (en_extents node) |- _ => eapply Forall_impl; [exact H|] end.
  intros e He. cbn in He. destruct_and!. repeat match goal with |- _ ∧ _ => split end; assumption.
Qed.

(** The chain of checksum blocks of an extent, with the sums it lists. *)
Inductive csum_chain (d : disks) (image : aetherfs_image)
    : Z → Z → list Z → list Z → Prop :=
| chain_last b sums :
    aetherfs_read_checksum_block d image b = Ok sums → 0 < cb_entries sums → cb_next sums = 0 →
    8 ≤ b < blocks image →
    csum_chain d image b (cb_entries sums) [b] (take (Z.to_nat (cb_entries sums)) (cb_sums sums))
| chain_more b n sums chain rest :
    aetherfs_read_checksum_block d image b = Ok sums → 0 < cb_entries sums →
    8 ≤ b < blocks image → 0 < n →
    csum_chain d image (cb_next sums) n chain rest →
    csum_chain d image b (cb_entries sums + n) (b :: chain)
      (take (Z.to_nat (cb_entries sums)) (cb_sums sums) ++ rest).

Section files.
Context (d : disks) (Hd : disks_bytes d) (image : aetherfs_image).

Lemma check_sums_ok idx sums first :
  check_sums idx d image sums first = Ok tt →
  Forall (λ k, ∃ block, aetherfs_image_read_block d image (u64 (first + k)) = Ok block ∧
    aetherfs_crc32c_data block = default 0 (cb_sums sums !! Z.to_nat k)) idx.
Proof.
  induction idx as [|k idx IH]; cbn [check_sums]; intros H; [constructor|].
  inv_ok. bool_to_prop. constructor; [eauto|by apply IH].
Qed.

Lemma check_sums_take sums pstart validated :
  wf sums → cb_entries sums ≤ 1020 →
  check_sums (seqZ 0 (cb_entries sums)) d image sums (u64 (pstart + validated)) = Ok tt →
  let first := take (Z.to_nat (cb_entries sums)) (cb_sums sums) in
  len first = Z.max 0 (cb_entries sums) ∧
  ∀ k, 0 ≤ k < cb_entries sums →
    ∃ block, aetherfs_image_read_block d image (u64 (pstart + validated + k)) = Ok block ∧
      first !! Z.to_nat k = Some (aetherfs_crc32c_data block).
Proof.
  intros Hw He Hc first.
  assert (length (cb_sums sums) = 1020%nat) as Hsl by (cbn in Hw; by destruct_and!).
  split; [unfold len, first; rewrite length_take; lia|].
  pose proof (proj1 (Forall_forall _ _) (check_sums_ok _ _ _ Hc)) as Hsums. intros k Hk.
  destruct (Hsums k) as (block & Hb & Hcr); [apply elem_of_seqZ; lia|]. exists block. split.
  - replace (u64 (pstart + validated + k)) with (u64 (u64 (pstart + validated) + k)); [done|].
    unfold u64. by rewrite Zplus_mod_idemp_l.
  - unfold first. rewrite lookup_take_lt by lia. rewrite Hcr.
    destruct (lookup_lt_is_Some_2 (cb_sums sums) (Z.to_nat k)) as [x ->]; [lia|done].
Qed.

(** A checksum block accounts for at least one block of what remains. *)
Lemma csum_loop_total fuel pstart n csum validated used :
  is_u64 n → 0 ≤ validated → n - validated ≤ Z.of_nat fuel →
  is_Some (csum_loop fuel d image pstart n csum validated used).
Proof.
  intros Hn. revert csum validated used. induction fuel as [|fuel IH];
    intros csum validated used Hv Hf; cbn [csum_loop];
    destruct (Z.ltb_spec validated n); try done; [lia|].
  destruct (aetherfs_read_checksum_block d image csum) as [sums|] eqn:Er; [|done].
  pose proof (read_checksum_block_wf _ _ _ _ Hd Er) as (_ & _ & He).
  unfold is_u64 in Hn. rewrite (u64_small (n - validated)) by (unfold is_u64; lia).
  destruct (Z.eqb_spec (cb_entries sums) 0); [done|].
  destruct (Z.ltb_spec AETHERFS_CHECKSUMS_PER_BLOCK (cb_entries sums)); [done|].
  destruct (Z.ltb_spec (n - validated) (cb_entries sums)); [done|]. cbn [orb].
  destruct (check_sums _ _ _ _ _) as [[]|]; [|done].
  rewrite u64_small by (unfold is_u64; lia).
  case_match; case_match; try done; apply IH; lia.
Qed.

(** A finished walk followed a chain, compared every data block, and claimed the
    chain's own blocks. *)
Lemma csum_loop_ok fuel pstart n csum validated used used' :
  is_u64 n → is_u64 pstart → 0 ≤ validated < n → 8 ≤ csum < blocks image →
  csum_loop fuel d image pstart n csum validated used = Some (Ok used') →
  ∃ chain sums, csum_chain d image csum (n - validated) chain sums ∧
    used' = used ++ map (λ b, Interval b 1) chain ∧ len sums = n - validated ∧
    ∀ k, 0 ≤ k < n - validated →
      ∃ block, aetherfs_image_read_block d image (u64 (pstart + validated + k)) = Ok block ∧
        sums !! Z.to_nat k = Some (aetherfs_crc32c_data block).
Proof.
  intros Hn Hp. revert csum validated used. induction fuel as [|fuel IH];
    intros csum validated used Hv Hcs; cbn [csum_loop];
    rewrite (proj2 (Z.ltb_lt validated n)) by lia; [done|].
  destruct (aetherfs_read_checksum_block d image csum) as [sums|] eqn:Er; [|done].
  pose proof (read_checksum_block_wf _ _ _ _ Hd Er) as (Hw & _ & He).
  unfold is_u64 in Hn, Hp. rewrite (u64_small (n - validated)) by (unfold is_u64; lia).
  destruct (Z.eqb_spec (cb_entries sums) 0); [done|].
  destruct (Z.ltb_spec AETHERFS_CHECKSUMS_PER_BLOCK (cb_entries sums)); [done|].
  destruct (Z.ltb_spec (n - validated) (cb_entries sums)); [done|]. cbn [orb].
  destruct (check_sums _ _ _ _ _) as [[]|] eqn:Ec; [|done].
  destruct (check_sums_take _ _ _ Hw (proj2 He) Ec) as [Hfl Hfirst].
  set (first := take (Z.to_nat (cb_entries sums)) (cb_sums sums)) in *.
  rewrite u64_small by (unfold is_u64; lia).
  assert (aetherfs_interval_list_append used csum 1 = used ++ [Interval csum 1]) as -> by done.
  destruct (Z.ltb_spec (validated + cb_entries sums) n) as [Hmore|Hlast].
  - destruct (Z.ltb_spec (cb_next sums) AETHERFS_DATA_START_BLOCK); [done|].
    destruct (Z.leb_spec (blocks image) (cb_next sums)); [done|]. cbn [orb]. intros Hl.
    apply IH in Hl as (chain & rest & Hc & -> & Hlr & Hrest);
      [|lia|unfold AETHERFS_DATA_START_BLOCK in *; lia].
    exists (csum :: chain), (first ++ rest). split; [|split; [|split]].
    + replace (n - validated) with (cb_entries sums + (n - (validated + cb_entries sums))) by lia.
      apply chain_more; [done|lia|done|lia|done].
    + by rewrite <-app_assoc.
    + rewrite len_app. lia.
    + intros k Hk. destruct (decide (k < cb_entries sums)).
      * destruct (Hfirst k) as (block & Hb & Hc'); [lia|]. exists block. split; [done|].
        by apply lookup_app_l_Some.
      * destruct (Hrest (k - cb_entries sums)) as (block & Hb & Hc'); [lia|]. exists block. split.
        -- by replace (pstart + validated + k) with
             (pstart + (validated + cb_entries sums) + (k - cb_entries sums)) by lia.
        -- unfold len in Hfl. rewrite lookup_app_r by lia. rewrite <-Hc'. f_equal. lia.
  - destruct (Z.eqb_spec (cb_next sums) 0) as [Hz|]; [|done]. cbn [negb].
    assert (n - validated = cb_entries sums) as En by lia.
    assert (csum_loop fuel d image pstart n csum (validated + cb_entries sums)
      (used ++ [Interval csum 1]) = Some (Ok (used ++ [Interval csum 1]))) as ->.
    { destruct fuel; cbn [csum_loop]; by rewrite (proj2 (Z.ltb_ge _ _)) by lia. }
    intros [= <-]. rewrite En. exists [csum], first.
    split; [by apply chain_last; [|lia|..]|]. split; [done|]. split; [lia|exact Hfirst].
Qed.

(** An extent whose blocks all match their sums; [ivs] are the blocks it owns. *)
Definition extent_verified (e : aetherfs_extent) (ivs : list aetherfs_interval) : Prop :=
  0 < e_len e ∧ 8 ≤ e_pstart e ∧ u64 (e_pstart e + e_len e) ≤ blocks image ∧
  ∃ chain sums, csum_chain d image (e_csum_start e) (e_len e) chain sums ∧
    len sums = e_len e ∧ ivs = Interval (e_pstart e) (e_len e) :: map (λ b, Interval b 1) chain ∧
    ∀ k, 0 ≤ k < e_len e →
      ∃ block, aetherfs_image_read_block d image (u64 (e_pstart e + k)) = Ok block ∧
        sums !! Z.to_nat k = Some (aetherfs_crc32c_data block).

(** Extents that follow each other logically from a file block on. *)
Inductive extents_verified : list aetherfs_extent → Z → list aetherfs_interval → Prop :=
| extents_nil c : extents_verified [] c []
| extents_cons e rest c iv ivs :
    e_lstart e = c → extent_verified e iv → extents_verified rest (u64 (c + e_len e)) ivs →
    extents_verified (e :: rest) c (iv ++ ivs).

Definition extents_len (es : list aetherfs_extent) : Z := foldr (λ e n, e_len e + n) 0 es.

Definition extent_wf (e : aetherfs_extent) : Prop :=
  is_u64 (e_pstart e) ∧ is_u64 (e_len e) ∧ is_u64 (e_csum_start e).

Lemma check_extents_ok es c db used used' c' db' :
  Forall extent_wf es →
  check_extents es d image c db used = Ok (used', c', db') →
  ∃ ivs, extents_verified es c ivs ∧ used' = used ++ ivs ∧
    (u64 c = c → c' = u64 (c + extents_len es)) ∧ (u64 db = db → db' = u64 (db + extents_len es)).
Proof.
  intros Hw. revert c db used. induction Hw as [|e es (Hp & Hl & Hc) Hw IH]; intros c db used;
    cbn [check_extents extents_len foldr].
  { intros [= <- <- <-]. exists []. rewrite app_nil_r, !Z.add_0_r.
    split; [constructor|]. by split; [|split]. }
  intros H. apply reject_ok in H as [Hg H]. apply bind_ok in H as (used1 & Hs & H).
  bool_to_prop. unfold is_u64 in Hp, Hl, Hc.
  assert (8 ≤ e_pstart e) by (unfold AETHERFS_DATA_START_BLOCK in *; lia).
  apply IH in H as (ivs & Hv & -> & Hc' & Hdb').
  unfold check_extent_sums in Hs.
  destruct (csum_loop _ _ _ _ _ _ _ _) as [r|] eqn:Er; [|done]. simpl in Hs. subst r.
  apply csum_loop_ok in Er as (chain & sums & Hch & -> & Hls & Hk);
    [|done|done|lia|unfold AETHERFS_DATA_START_BLOCK in *; lia].
  rewrite Z.sub_0_r in *. unfold aetherfs_interval_list_append.
  rewrite (proj2 (Z.eqb_neq _ _)) by done.
  exists ((Interval (e_pstart e) (e_len e) :: map (λ b, Interval b 1) chain) ++ ivs).
  split; [|split; [by rewrite <-!app_assoc|]].
  - constructor; [done| |done]. split; [lia|]. split; [done|]. split; [done|].
    exists chain, sums. split; [done|]. split; [done|]. split; [done|].
    intros k Hk0. destruct (Hk k Hk0) as (block & Hb & Hcr). rewrite Z.add_0_r in Hb. eauto.
  - fold (extents_len es). split; intros Hu.
    + rewrite Hc' by (unfold u64; by rewrite Zmod_mod). unfold u64. rewrite Zplus_mod_idemp_l.
      f_equal. lia.
    + rewrite Hdb' by (unfold u64; by rewrite Zmod_mod). unfold u64. rewrite Zplus_mod_idemp_l.
      f_equal. lia.
Qed.

(** What an accepted inode owns: nothing, unless it is a regular file; then its
    extent node and everything its verified extents own. *)
Definition inode_claims (index : Z) (ivs : list aetherfs_interval) : Prop :=
  let inode := inode_at image index in
  if aetherfs_image_bitmap_test (inode_bitmap image) index && S_ISREG (i_mode inode) then
    verify inode = true ∧
    ∃ node ivs', aetherfs_read_extent_node d image (i_extent_root inode) = Ok node ∧
      8 ≤ i_extent_root inode < blocks image ∧
      extents_verified (take (Z.to_nat (en_count node)) (en_extents node)) 0 ivs' ∧
      i_blocks inode = u64 (extents_len (take (Z.to_nat (en_count node)) (en_extents node))) ∧
      size_mismatch (i_blocks inode) (i_size inode) = false ∧
      ivs = Interval (i_extent_root inode) 1 :: ivs'
  else ivs = [].

Lemma check_file_ok inode st st' :
  check_file d image inode st = Ok st' →
  ∃ node ivs, aetherfs_read_extent_node d image (i_extent_root inode) = Ok node ∧
    8 ≤ i_extent_root inode < blocks image ∧
    extents_verified (take (Z.to_nat (en_count node)) (en_extents node)) 0 ivs ∧
    i_blocks inode = u64 (extents_len (take (Z.to_nat (en_count node)) (en_extents node))) ∧
    size_mismatch (i_blocks inode) (i_size inode) = false ∧
    w_used st' = w_used st ++ Interval (i_extent_root inode) 1 :: ivs ∧
    w_files st' = u32 (w_files st + 1) ∧ w_directories st' = w_directories st.
Proof.
  unfold check_file. intros H. apply reject_ok in H as [Hr H].
  apply bind_ok in H as (node & Hn & H). apply reject_ok in H as [_ H].
  apply bind_ok in H as ([[used fb] db] & He & H).
  apply reject_ok in H as [Hb H]. apply reject_ok in H as [Hz H]. injection H as <-.
  bool_to_prop. unfold AETHERFS_DATA_START_BLOCK in *.
  apply check_extents_ok in He as (ivs & Hv & -> & Hc & _).
  2:{ apply Forall_take, extents_wf. by eapply read_extent_node_wf. }
  exists node, ivs. rewrite (Hc eq_refl) in *. rewrite Hb in *. cbn.
  repeat match goal with |- _ ∧ _ => split end; try done; try lia. by rewrite <-app_assoc.
Qed.

Lemma check_inode_ok refs index st st' :
  check_inode d image refs index st = Ok st' →
  ∃ ivs, inode_claims index ivs ∧ w_used st' = w_used st ++ ivs ∧
    (ivs ≠ [] → index ∈ refs).
Proof.
  unfold check_inode, inode_claims. set (inode := inode_at image index).
  destruct (aetherfs_image_bitmap_test (inode_bitmap image) index); cbn [negb andb].
  2:{ intros H. inv_ok. exists []. by rewrite app_nil_r. }
  intros H. apply reject_ok in H as [_ H]. apply reject_ok in H as [Hc H].
  apply negb_false_iff in Hc.
  destruct (S_ISDIR (i_mode inode)) eqn:Edir.
  { apply reject_ok in H as [_ H]. injection H as <-.
    assert (S_ISREG (i_mode inode) = false) as ->.
    { unfold S_ISDIR, S_ISREG in *. apply Z.eqb_eq in Edir. by rewrite Edir. }
    exists []. by rewrite app_nil_r. }
  apply reject_ok in H as [Hr H]. apply orb_false_iff in Hr as [Hreg Href].
  apply negb_false_iff in Hreg, Href. apply bool_decide_eq_true in Href. rewrite Hreg.
  apply check_file_ok in H as (node & ivs & H1 & H2 & H3 & H4 & H5 & H6 & _).
  exists (Interval (i_extent_root inode) 1 :: ivs). split; [|done]. split; [done|].
  by exists node, ivs.
Qed.

Lemma check_inodes_ok refs indices st st' :
  check_inodes indices d image refs st = Ok st' →
  ∃ claims, Forall2 inode_claims indices claims ∧ w_used st' = w_used st ++ concat claims ∧
    Forall2 (λ index ivs, ivs ≠ [] → index ∈ refs) indices claims.
Proof.
  revert st. induction indices as [|i indices IH]; intros st; cbn [check_inodes].
  { intros [= <-]. exists []. simpl. rewrite app_nil_r. by repeat constructor. }
  intros H. apply bind_ok in H as (st1 & H1 & H2).
  apply check_inode_ok in H1 as (ivs & Hc & Hu & Hr).
  apply IH in H2 as (claims & Hcs & Hus & Hrs). exists (ivs :: claims).
  split; [by constructor|]. split; [by rewrite Hus, Hu, <-app_assoc|by constructor].
Qed.

(** ** Every claimed interval is well placed *)

Definition data_iv (iv : aetherfs_interval) : Prop := iv_ok (blocks image) iv ∧ 8 ≤ iv_start iv.

Context (Hblocks : is_u64 (blocks image)).

Lemma unit_data_iv b : 8 ≤ b < blocks image → data_iv (Interval b 1).
Proof. intros Hb. split; [apply unit_ok; [done|lia]|simpl; lia]. Qed.

Lemma csum_chain_ok b n chain sums : csum_chain d image b n chain sums →
  Forall data_iv (map (λ b, Interval b 1) chain).
Proof.
  induction 1 as [b sums Hr He Hn Hb|b n sums chain rest Hr He Hb Hn _ IH]; simpl.
  - constructor; [by apply unit_data_iv|constructor].
  - constructor; [by apply unit_data_iv|done].
Qed.

Lemma extents_verified_ok es c ivs :
  extents_verified es c ivs → Forall extent_wf es → Forall data_iv ivs.
Proof.
  induction 1 as [|e rest c iv ivs Hl Hv Hr IH]; intros Hw; [constructor|].
  apply Forall_cons in Hw as [(Hp & Hle & _) Hw]. apply Forall_app; split; [|by apply IH].
  destruct Hv as (H1 & H2 & H3 & chain & sums & Hc & _ & -> & _).
  constructor; [|by eapply csum_chain_ok]. unfold is_u64 in *. repeat split; simpl; lia || done.
Qed.

Lemma inode_claims_ok index ivs : inode_claims index ivs → Forall data_iv ivs.
Proof.
  unfold inode_claims. case_match; [|by intros ->].
  intros (_ & node & ivs' & Hn & Hr & Hv & _ & _ & ->).
  constructor; [by apply unit_data_iv|]. eapply extents_verified_ok; [exact Hv|].
  apply Forall_take, extents_wf. by eapply read_extent_node_wf.
Qed.

Lemma claims_ok indices claims : Forall2 inode_claims indices claims →
  Forall data_iv (concat claims).
Proof.
  induction 1 as [|i ivs indices claims H _ IH]; [constructor|]. simpl.
  apply Forall_app; split; [by eapply inode_claims_ok|done].
Qed.

Lemma filter_data_all l : Forall data_iv l → List.filter in_data_area l = l.
Proof.
  induction 1 as [|iv l [_ H] _ IH]; [done|]. simpl. unfold in_data_area at 1.
  unfold AETHERFS_DATA_START_BLOCK. by rewrite (proj2 (Z.ltb_ge _ _) H), IH.
Qed.

(** ** Free extents *)

Definition free_iv (e : aetherfs_extent) : aetherfs_interval := Interval (e_pstart e) (e_len e).

Lemma check_free_ok es last fb cov cov' fb' :
  Forall extent_wf es → check_free es image last fb cov = Ok (cov', fb') →
  cov' = cov ++ map free_iv es ∧ Forall (iv_ok (blocks image)) (map free_iv es) ∧
  (u64 fb = fb → fb' = u64 (fb + total_len (map free_iv es))).
Proof.
  intros Hw. revert last fb cov. induction Hw as [|e es (Hp & Hl & _) Hw IH];
    intros last fb cov; cbn [check_free map].
  { intros [= <- <-]. rewrite app_nil_r. simpl. rewrite Z.add_0_r. by repeat split. }
  intros H. apply reject_ok in H as [Hg H]. bool_to_prop. unfold is_u64 in Hp, Hl.
  unfold aetherfs_interval_list_append in H. rewrite (proj2 (Z.eqb_neq _ _)) in H by done.
  apply IH in H as (-> & Hok & Hfb). split; [by rewrite <-app_assoc|]. split.
  - constructor; [|done]. split; [done|]. simpl. lia.
  - intros Hu. rewrite Hfb by (unfold u64; by rewrite Zmod_mod). simpl.
    unfold u64. rewrite Zplus_mod_idemp_l. f_equal. lia.
Qed.

Lemma check_free_list_ok cov fb : wf (free_extents image) →
  check_free_list image = Ok (cov, fb) →
  cov = map free_iv (take (Z.to_nat (en_count (free_extents image))) (en_extents (free_extents image))) ∧
  Forall (iv_ok (blocks image)) cov ∧ fb = u64 (total_len cov).
Proof.
  intros Hw H. unfold check_free_list in H. apply reject_ok in H as [_ H].
  apply check_free_ok in H as (-> & Hok & Hfb); [|by apply Forall_take, extents_wf].
  split; [done|]. split; [done|]. by apply Hfb.
Qed.
End files.

(** ** The accepted image *)

(** The extents of the free list, as [aetherfs_image_validate] reads them. *)
Definition free_list (image : aetherfs_image) : list aetherfs_interval :=
  map free_iv (take (Z.to_nat (en_count (free_extents image))) (en_extents (free_extents image))).

(** What the loader guarantees to the validation. *)
Definition image_wf (image : aetherfs_image) : Prop :=
  8 ≤ blocks image < 2 ^ 64 ∧ wf (free_extents image) ∧
  cr_root_dir_block (checkpoint_root image) = 3.

Lemma load_image_wf d image im : disks_bytes d → aetherfs_image_load d image = Ok im → image_wf im.
Proof.
  intros Hd (bs & bc & bj & bb & bf & bi & bdir & L)%load_loads.
  destruct L as [Him R1 _ _ _ R6 _ _ V1 V7 _ _ _].
  apply validate_super_fields in V1 as (_ & _ & _ & _ & H8 & _).
  apply validate_root_fields in V7 as (_ & H3 & _).
  apply read_block_bytes in R1 as [B1 L1]; [|done]. apply read_block_bytes in R6 as [B6 L6]; [|done].
  assert (wf (decode bs : aetherfs_super)) as Hw
    by (apply wf_decode; [done|rewrite sizeof_super; lia]).
  unfold image_wf. assert (blocks im = s_blocks_count (super im)) as -> by by rewrite Him.
  assert (super im = decode bs) as Hs by by rewrite Him. rewrite Hs in *.
  split; [|split; [|done]].
  - revert H8 Hw. generalize (decode bs : aetherfs_super). intros s H8 Hw. cbn in Hw.
    destruct_and!. unfold le_range in *. lia.
  - rewrite Him. apply wf_decode; [done|]. rewrite sizeof_extent_node. unfold AETHERFS_DEF_BLOCK_SIZE. lia.
Qed.

(** The steps of an accepted image, in one place. *)
Lemma validate_inv d image report : disks_bytes d → image_wf image →
  aetherfs_image_validate d image = Ok report →
  ∃ refs claims, aetherfs_image_validate_root_dir image = Ok refs ∧
    Forall2 (inode_claims d image) (seqZ 0 AETHERFS_MAX_INODES) claims ∧
    Forall2 (λ index ivs, ivs ≠ [] → index ∈ refs) (seqZ 0 AETHERFS_MAX_INODES) claims ∧
    (∃ cover, cover ≡ₚ free_list image ++ concat claims ∧ contiguous cover 8 (blocks image)) ∧
    free_blocks report = u64 (total_len (free_list image)) ∧
    s_free_blocks (super image) = free_blocks report ∧
    aetherfs_image_validate_pool_redundancy d image
      (sort_intervals (Interval 3 1 :: concat claims)) = Ok tt.
Proof.
  intros Hd (Hb & Hfw & Hrd) H. unfold aetherfs_image_validate in H.
  apply reject_ok in H as [_ H]. apply reject_ok in H as [_ H].
  apply bind_ok in H as (refs & Hrefs & H). apply bind_ok in H as (st & Hst & H).
  apply bind_ok in H as ([cov fb] & Hfree & H). apply bind_ok in H as ([] & Hcov & H).
  apply reject_ok in H as [Hsf H]. apply bind_ok in H as ([] & Hred & H). injection H as <-.
  rewrite Hrd, count_up_seqZ in Hst. apply check_inodes_ok in Hst as (claims & Hcl & Hu & Hrs); [|done].
  change (aetherfs_interval_list_append [] 3 1) with [Interval 3 1] in Hu. cbn [w_used app] in Hu.
  assert (Forall (data_iv image) (concat claims)) as Hdata.
  { eapply claims_ok; [exact Hd|unfold is_u64; lia|exact Hcl]. }
  apply check_free_list_ok in Hfree as (-> & Hcok & ->); [|done]. fold (free_list image) in *.
  rewrite Hu in *. exists refs, claims.
  split; [done|]. split; [done|]. split; [done|]. split; [|split; [done|split; [|done]]].
  - assert (Forall (λ iv, iv_len iv ≠ 0) (sort_intervals (Interval 3 1 :: concat claims))) as Hnz.
    { rewrite sort_intervals_perm. constructor; [done|].
      eapply Forall_impl; [exact Hdata|]. intros iv [(_ & Hl & _) _]. lia. }
    rewrite add_used_app in Hcov by done. set (cover := sort_intervals (free_list image ++ _)) in *.
    assert (cover ≡ₚ free_list image ++ concat claims) as Hperm.
    { unfold cover. rewrite sort_intervals_perm. apply Permutation_app_head.
      rewrite (filter_data_perm _ _ (sort_intervals_perm _)).
      change (List.filter in_data_area (Interval 3 1 :: concat claims))
        with (List.filter in_data_area (concat claims)).
      by rewrite (filter_data_all image). }
    exists cover. split; [done|]. apply check_cover_contiguous.
    + apply sort_intervals_sorted.
    + rewrite Hperm. apply Forall_app; split; [done|].
      eapply Forall_impl; [exact Hdata|]. by intros iv [].
    + unfold is_u64. lia.
    + lia.
    + done.
  - bool_to_prop. done.
Qed.

Lemma total_len_app l k : total_len (l ++ k) = total_len l + total_len k.
Proof. induction l; simpl; lia. Qed.

Lemma contiguous_len_pos l lo hi : contiguous l lo hi → Forall (λ iv, 0 < iv_len iv) l.
Proof.
  revert lo. induction l as [|iv l IH]; intros lo; simpl; [constructor|].
  intros (_ & Hl & H). constructor; [done|by eapply IH].
Qed.

Lemma total_len_nonneg l : Forall (λ iv, 0 < iv_len iv) l → 0 ≤ total_len l.
Proof. induction 1; simpl; lia. Qed.

(** The sums of an accepted image, without wrap-around. *)
Lemma cover_totals cover l k lo hi : 0 ≤ lo →
  cover ≡ₚ l ++ k → contiguous cover lo hi → is_u64 hi →
  total_len l + total_len k = hi - lo ∧ u64 (total_len l) = total_len l.
Proof.
  intros Hlo Hp Hc Hhi. pose proof (contiguous_len_pos _ _ _ Hc) as Hpos. rewrite Hp in Hpos.
  apply Forall_app in Hpos as [H1%total_len_nonneg H2%total_len_nonneg].
  apply contiguous_total in Hc. rewrite (total_len_perm _ _ Hp), total_len_app in Hc.
  unfold is_u64 in Hhi. split; [lia|]. apply u64_small. unfold is_u64. lia.
Qed.

(** ** Redundancy *)

Lemma for_blocks_ok offsets start check : for_blocks offsets start check = Ok tt →
  Forall (λ k, check (u64 (start + k)) = Ok tt) offsets.
Proof.
  induction offsets as [|k offsets IH]; cbn [for_blocks]; intros H; [constructor|].
  apply bind_ok in H as ([] & Hc & H). constructor; [done|by apply IH].
Qed.

Lemma for_used_ok used check : for_used used check = Ok tt →
  Forall (λ iv, 8 ≤ iv_start iv → ∀ k, 0 ≤ k < iv_len iv →
    check (u64 (iv_start iv + k)) = Ok tt) used.
Proof.
  induction used as [|iv used IH]; cbn [for_used]; intros H; [constructor|].
  destruct (Z.ltb_spec (iv_start iv) AETHERFS_DATA_START_BLOCK) as [Hlt|Hge];
    unfold AETHERFS_DATA_START_BLOCK in *.
  - constructor; [lia|by apply IH].
  - apply bind_ok in H as ([] & Hc & H). constructor; [|by apply IH]. intros _ k Hk.
    apply for_blocks_ok in Hc. rewrite Forall_forall in Hc. apply Hc, elem_of_seqZ. lia.
Qed.

Lemma check_copies_ok ordinals d image mask block baseline :
  check_copies ordinals d image mask block baseline = Ok tt →
  Forall (λ o, aetherfs_image_read_physical_member d image (aetherfs_mask_nth mask o) block
    = Ok baseline) ordinals.
Proof.
  induction ordinals as [|o ordinals IH]; cbn [check_copies]; intros H; [constructor|].
  apply reject_ok in H as [_ H]. apply bind_ok in H as (c & Hc & H).
  apply reject_ok in H as [He H]. apply negb_false_iff, bool_decide_eq_true in He as ->.
  constructor; [done|by apply IH].
Qed.

(** All members of the mask hold the same block. *)
Lemma check_mirrored_ok d image mask block : 0 ≤ mask < 256 →
  check_mirrored d image mask (aetherfs_mask_first mask) block = Ok tt →
  ∃ content, ∀ index, index ∈ members_of mask →
    aetherfs_image_read_physical_member d image index block = Ok content.
Proof.
  intros Hm H. unfold check_mirrored in H. apply bind_ok in H as (content & Hb & H).
  apply check_copies_ok in H. rewrite Forall_forall in H. exists content.
  intros index [o Ho]%list_elem_of_lookup.
  pose proof (lookup_lt_Some _ _ _ Ho) as Hlt.
  assert (aetherfs_mask_nth mask (Z.of_nat o) = index) as En
    by (rewrite mask_nth_members, Nat2Z.id, Ho by lia; done).
  destruct o as [|o].
  - rewrite <-Hb, <-En. f_equal. rewrite mask_first_members, mask_nth_members by lia.
    by destruct (members_of mask).
  - rewrite <-En. apply H, elem_of_seqZ. rewrite mask_count_members by done. unfold len. lia.
Qed.

Lemma pool_row_parity_len d image b p : pool_row_parity d image b = Ok p → len p = 4096.
Proof.
  unfold pool_row_parity. assert (len (zeros AETHERFS_DEF_BLOCK_SIZE) = 4096) as Hz by done.
  revert Hz. generalize (zeros AETHERFS_DEF_BLOCK_SIZE).
  generalize (seqZ 0 (aetherfs_mask_count (aetherfs_pool_data_mask image))). intros os.
  induction os as [|o os IH]; intros z Hz; cbn [row_parity]; [by intros [= <-]|].
  intros H. apply reject_ok in H as [_ H]. apply bind_ok in H as (x & Hx & H).
  apply read_physical_len in Hx. eapply IH, H. by apply len_xor_blocks.
Qed.

Lemma zero_block p : len p = 4096 → forallb (Z.eqb 0) p = true → p = zeros 4096.
Proof.
  intros Hl Hz. rewrite forallb_forall in Hz. unfold zeros.
  replace (Z.to_nat 4096) with (length p) by (unfold len in Hl; lia).
  symmetry. apply replicate_as_elem_of. split; [done|]. intros x Hx%list_elem_of_In%Hz.
  by apply Z.eqb_eq in Hx.
Qed.

(** The blocks the intervals of an accepted image own. *)
Definition owned (ivs : list aetherfs_interval) (b : Z) : Prop :=
  ∃ iv, iv ∈ ivs ∧ covers b iv = true.

Lemma owned_checked (image : aetherfs_image) used ivs check b :
  used ≡ₚ Interval 3 1 :: ivs → for_used used check = Ok tt →
  is_u64 (blocks image) → (∃ fl cover, cover ≡ₚ fl ++ ivs ∧ contiguous cover 8 (blocks image)) →
  owned ivs b → check b = Ok tt.
Proof.
  intros Hp Hf Hbl (fl & cover & Hpc & Hc) (iv & Hiv & Hcov).
  apply for_used_ok in Hf. rewrite Hp in Hf. rewrite Forall_forall in Hf.
  assert (iv ∈ cover) as Hic by (rewrite Hpc; apply elem_of_app; by right).
  assert (8 ≤ iv_start iv ∧ iv_start iv + iv_len iv ≤ blocks image) as [H8 Hend].
  { destruct (contiguous_member _ _ _ _ Hc Hic). lia. }
  unfold covers in Hcov. apply andb_true_iff in Hcov as [H1%Z.leb_le H2%Z.ltb_lt].
  specialize (Hf iv (list_elem_of_further _ _ _ Hiv) H8 (b - iv_start iv) ltac:(lia)).
  unfold is_u64 in Hbl. rewrite u64_small in Hf by (unfold is_u64; lia).
  by replace (iv_start iv + (b - iv_start iv)) with b in Hf by lia.
Qed.

(** ** Properties *)

(** The walk over an extent's checksum blocks terminates: a chain can be
    arbitrary, even cyclic, yet as many steps as the extent has blocks always
    suffice, since every checksum block must account for at least one of them. *)
Theorem csum_walk_terminates d image pstart n csum used :
  disks_bytes d → is_u64 n →
  is_Some (csum_loop (Z.to_nat n) d image pstart n csum 0 used).
Proof. intros Hd Hn. apply csum_loop_total; [done|done|lia|]. unfold is_u64 in Hn. lia. Qed.

(** C1: an accepted image accounts for every block exactly once.  Each block of the
    data area is either in one free extent, or owned by one regular file: as its
    extent node, as data of one extent (whose contents match the recorded sums),
    or as one checksum block; nothing outside the data area is claimed, and the
    free count of the superblock and of the report is the true one.  This holds
    although the checks compute [start + len] modulo 2^64. *)
Theorem validate_tiles_data_area d image0 image report :
  disks_bytes d → aetherfs_image_load d image0 = Ok image →
  aetherfs_image_validate d image = Ok report →
  ∃ claims, Forall2 (inode_claims d image) (seqZ 0 AETHERFS_MAX_INODES) claims ∧
    (∀ b, cover_count (free_list image ++ concat claims) b =
       if (AETHERFS_DATA_START_BLOCK <=? b) && (b <? blocks image) then 1 else 0) ∧
    free_blocks report = total_len (free_list image) ∧
    s_free_blocks (super image) = free_blocks report ∧
    free_blocks report + total_len (concat claims) = blocks image - AETHERFS_DATA_START_BLOCK.
Proof.
  intros Hd Hl Hv. pose proof (load_image_wf _ _ _ Hd Hl) as Hw.
  apply validate_inv in Hv as (_ & claims & _ & Hc & _ & (cover & Hp & Hcont) & Hfb & Hsb & _);
    [|done..].
  destruct Hw as [Hb _].
  destruct (cover_totals cover (free_list image) (concat claims) 8 (blocks image)) as [Ht Hu];
    [lia|done|done|unfold is_u64; lia|].
  exists claims. split; [done|]. split; [|split; [congruence|split; [done|]]].
  - intros b. rewrite <-(cover_count_perm _ _ b Hp). by apply contiguous_cover.
  - rewrite Hfb, Hu. exact Ht.
Qed.

(** C11: the directory and the inode table agree: in an accepted image every inode
    that owns blocks is referred to by exactly one name of the root directory. *)
Theorem validate_files_are_named d image0 image report :
  disks_bytes d → aetherfs_image_load d image0 = Ok image →
  aetherfs_image_validate d image = Ok report →
  ∃ entries claims, dir_chain (root_dir image) 0 entries ∧ NoDup (children entries) ∧
    Forall2 (inode_claims d image) (seqZ 0 AETHERFS_MAX_INODES) claims ∧
    Forall2 (λ index ivs, ivs ≠ [] → index ∈ children entries) (seqZ 0 AETHERFS_MAX_INODES) claims.
Proof.
  intros Hd Hl Hv. pose proof (load_image_wf _ _ _ Hd Hl) as Hw.
  apply validate_inv in Hv as (refs & claims & Hrd & Hc & Hr & _); [|done..].
  assert (is_bytes (root_dir image)) as Hb.
  { apply load_loads in Hl as (?&?&?&?&?&?&bdir&[-> _ _ _ _ _ _ R3 _ _ _ _ _]).
    by apply read_block_bytes in R3 as [? _]. }
  destruct (root_dir_accepts _ _ Hb Hrd) as (entries & He & _ & _ & _ & Hn & _ & Href).
  exists entries, claims. split; [done|]. split; [done|]. split; [done|].
  eapply Forall2_impl; [exact Hr|]. intros index ivs H Hne. by apply Href, H.
Qed.

(** C10: in an accepted mirrored pool every data member is a full replacement for the
    others: all members of the data mask hold the same contents for every block
    the files own, and these are the contents a logical read returns. *)
Theorem validate_mirror_copies_agree d image0 image report :
  disks_bytes d → geometry_ok image → aetherfs_image_load d image0 = Ok image →
  aetherfs_image_validate d image = Ok report →
  aetherfs_pool_profile image = AETHERFS_POOL_PROFILE_MIRROR →
  1 < aetherfs_mask_count (aetherfs_pool_data_mask image) →
  ∃ claims, Forall2 (inode_claims d image) (seqZ 0 AETHERFS_MAX_INODES) claims ∧
    ∀ b, owned (concat claims) b →
      ∃ content, ∀ index, index ∈ members_of (aetherfs_pool_data_mask image) →
        aetherfs_image_read_physical_member d image index b = Ok content.
Proof.
  intros Hd Hg Hl Hv Hprof Hcnt. pose proof (load_image_wf _ _ _ Hd Hl) as Hw.
  apply validate_inv in Hv as (_ & claims & _ & Hc & _ & (cover & Hp & Hcont) & _ & _ & Hred); [|done..].
  exists claims. split; [done|]. intros b Hb.
  unfold aetherfs_image_validate_pool_redundancy in Hred. apply bind_ok in Hred as ([] & _ & Hred).
  rewrite Hprof in Hred. cbn [Z.eqb Pos.eqb AETHERFS_POOL_PROFILE_MIRROR] in Hred.
  unfold aetherfs_image_validate_mirror_data in Hred.
  rewrite (proj2 (Z.leb_gt _ _)) in Hred by done. apply reject_ok in Hred as [_ Hred].
  apply (check_mirrored_ok d image); [by apply data_mask_small|].
  eapply (owned_checked image); [apply sort_intervals_perm|exact Hred| |by eauto|done].
  destruct Hw. unfold is_u64. lia.
Qed.

(** C9: an accepted parity pool survives the loss of any one data member: for every
    block the files own, the contents of each member of its row equal the exclusive
    or of the row's other members. *)
Theorem validate_parity_recoverable d image0 image report :
  disks_bytes d → geometry_ok image → aetherfs_image_load d image0 = Ok image →
  aetherfs_image_validate d image = Ok report →
  aetherfs_pool_profile image = AETHERFS_POOL_PROFILE_PARITY →
  ∃ claims, Forall2 (inode_claims d image) (seqZ 0 AETHERFS_MAX_INODES) claims ∧
    ∀ b, owned (concat claims) b →
      let mask := aetherfs_pool_data_mask image in
      let ordinals := seqZ 0 (aetherfs_mask_count mask) in
      ∃ m, aetherfs_pool_map_parity image b = Ok m ∧
        ∀ o x, o ∈ ordinals →
          aetherfs_image_read_physical_member d image (aetherfs_mask_nth mask o) (member_block m) = Ok x →
          row_parity (filter (λ o', o' ≠ o) ordinals) d image mask (member_block m) (zeros 4096) = Ok x.
Proof.
  intros Hd Hg Hl Hv Hprof. pose proof (load_image_wf _ _ _ Hd Hl) as Hw.
  apply validate_inv in Hv as (_ & claims & _ & Hc & _ & (cover & Hp & Hcont) & _ & _ & Hred); [|done..].
  exists claims. split; [done|]. intros b Hb mask ordinals.
  unfold aetherfs_image_validate_pool_redundancy in Hred. apply bind_ok in Hred as ([] & _ & Hred).
  rewrite Hprof in Hred. cbn [Z.eqb Pos.eqb AETHERFS_POOL_PROFILE_MIRROR AETHERFS_POOL_PROFILE_PARITY] in Hred.
  unfold aetherfs_image_validate_parity in Hred. apply reject_ok in Hred as [_ Hred].
  assert (check_row d image b = Ok tt) as Hrow.
  { eapply (owned_checked image); [apply sort_intervals_perm|exact Hred| |by eauto|done].
    destruct Hw. unfold is_u64. lia. }
  unfold check_row in Hrow. apply bind_ok in Hrow as (m & Hm & Hrow).
  apply bind_ok in Hrow as (p & Hpar & Hrow). apply reject_ok in Hrow as [Hz _].
  exists m. split; [done|]. intros o x Ho Hx.
  eapply parity_row_rebuild; [done|done|exact Hx|]. rewrite Hpar. f_equal.
  apply zero_block; [|by apply negb_false_iff]. by eapply pool_row_parity_len.
Qed.
