(* ===== verification/Mkfs.v ===== *)
(** * Formatting

    [aetherfsprogs/mkfs.c]: preparing the target, the initial contents of the eight
    bootstrap blocks, and the validation [aetherfs_run_mkfs] ends with.  The target
    is a file or device given by its contents; the random uuid, the clock, the user
    and the outcome of [fsync] are inputs. *)

From S2P Require Import Prelude Codec Crc Format Integrity SysIo State Pool Blocks Bitmap Open.
From S2P Require Import Load RootDir Validate.

(** ** Inputs *)

(** The fields of [struct aetherfs_mkfs_options] that [mkfs.c] reads. *)
Record aetherfs_mkfs_options := MkfsOptions {
  o_blocks : Z;
  o_block_size : Z;
  o_mode : Z;
  o_force : bool;
}.

(** The path as [access], [open], [fstat] and the two sizing calls see it; a path
    that did not exist is created empty by [open(O_CREAT)]. *)
Record target := Target {
  t_exists : bool;
  t_open : result unit;
  t_stat : result file_kind;
  t_ioctl : result unit;
  t_truncate : result unit;
  t_data : bytes;
}.

(** What the system reports while the bootstrap blocks are built. *)
Record mkfs_env := MkfsEnv {
  env_random : result bytes;
  env_time : Z;
  env_uid : Z;
  env_gid : Z;
  env_fsync : result unit;
}.

(** ** Small helpers *)

Definition aetherfs_min_u32 (left right : Z) : Z := if left <? right then left else right.

Definition aetherfs_mode_features (mode : Z) : Z :=
  if mode =? AETHERFS_APPEND_MODE then AETHERFS_F_APPEND
  else if mode =? AETHERFS_OVERWRITE_MODE then 0
  else AETHERFS_F_COW.

(** Version and variant bits of a random uuid. *)
Definition aetherfs_fill_uuid (env : mkfs_env) : result bytes :=
  uuid ← env_random env;
  return_if negb (len uuid =? 16) with EIO ;;
  let byte i := default 0 (uuid !! i) in
  let uuid := <[6%nat := Z.lor (Z.land (byte 6%nat) 0x0F) 0x40]> uuid in
  Ok (<[8%nat := Z.lor (Z.land (byte 8%nat) 0x3F) 0x80]> uuid).

(** ** The target *)

Definition is_magic_block (block : bytes) : bool :=
  s_magic (decode block) =? AETHERFS_MAGIC.

(** Reading a short file fails with [-EIO], which counts as "no filesystem". *)
Definition aetherfs_probe_magic (data : bytes) : result bool :=
  match read_at data (AETHERFS_SUPERBLOCK_BLOCK * AETHERFS_DEF_BLOCK_SIZE) AETHERFS_DEF_BLOCK_SIZE with
  | Ok block => Ok (is_magic_block block)
  | Err EIO => Ok false
  | Err e => Err e
  end.

(** [ftruncate]: the size is an [off_t]. *)
Definition ftruncate (t : target) (bytes : Z) : result (list Z) :=
  _ ← t_truncate t;
  return_if 2 ^ 63 <=? bytes with EINVAL ;;
  Ok (if bytes <=? len (t_data t) then slice 0 bytes (t_data t)
      else t_data t ++ zeros (bytes - len (t_data t))).

(** The checks before any change: whether the target is a block device. *)
Definition check_target (options : aetherfs_mkfs_options) (t : target) : result bool :=
  _ ← t_open t;
  kind ← t_stat t;
  return_if match kind with S_IFOTHER => true | _ => false end with EINVAL ;;
  has_magic ← (if t_exists t then aetherfs_probe_magic (t_data t) else Ok false);
  return_if t_exists t && has_magic && negb (o_force options) with EEXIST ;;
  Ok match kind with S_IFBLK => true | _ => false end.

(** The number of blocks and the contents after a possible resize. *)
Definition size_target (options : aetherfs_mkfs_options) (t : target) (is_block : bool)
    : result (Z * bytes) :=
  if 0 <? o_blocks options then
    let bytes := u64 (o_blocks options * o_block_size options) in
    if is_block then Ok (o_blocks options, t_data t)
    else data ← ftruncate t bytes; Ok (o_blocks options, data)
  else if is_block then
    _ ← t_ioctl t; Ok (len (t_data t) / o_block_size options, t_data t)
  else if 0 <? len (t_data t) then
    return_if negb (len (t_data t) mod o_block_size options =? 0) with EINVAL ;;
    Ok (len (t_data t) / o_block_size options, t_data t)
  else Err EINVAL.

(** The number of blocks and whether the target is a block device; the contents,
    which an error after the resize leaves resized. *)
Definition aetherfs_prepare_target (options : aetherfs_mkfs_options) (t : target)
    : result (Z * bool) * bytes :=
  match check_target options t with
  | Err e => (Err e, t_data t)
  | Ok is_block =>
      match size_target options t is_block with
      | Err e => (Err e, t_data t)
      | Ok (blocks, data) =>
          if blocks <? AETHERFS_BOOTSTRAP_BLOCKS then (Err ENOSPC, data)
          else (Ok (blocks, is_block), data)
      end
  end.

(** ** Initial structures *)

(** [(uint32_t)((blocks + AETHERFS_BLOCKS_PER_AG - 1) / AETHERFS_BLOCKS_PER_AG)] *)
Definition ag_count (blocks : Z) : Z :=
  u32 (u64 (blocks + AETHERFS_BLOCKS_PER_AG - 1) / AETHERFS_BLOCKS_PER_AG).

Definition aetherfs_init_super (options : aetherfs_mkfs_options) (blocks : Z) : aetherfs_super :=
  let super := Super AETHERFS_MAGIC AETHERFS_VERSION (o_block_size options) blocks
    (u64 (blocks - AETHERFS_DATA_START_BLOCK))
    (aetherfs_min_u32 (u32 blocks) AETHERFS_BLOCKS_PER_AG) (ag_count blocks) 1
    (o_mode options) (aetherfs_mode_features (o_mode options)) 0 (zeros 16) 1 1
    (AETHERFS_CHECKPOINT_ROOT_BLOCK :: replicate 7 0) AETHERFS_JOURNAL_BLOCK
    AETHERFS_ROOT_INODE_BLOCK 1 AETHERFS_MAX_INODES AETHERFS_INODE_BITMAP_BLOCK 0
    AETHERFS_FREE_EXTENT_BLOCK 0 0 0 (zeros 6) in
  set_s_checksum (aetherfs_super_checksum super) super.

Definition aetherfs_init_checkpoint_root (super : aetherfs_super) (blocks : Z)
    : aetherfs_checkpoint_root :=
  let root := CheckpointRoot AETHERFS_CHECKPOINT_ROOT_MAGIC AETHERFS_CHECKPOINT_ROOT_VERSION 0
    (s_generation super) (s_ag_count super) 2 AETHERFS_SUPERBLOCK_BLOCK (s_root_inode super)
    AETHERFS_ROOT_DIR_BLOCK (s_journal_addr super) (s_meta_tree super) (s_free_tree super)
    (s_meta_tree super) (s_extent_tree super) (s_snap_tree super) (s_scrub_journal super)
    (s_health_journal super) AETHERFS_SUPERBLOCK_BLOCK AETHERFS_CHECKPOINT_ROOT_BLOCK
    AETHERFS_DATA_START_BLOCK blocks 0 0 0 (zeros 491) in
  set_cr_checksum (aetherfs_checkpoint_root_checksum root) root.

(** [0040755] *)
Definition ROOT_MODE : Z := 0x41ED.

Definition aetherfs_init_root_inode (env : mkfs_env) : aetherfs_inode :=
  let ts := env_time env in
  let inode := Inode ROOT_MODE 2 (env_uid env) (env_gid env) AETHERFS_DEF_BLOCK_SIZE 1 ts ts ts
    AETHERFS_ROOT_DIR_BLOCK 2 AETHERFS_F_COW 0 0 AETHERFS_ROOT_INO 0 0 0 0 (zeros 24) (zeros 372) in
  set_i_checksum (aetherfs_inode_checksum inode) inode.

Definition aetherfs_init_journal : aetherfs_intent_log :=
  let journal := IntentLog AETHERFS_JOURNAL_BLOCK AETHERFS_JOURNAL_BLOCK AETHERFS_JOURNAL_BLOCK
    AETHERFS_JOURNAL_BLOCK 0 0 0 0 in
  set_il_checksum (aetherfs_journal_checksum journal) journal.

Definition aetherfs_init_inode_bitmap : aetherfs_bitmap_block :=
  let bitmap := BitmapBlock 0 AETHERFS_MAX_INODES 0 0 (zeros AETHERFS_BITMAP_BYTES) in
  let bitmap := aetherfs_image_bitmap_set bitmap 0 in
  let bitmap := set_bb_set_bits 1 bitmap in
  set_bb_checksum (aetherfs_bitmap_checksum bitmap) bitmap.

Definition aetherfs_init_free_extents (blocks : Z) : aetherfs_extent_node :=
  let extent := Extent 0 AETHERFS_DATA_START_BLOCK 0 (u64 (blocks - AETHERFS_DATA_START_BLOCK)) 0 0 in
  let node := ExtentNode 0 1 0 (extent :: replicate 101 zeroed) in
  set_en_checksum (aetherfs_extent_node_checksum node) node.

(** ** Writing the bootstrap blocks *)

(** [aetherfs_write_all] of whole blocks, stopping at the first failure. *)
Fixpoint write_blocks (is_block : bool) (data : bytes) (writes : list (Z * bytes))
    : result unit * bytes :=
  match writes with
  | [] => (Ok tt, data)
  | (block, buf) :: rest =>
      match pwrite_file is_block data (block * AETHERFS_DEF_BLOCK_SIZE) buf with
      | (Err e, data) => (Err e, data)
      | (Ok _, data) => write_blocks is_block data rest
      end
  end.

(** [aetherfs_zero_block] over the reserved blocks. *)
Definition zero_writes : list (Z * bytes) :=
  map (λ reserved, (reserved, zeros AETHERFS_DEF_BLOCK_SIZE)) (seqZ 0 AETHERFS_BOOTSTRAP_BLOCKS).

Definition bootstrap_super (options : aetherfs_mkfs_options) (blocks : Z) (uuid : bytes)
    : aetherfs_super :=
  let super := set_s_uuid uuid (aetherfs_init_super options blocks) in
  set_s_checksum (aetherfs_super_checksum super) super.

Definition bootstrap_writes (env : mkfs_env) (options : aetherfs_mkfs_options) (blocks : Z)
    (uuid : bytes) : list (Z * bytes) :=
  let super := bootstrap_super options blocks uuid in
  [(AETHERFS_SUPERBLOCK_BLOCK, to_block AETHERFS_DEF_BLOCK_SIZE super);
   (AETHERFS_ROOT_INODE_BLOCK, to_block AETHERFS_DEF_BLOCK_SIZE (aetherfs_init_root_inode env));
   (AETHERFS_ROOT_DIR_BLOCK, aetherfs_init_root_dir);
   (AETHERFS_JOURNAL_BLOCK, to_block AETHERFS_DEF_BLOCK_SIZE aetherfs_init_journal);
   (AETHERFS_INODE_BITMAP_BLOCK, to_block AETHERFS_DEF_BLOCK_SIZE aetherfs_init_inode_bitmap);
   (AETHERFS_FREE_EXTENT_BLOCK, to_block AETHERFS_DEF_BLOCK_SIZE (aetherfs_init_free_extents blocks));
   (AETHERFS_CHECKPOINT_ROOT_BLOCK,
     to_block AETHERFS_DEF_BLOCK_SIZE (aetherfs_init_checkpoint_root super blocks))].

Definition aetherfs_write_bootstrap (env : mkfs_env) (options : aetherfs_mkfs_options)
    (blocks : Z) (is_block : bool) (data : bytes) : result unit * bytes :=
  match write_blocks is_block data zero_writes with
  | (Err e, data) => (Err e, data)
  | (Ok _, data) =>
      match aetherfs_fill_uuid env with
      | Err e => (Err e, data)
      | Ok uuid =>
          match write_blocks is_block data (bootstrap_writes env options blocks uuid) with
          | (Err e, data) => (Err e, data)
          | (Ok _, data) => (env_fsync env, data)
          end
      end
  end.

(** ** Validation after the write *)

Definition read_fs_block (data : bytes) (block : Z) : result bytes :=
  read_at data (block * AETHERFS_DEF_BLOCK_SIZE) AETHERFS_DEF_BLOCK_SIZE.

Definition aetherfs_validate_super (data : bytes) (blocks : Z) : result unit :=
  block ← read_fs_block data AETHERFS_SUPERBLOCK_BLOCK;
  let super := decode block : aetherfs_super in
  return_if negb (s_magic super =? AETHERFS_MAGIC) with EINVAL ;;
  return_if negb (s_version super =? AETHERFS_VERSION) with EINVAL ;;
  return_if negb (s_blocksize super =? AETHERFS_DEF_BLOCK_SIZE) with EINVAL ;;
  return_if negb (s_blocks_count super =? blocks) with EINVAL ;;
  return_if negb (s_free_blocks super =? u64 (blocks - AETHERFS_DATA_START_BLOCK)) with EINVAL ;;
  return_if negb (default 0 (s_checkpoint super !! 0%nat) =? AETHERFS_CHECKPOINT_ROOT_BLOCK)
    with EINVAL ;;
  return_if negb (s_inodes_count super =? AETHERFS_MAX_INODES) with EINVAL ;;
  return_if negb (s_meta_tree super =? AETHERFS_INODE_BITMAP_BLOCK) with EINVAL ;;
  return_if negb (s_extent_tree super =? 0) with EINVAL ;;
  return_if negb (s_free_tree super =? AETHERFS_FREE_EXTENT_BLOCK) with EINVAL ;;
  return_if negb (s_snap_tree super =? 0) with EINVAL ;;
  return_if negb (s_checksum super =? aetherfs_super_checksum super) with EBADE ;;
  Ok tt.

Definition aetherfs_validate_checkpoint_root (data : bytes) (blocks : Z) : result unit :=
  block ← read_fs_block data AETHERFS_CHECKPOINT_ROOT_BLOCK;
  let root := decode block : aetherfs_checkpoint_root in
  return_if negb (cr_magic root =? AETHERFS_CHECKPOINT_ROOT_MAGIC) with EINVAL ;;
  return_if negb (cr_version root =? AETHERFS_CHECKPOINT_ROOT_VERSION) with EINVAL ;;
  return_if negb (cr_generation root =? 1) with EINVAL ;;
  return_if negb (cr_ag_count root =? ag_count blocks) with EINVAL ;;
  return_if negb (cr_region_count root =? 2) with EINVAL ;;
  return_if negb (cr_super_block root =? AETHERFS_SUPERBLOCK_BLOCK) with EINVAL ;;
  return_if negb (cr_root_inode_block root =? AETHERFS_ROOT_INODE_BLOCK) with EINVAL ;;
  return_if negb (cr_root_dir_block root =? AETHERFS_ROOT_DIR_BLOCK) with EINVAL ;;
  return_if negb (cr_journal_block root =? AETHERFS_JOURNAL_BLOCK) with EINVAL ;;
  return_if negb (cr_inode_bitmap_block root =? AETHERFS_INODE_BITMAP_BLOCK) with EINVAL ;;
  return_if negb (cr_free_space_root root =? AETHERFS_FREE_EXTENT_BLOCK) with EINVAL ;;
  return_if negb (cr_metadata_tree_root root =? AETHERFS_INODE_BITMAP_BLOCK) with EINVAL ;;
  return_if negb (cr_extent_tree_root root =? 0) with EINVAL ;;
  return_if negb (cr_snapshot_root root =? 0) with EINVAL ;;
  return_if negb (cr_metadata_region_start root =? AETHERFS_SUPERBLOCK_BLOCK) with EINVAL ;;
  return_if negb (cr_metadata_region_end root =? AETHERFS_CHECKPOINT_ROOT_BLOCK) with EINVAL ;;
  return_if negb (cr_data_region_start root =? AETHERFS_DATA_START_BLOCK) with EINVAL ;;
  return_if negb (cr_data_region_end root =? blocks) with EINVAL ;;
  return_if negb (cr_special_metadata_root root =? 0) || negb (cr_cache_root root =? 0)
         || negb (cr_parity_root root =? 0) with EINVAL ;;
  return_if negb (cr_checksum root =? aetherfs_checkpoint_root_checksum root) with EBADE ;;
  Ok tt.

Definition aetherfs_validate_root_inode (data : bytes) : result unit :=
  block ← read_fs_block data AETHERFS_ROOT_INODE_BLOCK;
  let inode := decode block : aetherfs_inode in
  return_if negb (i_checksum inode =? aetherfs_inode_checksum inode) with EBADE ;;
  return_if negb (i_mode inode =? ROOT_MODE) with EINVAL ;;
  return_if negb (i_extent_root inode =? AETHERFS_ROOT_DIR_BLOCK) with EINVAL ;;
  Ok tt.

(** One of the two entries the formatter checks. *)
Definition check_root_dirent (block : bytes) (offset : Z) (name : bytes) : result unit :=
  entry ← entry_at block offset;
  return_if negb (de_ino entry =? AETHERFS_ROOT_INO) with EINVAL ;;
  return_if negb (de_name_len entry =? len name) with EINVAL ;;
  actual ← name_at block offset (de_name_len entry);
  return_if negb (bool_decide (actual = name)) with EINVAL ;;
  return_if negb (de_checksum entry =? aetherfs_dirent_checksum entry actual) with EBADE ;;
  Ok tt.

Definition aetherfs_validate_root_dir (data : bytes) : result unit :=
  block ← read_fs_block data AETHERFS_ROOT_DIR_BLOCK;
  _ ← check_root_dirent block 0 dot_name;
  dot ← entry_at block 0;
  check_root_dirent block (de_rec_len dot) dotdot_name.

Definition aetherfs_validate_journal (data : bytes) : result unit :=
  block ← read_fs_block data AETHERFS_JOURNAL_BLOCK;
  let journal := decode block : aetherfs_intent_log in
  return_if negb (il_checksum journal =? aetherfs_journal_checksum journal) with EBADE ;;
  return_if negb (il_outstanding journal =? 0) with EUCLEAN ;;
  Ok tt.

Definition aetherfs_validate_bitmap (data : bytes) (expected_bits expected_set_bits : Z)
    : result unit :=
  block ← read_fs_block data AETHERFS_INODE_BITMAP_BLOCK;
  let bitmap := decode block : aetherfs_bitmap_block in
  return_if negb (bb_total_bits bitmap =? expected_bits) with EINVAL ;;
  let actual_set_bits := aetherfs_image_bitmap_count_set bitmap in
  return_if negb (bb_set_bits bitmap =? actual_set_bits) with EBADE ;;
  return_if negb (actual_set_bits =? expected_set_bits) with EINVAL ;;
  return_if negb (bb_checksum bitmap =? aetherfs_bitmap_checksum bitmap) with EBADE ;;
  Ok tt.

Fixpoint validate_free (extents : list aetherfs_extent) (blocks last_end free_blocks : Z)
    : result Z :=
  match extents with
  | [] => Ok free_blocks
  | extent :: rest =>
      let start := e_pstart extent in
      let len := e_len extent in
      return_if len =? 0 with EINVAL ;;
      return_if (start <? AETHERFS_DATA_START_BLOCK) || (start <? last_end) with EINVAL ;;
      return_if blocks <? u64 (start + len) with EINVAL ;;
      validate_free rest blocks (u64 (start + len)) (u64 (free_blocks + len))
  end.

Definition validate_free_node (node : aetherfs_extent_node) (blocks : Z) : result unit :=
  return_if negb (en_checksum node =? aetherfs_extent_node_checksum node) with EBADE ;;
  return_if negb (en_next node =? 0) with EINVAL ;;
  let count := en_count node in
  return_if (count =? 0) || (AETHERFS_EXTENT_LOG_MAX <? count) with EINVAL ;;
  free_blocks ← validate_free (take (Z.to_nat count) (en_extents node)) blocks
    AETHERFS_DATA_START_BLOCK 0;
  return_if negb (free_blocks =? u64 (blocks - AETHERFS_DATA_START_BLOCK)) with EINVAL ;;
  Ok tt.

Definition aetherfs_validate_free_extents (data : bytes) (blocks : Z) : result unit :=
  block ← read_fs_block data AETHERFS_FREE_EXTENT_BLOCK;
  validate_free_node (decode block) blocks.

(** ** The command *)

Definition validate_bootstrap (data : bytes) (blocks : Z) : result unit :=
  _ ← aetherfs_validate_super data blocks;
  _ ← aetherfs_validate_root_inode data;
  _ ← aetherfs_validate_root_dir data;
  _ ← aetherfs_validate_journal data;
  _ ← aetherfs_validate_bitmap data AETHERFS_MAX_INODES 1;
  _ ← aetherfs_validate_free_extents data blocks;
  aetherfs_validate_checkpoint_root data blocks.

(** The number of formatted blocks, and the contents of the target afterwards. *)
Definition aetherfs_run_mkfs (env : mkfs_env) (options : aetherfs_mkfs_options) (t : target)
    : result Z * bytes :=
  if negb (o_block_size options =? AETHERFS_DEF_BLOCK_SIZE) then (Err EOPNOTSUPP, t_data t)
  else match aetherfs_prepare_target options t with
  | (Err e, data) => (Err e, data)
  | (Ok (blocks, is_block), data) =>
      match aetherfs_write_bootstrap env options blocks is_block data with
      | (Err e, data) => (Err e, data)
      | (Ok _, data) => (_ ← validate_bootstrap data blocks; Ok blocks, data)
      end
  end.
