(* ===== verification/Formatted.v ===== *)
(** * Formatted images

    The properties of [Mkfs]: what the formatter writes is what the loader and the
    validation of the tools accept. *)

From S2P Require Import Prelude Codec Crc Format Integrity SysIo State Pool Blocks Bitmap Open.
From S2P Require Import Load RootDir Validate Mkfs.

(** ** Block writes to a file *)

(** The contents after writes that stay inside the file. *)
Definition apply_writes (data : bytes) (ws : list (Z * bytes)) : bytes :=
  foldl (λ d w, splice (w.1 * 4096) w.2 d) data ws.

Definition boot_write (w : Z * bytes) : Prop := 0 ≤ w.1 < 8 ∧ len w.2 = 4096.

Lemma len_apply_writes data ws :
  8 * 4096 ≤ len data → Forall boot_write ws → len (apply_writes data ws) = len data.
Proof.
  intros Hl Hw. revert data Hl. unfold apply_writes.
  induction Hw as [|w ws [Hb Hw1] Hw IH]; intros data Hl; [done|]. simpl.
  assert (len (splice (w.1 * 4096) w.2 data) = len data) as E by (apply len_splice; lia).
  rewrite IH; lia.
Qed.

Lemma write_blocks_inside is_block data ws :
  8 * 4096 ≤ len data → Forall boot_write ws →
  write_blocks is_block data ws = (Ok tt, apply_writes data ws).
Proof.
  intros Hl Hw. revert data Hl. induction Hw as [|[b buf] ws [Hb Hw1] Hw IH]; intros data Hl; [done|].
  cbn [fst snd] in Hb, Hw1. cbn [write_blocks apply_writes foldl fst snd].
  unfold pwrite_file, AETHERFS_DEF_BLOCK_SIZE, write_at.
  rewrite (proj2 (Z.leb_le _ _)) by lia. apply IH. rewrite len_splice; lia.
Qed.

(** What a block reads as after a sequence of writes: the last one to it. *)
Fixpoint last_write (ws : list (Z * bytes)) (k : Z) : option bytes :=
  match ws with
  | [] => None
  | (b, buf) :: rest =>
      match last_write rest k with
      | Some x => Some x
      | None => if b =? k then Some buf else None
      end
  end.

Lemma read_apply_writes data ws k :
  8 * 4096 ≤ len data → Forall boot_write ws → 0 ≤ k < 8 →
  read_fs_block (apply_writes data ws) k =
  match last_write ws k with Some x => Ok x | None => read_fs_block data k end.
Proof.
  intros Hl Hw Hk. revert data Hl.
  induction Hw as [|[b buf] ws [Hb Hw1] Hw IH]; intros data Hl; [done|].
  cbn [fst snd] in Hb, Hw1. cbn [apply_writes foldl fst snd last_write].
  fold (apply_writes (splice (b * 4096) buf data) ws).
  assert (len (splice (b * 4096) buf data) = len data) as E by (apply len_splice; lia).
  rewrite IH by lia. destruct (last_write ws k); [done|].
  unfold read_fs_block, read_at, AETHERFS_DEF_BLOCK_SIZE. rewrite E.
  rewrite (proj2 (Z.leb_le (k * 4096 + 4096) (len data))) by lia.
  destruct (Z.eqb_spec b k) as [->|Hne]; f_equal.
  - rewrite <-Hw1. apply slice_splice_eq; lia.
  - destruct (decide (b < k)); [apply slice_splice_after|apply slice_splice_before]; lia.
Qed.

Lemma is_bytes_apply_writes data ws :
  is_bytes data → Forall (λ w : Z * bytes, is_bytes w.2) ws → is_bytes (apply_writes data ws).
Proof.
  intros Hd Hw. revert data Hd. induction Hw as [|w ws H Hw IH]; intros data Hd; [done|].
  apply IH. by apply is_bytes_splice.
Qed.

(** ** The structures *)

Record env_ok (env : mkfs_env) : Prop := {
  ev_time : is_u64 (env_time env);
  ev_uid : is_u32 (env_uid env);
  ev_gid : is_u32 (env_gid env);
  ev_random : ∀ uuid, env_random env = Ok uuid → is_bytes uuid;
}.

Lemma fill_uuid_ok env uuid : env_ok env → aetherfs_fill_uuid env = Ok uuid →
  len uuid = 16 ∧ is_bytes uuid.
Proof.
  intros He H. unfold aetherfs_fill_uuid in H. apply bind_ok in H as (u & Hu & H).
  apply reject_ok in H as [Hl H]. injection H as <-. bool_to_prop.
  pose proof (ev_random _ He u Hu) as Hb. unfold len in *. rewrite !length_insert. split; [done|].
  assert (∀ i x y, 0 ≤ x < 256 → 0 ≤ y < 256 → is_byte (Z.lor (Z.land (default 0 (u !! i)) x) y)) as Hbyte.
  { intros i x y Hx Hy. apply (lor_range 8); [lia|apply land_range; lia|lia]. }
  apply Forall_insert; [apply Forall_insert; [done|]|]; apply Hbyte; lia.
Qed.

(** The range of a constant, by computation. *)
Lemma le_range_bool n z : (0 <=? z) && (z <? 2 ^ (8 * Z.of_nat n)) = true → le_range n z.
Proof. intros [H1%Z.leb_le H2%Z.ltb_lt]%andb_true_iff. by split. Qed.

(** Well-formedness of a structure built field by field. *)
Ltac solve_fields :=
  repeat match goal with |- _ ∧ _ => split end;
  first [ reflexivity | assumption
        | by (unfold le_range, is_u16, is_u32, is_u64 in *; lia)
        | by (apply Forall_replicate; unfold le_range; lia)
        | by (apply le_range_bool; vm_compute; reflexivity) | idtac ].

(** The last step of every initialiser stores the checksum. *)
Ltac unseal :=
  cbv zeta; match goal with |- wf (_ _ ?a) => change (wf (seal a)); apply seal_wf end.

Lemma ag_count_u32 b : is_u32 (ag_count b).
Proof. apply u32_range. Qed.

Definition options_ok (options : aetherfs_mkfs_options) : Prop :=
  o_block_size options = 4096 ∧ is_u16 (o_mode options).

Lemma mode_features_u16 mode : is_u16 (aetherfs_mode_features mode).
Proof.
  unfold aetherfs_mode_features, is_u16, AETHERFS_F_APPEND, AETHERFS_F_COW.
  repeat case_match; lia.
Qed.

(** The superblock without its checksum. *)
Definition plain_super (options : aetherfs_mkfs_options) (b : Z) (uuid : bytes) : aetherfs_super :=
  set_s_uuid uuid (aetherfs_init_super options b).

Lemma plain_super_wf options b uuid : options_ok options → is_u64 b → len uuid = 16 →
  is_bytes uuid → wf (plain_super options b uuid).
Proof.
  intros [Hbs Hm] Hb Hl Hu.
  assert (is_u32 (aetherfs_min_u32 (u32 b) AETHERFS_BLOCKS_PER_AG)) as Hmin.
  { pose proof (u32_range b) as Hr. unfold aetherfs_min_u32, is_u32, AETHERFS_BLOCKS_PER_AG in *.
    case_match; lia. }
  pose proof (ag_count_u32 b) as Hag. pose proof (mode_features_u16 (o_mode options)) as Hf.
  pose proof (u64_range (b - AETHERFS_DATA_START_BLOCK)) as Hfree.
  unfold plain_super, aetherfs_init_super.
  set (s0 := Super _ _ _ _ _ _ _ _ _ _ _ _ _ _ _ _ _ _ _ _ _ _ _ _ _ _).
  assert (wf s0) as Hw0.
  { unfold s0. rewrite Hbs. cbn -[zeros replicate]. solve_fields.
    constructor; [unfold le_range, AETHERFS_CHECKPOINT_ROOT_BLOCK; lia|].
    apply Forall_replicate. unfold le_range. lia. }
  pose proof (csum_u32 s0 Hw0) as Hc. cbn [csum super_checksummed] in Hc. revert Hw0 Hc.
  generalize (aetherfs_super_checksum s0) as c. generalize s0. clear -Hl Hu. intros s0 c Hw Hc.
  cbn in *. destruct_and!. solve_fields. unfold len in Hl. lia.
Qed.

(** The root inode without its checksum. *)
Definition plain_inode (env : mkfs_env) : aetherfs_inode :=
  Inode ROOT_MODE 2 (env_uid env) (env_gid env) AETHERFS_DEF_BLOCK_SIZE 1 (env_time env)
    (env_time env) (env_time env) AETHERFS_ROOT_DIR_BLOCK 2 AETHERFS_F_COW 0 0 AETHERFS_ROOT_INO
    0 0 0 0 (zeros 24) (zeros 372).

Lemma init_inode_seal env : aetherfs_init_root_inode env = seal (plain_inode env).
Proof. reflexivity. Qed.

Lemma plain_inode_wf env : env_ok env → wf (plain_inode env).
Proof. intros [Ht Hu Hg _]. unfold plain_inode. cbn -[zeros replicate]. solve_fields. Qed.

Lemma root_inode_wf env : env_ok env → wf (aetherfs_init_root_inode env).
Proof. intros. rewrite init_inode_seal. by apply seal_wf, plain_inode_wf. Qed.

Lemma journal_wf : wf aetherfs_init_journal.
Proof. unfold aetherfs_init_journal. unseal. cbn. solve_fields. Qed.

Lemma bitmap_wf : wf aetherfs_init_inode_bitmap.
Proof.
  unfold aetherfs_init_inode_bitmap. unseal.
  assert (Forall (le_range 1) (<[0%nat := 1]> (zeros AETHERFS_BITMAP_BYTES))) as H.
  { apply Forall_insert; [apply Forall_replicate; unfold le_range; lia|unfold le_range; lia]. }
  cbn -[zeros replicate]. solve_fields.
Qed.

(** The free list without its checksum. *)
Definition plain_free (b : Z) : aetherfs_extent_node :=
  ExtentNode 0 1 0 (Extent 0 AETHERFS_DATA_START_BLOCK 0 (u64 (b - AETHERFS_DATA_START_BLOCK)) 0 0
    :: replicate 101 zeroed).

Lemma init_free_seal b : aetherfs_init_free_extents b = seal (plain_free b).
Proof. reflexivity. Qed.

Lemma plain_free_wf b : wf (plain_free b).
Proof.
  pose proof (u64_range (b - AETHERFS_DATA_START_BLOCK)) as Hu.
  assert (Forall wf (Extent 0 AETHERFS_DATA_START_BLOCK 0 (u64 (b - AETHERFS_DATA_START_BLOCK)) 0 0
    :: replicate 101 (zeroed : aetherfs_extent))) as H.
  { constructor; [|apply Forall_replicate, zeroed_wf]. cbn. solve_fields. }
  unfold plain_free. cbn -[zeros replicate zeroed]. solve_fields.
Qed.

Lemma free_extents_wf b : wf (aetherfs_init_free_extents b).
Proof. rewrite init_free_seal. apply seal_wf, plain_free_wf. Qed.

(** The checkpoint root without its checksum. *)
Definition plain_root (super : aetherfs_super) (b : Z) : aetherfs_checkpoint_root :=
  CheckpointRoot AETHERFS_CHECKPOINT_ROOT_MAGIC AETHERFS_CHECKPOINT_ROOT_VERSION 0
    (s_generation super) (s_ag_count super) 2 AETHERFS_SUPERBLOCK_BLOCK (s_root_inode super)
    AETHERFS_ROOT_DIR_BLOCK (s_journal_addr super) (s_meta_tree super) (s_free_tree super)
    (s_meta_tree super) (s_extent_tree super) (s_snap_tree super) (s_scrub_journal super)
    (s_health_journal super) AETHERFS_SUPERBLOCK_BLOCK AETHERFS_CHECKPOINT_ROOT_BLOCK
    AETHERFS_DATA_START_BLOCK b 0 0 0 (zeros 491).

Lemma init_root_seal super b : aetherfs_init_checkpoint_root super b = seal (plain_root super b).
Proof. reflexivity. Qed.

Lemma plain_root_wf super b : wf super → is_u64 b → wf (plain_root super b).
Proof.
  intros Hs Hb. unfold plain_root. cbn in Hs. destruct_and!. cbn -[zeros replicate]. solve_fields.
Qed.

Lemma checkpoint_root_wf super b : wf super → is_u64 b → wf (aetherfs_init_checkpoint_root super b).
Proof. intros Hs Hb. rewrite init_root_seal. by apply seal_wf, plain_root_wf. Qed.

Lemma root_dir_bytes : is_bytes aetherfs_init_root_dir ∧ len aetherfs_init_root_dir = 4096.
Proof.
  split; [|by vm_compute].
  repeat apply is_bytes_splice; try apply is_bytes_zeros;
    vm_compute; repeat (constructor; [split; [discriminate|reflexivity]|]); constructor.
Qed.

(** ** The formatted file *)

(** The superblock as written. *)
Lemma bootstrap_super_seal options b uuid :
  bootstrap_super options b uuid = seal (plain_super options b uuid).
Proof. reflexivity. Qed.

(** The contents of the eight bootstrap blocks. *)
Record formatted (env : mkfs_env) (options : aetherfs_mkfs_options) (b : Z) (uuid data : bytes)
    : Prop := {
  fm_label : read_fs_block data 0 = Ok (zeros 4096);
  fm_super : read_fs_block data 1 = Ok (to_block 4096 (seal (plain_super options b uuid)));
  fm_inode : read_fs_block data 2 = Ok (to_block 4096 (aetherfs_init_root_inode env));
  fm_dir : read_fs_block data 3 = Ok aetherfs_init_root_dir;
  fm_journal : read_fs_block data 4 = Ok (to_block 4096 aetherfs_init_journal);
  fm_bitmap : read_fs_block data 5 = Ok (to_block 4096 aetherfs_init_inode_bitmap);
  fm_free : read_fs_block data 6 = Ok (to_block 4096 (aetherfs_init_free_extents b));
  fm_root : read_fs_block data 7 = Ok (to_block 4096
    (aetherfs_init_checkpoint_root (seal (plain_super options b uuid)) b));
}.

Lemma zero_writes_ok : Forall boot_write zero_writes.
Proof.
  apply Forall_forall. intros w (k & -> & Hk%elem_of_seqZ)%list_elem_of_fmap.
  unfold AETHERFS_BOOTSTRAP_BLOCKS, AETHERFS_DATA_START_BLOCK in Hk. split; cbn [fst snd]; [lia|done].
Qed.

(** The seven writes after the zeroing, with any contents. *)
Lemma boot_list_reads data x1 x2 x3 x4 x5 x6 x7 :
  let ws := [(AETHERFS_SUPERBLOCK_BLOCK, x1); (AETHERFS_ROOT_INODE_BLOCK, x2);
    (AETHERFS_ROOT_DIR_BLOCK, x3); (AETHERFS_JOURNAL_BLOCK, x4); (AETHERFS_INODE_BITMAP_BLOCK, x5);
    (AETHERFS_FREE_EXTENT_BLOCK, x6); (AETHERFS_CHECKPOINT_ROOT_BLOCK, x7)] in
  let data' := apply_writes (apply_writes data zero_writes) ws in
  8 * 4096 ≤ len data → Forall boot_write ws →
  read_fs_block data' 0 = Ok (zeros 4096) ∧ read_fs_block data' 1 = Ok x1 ∧
  read_fs_block data' 2 = Ok x2 ∧ read_fs_block data' 3 = Ok x3 ∧ read_fs_block data' 4 = Ok x4 ∧
  read_fs_block data' 5 = Ok x5 ∧ read_fs_block data' 6 = Ok x6 ∧ read_fs_block data' 7 = Ok x7.
Proof.
  intros ws data' Hl Hw. pose proof (len_apply_writes data zero_writes Hl zero_writes_ok) as Hlz.
  assert (∀ k, 0 ≤ k < 8 → read_fs_block data' k = match last_write ws k with
    | Some x => Ok x
    | None => match last_write zero_writes k with Some x => Ok x | None => read_fs_block data k end
    end) as Hread.
  { intros k Hk. unfold data'. rewrite read_apply_writes by (rewrite ?Hlz; assumption).
    destruct (last_write _ k); [done|]. apply read_apply_writes; [done|apply zero_writes_ok|done]. }
  repeat match goal with |- _ ∧ _ => split end; rewrite Hread by lia; reflexivity.
Qed.

Lemma structure_write {A} `{OnDisk A} k (a : A) :
  0 ≤ k < 8 → wf a → sizeof A ≤ 4096 → boot_write (k, to_block AETHERFS_DEF_BLOCK_SIZE a).
Proof. intros. split; [done|]. by apply len_to_block. Qed.

Section format.
Context (env : mkfs_env) (options : aetherfs_mkfs_options) (b : Z).
Context (Henv : env_ok env) (Hopt : options_ok options) (Hb : is_u64 b).

Lemma bootstrap_writes_ok uuid : len uuid = 16 → is_bytes uuid →
  Forall boot_write (bootstrap_writes env options b uuid) ∧
  Forall (λ w : Z * bytes, is_bytes w.2) (bootstrap_writes env options b uuid).
Proof.
  intros Hl Hu. pose proof (seal_wf _ (plain_super_wf options b uuid Hopt Hb Hl Hu)) as Hs.
  rewrite <-bootstrap_super_seal in Hs. pose proof (checkpoint_root_wf _ b Hs Hb) as Hr.
  destruct root_dir_bytes as [Hd1 Hd2].
  pose proof (root_inode_wf env Henv) as Hi. pose proof journal_wf as Hj.
  pose proof bitmap_wf as Hm. pose proof (free_extents_wf b) as Hf.
  unfold bootstrap_writes. split.
  - repeat apply Forall_cons_2; try exact (Forall_nil_2 _).
    + apply structure_write; [by vm_compute|exact Hs|by rewrite sizeof_super].
    + apply structure_write; [by vm_compute|exact Hi|by rewrite sizeof_inode].
    + by split.
    + apply structure_write; [by vm_compute|exact Hj|by rewrite sizeof_intent_log].
    + apply structure_write; [by vm_compute|exact Hm|by rewrite sizeof_bitmap].
    + apply structure_write; [by vm_compute|exact Hf|by rewrite sizeof_extent_node].
    + apply structure_write; [by vm_compute|exact Hr|by rewrite sizeof_checkpoint_root].
  - rewrite !Forall_cons. repeat match goal with |- _ ∧ _ => split end; cbn [snd].
    + exact (is_bytes_to_block _ _ Hs).
    + exact (is_bytes_to_block _ _ Hi).
    + exact Hd1.
    + exact (is_bytes_to_block _ _ Hj).
    + exact (is_bytes_to_block _ _ Hm).
    + exact (is_bytes_to_block _ _ Hf).
    + exact (is_bytes_to_block _ _ Hr).
    + exact (Forall_nil_2 _).
Qed.

Lemma write_bootstrap_ok is_block data data' : 8 * 4096 ≤ len data →
  aetherfs_write_bootstrap env options b is_block data = (Ok tt, data') →
  ∃ uuid, len uuid = 16 ∧ is_bytes uuid ∧ formatted env options b uuid data' ∧
    len data' = len data ∧ (is_bytes data → is_bytes data').
Proof.
  intros Hl H. unfold aetherfs_write_bootstrap in H.
  rewrite (write_blocks_inside is_block data zero_writes Hl zero_writes_ok) in H.
  destruct (aetherfs_fill_uuid env) as [uuid|] eqn:Eu; [|done].
  destruct (fill_uuid_ok env uuid Henv Eu) as [Hul Hub].
  destruct (bootstrap_writes_ok uuid Hul Hub) as [Hw Hwb].
  pose proof (len_apply_writes data zero_writes Hl zero_writes_ok) as Hlz.
  destruct (write_blocks is_block _ _) as [r2 d2] eqn:E2.
  assert (d2 = data') as -> by (destruct r2; congruence). clear H.
  rewrite write_blocks_inside in E2; [|by rewrite Hlz|exact Hw].
  assert (data' = apply_writes (apply_writes data zero_writes) (bootstrap_writes env options b uuid))
    as -> by congruence. clear E2.
  exists uuid. split; [exact Hul|]. split; [exact Hub|]. split; [|split].
  - destruct (boot_list_reads data _ _ _ _ _ _ _ Hl Hw) as (R0 & R1 & R2 & R3 & R4 & R5 & R6 & R7).
    split; assumption.
  - by rewrite len_apply_writes by (rewrite ?Hlz; assumption).
  - intros Hd. apply is_bytes_apply_writes; [|exact Hwb]. apply is_bytes_apply_writes; [exact Hd|].
    apply Forall_forall. intros w (k & -> & _)%list_elem_of_fmap. apply is_bytes_zeros.
Qed.
End format.

(** ** Opening a bare image *)

Definition single_image (w : bool) (m : aetherfs_image_member) : aetherfs_image :=
  aetherfs_image_synthesize_single_label
    (set_members (<[0%nat := m]> (members (image_zero w 1))) (image_zero w 1)).

Lemma open_bare {path} (sys_open : path → bool → result open_file) d p w io data :
  sys_open p w = Ok (OpenFile (Ok S_IFREG) io data) →
  read_fs_block data 0 = Ok (zeros 4096) →
  aetherfs_image_open sys_open d p w =
    (Ok (single_image w (Member (fresh_fd d) false (len data) (len data / 4096) 0 0 0)),
     <[fresh_fd d := data]> d).
Proof.
  intros Hs Hr. unfold aetherfs_image_open, aetherfs_member_open_path. rewrite Hs.
  cbn [of_stat of_data]. set (m := Member _ _ _ _ _ _ _).
  assert (aetherfs_member_read_pool_label (<[fresh_fd d := data]> d) m = Ok None) as ->.
  { unfold aetherfs_member_read_pool_label, aetherfs_member_read_block.
    destruct (fresh_fd_spec d) as [Hf _]. change (m_fd m) with (fresh_fd d).
    rewrite (proj2 (Z.ltb_ge _ _) Hf), lookup_insert_eq. cbn [reject mbind result_bind].
    change (off_t_ok (block_offset AETHERFS_POOL_LABEL_BLOCK)) with true. cbn [negb reject mbind result_bind].
    change (block_offset AETHERFS_POOL_LABEL_BLOCK) with (0 * AETHERFS_DEF_BLOCK_SIZE).
    unfold read_fs_block in Hr. rewrite Hr. cbn [mbind result_bind].
    assert (pl_magic (decode (zeros 4096)) = 0) as -> by (vm_compute; reflexivity). reflexivity. }
  reflexivity.
Qed.

Section single.
Context (w : bool) (m : aetherfs_image_member) (d : disks) (data : bytes).
Context (Hfd : 0 ≤ m_fd m) (Hdata : d !! m_fd m = Some data).
Let im := single_image w m.

Lemma single_role_mask k : aetherfs_pool_role_mask_for_bootstrap_block im k = 1.
Proof. unfold aetherfs_pool_role_mask_for_bootstrap_block. by destruct (k =? _). Qed.

Lemma single_read k buf : 0 ≤ k < 8 → read_fs_block data k = Ok buf →
  aetherfs_image_read_block d im k = Ok buf.
Proof.
  intros Hk Hr. unfold aetherfs_image_read_block, AETHERFS_DATA_START_BLOCK.
  rewrite (proj2 (Z.ltb_lt _ _)) by lia. rewrite single_role_mask.
  change (seqZ 0 (aetherfs_mask_count 1)) with [0]. cbn [read_replicas].
  change (aetherfs_mask_nth 1 0) with 0. cbn [Z.ltb Z.compare].
  assert (aetherfs_image_read_physical_member d im 0 k = Ok buf) as ->; [|done].
  apply read_physical_ok. change (m_fd (get_member im 0)) with (m_fd m).
  destruct (block_offset_small k ltac:(lia)) as [-> Ho].
  split; [done|]. split; [done|]. split.
  - unfold off_t_ok. apply Z.ltb_lt. lia.
  - exists data. split; [done|exact Hr].
Qed.
End single.

(** ** Loading the formatted file *)

Lemma is_block_fits {A} `{OnDisk A} (a : A) : wf a → decode (to_block 4096 a) = a.
Proof. apply decode_to_block. Qed.

Lemma zero_inode_mode k : 1 ≤ k → ∀ inode : aetherfs_inode, wf inode →
  i_mode (default zero_inode (decode_inode_table (to_block 4096 inode) !! Z.to_nat k)) = 0.
Proof.
  intros Hk inode Hw. unfold decode_inode_table.
  destruct (map _ (seqZ 0 AETHERFS_INODES_PER_BLOCK) !! Z.to_nat k) as [x|] eqn:E; [|done].
  apply list_lookup_fmap_Some in E as (j & -> & Hj).
  apply lookup_seqZ in Hj as [-> Hj]. cbn [default].
  assert (slice ((0 + Z.of_nat (Z.to_nat k)) * AETHERFS_INODE_SIZE) AETHERFS_INODE_SIZE (to_block 4096 inode)
    = zeros 512) as ->; [|done].
  unfold AETHERFS_INODE_SIZE, AETHERFS_INODES_PER_BLOCK in *. change (_ / _) with 8 in Hj.
  pose proof (len_encode inode Hw) as Hl. rewrite sizeof_inode in Hl.
  unfold to_block. rewrite Z.add_0_l, Z2Nat.id by lia.
  rewrite slice_splice_after.
  - unfold slice, zeros. rewrite drop_replicate, take_replicate. f_equal. lia.
  - lia.
  - lia.
  - rewrite Hl. unfold AETHERFS_INODE_SIZE. lia.
  - rewrite Hl, len_zeros by lia. unfold AETHERFS_INODE_SIZE. lia.
Qed.

Lemma first_inode inode : wf inode →
  decode_inode_table (to_block 4096 inode) !! 0%nat = Some inode.
Proof.
  intros Hw. change (decode_inode_table (to_block 4096 inode) !! 0%nat)
    with (Some (decode (slice (0 * AETHERFS_INODE_SIZE) AETHERFS_INODE_SIZE (to_block 4096 inode))
      : aetherfs_inode)).
  f_equal. change (0 * AETHERFS_INODE_SIZE) with 0.
  assert (slice 0 AETHERFS_INODE_SIZE (to_block 4096 inode) = encode inode) as ->.
  { pose proof (len_encode inode Hw) as Hl. rewrite sizeof_inode in Hl. unfold to_block.
    rewrite <-Hl. apply slice_splice_eq; [lia|]. rewrite Hl, len_zeros; unfold AETHERFS_INODE_SIZE; lia. }
  by apply decode_encode.
Qed.

Section loading.
Context (env : mkfs_env) (options : aetherfs_mkfs_options) (b : Z) (uuid data : bytes).
Context (Henv : env_ok env) (Hopt : options_ok options) (Hb : 8 < b < 2 ^ 51).
Context (Hul : len uuid = 16) (Hub : is_bytes uuid).
Context (Hfmt : formatted env options b uuid data).
Context (w : bool) (m : aetherfs_image_member) (d : disks).
Context (Hfd : 0 ≤ m_fd m) (Hdata : d !! m_fd m = Some data) (Hmb : m_blocks m = b).

Let s := seal (plain_super options b uuid).
Let root := aetherfs_init_checkpoint_root s b.

(** The image a load of the formatted file yields. *)
Definition formatted_image : aetherfs_image :=
  loaded_image (single_image w m) (to_block 4096 s) (to_block 4096 root)
    (to_block 4096 aetherfs_init_journal) (to_block 4096 aetherfs_init_inode_bitmap)
    (to_block 4096 (aetherfs_init_free_extents b)) (to_block 4096 (aetherfs_init_root_inode env))
    aetherfs_init_root_dir.

Lemma fmt_super_wf : wf (plain_super options b uuid).
Proof. apply plain_super_wf; [exact Hopt|unfold is_u64; lia|exact Hul|exact Hub]. Qed.

Lemma fmt_root_wf : wf root.
Proof. apply checkpoint_root_wf; [exact (seal_wf _ fmt_super_wf)|unfold is_u64; lia]. Qed.

Lemma fmt_super : super formatted_image = s.
Proof.
  unfold formatted_image, loaded_image. cbn [super]. apply decode_to_block.
  exact (seal_wf _ fmt_super_wf).
Qed.

Lemma fmt_checkpoint : checkpoint_root formatted_image = root.
Proof. unfold formatted_image, loaded_image. cbn [checkpoint_root]. apply decode_to_block, fmt_root_wf. Qed.

Lemma fmt_blocks : blocks formatted_image = b.
Proof.
  unfold formatted_image, loaded_image. cbn [blocks].
  rewrite decode_to_block by exact (seal_wf _ fmt_super_wf). reflexivity.
Qed.

Lemma fmt_validate_super : aetherfs_image_validate_super formatted_image = Ok tt.
Proof.
  unfold aetherfs_image_validate_super. rewrite fmt_super.
  change (pool_label formatted_image) with (single_label (m_blocks m)). rewrite Hmb.
  pose proof (verify_seal _ fmt_super_wf) as Hv. fold s in Hv.
  unfold verify in Hv. cbn [csum_field csum super_checksummed] in Hv. rewrite Hv.
  change (s_magic s) with AETHERFS_MAGIC. change (s_version s) with AETHERFS_VERSION.
  change (s_blocksize s) with (o_block_size options). rewrite (proj1 Hopt).
  change (s_blocks_count s) with b. change (pl_logical_blocks (single_label b)) with b.
  change AETHERFS_BOOTSTRAP_BLOCKS with 8. rewrite (proj2 (Z.ltb_ge b 8)), (Z.eqb_refl b) by lia.
  reflexivity.
Qed.

Lemma fmt_validate_root : aetherfs_image_validate_checkpoint_root formatted_image = Ok tt.
Proof.
  unfold aetherfs_image_validate_checkpoint_root. rewrite fmt_checkpoint, fmt_super, fmt_blocks.
  assert (verify root = true) as Hv.
  { unfold root. rewrite init_root_seal. apply verify_seal, plain_root_wf;
      [exact (seal_wf _ fmt_super_wf)|unfold is_u64; lia]. }
  unfold verify in Hv. cbn [csum_field csum checkpoint_root_checksummed] in Hv. rewrite Hv.
  change (cr_data_region_end root) with b. change (cr_ag_count root) with (s_ag_count s).
  rewrite (Z.eqb_refl b), (Z.eqb_refl (s_ag_count s)). reflexivity.
Qed.

Lemma fmt_journal : journal formatted_image = aetherfs_init_journal.
Proof. apply (decode_to_block 4096 aetherfs_init_journal), journal_wf. Qed.

Lemma fmt_bitmap : inode_bitmap formatted_image = aetherfs_init_inode_bitmap.
Proof. apply (decode_to_block 4096 aetherfs_init_inode_bitmap), bitmap_wf. Qed.

Lemma fmt_free : free_extents formatted_image = aetherfs_init_free_extents b.
Proof. apply (decode_to_block 4096 (aetherfs_init_free_extents b)), free_extents_wf. Qed.

Lemma fmt_load : aetherfs_image_load d (single_image w m) = Ok formatted_image.
Proof.
  apply load_loads. do 7 eexists. destruct Hfmt as [_ F1 F2 F3 F4 F5 F6 F7]. fold s root in F1, F7.
  split.
  - reflexivity.
  - apply (single_read w m d data Hfd Hdata); [lia|exact F1].
  - apply (single_read w m d data Hfd Hdata); [lia|exact F7].
  - rewrite fmt_super. change (s_journal_addr s) with 4.
    apply (single_read w m d data Hfd Hdata); [lia|exact F4].
  - apply (single_read w m d data Hfd Hdata); [lia|exact F5].
  - apply (single_read w m d data Hfd Hdata); [lia|exact F6].
  - rewrite fmt_super. change (s_root_inode s) with 2.
    apply (single_read w m d data Hfd Hdata); [lia|exact F2].
  - apply (single_read w m d data Hfd Hdata); [lia|exact F3].
  - apply fmt_validate_super.
  - apply fmt_validate_root.
  - rewrite fmt_journal. vm_compute. reflexivity.
  - rewrite fmt_bitmap. vm_compute. reflexivity.
  - rewrite fmt_free. split; [|by vm_compute]. rewrite init_free_seal. apply verify_seal, plain_free_wf.
Qed.

Lemma init_bitmap_test i : bit_ok i →
  aetherfs_image_bitmap_test aetherfs_init_inode_bitmap i = (0 =? i).
Proof.
  intros Hi. set (z := BitmapBlock 0 AETHERFS_MAX_INODES 0 0 (zeros AETHERFS_BITMAP_BYTES)).
  change (aetherfs_image_bitmap_test aetherfs_init_inode_bitmap i)
    with (aetherfs_image_bitmap_test (aetherfs_image_bitmap_set z 0) i).
  rewrite test_set_bit; [| |by vm_compute|done].
  - assert (aetherfs_image_bitmap_test z i = false) as ->; [|apply orb_false_r].
    unfold aetherfs_image_bitmap_test. apply negb_false_iff, Z.eqb_eq.
    assert (bitmap_byte z (i / 8) = 0) as ->; [|done].
    unfold bitmap_byte. destruct (bb_bits z !! Z.to_nat (i / 8)) as [x|] eqn:E; [|done].
    apply lookup_replicate in E as [-> _]. done.
  - split; [done|]. apply is_bytes_zeros.
Qed.

Lemma check_inodes_idle refs indices st :
  Forall (λ i, check_inode d formatted_image refs i st = Ok st) indices →
  check_inodes indices d formatted_image refs st = Ok st.
Proof. induction 1 as [|i l Hi Hl IH]; [done|]. cbn [check_inodes]. by rewrite Hi. Qed.

Lemma fmt_inodes refs used :
  check_inodes (seqZ 0 AETHERFS_MAX_INODES) d formatted_image refs (Walk used 0 0 0) =
    Ok (Walk used 0 1 0).
Proof.
  pose proof (root_inode_wf env Henv) as Hiw.
  rewrite seqZ_cons by (by vm_compute). cbn [check_inodes].
  assert (check_inode d formatted_image refs 0 (Walk used 0 0 0) = Ok (Walk used 0 1 0)) as ->.
  { unfold check_inode. rewrite fmt_bitmap, (init_bitmap_test 0) by (by vm_compute).
    assert (inode_at formatted_image 0 = aetherfs_init_root_inode env) as ->.
    { unfold inode_at. change (inode_table formatted_image)
        with (decode_inode_table (to_block 4096 (aetherfs_init_root_inode env))).
      change (Z.to_nat 0) with 0%nat. rewrite first_inode by exact Hiw. reflexivity. }
    change (i_mode (aetherfs_init_root_inode env)) with ROOT_MODE.
    change (i_extent_root (aetherfs_init_root_inode env)) with 3.
    rewrite fmt_checkpoint. change (cr_root_dir_block root) with 3.
    rewrite init_inode_seal. pose proof (verify_seal _ (plain_inode_wf env Henv)) as Hv.
    unfold verify in Hv. cbn [csum_field csum inode_checksummed] in Hv. rewrite Hv. reflexivity. }
  cbn [mbind result_bind]. apply check_inodes_idle, Forall_forall. intros i Hi%elem_of_seqZ.
  assert (bit_ok i) as Hbit by (unfold bit_ok; lia).
  unfold check_inode. rewrite fmt_bitmap, init_bitmap_test by done.
  rewrite (proj2 (Z.eqb_neq 0 i)) by lia. cbn [negb].
  assert (i_mode (inode_at formatted_image i) = 0) as ->; [|done].
  unfold inode_at. case_match; [|done]. apply zero_inode_mode; [lia|exact Hiw].
Qed.

Lemma fmt_root_dir : aetherfs_image_validate_root_dir formatted_image = Ok ∅.
Proof.
  unfold aetherfs_image_validate_root_dir.
  change (root_dir formatted_image) with aetherfs_init_root_dir. vm_compute. reflexivity.
Qed.

Lemma fmt_free_list :
  check_free_list formatted_image = Ok ([Interval 8 (b - 8)], b - 8).
Proof.
  unfold check_free_list. rewrite fmt_free.
  change (take _ _) with [Extent 0 AETHERFS_DATA_START_BLOCK 0
    (u64 (b - AETHERFS_DATA_START_BLOCK)) 0 0].
  change (negb (en_next (aetherfs_init_free_extents b) =? 0) || _) with false.
  cbn [reject mbind result_bind check_free e_pstart e_len]. rewrite fmt_blocks.
  unfold AETHERFS_DATA_START_BLOCK. rewrite (u64_small (b - 8)) by (unfold is_u64; lia).
  rewrite (proj2 (Z.eqb_neq (b - 8) 0)) by lia. change (8 <? 8) with false.
  replace (8 + (b - 8)) with b by lia. rewrite (u64_small b) by (unfold is_u64; lia).
  rewrite Z.ltb_irrefl. cbn [orb reject mbind result_bind].
  unfold aetherfs_interval_list_append. rewrite (proj2 (Z.eqb_neq (b - 8) 0)) by lia.
  by rewrite Z.add_0_l, u64_small by (unfold is_u64; lia).
Qed.

Lemma fmt_role_mask k : aetherfs_pool_role_mask_for_bootstrap_block formatted_image k = 1.
Proof. unfold aetherfs_pool_role_mask_for_bootstrap_block. by destruct (k =? _). Qed.

Lemma fmt_redundancy used :
  aetherfs_image_validate_pool_redundancy d formatted_image used = Ok tt.
Proof.
  unfold aetherfs_image_validate_pool_redundancy, aetherfs_image_validate_bootstrap_replicas.
  assert (∀ ks, check_bootstrap ks d formatted_image = Ok tt) as ->; [|done].
  induction ks as [|k ks IH]; [done|]. cbn [check_bootstrap]. rewrite fmt_role_mask. exact IH.
Qed.

Lemma fmt_validate :
  aetherfs_image_validate d formatted_image = Ok (Report 0 1 1 0 (b - 8)).
Proof.
  unfold aetherfs_image_validate.
  apply reject_ok. split; [by rewrite fmt_journal|].
  apply reject_ok. split.
  { rewrite fmt_bitmap, (init_bitmap_test 0); [done|]. split; [lia|by vm_compute]. }
  apply bind_ok. exists ∅. split; [exact fmt_root_dir|].
  apply bind_ok. exists (Walk [Interval 3 1] 0 1 0). split.
  { rewrite fmt_checkpoint, count_up_seqZ. apply fmt_inodes. }
  apply bind_ok. exists ([Interval 8 (b - 8)], b - 8). split; [exact fmt_free_list|].
  cbn [w_used w_files w_directories w_data_blocks].
  change (sort_intervals [Interval 3 1]) with [Interval 3 1].
  change (add_used [Interval 3 1] [Interval 8 (b - 8)]) with [Interval 8 (b - 8)].
  change (sort_intervals [Interval 8 (b - 8)]) with [Interval 8 (b - 8)].
  apply bind_ok. exists tt. split.
  { rewrite fmt_blocks. cbn [check_cover iv_start iv_len]. apply reject_ok. split; [done|].
    replace (8 + (b - 8)) with b by lia. rewrite (u64_small b) by (unfold is_u64; lia).
    by rewrite Z.eqb_refl. }
  apply reject_ok. split.
  { rewrite fmt_super. change (s_free_blocks s) with (u64 (b - 8)).
    by rewrite (u64_small (b - 8)), Z.eqb_refl by (unfold is_u64; lia). }
  apply bind_ok. exists tt. split; [apply fmt_redundancy|]. by rewrite fmt_bitmap.
Qed.
End loading.

(** ** The formatter's own validation *)

Section checking.
Context (env : mkfs_env) (options : aetherfs_mkfs_options) (b : Z) (uuid data : bytes).
Context (Henv : env_ok env) (Hopt : options_ok options) (Hb : is_u64 b).
Context (Hul : len uuid = 16) (Hub : is_bytes uuid).
Context (Hfmt : formatted env options b uuid data).

Lemma check_super_ok : aetherfs_validate_super data b = Ok tt.
Proof.
  unfold aetherfs_validate_super. apply bind_ok. eexists. split; [exact (fm_super _ _ _ _ _ Hfmt)|].
  pose proof (plain_super_wf options b uuid Hopt Hb Hul Hub) as Hw.
  rewrite (is_block_fits _ (seal_wf _ Hw)).
  pose proof (verify_seal _ Hw) as Hv. unfold verify in Hv.
  cbn [csum_field csum super_checksummed] in Hv. rewrite Hv. set (s := seal _).
  change (s_blocksize s) with (o_block_size options). rewrite (proj1 Hopt).
  change (s_blocks_count s) with b. rewrite (Z.eqb_refl b).
  change (s_free_blocks s) with (u64 (b - AETHERFS_DATA_START_BLOCK)).
  rewrite (Z.eqb_refl (u64 _)). reflexivity.
Qed.

Lemma check_root_ok : aetherfs_validate_checkpoint_root data b = Ok tt.
Proof.
  unfold aetherfs_validate_checkpoint_root. apply bind_ok. eexists.
  split; [exact (fm_root _ _ _ _ _ Hfmt)|].
  pose proof (seal_wf _ (plain_super_wf options b uuid Hopt Hb Hul Hub)) as Hw.
  rewrite init_root_seal. set (s := seal (plain_super options b uuid)) in *.
  pose proof (plain_root_wf s b Hw Hb) as Hr.
  pose proof (is_block_fits (seal (plain_root s b)) (seal_wf _ Hr)) as Hdec.
  cbv zeta. rewrite Hdec. clear Hdec. pose proof (verify_seal _ Hr) as Hv. unfold verify in Hv.
  cbn [csum_field csum checkpoint_root_checksummed] in Hv. rewrite Hv.
  set (root := seal (plain_root s b)).
  change (cr_data_region_end root) with b. rewrite (Z.eqb_refl b).
  change (cr_ag_count root) with (ag_count b). rewrite (Z.eqb_refl (ag_count b)). reflexivity.
Qed.

Lemma check_inode_block_ok : aetherfs_validate_root_inode data = Ok tt.
Proof.
  unfold aetherfs_validate_root_inode. apply bind_ok. eexists.
  split; [exact (fm_inode _ _ _ _ _ Hfmt)|]. rewrite init_inode_seal.
  pose proof (plain_inode_wf env Henv) as Hw. rewrite (is_block_fits _ (seal_wf _ Hw)).
  pose proof (verify_seal _ Hw) as Hv. unfold verify in Hv.
  cbn [csum_field csum inode_checksummed] in Hv. rewrite Hv. reflexivity.
Qed.

Lemma check_fixed_ok : aetherfs_validate_root_dir data = Ok tt ∧
  aetherfs_validate_journal data = Ok tt ∧
  aetherfs_validate_bitmap data AETHERFS_MAX_INODES 1 = Ok tt.
Proof.
  split; [|split].
  - unfold aetherfs_validate_root_dir. apply bind_ok. eexists.
    split; [exact (fm_dir _ _ _ _ _ Hfmt)|]. vm_compute. reflexivity.
  - unfold aetherfs_validate_journal. apply bind_ok. eexists.
    split; [exact (fm_journal _ _ _ _ _ Hfmt)|]. rewrite (is_block_fits _ journal_wf).
    vm_compute. reflexivity.
  - unfold aetherfs_validate_bitmap. apply bind_ok. eexists.
    split; [exact (fm_bitmap _ _ _ _ _ Hfmt)|]. rewrite (is_block_fits _ bitmap_wf).
    vm_compute. reflexivity.
Qed.

(** The free list is one extent; the formatter rejects it when it is empty. *)
Lemma validate_free_one : 8 < b → validate_free [Extent 0 8 0 (u64 (b - 8)) 0 0] b 8 0 = Ok (b - 8).
Proof.
  intros H8. unfold is_u64 in Hb. cbn [validate_free e_pstart e_len].
  rewrite (u64_small (b - 8)) by (unfold is_u64; lia).
  apply reject_ok. split; [apply Z.eqb_neq; lia|]. apply reject_ok. split; [done|].
  replace (8 + (b - 8)) with b by lia. rewrite (u64_small b) by (unfold is_u64; lia).
  apply reject_ok. split; [apply Z.ltb_irrefl|].
  by rewrite Z.add_0_l, u64_small by (unfold is_u64; lia).
Qed.

Lemma init_free_fields : let node := aetherfs_init_free_extents b in
  en_next node = 0 ∧ en_count node = 1 ∧
  take 1 (en_extents node) = [Extent 0 8 0 (u64 (b - 8)) 0 0] ∧
  (en_checksum node =? aetherfs_extent_node_checksum node) = true.
Proof.
  split; [reflexivity|]. split; [reflexivity|]. split; [reflexivity|].
  pose proof (verify_seal _ (plain_free_wf b)) as Hv. rewrite <-init_free_seal in Hv.
  unfold verify in Hv. cbn [csum_field csum extent_node_checksummed] in Hv. exact Hv.
Qed.

Lemma check_free_extents : 8 ≤ b →
  aetherfs_validate_free_extents data b = if b =? 8 then Err EINVAL else Ok tt.
Proof.
  intros H8.
  assert (aetherfs_validate_free_extents data b =
    validate_free_node (aetherfs_init_free_extents b) b) as ->.
  { rewrite <-(is_block_fits (aetherfs_init_free_extents b) (free_extents_wf b)).
    unfold aetherfs_validate_free_extents.
    by rewrite (fm_free _ _ _ _ _ Hfmt : read_fs_block data AETHERFS_FREE_EXTENT_BLOCK = _). }
  unfold validate_free_node.
  destruct init_free_fields as (-> & -> & Htake & ->). change (Z.to_nat 1) with 1%nat. rewrite Htake.
  change AETHERFS_DATA_START_BLOCK with 8.
  destruct (Z.eqb_spec b 8) as [->|Hne]; [done|]. rewrite validate_free_one by lia.
  unfold is_u64 in Hb. rewrite (u64_small (b - 8)) by (unfold is_u64; lia).
  cbn. by rewrite Z.eqb_refl.
Qed.

Lemma validate_bootstrap_result : 8 ≤ b →
  validate_bootstrap data b = if b =? 8 then Err EINVAL else Ok tt.
Proof.
  intros H8. unfold validate_bootstrap. destruct check_fixed_ok as (E1 & E2 & E3).
  rewrite check_super_ok. cbn [mbind result_bind]. rewrite check_inode_block_ok.
  cbn [mbind result_bind]. rewrite E1. cbn [mbind result_bind]. rewrite E2.
  cbn [mbind result_bind]. rewrite E3. cbn [mbind result_bind]. rewrite check_free_extents by done.
  destruct (b =? 8); cbn [mbind result_bind]; [done|]. apply check_root_ok.
Qed.
End checking.

(** ** Running the command *)

(** The outcome once the target is accepted: everything is written, and only the
    size of eight blocks fails the formatter's own validation. *)
Lemma run_mkfs_result env options t is_block b data0 uuid0 :
  env_ok env → options_ok options → env_random env = Ok uuid0 → len uuid0 = 16 →
  env_fsync env = Ok tt → check_target options t = Ok is_block →
  size_target options t is_block = Ok (b, data0) → 8 ≤ b < 2 ^ 64 → 8 * 4096 ≤ len data0 →
  ∃ uuid data, len uuid = 16 ∧ is_bytes uuid ∧
    aetherfs_run_mkfs env options t = (if b =? 8 then Err EINVAL else Ok b, data) ∧
    formatted env options b uuid data ∧ len data = len data0 ∧ (is_bytes data0 → is_bytes data).
Proof.
  intros Henv Hopt Hrnd Hrl Hsync Hcheck Hsize Hb Hl.
  assert (is_u64 b) as Hu by (unfold is_u64; lia).
  assert (is_Some (match aetherfs_fill_uuid env with Ok u => Some u | Err _ => None end)) as [uuid Hu'].
  { unfold aetherfs_fill_uuid. rewrite Hrnd. cbn [mbind result_bind].
    by rewrite Hrl. }
  destruct (aetherfs_fill_uuid env) as [u|] eqn:Eu; [|done]. injection Hu' as ->.
  destruct (fill_uuid_ok env uuid Henv Eu) as [Hul Hub].
  destruct (bootstrap_writes_ok env options b Henv Hopt Hu uuid Hul Hub) as [Hw _].
  pose proof (len_apply_writes data0 zero_writes Hl zero_writes_ok) as Hlz.
  set (data := apply_writes (apply_writes data0 zero_writes) (bootstrap_writes env options b uuid)).
  assert (aetherfs_write_bootstrap env options b is_block data0 = (Ok tt, data)) as Hwb.
  { unfold aetherfs_write_bootstrap. rewrite write_blocks_inside by (exact Hl || apply zero_writes_ok).
    rewrite Eu, write_blocks_inside by (rewrite ?Hlz; assumption). by rewrite Hsync. }
  destruct (write_bootstrap_ok env options b Henv Hopt Hu is_block data0 data Hl Hwb)
    as (uuid' & Hul' & Hub' & Hfmt & Hlen & Hby).
  exists uuid', data. split; [exact Hul'|]. split; [exact Hub'|]. split; [|done].
  unfold aetherfs_run_mkfs, aetherfs_prepare_target. rewrite (proj1 Hopt), Hcheck, Hsize.
  change (negb (4096 =? AETHERFS_DEF_BLOCK_SIZE)) with false.
  change AETHERFS_BOOTSTRAP_BLOCKS with 8. rewrite (proj2 (Z.ltb_ge b 8)) by lia. cbn iota. rewrite Hwb.
  rewrite (validate_bootstrap_result env options b uuid' data) by (assumption || lia).
  by destruct (b =? 8).
Qed.

(** A success tells that the target was accepted. *)
Lemma run_mkfs_inv env options t b data :
  aetherfs_run_mkfs env options t = (Ok b, data) →
  ∃ is_block data0 uuid0, check_target options t = Ok is_block ∧
    size_target options t is_block = Ok (b, data0) ∧ 8 ≤ b ∧
    env_random env = Ok uuid0 ∧ len uuid0 = 16 ∧ env_fsync env = Ok tt ∧
    o_block_size options = 4096.
Proof.
  unfold aetherfs_run_mkfs, aetherfs_prepare_target.
  destruct (Z.eqb_spec (o_block_size options) AETHERFS_DEF_BLOCK_SIZE) as [Hbs|]; [|done]. cbn [negb].
  destruct (check_target options t) as [is_block|]; [|done].
  destruct (size_target options t is_block) as [[b' data0]|] eqn:Es; [|done].
  destruct (Z.ltb_spec b' AETHERFS_BOOTSTRAP_BLOCKS) as [|H8]; [done|].
  destruct (aetherfs_write_bootstrap env options b' is_block data0) as [[[]|] data1] eqn:Ew; [|done].
  intros H. assert (b' = b) as ->.
  { destruct (validate_bootstrap data1 b'); simpl in H; congruence. }
  unfold aetherfs_write_bootstrap in Ew.
  destruct (write_blocks is_block data0 zero_writes) as [[]]; [|done].
  destruct (aetherfs_fill_uuid env) as [uuid|] eqn:Eu; [|done].
  unfold aetherfs_fill_uuid in Eu. apply bind_ok in Eu as (uuid0 & Hr & Eu).
  destruct (write_blocks is_block _ _) as [[]]; [|done].
  assert (env_fsync env = Ok tt) as Hsync by congruence.
  apply reject_ok in Eu as [Hl _]. bool_to_prop. exists is_block, data0, uuid0.
  unfold AETHERFS_BOOTSTRAP_BLOCKS, AETHERFS_DATA_START_BLOCK in H8.
  repeat match goal with |- _ ∧ _ => split end; first [reflexivity|assumption].
Qed.

Lemma size_target_regular options t b data0 :
  o_block_size options = 4096 → 0 ≤ o_blocks options → b < 2 ^ 51 →
  size_target options t false = Ok (b, data0) →
  len data0 = b * 4096 ∧ (is_bytes (t_data t) → is_bytes data0).
Proof.
  intros Hbs Ho Hb H. unfold size_target in H. rewrite Hbs in H.
  destruct (Z.ltb_spec 0 (o_blocks options)).
  - apply bind_ok in H as (data & Hf & H). injection H as <- <-.
    unfold ftruncate in Hf. apply bind_ok in Hf as (_ & _ & Hf). apply reject_ok in Hf as [_ Hf].
    rewrite u64_small in Hf by (unfold is_u64; lia). injection Hf as <-.
    destruct (Z.leb_spec (o_blocks options * 4096) (len (t_data t))).
    + split; [apply len_slice; lia|apply is_bytes_slice].
    + split; [rewrite len_app, len_zeros by lia; lia|]. intros. apply Forall_app.
      split; [done|apply is_bytes_zeros].
  - destruct (0 <? len (t_data t)); [|done]. apply reject_ok in H as [Hm H]. injection H as <- <-.
    bool_to_prop. split; [|done]. pose proof (Z.div_mod (len (t_data t)) 4096). lia.
Qed.

(** A formatted file opens, loads and passes the full validation. *)
Lemma formatted_opens {path} (sys_open : path → bool → result open_file)
    env options b uuid data d p w io :
  env_ok env → options_ok options → 8 < b < 2 ^ 51 → len uuid = 16 → is_bytes uuid →
  formatted env options b uuid data → len data = b * 4096 →
  sys_open p w = Ok (OpenFile (Ok S_IFREG) io data) →
  ∃ image d' im, aetherfs_image_open sys_open d p w = (Ok image, d') ∧
    aetherfs_image_load d' image = Ok im ∧
    aetherfs_image_validate d' im = Ok (Report 0 1 1 0 (b - 8)).
Proof.
  intros Henv Hopt Hb Hul Hub Hfmt Hl Hopen.
  pose proof (open_bare sys_open d p w io data Hopen (fm_label _ _ _ _ _ Hfmt)) as Hop.
  set (m := Member (fresh_fd d) false (len data) (len data / 4096) 0 0 0) in *.
  assert (m_blocks m = b) as Hmb by (simpl; rewrite Hl; apply Z.div_mul; lia).
  destruct (fresh_fd_spec d) as [Hfd _].
  exists (single_image w m), (<[fresh_fd d := data]> d), (formatted_image env options b uuid w m).
  split; [exact Hop|]. split.
  - apply (fmt_load env options b uuid data); try assumption. apply lookup_insert_eq.
  - apply (fmt_validate env options b uuid); try assumption; lia.
Qed.

(** A successful run on a regular file. *)
Lemma run_mkfs_regular env options t b data :
  env_ok env → is_u16 (o_mode options) → 0 ≤ o_blocks options → t_stat t = Ok S_IFREG →
  b < 2 ^ 51 → aetherfs_run_mkfs env options t = (Ok b, data) →
  ∃ uuid, options_ok options ∧ len uuid = 16 ∧ is_bytes uuid ∧ 8 < b ∧
    formatted env options b uuid data ∧ len data = b * 4096 ∧ (is_bytes (t_data t) → is_bytes data).
Proof.
  intros Henv Hmode Ho Hst Hb Hrun.
  destruct (run_mkfs_inv _ _ _ _ _ Hrun) as
    (is_block & data0 & uuid0 & Hc & Hs & H8 & Hr & Hrl & Hsync & Hbs).
  assert (options_ok options) as Hopt by by split.
  assert (is_block = false) as ->.
  { unfold check_target in Hc. apply bind_ok in Hc as (_ & _ & Hc). rewrite Hst in Hc.
    apply bind_ok in Hc as (k & [= <-] & Hc). inv_ok. congruence. }
  destruct (size_target_regular options t b data0 Hbs Ho Hb Hs) as [Hl Hby].
  destruct (run_mkfs_result env options t false b data0 uuid0) as
    (uuid & data' & Hul & Hub & Hrun' & Hfmt & Hlen & Hdb); try assumption; [lia..|].
  rewrite Hrun in Hrun'. assert (data' = data) as -> by congruence.
  assert (b ≠ 8) as Hne by (intros ->; simpl in Hrun'; congruence).
  exists uuid. do 4 (split; [assumption || lia|]). split; [assumption|]. split; [lia|]. auto.
Qed.

(** ** Properties *)

(** C6: a formatted image is a valid image.  Whenever [mkfs] of a regular file
    reports success (below 2^51 blocks), opening the file yields a single-member
    image, which loads and passes the full validation, with one directory, one
    inode in use, no data blocks, and every block of the data area free. *)
Theorem mkfs_image_valid {path} (sys_open : path → bool → result open_file)
    env options t b data d p w io :
  env_ok env → is_u16 (o_mode options) → 0 ≤ o_blocks options → t_stat t = Ok S_IFREG →
  b < 2 ^ 51 → aetherfs_run_mkfs env options t = (Ok b, data) →
  sys_open p w = Ok (OpenFile (Ok S_IFREG) io data) →
  ∃ image d' im, aetherfs_image_open sys_open d p w = (Ok image, d') ∧
    aetherfs_image_load d' image = Ok im ∧
    aetherfs_image_validate d' im = Ok (Report 0 1 1 0 (b - 8)).
Proof.
  intros Henv Hmode Ho Hst Hb Hrun Hopen.
  apply run_mkfs_regular in Hrun as (uuid & Hopt & Hul & Hub & H8 & Hfmt & Hl & _); try assumption.
  apply (formatted_opens sys_open env options b uuid data d p w io); try assumption; lia.
Qed.

(** A regular target that may be formatted: it opens, and it holds no filesystem or
    [--force] was given. *)
Definition formattable (options : aetherfs_mkfs_options) (t : target) : Prop :=
  t_open t = Ok tt ∧ t_stat t = Ok S_IFREG ∧ t_truncate t = Ok tt ∧
  (t_exists t = true → o_force options = true ∨ aetherfs_probe_magic (t_data t) = Ok false).

Lemma probe_magic_ok data : ∃ matches, aetherfs_probe_magic data = Ok matches.
Proof. unfold aetherfs_probe_magic, read_at. destruct (_ <=? _); eauto. Qed.

Lemma formattable_check options t : formattable options t → check_target options t = Ok false.
Proof.
  intros (Ho & Hs & _ & Hf). unfold check_target. rewrite Ho, Hs. cbn [mbind result_bind reject].
  destruct (t_exists t); [|done]. destruct (probe_magic_ok (t_data t)) as [has Hp]. rewrite Hp.
  cbn [mbind result_bind]. destruct Hf as [->|Hm]; [done|by rewrite andb_false_r|].
  rewrite Hp in Hm. by injection Hm as ->.
Qed.

Lemma formattable_size options t : formattable options t → options_ok options →
  0 < o_blocks options → u64 (o_blocks options * 4096) < 2 ^ 63 →
  ∃ data0, size_target options t false = Ok (o_blocks options, data0) ∧
    len data0 = u64 (o_blocks options * 4096).
Proof.
  intros (_ & _ & Ht & _) [Hbs _] Ho Hu. unfold size_target, ftruncate. rewrite Hbs, Ht.
  rewrite (proj2 (Z.ltb_lt 0 _)) by done. cbn [mbind result_bind].
  rewrite (proj2 (Z.leb_gt (2 ^ 63) _)) by done. cbn [reject mbind result_bind].
  pose proof (u64_range (o_blocks options * 4096)) as [H0 _]. eexists. split; [reflexivity|].
  destruct (Z.leb_spec (u64 (o_blocks options * 4096)) (len (t_data t))).
  - by apply len_slice.
  - rewrite len_app, len_zeros by lia. lia.
Qed.

(** C33: formatting succeeds on every size it should: with more than eight blocks (and
    a size that fits an [off_t]) a regular file that may be formatted is formatted,
    and has exactly that many blocks afterwards. *)
Theorem mkfs_succeeds env options t uuid0 :
  env_ok env → options_ok options → env_random env = Ok uuid0 → len uuid0 = 16 →
  env_fsync env = Ok tt → formattable options t → 8 < o_blocks options < 2 ^ 51 →
  ∃ data, aetherfs_run_mkfs env options t = (Ok (o_blocks options), data) ∧
    len data = o_blocks options * AETHERFS_DEF_BLOCK_SIZE.
Proof.
  intros Henv Hopt Hr Hrl Hsync Hf Hb. assert (u64 (o_blocks options * 4096) = o_blocks options * 4096)
    as Eu by (apply u64_small; unfold is_u64; lia).
  destruct (formattable_size options t Hf Hopt) as (data0 & Hs & Hl); [lia|lia|].
  destruct (run_mkfs_result env options t false (o_blocks options) data0 uuid0) as
    (uuid & data & _ & _ & Hrun & _ & Hlen & _); try assumption; [by apply formattable_check|lia..|].
  exists data. split; [|unfold AETHERFS_DEF_BLOCK_SIZE; lia].
  rewrite Hrun. by rewrite (proj2 (Z.eqb_neq _ 8)) by lia.
Qed.

(** The smallest size the target check lets through cannot be formatted: with
    exactly eight blocks the empty free extent fails the formatter's own validation,
    after the target has already been overwritten with the new filesystem. *)
Theorem mkfs_eight_blocks_fails_late env options t uuid0 :
  env_ok env → options_ok options → env_random env = Ok uuid0 → len uuid0 = 16 →
  env_fsync env = Ok tt → formattable options t → o_blocks options = 8 →
  ∃ uuid data, aetherfs_run_mkfs env options t = (Err EINVAL, data) ∧
    formatted env options 8 uuid data.
Proof.
  intros Henv Hopt Hr Hrl Hsync Hf Hb.
  destruct (formattable_size options t Hf Hopt) as (data0 & Hs & Hl); [lia|by rewrite Hb|].
  rewrite Hb in Hs, Hl.
  destruct (run_mkfs_result env options t false 8 data0 uuid0) as
    (uuid & data & _ & _ & Hrun & Hfmt & _); try assumption;
    [by apply formattable_check|lia|by rewrite Hl|].
  exists uuid, data. by split.
Qed.

(** A block count whose byte size overflows is accepted: for [2^52 + n] blocks the
    64-bit product wraps, the file is sized to [n] blocks, and [mkfs] reports success;
    the image so made can never be loaded, since its superblock claims [2^52 + n]. *)
Theorem mkfs_size_overflow {path} (sys_open : path → bool → result open_file)
    env options t uuid0 n d p w io :
  env_ok env → options_ok options → env_random env = Ok uuid0 → len uuid0 = 16 →
  env_fsync env = Ok tt → formattable options t → 8 < n < 2 ^ 51 →
  o_blocks options = 2 ^ 52 + n →
  ∃ data, aetherfs_run_mkfs env options t = (Ok (2 ^ 52 + n), data) ∧ len data = n * 4096 ∧
    (sys_open p w = Ok (OpenFile (Ok S_IFREG) io data) →
     ∃ image d', aetherfs_image_open sys_open d p w = (Ok image, d') ∧
       is_ok (aetherfs_image_load d' image) = false).
Proof.
  intros Henv Hopt Hr Hrl Hsync Hf Hn Hb.
  assert (u64 (o_blocks options * 4096) = n * 4096) as Eu.
  { rewrite Hb. replace ((2 ^ 52 + n) * 4096) with (n * 4096 + 1 * 2 ^ 64) by lia.
    unfold u64. rewrite Z.mod_add by lia. apply Z.mod_small. lia. }
  destruct (formattable_size options t Hf Hopt) as (data0 & Hs & Hl); [lia|lia|].
  rewrite Hb in Hs. rewrite Eu in Hl.
  destruct (run_mkfs_result env options t false (2 ^ 52 + n) data0 uuid0) as
    (uuid & data & Hul & Hub & Hrun & Hfmt & Hlen & _); try assumption;
    [by apply formattable_check|lia..|].
  rewrite (proj2 (Z.eqb_neq _ 8)) in Hrun by lia.
  exists data. split; [done|]. split; [lia|]. intros Hopen.
  pose proof (open_bare sys_open d p w io data Hopen (fm_label _ _ _ _ _ Hfmt)) as Hop.
  set (m := Member (fresh_fd d) false (len data) (len data / 4096) 0 0 0) in *.
  assert (m_blocks m = n) as Hmb by (simpl; rewrite Hlen, Hl; apply Z.div_mul; lia).
  do 2 eexists. split; [exact Hop|].
  destruct (aetherfs_image_load _ (single_image w m)) as [im|] eqn:Eload; [exfalso|done].
  apply load_loads in Eload as (bs & ? & ? & ? & ? & ? & ? & [Him R1 _ _ _ _ _ _ V1 _ _ _ _]).
  apply validate_super_fields in V1 as (_ & _ & _ & _ & _ & Hcount).
  destruct (fresh_fd_spec d) as [Hfd _].
  rewrite (single_read w m _ data Hfd (lookup_insert_eq _ _ _) 1 _ ltac:(lia) (fm_super _ _ _ _ _ Hfmt)) in R1.
  assert (bs = to_block 4096 (seal (plain_super options (2 ^ 52 + n) uuid))) as -> by congruence.
  assert (wf (seal (plain_super options (2 ^ 52 + n) uuid))) as Hw
    by (apply seal_wf, plain_super_wf; try assumption; unfold is_u64; lia).
  rewrite Him in Hcount. unfold loaded_image in Hcount. cbn [super pool_label] in Hcount.
  rewrite (decode_to_block 4096 _ Hw) in Hcount.
  change (pl_logical_blocks (pool_label (single_image w m))) with (m_blocks m) in Hcount.
  rewrite Hmb in Hcount. change (2 ^ 52 + n = n) in Hcount. lia.
Qed.
