(* ===== verification/Tools.v ===== *)
(** * The administration tools

    [aetherfsprogs/scrub.c], [health.c] and [mount.c]: the three commands that open an
    image, judge it and report or act on the verdict.  Their printed output is a
    value; [printf] itself is not modelled.  Paths are strings, the file a path leads
    to is the parameter [sys_open], which does not change while a command runs. *)

From Stdlib Require Import Ascii.
From stdpp Require Import strings.
From S2P Require Import Prelude Codec Crc Format Integrity SysIo State Pool Blocks Bitmap Open.
From S2P Require Import Load RootDir Validate Mkfs.

(** ** Options *)

(** [struct aetherfs_device_spec] *)
Record aetherfs_device_spec := DeviceSpec {
  ds_path : string;
  ds_class_mask : Z;
}.

(** [struct aetherfs_admin_options] and [struct aetherfs_scrub_options], which is the
    same without [output_path]. *)
Record aetherfs_admin_options := AdminOptions {
  ao_path : option string;
  ao_members : list aetherfs_device_spec;
  ao_output_path : option string;
}.

Inductive aetherfs_mount_behavior :=
| AETHERFS_MOUNT_STRICT | AETHERFS_MOUNT_DEGRADED_RO | AETHERFS_MOUNT_RESCUE.

(** [struct aetherfs_mount_options] *)
Record aetherfs_mount_options := MountOptions {
  mo_image_path : string;
  mo_mount_path : string;
  mo_module_path : option string;
  mo_create_mountpoint : bool;
  mo_behavior : aetherfs_mount_behavior;
}.

(** ** Names *)

Definition aetherfs_profile_name (profile : Z) : string :=
  if profile =? AETHERFS_POOL_PROFILE_SINGLE then "single"
  else if profile =? AETHERFS_POOL_PROFILE_MIRROR then "mirror"
  else if profile =? AETHERFS_POOL_PROFILE_STRIPE then "stripe"
  else if profile =? AETHERFS_POOL_PROFILE_PARITY then "parity"
  else if profile =? AETHERFS_POOL_PROFILE_TIERED then "tiered"
  else "unknown".

Inductive recommendation := Strict | DegradedReadOnly | Rescue.

(** The recommended mount, of the two return codes. *)
Definition aetherfs_mount_recommendation {A B} (load_rc : result A) (validate_rc : result B)
    : recommendation :=
  if is_ok load_rc && is_ok validate_rc then Strict
  else if is_ok load_rc then DegradedReadOnly
  else Rescue.

(** ** Scrub *)

(** What the commands print of a loaded image. *)
Record image_summary := Summary {
  is_profile : string;
  is_members : Z;
  is_checkpoint_root : Z;
  is_logical_blocks : Z;
  is_data_region : Z * Z;
  is_free_blocks : Z;
}.

Definition summary_of (image : aetherfs_image) : image_summary :=
  Summary (aetherfs_profile_name (pl_profile (pool_label image))) (member_count image)
    (default 0 (s_checkpoint (super image) !! 0%nat)) (pl_logical_blocks (pool_label image))
    (cr_data_region_start (checkpoint_root image), cr_data_region_end (checkpoint_root image))
    (s_free_blocks (super image)).

Section tools.
Context (sys_open : string → bool → result open_file).
(** The contents of the unwritten slots of [opened[]] in [aetherfs_image_open_pool]. *)
Context (garbage : Z → Z).

Definition aetherfs_open_admin_image (d : disks) (options : aetherfs_admin_options)
    : result aetherfs_image * disks :=
  if 0 <? len (ao_members options)
  then aetherfs_image_open_pool sys_open garbage d (map ds_path (ao_members options)) false
  else match ao_path options with
       | None => (Err EINVAL, d)
       | Some p => aetherfs_image_open sys_open d p false
       end.

(** [aetherfs_image_close] of the loaded or half-loaded image: the members are those
    of the image as opened. *)
Definition closed (image : aetherfs_image) (d : disks) : disks := (aetherfs_image_close image d).2.

Definition aetherfs_run_scrub (d : disks) (options : aetherfs_admin_options)
    : result (image_summary * aetherfs_scrub_report) * disks :=
  match aetherfs_open_admin_image d options with
  | (Err e, d) => (Err e, d)
  | (Ok image, d) =>
      (loaded ← aetherfs_image_load d image;
       report ← aetherfs_image_validate d loaded;
       Ok (summary_of loaded, report), closed image d)
  end.

(** ** Health *)

Inductive health_output :=
| Unreadable (load : errno) (recommended : recommendation)
| Readable (summary : image_summary) (scrub : result aetherfs_scrub_report)
    (recommended : recommendation).

(** [load_rc] and [validate_rc], with the loaded image. *)
Definition judge (d : disks) (image : aetherfs_image)
    : result aetherfs_image * result aetherfs_scrub_report :=
  match aetherfs_image_load d image with
  | Ok loaded => (Ok loaded, aetherfs_image_validate d loaded)
  | Err e => (Err e, Err e)
  end.

Definition health_text (load_rc : result aetherfs_image)
    (validate_rc : result aetherfs_scrub_report) : health_output :=
  match load_rc with
  | Ok loaded => Readable (summary_of loaded) validate_rc
      (aetherfs_mount_recommendation load_rc validate_rc)
  | Err e => Unreadable e (aetherfs_mount_recommendation load_rc validate_rc)
  end.

(** The return code, and what was printed (nothing when the image does not open). *)
Definition aetherfs_run_health (d : disks) (options : aetherfs_admin_options)
    : result unit * option health_output * disks :=
  match aetherfs_open_admin_image d options with
  | (Err e, d) => (Err e, None, d)
  | (Ok image, d) =>
      let '(load_rc, validate_rc) := judge d image in
      (match validate_rc with Ok _ => Ok tt | Err e => Err e end,
       Some (health_text load_rc validate_rc), closed image d)
  end.

(** ** Mount preflight *)

(** Both readers open the file anew and close it on every path, so the descriptor
    table is the same before and after. *)
Definition aetherfs_validate_image (p : string) : result unit :=
  f ← sys_open p false;
  kind ← of_stat f;
  return_if match kind with S_IFOTHER => true | _ => false end with EINVAL ;;
  block ← read_at (of_data f) (AETHERFS_POOL_LABEL_BLOCK * AETHERFS_DEF_BLOCK_SIZE)
    AETHERFS_DEF_BLOCK_SIZE;
  let label := decode block : aetherfs_pool_label in
  _ ← (if pl_magic label =? AETHERFS_POOL_MAGIC
       then return_if negb (aetherfs_pool_label_checksum label =? pl_checksum label) with EILSEQ ;;
            reject (negb (pl_member_count label =? 1)) EOPNOTSUPP
       else Ok tt);
  block ← read_at (of_data f) (AETHERFS_SUPERBLOCK_BLOCK * AETHERFS_DEF_BLOCK_SIZE)
    AETHERFS_DEF_BLOCK_SIZE;
  let super := decode block : aetherfs_super in
  return_if negb (s_magic super =? AETHERFS_MAGIC) with EINVAL ;;
  return_if negb (s_version super =? AETHERFS_VERSION) with EINVAL ;;
  return_if negb (s_blocksize super =? AETHERFS_DEF_BLOCK_SIZE) with EINVAL ;;
  return_if negb (s_device_count super =? 1) with EOPNOTSUPP ;;
  return_if negb (default 0 (s_checkpoint super !! 0%nat) =? AETHERFS_CHECKPOINT_ROOT_BLOCK)
    with EINVAL ;;
  return_if negb (s_checksum super =? aetherfs_super_checksum super) with EILSEQ ;;
  f ← sys_open p false;
  block ← read_at (of_data f)
    (u64 (default 0 (s_checkpoint super !! 0%nat) * AETHERFS_DEF_BLOCK_SIZE))
    AETHERFS_DEF_BLOCK_SIZE;
  let root := decode block : aetherfs_checkpoint_root in
  return_if negb (cr_magic root =? AETHERFS_CHECKPOINT_ROOT_MAGIC) with EINVAL ;;
  return_if negb (cr_version root =? AETHERFS_CHECKPOINT_ROOT_VERSION) with EINVAL ;;
  return_if negb (cr_checksum root =? aetherfs_checkpoint_root_checksum root) with EILSEQ ;;
  Ok tt.

Definition aetherfs_validate_strict_image (d : disks) (p : string) : result unit * disks :=
  match aetherfs_image_open sys_open d p false with
  | (Err e, d) => (Err e, d)
  | (Ok image, d) =>
      (loaded ← aetherfs_image_load d image;
       _ ← aetherfs_image_validate d loaded;
       Ok tt, closed image d)
  end.

(** ** Mount *)

(** How a child process ends; [ForkFailed] stands for a failing [waitpid] too. *)
Inductive child :=
| ForkFailed (e : errno) | Exited (status : Z) | Signaled | Stopped.

(** What the system answers besides the image: [stat] of the source and of the mount
    point, [mkdir], the lines of [/proc/filesystems] as [fgets] returns them, [access] of
    the module, the effective user and the fate of each command started. *)
Record mount_env := MountEnv {
  me_source : result file_kind;
  me_mountpoint : option bool;
  me_mkdir : result unit;
  me_filesystems : option (list string);
  me_module_readable : string → bool;
  me_root : bool;
  me_run : list string → child;
}.

Definition aetherfs_source_is_block_device (env : mount_env) : result bool :=
  kind ← me_source env; Ok match kind with S_IFBLK => true | _ => false end.

(** [strstr(line, "aetherfs")] on each line; an unreadable file counts as no. *)
Definition aetherfs_filesystem_registered (env : mount_env) : bool :=
  match me_filesystems env with
  | None => false
  | Some lines =>
      existsb (λ line, match String.index 0 "aetherfs" line with Some _ => true | None => false end)
        lines
  end.

Definition exec_status (c : child) : result unit :=
  match c with
  | ForkFailed e => Err e
  | Exited status => if status =? 0 then Ok tt else Err EPERM
  | Signaled => Err EINTR
  | Stopped => Err EIO
  end.

(** The command as started, with [doas] when root is required and missing; the
    commands run so far are the log. *)
Definition aetherfs_exec_wait (env : mount_env) (argv : list string) (require_root : bool)
    (log : list (list string)) : result unit * list (list string) :=
  let argv := if require_root && negb (me_root env) then "doas" :: argv else argv in
  (exec_status (me_run env argv), log ++ [argv]).

Definition aetherfs_ensure_mountpoint (env : mount_env) (options : aetherfs_mount_options)
    : result unit :=
  match me_mountpoint env with
  | Some is_dir => if is_dir then Ok tt else Err ENOTDIR
  | None =>
      return_if negb (mo_create_mountpoint options) with ENOENT ;;
      me_mkdir env
  end.

Definition aetherfs_try_load_module (env : mount_env) (module_path : option string)
    (log : list (list string)) : result unit * list (list string) :=
  let '(rc, log) := aetherfs_exec_wait env ["modprobe"; "-q"; "aetherfs"] true log in
  match rc, module_path with
  | Ok _, _ | _, None => (rc, log)
  | Err _, Some m =>
      if negb (me_module_readable env m) then (rc, log)
      else aetherfs_exec_wait env ["insmod"; m] true log
  end.

(** The [switch] on the behavior: the read-only flag, when the mount may go on. *)
Definition preflight (d : disks) (options : aetherfs_mount_options) : result bool * disks :=
  let p := mo_image_path options in
  match mo_behavior options with
  | AETHERFS_MOUNT_STRICT =>
      let '(rc, d) := aetherfs_validate_strict_image d p in (_ ← rc; Ok false, d)
  | AETHERFS_MOUNT_DEGRADED_RO =>
      match aetherfs_validate_strict_image d p with
      | (Ok _, d) => (Ok false, d)
      | (Err _, d) => (_ ← aetherfs_validate_image p; Ok true, d)
      end
  | AETHERFS_MOUNT_RESCUE => (_ ← aetherfs_validate_image p; Ok true, d)
  end.

Definition mount_args (options : aetherfs_mount_options) (is_block force_read_only : bool)
    : list string :=
  ["mount"; "-t"; "aetherfs"] ++
  (if is_block then (if force_read_only then ["-o"; "ro"] else [])
   else ["-o"; if force_read_only then "loop,ro" else "loop"]) ++
  [mo_image_path options; mo_mount_path options].

(** The commands that were run, besides the return code. *)
Definition aetherfs_run_mount (env : mount_env) (d : disks) (options : aetherfs_mount_options)
    : result unit * list (list string) * disks :=
  match aetherfs_source_is_block_device env with
  | Err e => (Err e, [], d)
  | Ok is_block =>
      match preflight d options with
      | (Err e, d) => (Err e, [], d)
      | (Ok force_read_only, d) =>
          match aetherfs_ensure_mountpoint env options with
          | Err e => (Err e, [], d)
          | Ok _ =>
              let '(rc, log) :=
                if aetherfs_filesystem_registered env then (Ok tt, [])
                else aetherfs_try_load_module env (mo_module_path options) [] in
              match rc with
              | Err e => (Err e, log, d)
              | Ok _ =>
                  (aetherfs_exec_wait env (mount_args options is_block force_read_only)
                     true log, d)
              end
          end
      end
  end.
End tools.

(** ** One image, opened alone *)

Section single.
Context (sys_open : string → bool → result open_file) (garbage : Z → Z).

(** The bootstrap blocks of a one-member image are read straight from its file. *)
Lemma sole_read d image data k buf :
  member_count image = 1 → 0 ≤ k < 8 → d !! m_fd (get_member image 0) = Some data →
  aetherfs_image_read_block d image k = Ok buf →
  read_at data (k * AETHERFS_DEF_BLOCK_SIZE) AETHERFS_DEF_BLOCK_SIZE = Ok buf.
Proof.
  intros Hc Hk Hd. unfold aetherfs_image_read_block, AETHERFS_DATA_START_BLOCK.
  rewrite (proj2 (Z.ltb_lt _ _)) by lia.
  assert (∀ mask, Z.land mask (aetherfs_pool_member_limit_mask image) = 0 ∨
    Z.land mask (aetherfs_pool_member_limit_mask image) = 1) as Hm.
  { intros mask. unfold aetherfs_pool_member_limit_mask. rewrite Hc.
    change (if 32 <=? 1 then _ else _) with (Z.ones 1). rewrite Z.land_ones by lia.
    change (2 ^ 1) with 2. pose proof (Z.mod_pos_bound mask 2). lia. }
  assert (aetherfs_pool_role_mask_for_bootstrap_block image k = 1) as ->.
  { unfold aetherfs_pool_role_mask_for_bootstrap_block, aetherfs_pool_log_mask,
      aetherfs_pool_metadata_mask, limited_mask. rewrite Hc.
    destruct (Hm (pl_log_mask (pool_label image))) as [-> | ->],
      (Hm (pl_metadata_mask (pool_label image))) as [-> | ->]; by case_match. }
  change (seqZ 0 (aetherfs_mask_count 1)) with [0]. cbn [read_replicas].
  change (aetherfs_mask_nth 1 0) with 0. cbn [Z.ltb Z.compare].
  destruct (aetherfs_image_read_physical_member d image 0 k) as [x|] eqn:E; [|done].
  intros [= <-]. apply read_physical_ok in E as (_ & _ & _ & data' & Hd' & Hr).
  destruct (block_offset_small k ltac:(lia)) as [Eo _]. rewrite Eo in Hr.
  rewrite Hd in Hd'. by injection Hd' as <-.
Qed.

(** An image that loads passes the short check of [aetherfs_validate_image]. *)
Lemma load_passes_short_check d p image d' loaded :
  aetherfs_image_open sys_open d p false = (Ok image, d') →
  aetherfs_image_load d' image = Ok loaded →
  aetherfs_validate_image sys_open p = Ok tt.
Proof.
  intros (f & kind & Hs & Hst & Hk & -> & Hfd & Hc & block & Hr & Hlab)%image_open_ok
    (bs & bc & ? & ? & ? & ? & ? & [Him R1 R7 _ _ _ _ _ V1 V7 _ _ _])%load_loads.
  assert ((<[fresh_fd d := of_data f]> d) !! m_fd (get_member image 0) = Some (of_data f)) as Hl
    by by rewrite Hfd, lookup_insert_eq.
  apply (sole_read _ _ _ 1 _ Hc ltac:(lia) Hl) in R1.
  apply (sole_read _ _ _ 7 _ Hc ltac:(lia) Hl) in R7.
  assert (super loaded = decode bs) as Es by by rewrite Him.
  assert (checkpoint_root loaded = decode bc) as Ec by by rewrite Him.
  assert (member_count loaded = 1) as Em by (rewrite Him; exact Hc).
  unfold aetherfs_image_validate_super in V1. rewrite Es, Em in V1.
  unfold aetherfs_image_validate_checkpoint_root in V7. rewrite Ec in V7.
  apply reject_ok in V1 as [C1 V1]. apply reject_ok in V1 as [C2 V1].
  apply reject_ok in V1 as [C3 V1]. apply reject_ok in V1 as [C4 V1].
  apply reject_ok in V1 as [_ V1]. apply reject_ok in V1 as [_ V1].
  apply reject_ok in V1 as [C7 V1]. apply reject_ok in V1 as [C8 _].
  apply reject_ok in V7 as [D1 V7]. apply reject_ok in V7 as [D2 V7].
  apply reject_ok in V7 as [D3 _].
  unfold aetherfs_validate_image. apply bind_ok. exists f. split; [exact Hs|].
  apply bind_ok. exists kind. split; [exact Hst|]. apply reject_ok. split; [by destruct kind|].
  apply bind_ok. exists block. split; [exact Hr|]. apply bind_ok. exists tt. split.
  { destruct (Z.eqb_spec (pl_magic (decode block)) AETHERFS_POOL_MAGIC) as [E|]; [|done].
    destruct (Hlab E) as [Hv H1]. unfold aetherfs_pool_label_validate in Hv.
    apply reject_ok in Hv as [_ Hv]. apply reject_ok in Hv as [_ Hv].
    apply reject_ok in Hv as [Hv _]. apply reject_ok. split; [by rewrite Z.eqb_sym|].
    by rewrite H1. }
  apply bind_ok. exists bs. split; [exact R1|].
  do 3 (apply reject_ok; split; [assumption|]).
  apply reject_ok. split; [assumption|]. apply reject_ok. split; [assumption|].
  apply reject_ok. split; [assumption|]. apply bind_ok. exists f. split; [exact Hs|].
  apply bind_ok. exists bc. split.
  { apply negb_false_iff, Z.eqb_eq in C8. rewrite C8. exact R7. }
  do 3 (apply reject_ok; split; [assumption|]). reflexivity.
Qed.

Lemma closed_sole d p image d' :
  aetherfs_image_open sys_open d p false = (Ok image, d') → closed image d' = d.
Proof.
  intros (f & kind & _ & _ & _ & -> & Hfd & Hc & _)%image_open_ok.
  destruct (fresh_fd_spec d) as [H0 Hn]. unfold closed.
  rewrite image_close_one; [|exact Hc|by rewrite Hfd]. rewrite Hfd. by apply delete_insert_id.
Qed.

(** The options of a command given one image. *)
Definition one_image (p : string) : aetherfs_admin_options := AdminOptions (Some p) [] None.

Lemma open_one d p :
  aetherfs_open_admin_image sys_open garbage d (one_image p) = aetherfs_image_open sys_open d p false.
Proof. done. Qed.

(** ** Properties *)

(** C32: the three commands agree.  On one image, [scrub], [health] and the preflight of
    a strict mount return the same code, each leaving no descriptor behind; [health]
    recommends a strict mount exactly when that code is success. *)
Theorem tools_agree d p :
  ∃ rc output,
    (aetherfs_run_scrub sys_open garbage d (one_image p)).2 = d ∧
    (_ ← (aetherfs_run_scrub sys_open garbage d (one_image p)).1; Ok tt) = rc ∧
    aetherfs_run_health sys_open garbage d (one_image p) = (rc, output, d) ∧
    aetherfs_validate_strict_image sys_open d p = (rc, d) ∧
    (rc = Ok tt ↔ ∃ summary scrub, output = Some (Readable summary scrub Strict)).
Proof.
  unfold aetherfs_run_scrub, aetherfs_run_health, aetherfs_validate_strict_image.
  rewrite open_one. destruct (aetherfs_image_open sys_open d p false) as [[image|e] d'] eqn:Eo.
  2:{ apply image_open_err in Eo as ->. exists (Err e), None.
      repeat split; [done|]. by intros (? & ? & ?). }
  rewrite (closed_sole _ _ _ _ Eo). unfold judge.
  destruct (aetherfs_image_load d' image) as [loaded|e]; cbn [mbind result_bind fst snd].
  2:{ do 2 eexists. repeat (split; [reflexivity|]). split; [done|]. by intros (? & ? & ?). }
  destruct (aetherfs_image_validate d' loaded) as [report|e]; cbn [mbind result_bind fst snd];
    do 2 eexists; repeat (split; [reflexivity|]); (split; [|]).
  - intros _. by eexists _, _.
  - done.
  - done.
  - intros (? & ? & [=]).
Qed.

(** C31: following the advice works.  When [health] recommends a strict mount, the
    preflight of [mount --strict] lets the image through read-write; when it recommends
    a degraded mount, [mount --degraded-ro] lets it through, and only read-only. *)
Theorem recommendation_is_mountable d p rc d' summary scrub advice options :
  aetherfs_run_health sys_open garbage d (one_image p) =
    (rc, Some (Readable summary scrub advice), d') →
  mo_image_path options = p →
  match advice with
  | Strict => mo_behavior options = AETHERFS_MOUNT_STRICT
  | DegradedReadOnly => mo_behavior options = AETHERFS_MOUNT_DEGRADED_RO
  | Rescue => mo_behavior options = AETHERFS_MOUNT_RESCUE
  end →
  preflight sys_open d options = (Ok (negb (is_ok scrub)), d).
Proof.
  unfold aetherfs_run_health. rewrite open_one. intros H <-. revert H.
  set (p := mo_image_path options).
  destruct (aetherfs_image_open sys_open d p false) as [[image|e] d1] eqn:Eo; [|done].
  unfold judge. destruct (aetherfs_image_load d1 image) as [loaded|e] eqn:El; [|done].
  intros [= _ _ <- <- _]. unfold preflight, aetherfs_validate_strict_image. fold p.
  rewrite Eo, El, (closed_sole _ _ _ _ Eo). unfold aetherfs_mount_recommendation.
  cbn [is_ok andb mbind result_bind].
  destruct (aetherfs_image_validate d1 loaded) as [report|e] eqn:Ev; cbn [is_ok]; intros ->.
  - done.
  - cbn [mbind result_bind]. by rewrite (load_passes_short_check _ _ _ _ _ Eo El).
Qed.

Lemma exec_log env argv log r log' :
  aetherfs_exec_wait env argv true log = (r, log') →
  log' = log ++ [if me_root env then argv else "doas" :: argv].
Proof. unfold aetherfs_exec_wait. intros [= _ <-]. by destruct (me_root env). Qed.

(** The commands of a log that start with one of the given programs. *)
Definition runs (names : list string) (argv : list string) : Prop :=
  ∃ name args, name ∈ names ∧ (argv = name :: args ∨ argv = "doas" :: name :: args).

Lemma load_module_log env m r log :
  aetherfs_try_load_module env m [] = (r, log) → Forall (runs ["modprobe"; "insmod"]) log.
Proof.
  unfold aetherfs_try_load_module.
  destruct (aetherfs_exec_wait env ["modprobe"; "-q"; "aetherfs"] true []) as [rc log1] eqn:E1.
  apply exec_log in E1. simpl in E1.
  assert (Forall (runs ["modprobe"; "insmod"]) log1) as H1.
  { subst log1. apply Forall_singleton. exists "modprobe", ["-q"; "aetherfs"].
    split; [set_solver|]. destruct (me_root env); auto. }
  destruct rc, m as [m|]; try (intros [= _ <-]; exact H1).
  destruct (negb _); [intros [= _ <-]; exact H1|]. intros E2%exec_log. subst log.
  apply Forall_app. split; [exact H1|]. apply Forall_singleton. exists "insmod", [m].
  split; [set_solver|]. destruct (me_root env); auto.
Qed.

(** The words of an argument of [-o], and of all of them in a command line. *)
Fixpoint comma_words (s : string) : list string :=
  match s with
  | EmptyString => [EmptyString]
  | String c s =>
      match comma_words s with
      | [] => []
      | w :: ws => if Ascii.eqb c ","%char then EmptyString :: w :: ws else String c w :: ws
      end
  end.

Fixpoint option_words (args : list string) : list string :=
  match args with
  | [] => []
  | a :: args =>
      (if String.eqb a "-o" then match args with o :: _ => comma_words o | [] => [] end else [])
      ++ option_words args
  end.

(** A command that mounts read-write: [mount], perhaps through [doas], without the option [ro]. *)
Definition mounts_read_write (argv : list string) : Prop :=
  ∃ args, (argv = "mount" :: args ∨ argv = "doas" :: "mount" :: args) ∧ "ro" ∉ option_words args.

(** The commands built for a read-only mount have the option. *)
Lemma mount_args_read_only options is_block argv :
  argv = mount_args options is_block true ∨ argv = "doas" :: mount_args options is_block true →
  ¬ mounts_read_write argv.
Proof.
  intros Hargv (args & Ha & Hro). apply Hro. unfold mount_args in Hargv.
  assert (args = ["-t"; "aetherfs"] ++ (if is_block then ["-o"; "ro"] else ["-o"; "loop,ro"]) ++
    [mo_image_path options; mo_mount_path options]) as ->.
  { destruct is_block, Hargv as [-> | ->], Ha as [[=]|[=]]; subst; reflexivity. }
  destruct is_block; cbn; set_solver.
Qed.

Lemma module_command_mounts_nothing argv : runs ["modprobe"; "insmod"] argv → ¬ mounts_read_write argv.
Proof.
  intros (name & args & Hn & Ha) (args' & Hm & _).
  apply elem_of_cons in Hn as [->|Hn%list_elem_of_singleton]; [|subst name];
    destruct Hm as [->| ->], Ha as [[=]|[=]].
Qed.

(** C30: no image is mounted read-write unless it passed the full validation.  Whatever
    the behavior asked for and whatever the system answers, a [mount] command without the
    option [ro] is started only after [aetherfs_validate_strict_image] succeeded, and never
    for [--rescue]; a preflight that fails starts no command at all. *)
Theorem read_write_mount_is_validated env d options rc log d' :
  aetherfs_run_mount sys_open env d options = (rc, log, d') →
  (Exists mounts_read_write log →
     (aetherfs_validate_strict_image sys_open d (mo_image_path options)).1 = Ok tt ∧
     mo_behavior options ≠ AETHERFS_MOUNT_RESCUE) ∧
  (is_ok (preflight sys_open d options).1 = false → log = [] ∧ is_ok rc = false).
Proof.
  unfold aetherfs_run_mount. destruct (aetherfs_source_is_block_device env) as [is_block|e].
  2:{ intros [= <- <- <-]. split; [by intros ?%Exists_nil|done]. }
  destruct (preflight sys_open d options) as [[ro|e] d1] eqn:Ep.
  2:{ intros [= <- <- <-]. split; [by intros ?%Exists_nil|done]. }
  cbn [fst is_ok]. intros H. split; [|done]. revert H.
  destruct (aetherfs_ensure_mountpoint env options).
  2:{ intros [= <- <- <-]. by intros ?%Exists_nil. }
  assert (∀ rc1 log1, (if aetherfs_filesystem_registered env then (Ok tt, [])
    else aetherfs_try_load_module env (mo_module_path options) []) = (rc1, log1) →
    Forall (runs ["modprobe"; "insmod"]) log1) as Hmod.
  { intros rc1 log1. destruct (aetherfs_filesystem_registered env); [by intros [= _ <-]|apply load_module_log]. }
  destruct (if aetherfs_filesystem_registered env then _ else _) as [rc1 log1]. specialize (Hmod _ _ eq_refl).
  assert (¬ Exists mounts_read_write log1) as Hno.
  { intros (argv & Hin & Hb)%Exists_exists. rewrite Forall_forall in Hmod.
    by apply (module_command_mounts_nothing argv (Hmod argv Hin)). }
  destruct rc1 as [[]|]; [|by intros [= <- <- <-]].
  destruct (aetherfs_exec_wait _ _ _ _) as [rc2 log2] eqn:Ee. apply exec_log in Ee.
  intros [= <- <- <-]. subst log2. rewrite Exists_app.
  intros [?|[Hb|?%Exists_nil]%Exists_cons]; [done| |done]. assert (ro = false) as ->.
  { destruct ro; [|done]. exfalso. revert Hb. apply (mount_args_read_only options is_block).
    destruct (me_root env); auto. }
  unfold preflight in Ep. destruct (mo_behavior options) eqn:Eb.
  - split; [|done]. destruct (aetherfs_validate_strict_image _ _ _) as [[[]|e] d2]; done.
  - split; [|done]. destruct (aetherfs_validate_strict_image _ _ _) as [[[]|e] d2]; [done|].
    destruct (aetherfs_validate_image _ _); done.
  - by destruct (aetherfs_validate_image _ _).
Qed.
End single.
