(* ===== verification/World.v ===== *)
(** * Files and descriptors

    The system calls on files that [aetherfsprogs/rebalance.c] makes, on the state they
    change: the descriptor table, which of its descriptors are open for writing, and the
    files created or changed so far.  What is written through a descriptor is in the file
    once the descriptor is closed; no command reads a file it has open for writing through
    another descriptor. *)

From stdpp Require Import strings.
From S2P Require Import Prelude Codec Crc Format Integrity SysIo State Pool Blocks Open.
Local Open Scope Z_scope.

(** The contents behind the open descriptors, the paths of those open for writing, and the
    files that differ from what [sys_open] finds. *)
Record world := World {
  w_disks : disks;
  w_writing : gmap Z string;
  w_files : gmap string open_file;
}.

Definition with_disks (d : disks) (w : world) : world := World d (w_writing w) (w_files w).

(** A regular file. *)
Definition temp_file (data : bytes) : open_file := OpenFile (Ok S_IFREG) (Ok tt) data.

(** ** System calls

    An [answer] is what the call reports for reasons that are not in the state. *)

Section calls.
Context (sys_open : string → bool → result open_file).

Definition lookup_file (w : world) (p : string) (writable : bool) : result open_file :=
  match w_files w !! p with Some f => Ok f | None => sys_open p writable end.

(** [open(p, O_RDWR)], and with [O_TRUNC]. *)
Definition sys_open_rw (answer : result unit) (trunc : bool) (p : string) (w : world)
    : result Z * world :=
  match answer, lookup_file w p true with
  | Err e, _ | Ok _, Err e => (Err e, w)
  | Ok _, Ok f =>
      let fd := fresh_fd (w_disks w) in
      (Ok fd, World (<[fd := if trunc then [] else of_data f]> (w_disks w))
        (<[fd := p]> (w_writing w)) (w_files w))
  end.

(** A file that has been removed meanwhile stays removed. *)
Definition sys_close (fd : Z) (w : world) : world :=
  World (delete fd (w_disks w)) (delete fd (w_writing w))
    (match w_disks w !! fd, w_writing w !! fd with
     | Some data, Some p =>
         match lookup_file w p true with
         | Ok f => <[p := OpenFile (of_stat f) (of_ioctl f) data]> (w_files w)
         | Err _ => w_files w
         end
     | _, _ => w_files w
     end).

(** The answer is the name chosen; a name in use is never opened. *)
Definition mkstemp (answer : result string) (w : world) : result (Z * string) * world :=
  match answer with
  | Err e => (Err e, w)
  | Ok name =>
      match lookup_file w name false with
      | Ok _ => (Err EEXIST, w)
      | Err _ =>
          let fd := fresh_fd (w_disks w) in
          (Ok (fd, name), World (<[fd := []]> (w_disks w)) (<[fd := name]> (w_writing w))
            (<[name := temp_file []]> (w_files w)))
      end
  end.

(** [size] is at most [len data] or the file grows by zeroes. *)
Definition resize (size : Z) (data : bytes) : bytes :=
  if size <=? len data then slice 0 size data else data ++ zeros (size - len data).

Definition sys_ftruncate (answer : result unit) (fd size : Z) (w : world) : result unit * world :=
  match answer with
  | Err e => (Err e, w)
  | Ok _ =>
      match w_disks w !! fd with
      | None => (Err EBADF, w)
      | Some data => (Ok tt, with_disks (<[fd := resize size data]> (w_disks w)) w)
      end
  end.

(** Of a file the command has created: those [sys_open] finds are never removed. *)
Definition unlink (p : string) (w : world) : world :=
  World (w_disks w) (w_writing w) (delete p (w_files w)).

Definition rename (answer : result unit) (from to : string) (w : world) : result unit * world :=
  match answer, w_files w !! from with
  | Err e, _ => (Err e, w)
  | Ok _, None => (Err ENOENT, w)
  | Ok _, Some f => (Ok tt, World (w_disks w) (w_writing w) (<[to := f]> (delete from (w_files w))))
  end.

(** [aetherfs_image_open] and [aetherfs_image_close] on this state. *)
Definition open_image (answer : result unit) (p : string) (writable : bool) (w : world)
    : result aetherfs_image * world :=
  match answer with
  | Err e => (Err e, w)
  | Ok _ =>
      match aetherfs_image_open (lookup_file w) (w_disks w) p writable with
      | (Err e, d) => (Err e, with_disks d w)
      | (Ok image, d) =>
          (Ok image, World d
            (if writable then <[m_fd (get_member image 0) := p]> (w_writing w) else w_writing w)
            (w_files w))
      end
  end.

Definition image_fds (image : aetherfs_image) : list Z :=
  List.filter (λ fd, 0 <=? fd)
    (map (λ index, m_fd (get_member image index)) (seqZ 0 (member_count image))).

Definition close_image (image : aetherfs_image) (w : world) : aetherfs_image * world :=
  ((aetherfs_image_close image (w_disks w)).1, foldl (λ w fd, sys_close fd w) w (image_fds image)).

(** An image that could not be opened: its one member has the descriptor -1, or the number
    [aetherfs_member_open_path] has closed again, and closing it does nothing. *)
Definition unopened : aetherfs_image :=
  set_members (<[0%nat := set_m_fd (-1) member_zero]> (members (image_zero false 1)))
    (image_zero false 1).

(** ** Lemmas *)

(** Only open descriptors are open for writing. *)
Definition world_ok (w : world) : Prop := ∀ fd, w_disks w !! fd = None → w_writing w !! fd = None.

(** The state with a temporary file. *)
Definition with_temp (t : string) (data : bytes) (w : world) : world :=
  World (w_disks w) (w_writing w) (<[t := temp_file data]> (w_files w)).

Lemma world_eta w : World (w_disks w) (w_writing w) (w_files w) = w.
Proof. by destruct w. Qed.

Lemma world_ok_temp t data w : world_ok w → world_ok (with_temp t data w).
Proof. done. Qed.

Lemma world_ok_insert fd data w : world_ok w → world_ok (with_disks (<[fd := data]> (w_disks w)) w).
Proof. intros Hw k Hk. cbn [with_disks w_disks] in Hk. apply lookup_insert_None in Hk as [Hk _]. by apply Hw. Qed.

Lemma lookup_temp t data w wr : lookup_file (with_temp t data w) t wr = Ok (temp_file data).
Proof. unfold lookup_file, with_temp. cbn [w_files]. by rewrite lookup_insert_eq. Qed.

Lemma lookup_temp_ne t data w p wr : p ≠ t → lookup_file (with_temp t data w) p wr = lookup_file w p wr.
Proof. intros H. unfold lookup_file, with_temp. cbn [w_files]. by rewrite lookup_insert_ne. Qed.

Lemma unlink_temp t data w : w_files w !! t = None → unlink t (with_temp t data w) = w.
Proof.
  intros H. unfold unlink, with_temp. cbn [w_disks w_writing w_files].
  rewrite delete_insert_id by done. apply world_eta.
Qed.

(** Closing a descriptor open for reading. *)
Lemma close_reader fd w d : world_ok w → w_disks w !! fd = None → delete fd d = w_disks w →
  sys_close fd (with_disks d w) = w.
Proof.
  intros Hw Hn Hd. unfold sys_close, with_disks. cbn [w_disks w_writing w_files].
  rewrite Hd, (Hw fd Hn), delete_id by by apply Hw. destruct (d !! fd); apply world_eta.
Qed.

(** Closing one open for writing on the temporary file. *)
Lemma close_temp fd w t x d : world_ok w → w_disks w !! fd = None → delete fd d = w_disks w →
  sys_close fd (World d (<[fd := t]> (w_writing w)) (<[t := temp_file x]> (w_files w))) =
    with_temp t (default x (d !! fd)) w.
Proof.
  intros Hw Hn Hd. unfold sys_close. cbn [w_disks w_writing w_files].
  rewrite Hd, delete_insert_id, lookup_insert_eq by by apply Hw. unfold with_temp.
  destruct (d !! fd) as [data|]; cbn [default]; [|done].
  unfold lookup_file. cbn [w_files]. rewrite lookup_insert_eq. cbn [of_stat of_ioctl temp_file].
  by rewrite insert_insert_eq.
Qed.

(** A name [mkstemp] gives out was not in use, and after its [close] there is an empty file. *)
Lemma mkstemp_ok answer w fd name w' : world_ok w → mkstemp answer w = (Ok (fd, name), w') →
  w_files w !! name = None ∧ (∃ e, lookup_file w name false = Err e) ∧ sys_close fd w' = with_temp name [] w.
Proof.
  intros Hw. unfold mkstemp. destruct answer as [n|]; [|done].
  destruct (lookup_file w n false) as [f|e] eqn:El; [done|]. intros [= <- <- <-].
  destruct (fresh_fd_spec (w_disks w)) as [_ Hn]. split; [|split; [by exists e|]].
  - unfold lookup_file in El. by destruct (w_files w !! n).
  - rewrite close_temp by (done || by apply delete_insert_id). by rewrite lookup_insert_eq.
Qed.

Lemma mkstemp_err answer w e w' : mkstemp answer w = (Err e, w') → w' = w.
Proof.
  unfold mkstemp. destruct answer as [n|]; [|by intros [= _ <-]].
  destruct (lookup_file w n false); [by intros [= _ <-]|done].
Qed.

(** Closing an image of one member is closing its descriptor. *)
Lemma close_image_one image w : member_count image = 1 → 0 ≤ m_fd (get_member image 0) →
  (close_image image w).2 = sys_close (m_fd (get_member image 0)) w.
Proof.
  intros Hc Hm. unfold close_image, image_fds. rewrite Hc. change (seqZ 0 1) with [0]. cbn [map List.filter snd].
  by rewrite (proj2 (Z.leb_le _ _) Hm).
Qed.

(** A second time it does nothing. *)
Lemma close_image_again image m w w' : member_count image = 1 → members image !! 0%nat = Some m →
  0 ≤ m_fd m → (close_image (close_image image w).1 w').2 = w'.
Proof.
  intros Hc Hm Hfd.
  assert (get_member image 0 = m) as Eg.
  { change (default member_zero (members image !! 0%nat) = m). by rewrite Hm. }
  assert ((close_image image w).1 = set_aliases (-1) (is_block_device image) (size_bytes image)
    (set_members (<[0%nat := set_m_fd (-1) m]> (members image)) image)) as ->.
  { unfold close_image, aetherfs_image_close. rewrite Hc. change (seqZ 0 1) with [0].
    cbn [close_members]. rewrite Eg, (proj2 (Z.leb_le _ _) Hfd). reflexivity. }
  unfold close_image, image_fds. cbn [snd set_aliases set_members member_count].
  rewrite Hc. change (seqZ 0 1) with [0]. cbn [map].
  destruct (members image) as [|m0 l] eqn:El; [done|]. reflexivity.
Qed.

Lemma image_open_member so d p wr image d' : aetherfs_image_open (path := string) so d p wr = (Ok image, d') →
  is_Some (members image !! 0%nat).
Proof.
  unfold aetherfs_image_open. destruct (aetherfs_member_open_path so d p wr) as [[m|] d1]; [|done].
  destruct (aetherfs_member_read_pool_label d1 m) as [[label|]|]; [destruct (negb _)| |]; try done;
    intros [= <- _]; [unfold aetherfs_image_assign_primary_aliases|
      unfold aetherfs_image_synthesize_single_label, aetherfs_image_assign_primary_aliases];
    cbn [members set_aliases set_members set_label]; by eexists.
Qed.

Lemma close_unopened w : (close_image unopened w).2 = w.
Proof. done. Qed.

Lemma open_image_ok answer p wr w image w' : open_image answer p wr w = (Ok image, w') →
  ∃ f, aetherfs_image_open (lookup_file w) (w_disks w) p wr = (Ok image, <[fresh_fd (w_disks w) := of_data f]> (w_disks w)) ∧
    lookup_file w p wr = Ok f ∧ m_fd (get_member image 0) = fresh_fd (w_disks w) ∧ member_count image = 1 ∧
    w' = World (<[fresh_fd (w_disks w) := of_data f]> (w_disks w))
      (if wr then <[fresh_fd (w_disks w) := p]> (w_writing w) else w_writing w) (w_files w).
Proof.
  unfold open_image. destruct answer; [|done].
  destruct (aetherfs_image_open _ _ p wr) as [[im|] d] eqn:Eo; [|done]. intros [= <- <-].
  pose proof Eo as (f & kind & Hf & _ & _ & -> & Hfd & Hc & _)%image_open_ok.
  exists f. by rewrite Hfd.
Qed.

Lemma open_image_err answer p wr w e w' : open_image answer p wr w = (Err e, w') → w' = w.
Proof.
  unfold open_image. destruct answer; [|by intros [= _ <-]].
  destruct (aetherfs_image_open _ _ p wr) as [[im|] d] eqn:Eo; [done|]. intros [= _ <-].
  apply image_open_err in Eo as ->. apply world_eta.
Qed.
End calls.
