(* ===== verification/Rebalance.v ===== *)
(** * Rebalancing

    [aetherfsprogs/rebalance.c] and the choice of the temporary file in [image.c]: the
    image is rebuilt in a temporary file, each file in one extent behind the previous
    one, validated there, and then renamed over the source, or copied back when the
    source is a block device.  The command runs on a [world]; the copying and rebuilding in
    between on its descriptors. *)

From stdpp Require Import strings.
From S2P Require Import Prelude Codec Crc Format Integrity SysIo State Pool Blocks Bitmap.
From S2P Require Import Open Load RootDir Validate Tools World.

(** ** The temporary file *)

(** What [stat], [statvfs], [dirname] and [basename], and [mkstemp] answer; [statvfs]
    reports [f_bavail] and [f_frsize], and [mkstemp] the name it chose. *)
Record temp_env := TempEnv {
  te_stat : result file_kind;
  te_statvfs : string → result (Z * Z);
  te_dirname : string;
  te_basename : string;
  te_mkstemp : string → result string;
}.

Definition aetherfs_dir_has_space (env : temp_env) (dir : string) (required_bytes : Z) : bool :=
  match te_statvfs env dir with
  | Err _ => false
  | Ok (bavail, frsize) => required_bytes <=? u64 (bavail * frsize)
  end.

Section temp_path.
Context (sys_open : string → bool → result open_file) (env : temp_env).

Definition aetherfs_make_temp_path_in_dir (dir : string) (w : world) : result string * world :=
  match mkstemp sys_open (te_mkstemp env (dir +:+ "/" +:+ te_basename env +:+ ".rebalance.XXXXXX")) w with
  | (Err e, w) => (Err e, w)
  | (Ok (fd, path), w) => (Ok path, sys_close sys_open fd w)
  end.

Fixpoint first_with_space (candidates : list string) (required_bytes : Z) (w : world)
    : result string * world :=
  match candidates with
  | [] => (Err ENOSPC, w)
  | dir :: rest =>
      if aetherfs_dir_has_space env dir required_bytes
      then aetherfs_make_temp_path_in_dir dir w
      else first_with_space rest required_bytes w
  end.

Definition aetherfs_image_make_temp_path (required_bytes : Z) (w : world) : result string * world :=
  match te_stat env with
  | Err e => (Err e, w)
  | Ok kind =>
      let beside := match kind with S_IFBLK => [] | _ => [te_dirname env] end in
      first_with_space (beside ++ ["/var/tmp"; "/home"; "/"; "/tmp"]) required_bytes w
  end.
End temp_path.

(** ** Copying *)

(** The copy of [aetherfs_read_extent_node] in [rebalance.c], which also refuses a
    chained node. *)
Definition rebalance_read_extent_node (d : disks) (image : aetherfs_image) (blocknr : Z)
    : result aetherfs_extent_node :=
  buf ← aetherfs_image_read_block d image blocknr;
  let node := decode buf : aetherfs_extent_node in
  return_if negb (en_checksum node =? aetherfs_extent_node_checksum node) with EILSEQ ;;
  return_if negb (en_next node =? 0) || (AETHERFS_EXTENT_LOG_MAX <? en_count node) with EINVAL ;;
  Ok node.

(** One [pwrite] to a regular file.  [answer] is what the call reports for other reasons. *)
Definition pwrite_fd (answer : result unit) (fd offset : Z) (buf : bytes) (d : disks)
    : result unit * disks :=
  match answer, d !! fd with
  | Err e, _ => (Err e, d)
  | Ok _, None => (Err EBADF, d)
  | Ok _, Some data =>
      let '(r, data) := pwrite_file false data offset buf in (r, <[fd := data]> d)
  end.

(** Blocks read from the source and written to [dst_fd]. *)
Fixpoint copy_reserved (answers : Z → result unit) (blocknrs : list Z) (d : disks)
    (source : aetherfs_image) (dst_fd : Z) : result unit * disks :=
  match blocknrs with
  | [] => (Ok tt, d)
  | blocknr :: rest =>
      match aetherfs_image_read_block d source blocknr with
      | Err e => (Err e, d)
      | Ok block =>
          match pwrite_fd (answers blocknr) dst_fd (blocknr * AETHERFS_DEF_BLOCK_SIZE) block d with
          | (Err e, d) => (Err e, d)
          | (Ok _, d) => copy_reserved answers rest d source dst_fd
          end
      end
  end.

Definition aetherfs_copy_reserved_blocks (answers : Z → result unit) (d : disks)
    (source : aetherfs_image) (dst_fd : Z) : result unit * disks :=
  copy_reserved answers (seqZ 0 AETHERFS_DATA_START_BLOCK) d source dst_fd.

(** One [pwrite] to a device: short at its end, [ENOSPC] beyond it. *)
Definition pwrite_device (answer : result unit) (fd offset : Z) (buf : bytes) (d : disks)
    : result unit * disks :=
  match answer, d !! fd with
  | Err e, _ => (Err e, d)
  | Ok _, None => (Err EBADF, d)
  | Ok _, Some data =>
      if offset + len buf <=? len data then (Ok tt, <[fd := write_at data offset buf]> d)
      else if offset <? len data
      then (Err EIO, <[fd := write_at data offset (slice 0 (len data - offset) buf)]> d)
      else (Err ENOSPC, d)
  end.

Fixpoint copy_prefix (answers : Z → result unit) (blocknrs : list Z) (d : disks)
    (source : aetherfs_image) (dst_fd : Z) : result unit * disks :=
  match blocknrs with
  | [] => (Ok tt, d)
  | blocknr :: rest =>
      match aetherfs_image_read_block d source blocknr with
      | Err e => (Err e, d)
      | Ok block =>
          match pwrite_device (answers blocknr) dst_fd (u64 (blocknr * AETHERFS_DEF_BLOCK_SIZE)) block d with
          | (Err e, d) => (Err e, d)
          | (Ok _, d) => copy_prefix answers rest d source dst_fd
          end
      end
  end.

Definition aetherfs_copy_prefix_to_device (fsync : result unit) (answers : Z → result unit)
    (d : disks) (source : aetherfs_image) (dst_fd blocks : Z) : result unit * disks :=
  match copy_prefix answers (seqZ 0 blocks) d source dst_fd with
  | (Err e, d) => (Err e, d)
  | (Ok _, d) => (fsync, d)
  end.

(** The blocks of one extent; the next value of [dst_block]. *)
Fixpoint copy_extent (block_indices : list Z) (d : disks) (source target : aetherfs_image)
    (pstart dst_block : Z) : result Z * disks :=
  match block_indices with
  | [] => (Ok dst_block, d)
  | block_index :: rest =>
      match aetherfs_image_read_block d source (u64 (pstart + block_index)) with
      | Err e => (Err e, d)
      | Ok block =>
          match aetherfs_image_write_block d target dst_block block with
          | (Err e, d) => (Err e, d)
          | (Ok _, d) => copy_extent rest d source target pstart (u64 (dst_block + 1))
          end
      end
  end.

Fixpoint copy_extents (extents : list aetherfs_extent) (d : disks)
    (source target : aetherfs_image) (dst_block : Z) : result Z * disks :=
  match extents with
  | [] => (Ok dst_block, d)
  | extent :: rest =>
      match copy_extent (seqZ 0 (e_len extent)) d source target (e_pstart extent) dst_block with
      | (Err e, d) => (Err e, d)
      | (Ok dst_block, d) => copy_extents rest d source target dst_block
      end
  end.

Definition aetherfs_copy_file_data (d : disks) (source : aetherfs_image)
    (node : aetherfs_extent_node) (target : aetherfs_image) (dst_start : Z)
    : result unit * disks :=
  match copy_extents (take (Z.to_nat (en_count node)) (en_extents node)) d source target
          dst_start with
  | (Err e, d) => (Err e, d)
  | (Ok _, d) => (Ok tt, d)
  end.

(** ** Checksum chains *)

(** [sums.cb_sums[index]] for the blocks a checksum block describes. *)
Fixpoint sum_blocks (indices : list Z) (d : disks) (target : aetherfs_image) (data_block : Z)
    : result (list Z) :=
  match indices with
  | [] => Ok []
  | index :: rest =>
      block ← aetherfs_image_read_block d target (u64 (data_block + index));
      sums ← sum_blocks rest d target data_block;
      Ok (aetherfs_crc32c_data block :: sums)
  end.

Definition chain_block (sums : list Z) (entries next : Z) : aetherfs_checksum_block :=
  ChecksumBlock next entries 0
    (sums ++ replicate (Z.to_nat (AETHERFS_CHECKSUMS_PER_BLOCK - entries)) 0).

(** [while (remaining)], [None] when the fuel runs out. *)
Fixpoint chain_loop (fuel : nat) (d : disks) (target : aetherfs_image)
    (data_block remaining csum_block : Z) : option (result unit * disks) :=
  if remaining =? 0 then Some (Ok tt, d)
  else match fuel with
  | O => None
  | S fuel =>
      let entries :=
        if AETHERFS_CHECKSUMS_PER_BLOCK <? remaining then AETHERFS_CHECKSUMS_PER_BLOCK
        else remaining in
      match sum_blocks (seqZ 0 entries) d target data_block with
      | Err e => Some (Err e, d)
      | Ok sums =>
          let next := if entries <? remaining then u64 (csum_block + 1) else 0 in
          match aetherfs_write_checksum_block d target csum_block (chain_block sums entries next)
          with
          | (Err e, d, _) => Some (Err e, d)
          | (Ok _, d, _) =>
              chain_loop fuel d target (u64 (data_block + entries)) (remaining - entries)
                (u64 (csum_block + 1))
          end
      end
  end.

(** Each round takes at least one block off [remaining]. *)
Definition aetherfs_write_checksum_chain (d : disks) (target : aetherfs_image)
    (data_start data_blocks csum_start : Z) : result unit * disks :=
  default (Err EFAULT, d)
    (chain_loop (Z.to_nat data_blocks) d target data_start data_blocks csum_start).

(** ** The inode loop *)

(** The locals of the loop: the target image and [next_block]. *)
Record rebuild_state := Rebuild {
  rb_target : aetherfs_image;
  rb_next : Z;
}.

Definition set_inode (index : Z) (inode : aetherfs_inode) (image : aetherfs_image)
    : aetherfs_image :=
  set_inode_table (<[Z.to_nat index := inode]> (inode_table image)) image.

(** [inode->i_extent_root = root;] and the new checksum. *)
Definition repoint (root : Z) (inode : aetherfs_inode) : aetherfs_inode :=
  let inode := set_i_extent_root root inode in
  set_i_checksum (aetherfs_inode_checksum inode) inode.

Definition one_extent (data_start csum_start file_blocks : Z) : aetherfs_extent_node :=
  ExtentNode 0 1 0
    (Extent 0 data_start csum_start file_blocks 0 0
     :: replicate (Z.to_nat (AETHERFS_EXTENT_LOG_MAX - 1)) zeroed).

(** One file moved to [next_block]: extent root, data, checksum chain. *)
Definition move_file (d : disks) (source : aetherfs_image) (index : Z) (st : rebuild_state)
    : result rebuild_state * disks :=
  let target := rb_target st in
  let file_blocks := i_blocks (inode_at source index) in
  match rebalance_read_extent_node d source (i_extent_root (inode_at source index)) with
  | Err e => (Err e, d)
  | Ok source_extents =>
      let extent_root := rb_next st in
      let data_start := u64 (extent_root + 1) in
      let csum_start := u64 (data_start + file_blocks) in
      let checksum_blocks :=
        u64 (file_blocks + AETHERFS_CHECKSUMS_PER_BLOCK - 1) / AETHERFS_CHECKSUMS_PER_BLOCK in
      let next_block := u64 (csum_start + checksum_blocks) in
      if blocks target <? next_block then (Err ENOSPC, d)
      else match aetherfs_copy_file_data d source source_extents target data_start with
      | (Err e, d) => (Err e, d)
      | (Ok _, d) =>
          match aetherfs_write_checksum_chain d target data_start file_blocks csum_start with
          | (Err e, d) => (Err e, d)
          | (Ok _, d) =>
              match aetherfs_write_extent_node d target extent_root
                      (one_extent data_start csum_start file_blocks) with
              | (Err e, d, _) => (Err e, d)
              | (Ok _, d, _) =>
                  (Ok (Rebuild (set_inode index (repoint extent_root (inode_at target index))
                     target) next_block), d)
              end
          end
      end
  end.

(** One iteration. *)
Definition rebuild_inode (d : disks) (source : aetherfs_image) (index : Z) (st : rebuild_state)
    : result rebuild_state * disks :=
  let target := rb_target st in
  let inode := inode_at target index in
  if negb (aetherfs_image_bitmap_test (inode_bitmap target) index) then (Ok st, d)
  else if negb (S_ISREG (i_mode inode)) then (Ok st, d)
  else if i_blocks (inode_at source index) =? 0
  then (Ok (Rebuild (set_inode index (repoint 0 inode) target) (rb_next st)), d)
  else move_file d source index st.

Fixpoint rebuild_inodes (indices : list Z) (d : disks) (source : aetherfs_image)
    (st : rebuild_state) : result rebuild_state * disks :=
  match indices with
  | [] => (Ok st, d)
  | index :: rest =>
      match rebuild_inode d source index st with
      | (Err e, d) => (Err e, d)
      | (Ok st, d) => rebuild_inodes rest d source st
      end
  end.

(** ** The metadata of the rebuilt image *)

(** The free space behind [next_block], as one extent. *)
Definition free_tail (blocks next_block : Z) : aetherfs_extent_node :=
  if next_block <? blocks
  then ExtentNode 0 1 0 (Extent 0 next_block 0 (blocks - next_block) 0 0
         :: replicate (Z.to_nat (AETHERFS_EXTENT_LOG_MAX - 1)) zeroed)
  else zeroed.

Definition rebuilt_metadata (target : aetherfs_image) (next_block : Z) : aetherfs_image :=
  let target := set_free_extents (free_tail (blocks target) next_block) target in
  let super' := set_s_free_blocks (u64 (blocks target - next_block)) (super target) in
  let target := set_super (set_s_checksum (aetherfs_super_checksum super') super') target in
  let journal' := set_il_outstanding 0 (journal target) in
  set_journal (set_il_checksum (aetherfs_journal_checksum journal') journal') target.

(** The four writes, in the order of the source. *)
Definition write_metadata (d : disks) (target : aetherfs_image) : result unit * disks :=
  match aetherfs_image_write_inode_table d target with
  | (Err e, d) => (Err e, d)
  | (Ok _, d) =>
      match aetherfs_image_write_free_extents d target with
      | (Err e, d, _) => (Err e, d)
      | (Ok _, d, target) =>
          match aetherfs_image_write_super d target with
          | (Err e, d, _) => (Err e, d)
          | (Ok _, d, target) => (aetherfs_image_write_journal d target).1
          end
      end
  end.

(** The target from its first load to its final validation: the report, [next_block] and
    the reloaded image. *)
Definition rebuild (d : disks) (source target : aetherfs_image)
    : result (aetherfs_scrub_report * Z * aetherfs_image) * disks :=
  match aetherfs_image_load d target with
  | Err e => (Err e, d)
  | Ok target =>
      let target := set_free_extents zeroed target in
      match rebuild_inodes (count_up (Z.to_nat (AETHERFS_MAX_INODES - 1)) 1) d source
              (Rebuild target AETHERFS_DATA_START_BLOCK) with
      | (Err e, d) => (Err e, d)
      | (Ok st, d) =>
          match write_metadata d (rebuilt_metadata (rb_target st) (rb_next st)) with
          | (Err e, d) => (Err e, d)
          | (Ok _, d) =>
              (loaded ← aetherfs_image_load d (rb_target st);
               report ← aetherfs_image_validate d loaded;
               Ok (report, rb_next st, loaded), d)
          end
      end
  end.

(** ** The command *)

(** The answers of the calls on the temporary file and the destination; [re_pwrite] those of
    the writes of each block. *)
Record rebalance_env := RebalanceEnv {
  re_temp : temp_env;
  re_temp_open : result unit;
  re_truncate : result unit;
  re_pwrite : Z → result unit;
  re_target_open : result unit;
  re_rename : result unit;
  re_dst_open : result unit;
  re_fsync : result unit;
  re_reopen : result unit;
}.

Section rebalance.
Context (sys_open : string → bool → result open_file) (env : rebalance_env).

(** The labels.  Failures only come here, so that [rc] is negative. *)
Definition out_cleanup (temp_path : option string) (rc : errno) (w : world)
    : result aetherfs_scrub_report * world :=
  (Err rc, match temp_path with Some p => unlink p w | None => w end).

Definition out_source (source : aetherfs_image) (temp_fd : Z) (temp_path : option string)
    (rc : errno) (w : world) : result aetherfs_scrub_report * world :=
  let w := (close_image sys_open source w).2 in
  let w := if 0 <=? temp_fd then sys_close sys_open temp_fd w else w in
  out_cleanup temp_path rc w.

Definition out_target (source target : aetherfs_image) (temp_path : option string)
    (rc : errno) (w : world) : result aetherfs_scrub_report * world :=
  out_source source (-1) temp_path rc (close_image sys_open target w).2.

(** The temporary file opened, given its size and the reserved blocks, and closed; the second
    component is [temp_fd]. *)
Definition fill_temp (source : aetherfs_image) (temp_path : string) (w : world)
    : result unit * Z * world :=
  match sys_open_rw sys_open (re_temp_open env) true temp_path w with
  | (Err e, w) => (Err e, -1, w)
  | (Ok temp_fd, w) =>
      match sys_ftruncate (re_truncate env) temp_fd (size_bytes source) w with
      | (Err e, w) => (Err e, temp_fd, w)
      | (Ok _, w) =>
          match aetherfs_copy_reserved_blocks (re_pwrite env) (w_disks w) source temp_fd with
          | (Err e, d) => (Err e, temp_fd, with_disks d w)
          | (Ok _, d) => (Ok tt, -1, sys_close sys_open temp_fd (with_disks d w))
          end
      end
  end.

(** The end of a successful run. *)
Definition finish (source : aetherfs_image) (temp_path : string) (report : aetherfs_scrub_report)
    (w : world) : result aetherfs_scrub_report * world :=
  (Ok report, unlink temp_path (close_image sys_open source w).2).

(** The rebuilt image [loaded] copied back to a device, and the device looked at again. *)
Definition install_device (source target loaded : aetherfs_image) (next_block : Z)
    (path temp_path : string) (w : world) : result aetherfs_scrub_report * world :=
  match sys_open_rw sys_open (re_dst_open env) false path w with
  | (Err e, w) => out_target source target (Some temp_path) e w
  | (Ok dst_fd, w) =>
      let '(rc, d) := aetherfs_copy_prefix_to_device (re_fsync env) (re_pwrite env) (w_disks w)
                        loaded dst_fd next_block in
      let w := sys_close sys_open dst_fd (with_disks d w) in
      match rc with
      | Err e => out_target source target (Some temp_path) e w
      | Ok _ =>
          let w := (close_image sys_open target w).2 in
          match open_image sys_open (re_reopen env) path false w with
          | (Err e, w) => out_source source (-1) (Some temp_path) e w
          | (Ok rewritten, w) =>
              let rc := (loaded ← aetherfs_image_load (w_disks w) rewritten;
                         aetherfs_image_validate (w_disks w) loaded) in
              let w := (close_image sys_open rewritten w).2 in
              match rc with
              | Err e => out_source source (-1) (Some temp_path) e w
              | Ok report => finish source temp_path report w
              end
          end
      end
  end.

(** The rebuilt image renamed over the source.  [source] is closed once more at the end. *)
Definition install_file (source target : aetherfs_image) (report : aetherfs_scrub_report)
    (path temp_path : string) (w : world) : result aetherfs_scrub_report * world :=
  let w := (close_image sys_open target w).2 in
  let '(source, w) := close_image sys_open source w in
  match rename (re_rename env) temp_path path w with
  | (Err e, w) => out_cleanup (Some temp_path) e w
  | (Ok _, w) => finish source temp_path report w
  end.

(** [source] and [target] stay the images as opened where only their descriptors matter, which
    loading does not change. *)
Definition aetherfs_run_rebalance (w : world) (path : string)
    : result aetherfs_scrub_report * world :=
  match open_image sys_open (Ok tt) path false w with
  | (Err e, w) => out_source unopened (-1) None e w
  | (Ok source, w) =>
      if size_bytes source =? 0 then out_source source (-1) None EOPNOTSUPP w
      else match (loaded ← aetherfs_image_load (w_disks w) source;
                  _ ← aetherfs_image_validate (w_disks w) loaded; Ok loaded) with
      | Err e => out_source source (-1) None e w
      | Ok loaded =>
          match aetherfs_image_make_temp_path sys_open (re_temp env) (size_bytes source) w with
          | (Err e, w) => out_source source (-1) None e w
          | (Ok temp_path, w) =>
              match fill_temp loaded temp_path w with
              | (Err e, temp_fd, w) => out_source source temp_fd (Some temp_path) e w
              | (Ok _, temp_fd, w) =>
                  match open_image sys_open (re_target_open env) temp_path true w with
                  | (Err e, w) => out_source source temp_fd (Some temp_path) e w
                  | (Ok target, w) =>
                      match rebuild (w_disks w) loaded target with
                      | (Err e, d) => out_target source target (Some temp_path) e (with_disks d w)
                      | (Ok (report, next_block, rebuilt), d) =>
                          if is_block_device loaded
                          then install_device source target rebuilt next_block path temp_path (with_disks d w)
                          else install_file source target report path temp_path (with_disks d w)
                      end
                  end
              end
          end
      end
  end.
End rebalance.
