(* ===== verification/Rebalanced.v ===== *)
(** * Rebuilding files

    In an image of one member every logical block is the file block of the same number,
    whatever the profile of its label.  On that footing, what the copying loops of a
    rebalance do to the target: each file's blocks, its checksum chain and its extent
    node are laid out behind the previous file, and nothing else is touched. *)

From stdpp Require Import strings.
From S2P Require Import Prelude Codec Crc Format Integrity SysIo State Pool Blocks Bitmap.
From S2P Require Import Open Load RootDir Validate Coverage Mkfs Formatted Tools Rebalance.

(** ** Images of one member *)

(** What opening a single file guarantees to block access. *)
Record sole (image : aetherfs_image) : Prop := {
  sole_count : member_count image = 1;
  sole_fd : 0 ≤ m_fd (get_member image 0);
  sole_stripe : is_u32 (pl_stripe_blocks (pool_label image));
}.

#[export] Instance sole_proper : Proper (same_pool ==> iff) sole.
Proof.
  assert (∀ i j, same_pool i j → sole i → sole j) as H.
  { intros i j (Hl & Hm & Hc) [H1 H2 H3]. split; [congruence| |congruence].
    unfold get_member in *. by rewrite <-Hm. }
  intros i j Hij. split; apply H; [done|by symmetry].
Qed.

Lemma sole_limit image mask : member_count image = 1 →
  Z.land mask (aetherfs_pool_member_limit_mask image) = 0 ∨
  Z.land mask (aetherfs_pool_member_limit_mask image) = 1.
Proof.
  intros Hc. unfold aetherfs_pool_member_limit_mask. rewrite Hc.
  change (if 32 <=? 1 then _ else _) with (Z.ones 1). rewrite Z.land_ones by lia.
  change (2 ^ 1) with 2. pose proof (Z.mod_pos_bound mask 2). lia.
Qed.

Lemma sole_data_mask image : sole image → aetherfs_pool_data_mask image = 1.
Proof.
  intros [Hc _ _]. unfold aetherfs_pool_data_mask, limited_mask.
  destruct (sole_limit image (pl_data_mask (pool_label image)) Hc) as [-> | ->];
    rewrite Hc; reflexivity.
Qed.

Lemma sole_role_mask image k : sole image → aetherfs_pool_role_mask_for_bootstrap_block image k = 1.
Proof.
  intros [Hc _ _]. unfold aetherfs_pool_role_mask_for_bootstrap_block, aetherfs_pool_log_mask,
    aetherfs_pool_metadata_mask, limited_mask. rewrite Hc.
  destruct (sole_limit image (pl_log_mask (pool_label image)) Hc) as [-> | ->],
    (sole_limit image (pl_metadata_mask (pool_label image)) Hc) as [-> | ->]; by case_match.
Qed.

(** The data region is mapped to itself. *)
Lemma sole_map image b m : sole image → 8 ≤ b < 2 ^ 51 →
  aetherfs_pool_map_data_block image b = Ok m → member_index m = 0 ∧ member_block m = b.
Proof.
  intros Hs Hb. pose proof (sole_stripe _ Hs) as Hst. unfold is_u32 in Hst.
  unfold aetherfs_pool_map_data_block, aetherfs_pool_map_linear, aetherfs_pool_map_mirror,
    aetherfs_pool_map_stripe, aetherfs_pool_map_parity. rewrite !(sole_data_mask _ Hs).
  change (aetherfs_mask_count 1) with 1. change (seqZ 0 1) with [0].
  change (aetherfs_mask_first 1) with 0. unfold AETHERFS_DATA_START_BLOCK.
  rewrite !(u64_small (b - 8)) by (unfold is_u64; lia).
  repeat case_match; [..|done].
  - cbn [map_linear_loop]. change (aetherfs_mask_nth 1 0) with 0. cbn [Z.ltb Z.compare].
    case_match; [|done]. intros [= <-]. cbn [member_index member_block]. split; [done|].
    unfold AETHERFS_DATA_START_BLOCK. rewrite u64_small by (unfold is_u64; lia). lia.
  - intros H'. by inv_ok.
  - intros H'. inv_ok. bool_to_prop. cbn [member_index member_block].
    change (1 =? 0) with false in *. cbn [orb] in *. bool_to_prop.
    rewrite Z.mod_1_r, Z.div_1_r. split; [reflexivity|].
    pose proof (Z.div_mod (b - 8) (pl_stripe_blocks (pool_label image))) as E.
    set (sb := pl_stripe_blocks (pool_label image)) in *.
    assert (8 + (b - 8) / sb * sb + (b - 8) mod sb = b) as -> by lia.
    apply u64_small. unfold is_u64. lia.
  - intros H'. by inv_ok.
  - intros H'. by inv_ok.
Qed.

(** A block of a file. *)
Abbreviation blk := read_fs_block.

Lemma blk_slice data b x : blk data b = Ok x → x = slice (b * 4096) 4096 data.
Proof. unfold read_fs_block, read_at. case_match; [|done]. by intros [= <-]. Qed.

(** Readable blocks outside [P] are kept, and the file grows only to hold those in [P]. *)
Record keeps (P : Z → Prop) (data data' : bytes) : Prop := {
  kp_blocks : ∀ b x, 0 ≤ b → ¬ P b → blk data b = Ok x → blk data' b = Ok x;
  kp_grows : len data ≤ len data';
  kp_size : ∀ s, len data ≤ s → (∀ b, P b → (b + 1) * 4096 ≤ s) → len data' ≤ s;
}.

Lemma keeps_refl P data : keeps P data data.
Proof. by split. Qed.

Lemma keeps_trans (P Q R : Z → Prop) data data1 data2 :
  keeps P data data1 → keeps Q data1 data2 → (∀ b, P b ∨ Q b → R b) → keeps R data data2.
Proof.
  intros [H1 G1 S1] [H2 G2 S2] HR. split; [|lia|].
  - intros b x Hb Hn Hx. apply H2, H1; [done|..|done]; auto.
  - intros s Hs Hin. apply S2; [apply S1; [done|]|]; auto.
Qed.

Lemma keeps_mono (P R : Z → Prop) data data' :
  keeps P data data' → (∀ b, P b → R b) → keeps R data data'.
Proof.
  intros [H G S] HR. split; [|done|].
  - intros b x Hb Hn Hx. apply H; auto.
  - intros s Hs Hin. apply S; auto.
Qed.

(** A file that holds the blocks written keeps its size. *)
Lemma keeps_len (P : Z → Prop) data data' : keeps P data data' → (∀ b, P b → (b + 1) * 4096 ≤ len data) →
  len data' = len data.
Proof. intros [_ G S] H. specialize (S (len data) (Z.le_refl _) H). lia. Qed.

(** One block written. *)
Lemma pwrite_keeps is_block data b buf data' : 0 ≤ b → len buf = 4096 →
  pwrite_file is_block data (b * 4096) buf = (Ok tt, data') →
  blk data' b = Ok buf ∧ keeps (eq b) data data'.
Proof.
  intros Hb Hl E.
  assert (len data' = len data ∨ len data' = (b + 1) * 4096 ∧ len data ≤ len data') as Hlen.
  { unfold pwrite_file, write_at in E. rewrite Hl in E.
    destruct (Z.leb_spec (b * 4096 + 4096) (len data)); [injection E as <-|destruct is_block; [done|injection E as <-]].
    - left. apply len_splice; lia.
    - right. assert (len (data ++ zeros (b * 4096 + 4096 - len data)) = (b + 1) * 4096) as El
        by (rewrite len_app, len_zeros; lia). rewrite len_splice; lia. }
  apply pwrite_file_ok in E as [Hr Hk]; [|lia]. rewrite Hl in *. split; [done|]. split; [|lia|].
  - intros b' x Hb' Hne Hx. unfold read_fs_block, AETHERFS_DEF_BLOCK_SIZE in *. rewrite Hk; [done|lia..|].
    unfold read_at in Hx. destruct (Z.leb_spec (b' * 4096 + 4096) (len data)); [done|done].
  - intros s Hs Hin. specialize (Hin b eq_refl). lia.
Qed.

Lemma is_bytes_pwrite is_block data offset buf : is_bytes data → is_bytes buf →
  is_bytes (pwrite_file is_block data offset buf).2.
Proof.
  intros Hd Hb. unfold pwrite_file, write_at. repeat case_match; cbn [snd];
    eauto using is_bytes_splice, is_bytes_slice.
  apply is_bytes_splice; [done|]. apply Forall_app. split; [done|apply is_bytes_zeros].
Qed.

Section sole_image.
Context (image : aetherfs_image) (Hs : sole image) (d : disks) (data : bytes).
Context (Hd : d !! m_fd (get_member image 0) = Some data).

Lemma sole_physical b x : 0 ≤ b < 2 ^ 51 →
  aetherfs_image_read_physical_member d image 0 b = Ok x → blk data b = Ok x.
Proof.
  intros Hb (_ & _ & _ & data' & Hd' & Hr)%read_physical_ok.
  destruct (block_offset_small b Hb) as [Eo _]. rewrite Eo in Hr.
  rewrite Hd in Hd'. by injection Hd' as <-.
Qed.

Lemma sole_read_inv b x : 0 ≤ b < 2 ^ 51 →
  aetherfs_image_read_block d image b = Ok x → blk data b = Ok x.
Proof.
  intros Hb. unfold aetherfs_image_read_block.
  destruct (Z.ltb_spec b AETHERFS_DATA_START_BLOCK) as [Hlt|Hge];
    unfold AETHERFS_DATA_START_BLOCK in *.
  - rewrite (sole_role_mask _ _ Hs).
    change (seqZ 0 (aetherfs_mask_count 1)) with [0]. cbn [read_replicas].
    change (aetherfs_mask_nth 1 0) with 0. cbn [Z.ltb Z.compare].
    destruct (aetherfs_image_read_physical_member d image 0 b) as [y|] eqn:E; [|done].
    intros [= <-]. by apply sole_physical.
  - intros (m & Hm & Hr)%bind_ok. apply sole_map in Hm as [Ei Eb]; [|done|lia].
    rewrite Ei, Eb in Hr. by apply sole_physical.
Qed.

Lemma sole_write_physical b buf d' : 0 ≤ b < 2 ^ 51 → len buf = 4096 →
  aetherfs_image_write_physical_member d image 0 b buf = (Ok tt, d') →
  ∃ data', d' = <[m_fd (get_member image 0) := data']> d ∧ blk data' b = Ok buf ∧
    keeps (eq b) data data'.
Proof.
  intros Hb Hl. destruct Hs as [Hc Hf _].
  unfold aetherfs_image_write_physical_member, aetherfs_member_write_block.
  rewrite Hc, Hd. change (1 <=? 0) with false. rewrite (proj2 (Z.ltb_ge _ _) Hf).
  destruct (block_offset_small b Hb) as [-> _].
  assert (off_t_ok (b * 4096) = true) as -> by (unfold off_t_ok; apply Z.ltb_lt; lia).
  cbn [negb]. destruct (pwrite_file _ data (b * 4096) buf) as [[[]|] data'] eqn:Ew; [|done].
  intros [= <-]. exists data'. split; [done|].
  by apply (pwrite_keeps _ _ _ _ _ (proj1 Hb) Hl) in Ew as [Hr Hk].
Qed.

Lemma sole_write b buf d' : 0 ≤ b < 2 ^ 51 → len buf = 4096 →
  aetherfs_image_write_block d image b buf = (Ok tt, d') →
  ∃ data', d' = <[m_fd (get_member image 0) := data']> d ∧ blk data' b = Ok buf ∧
    keeps (eq b) data data'.
Proof.
  intros Hb Hl. unfold aetherfs_image_write_block.
  destruct (writable image); [|done]. cbn [negb].
  destruct (Z.ltb_spec b AETHERFS_DATA_START_BLOCK) as [Hlt|Hge];
    unfold AETHERFS_DATA_START_BLOCK in *.
  - rewrite (sole_role_mask _ _ Hs). change (1 =? 0) with false.
    change (seqZ 0 (aetherfs_mask_count 1)) with [0]. cbn [write_replicas].
    change (aetherfs_mask_nth 1 0) with 0. cbn [Z.ltb Z.compare].
    destruct (aetherfs_image_write_physical_member d image 0 b buf) as [[[]|] d1] eqn:E; [|done].
    intros [= <-]. by apply sole_write_physical.
  - destruct (aetherfs_pool_map_data_block image b) as [m|] eqn:Em; [|done].
    pose proof (sole_map image b m Hs ltac:(lia) Em) as [Ei Eb].
    rewrite Ei, Eb, (sole_data_mask _ Hs).
    change (seqZ 0 (aetherfs_mask_count 1)) with [0].
    destruct (_ || _); [by apply sole_write_physical|].
    destruct (_ =? AETHERFS_POOL_PROFILE_MIRROR).
    + cbn [write_replicas]. change (aetherfs_mask_nth 1 0) with 0. cbn [Z.ltb Z.compare].
      destruct (aetherfs_image_write_physical_member d image 0 b buf) as [[[]|] d1] eqn:E; [|done].
      intros [= <-]. by apply sole_write_physical.
    + destruct (Z.eqb_spec (aetherfs_pool_profile image) AETHERFS_POOL_PROFILE_PARITY) as [Ep|];
        [|done].
      exfalso. revert Em. unfold aetherfs_pool_map_data_block. rewrite Ep.
      change (aetherfs_pool_map_parity image b = Ok m → False).
      unfold aetherfs_pool_map_parity. rewrite (sole_data_mask _ Hs). done.
Qed.
End sole_image.

(** ** Copying between two files *)

Section copy.
Context (src : aetherfs_image) (Hsrc : sole src) (ft : Z) (d0 : disks) (sdata : bytes).
Context (Hsd : d0 !! m_fd (get_member src 0) = Some sdata) (Hne : m_fd (get_member src 0) ≠ ft).

(** The descriptor table with the target's contents. *)
Definition at_target (data : bytes) : disks := <[ft := data]> d0.

Lemma read_src data b x : 0 ≤ b < 2 ^ 51 →
  aetherfs_image_read_block (at_target data) src b = Ok x → blk sdata b = Ok x.
Proof.
  intros Hb. apply sole_read_inv; [done| |done]. unfold at_target. by rewrite lookup_insert_ne.
Qed.

Section target.
Context (tgt : aetherfs_image) (Htgt : sole tgt) (Hft : m_fd (get_member tgt 0) = ft).

Lemma read_tgt data b x : 0 ≤ b < 2 ^ 51 →
  aetherfs_image_read_block (at_target data) tgt b = Ok x → blk data b = Ok x.
Proof.
  intros Hb. apply sole_read_inv; [done| |done]. rewrite Hft. apply lookup_insert_eq.
Qed.

Lemma write_tgt data b buf d' : 0 ≤ b < 2 ^ 51 → len buf = 4096 →
  aetherfs_image_write_block (at_target data) tgt b buf = (Ok tt, d') →
  ∃ data', d' = at_target data' ∧ blk data' b = Ok buf ∧ keeps (eq b) data data'.
Proof.
  intros Hb Hl H. apply (sole_write tgt Htgt _ data) in H as (data' & -> & Hr & Hk);
    [|rewrite Hft; apply lookup_insert_eq|done|done].
  exists data'. rewrite Hft. split; [apply insert_insert_eq|]. by split.
Qed.

(** The blocks [start .. start + n - 1]. *)
Definition range (start n b : Z) : Prop := start ≤ b < start + n.

(** The file holds the blocks [xs] from block [q] on. *)
Definition holds (data : bytes) (q : Z) (xs : list bytes) : Prop :=
  ∀ k x, xs !! k = Some x → blk data (q + Z.of_nat k) = Ok x.

Lemma holds_nil data q : holds data q [].
Proof. by intros k x. Qed.

Lemma holds_cons data q x xs :
  holds data q (x :: xs) ↔ blk data q = Ok x ∧ holds data (q + 1) xs.
Proof.
  split.
  - intros H. split; [by rewrite <-(Z.add_0_r q); apply (H 0%nat)|].
    intros k y Hk. rewrite <-(H (S k) y Hk). f_equal. lia.
  - intros [H0 H] [|k] y; [by intros [= <-]; rewrite Z.add_0_r|].
    intros Hk. rewrite <-(H k y Hk). f_equal. lia.
Qed.

Lemma holds_app data q xs ys :
  holds data q (xs ++ ys) ↔ holds data q xs ∧ holds data (q + len xs) ys.
Proof.
  revert q. induction xs as [|x xs IH]; intros q; simpl.
  - unfold len. simpl. rewrite Z.add_0_r. split; [by split; [apply holds_nil|]|by intros []].
  - rewrite !holds_cons, IH. unfold len. simpl.
    replace (q + 1 + Z.of_nat (length xs)) with (q + Z.of_nat (S (length xs))) by lia. tauto.
Qed.

Lemma holds_keeps P data data' q xs : 0 ≤ q → holds data q xs → keeps P data data' →
  (∀ b, range q (len xs) b → ¬ P b) → holds data' q xs.
Proof.
  intros Hq Hh Hk Hn k x Hx. apply (kp_blocks _ _ _ Hk); [lia| |by apply Hh]. apply Hn.
  apply lookup_lt_Some in Hx. unfold range, len. lia.
Qed.

(** The blocks of an extent. *)
Definition extent_blocks (data : bytes) (e : aetherfs_extent) : list bytes :=
  map (λ k, slice ((e_pstart e + k) * AETHERFS_DEF_BLOCK_SIZE) AETHERFS_DEF_BLOCK_SIZE data)
    (seqZ 0 (e_len e)).

Lemma copy_extent_ok n : ∀ i data p q r d',
  0 ≤ i → 0 ≤ p → p + i + Z.of_nat n ≤ 2 ^ 51 → 0 ≤ q → q + Z.of_nat n ≤ 2 ^ 51 →
  copy_extent (seqZ i (Z.of_nat n)) (at_target data) src tgt p q = (Ok r, d') →
  r = q + Z.of_nat n ∧ ∃ data', d' = at_target data' ∧
    keeps (range q (Z.of_nat n)) data data' ∧
    holds data' q (map (λ k, slice ((p + k) * 4096) 4096 sdata) (seqZ i (Z.of_nat n))).
Proof.
  induction n as [|n IH]; intros i data p q r d' Hi Hp Hpn Hq Hqn.
  { change (seqZ i (Z.of_nat 0)) with (@nil Z). cbn [copy_extent]. intros [= <- <-]. split; [lia|].
    exists data. split; [done|]. split; [apply keeps_refl|apply holds_nil]. }
  rewrite seqZ_cons by lia. cbn [copy_extent]. rewrite (u64_small (p + i)) by (unfold is_u64; lia).
  destruct (aetherfs_image_read_block _ src (p + i)) as [x|] eqn:Er; [|done].
  pose proof (read_block_len _ _ _ _ Er) as Hlx.
  apply read_src in Er; [|lia].
  destruct (aetherfs_image_write_block _ tgt q x) as [[[]|] d1] eqn:Ew; [|done].
  apply write_tgt in Ew as (data1 & -> & Hx & Hk1); [|lia|done].
  rewrite (u64_small (q + 1)) by (unfold is_u64; lia).
  replace (Z.pred (Z.of_nat (S n))) with (Z.of_nat n) by lia.
  intros H. apply IH in H as (-> & data' & -> & Hk2 & Hc); [|lia..].
  split; [lia|]. exists data'. split; [done|]. split.
  - eapply keeps_trans; [exact Hk1|exact Hk2|]. unfold range. intros b [<-|?]; lia.
  - cbn [map]. apply holds_cons. split; [|exact Hc].
    rewrite <-(blk_slice _ _ _ Er). apply (kp_blocks _ _ _ Hk2); [lia| |done]. unfold range. lia.
Qed.

(** What [aetherfs_image_validate] guarantees of each extent of a source file. *)
Definition extent_bounded (e : aetherfs_extent) : Prop :=
  0 ≤ e_pstart e ∧ 0 ≤ e_len e ∧ e_pstart e + e_len e ≤ 2 ^ 51.

Lemma len_extent_blocks data e : 0 ≤ e_len e → len (extent_blocks data e) = e_len e.
Proof. intros H. unfold len, extent_blocks. rewrite length_map, length_seqZ. lia. Qed.

Lemma len_flat_extents data es : Forall extent_bounded es →
  len (flat_map (extent_blocks data) es) = extents_len es ∧ 0 ≤ extents_len es.
Proof.
  induction 1 as [|e es (_ & He & _) _ [IH1 IH2]]; [done|]. cbn [flat_map extents_len foldr].
  fold (extents_len es). rewrite len_app, IH1, len_extent_blocks by done. lia.
Qed.

Lemma copy_extents_ok es : ∀ data q r d', Forall extent_bounded es →
  0 ≤ q → q + extents_len es ≤ 2 ^ 51 →
  copy_extents es (at_target data) src tgt q = (Ok r, d') →
  ∃ data', d' = at_target data' ∧ keeps (range q (extents_len es)) data data' ∧
    holds data' q (flat_map (extent_blocks sdata) es).
Proof.
  induction es as [|e es IH]; intros data q r d' Hes Hq Hqn; cbn [copy_extents].
  { intros [= <- <-]. exists data. split; [done|]. split; [apply keeps_refl|apply holds_nil]. }
  apply Forall_cons in Hes as [(Hp & Hl & Hpl) Hes].
  destruct (len_flat_extents sdata es Hes) as [Hlen Hnn].
  cbn [extents_len foldr] in *. fold (extents_len es) in *.
  destruct (copy_extent _ _ _ _ _ _) as [[q1|] d1] eqn:E1; [|done].
  rewrite <-(Z2Nat.id (e_len e)) in E1 by done.
  apply copy_extent_ok in E1 as (-> & data1 & -> & Hk1 & Hh1); [|lia..].
  rewrite Z2Nat.id in * by done. intros H.
  apply IH in H as (data' & -> & Hk2 & Hh2); [|done|lia|lia].
  exists data'. split; [done|]. split.
  - eapply keeps_trans; [exact Hk1|exact Hk2|]. unfold range. intros b [?|?]; lia.
  - cbn [flat_map]. apply holds_app. rewrite len_extent_blocks by done. split; [|exact Hh2].
    eapply holds_keeps; [done|exact Hh1|exact Hk2|].
    rewrite len_extent_blocks by done. unfold range. lia.
Qed.

(** ** The checksum chain *)

(** The number of checksum blocks for [n] data blocks. *)
Definition chain_len (n : Z) : Z := (n + 1019) / 1020.

Lemma sum_blocks_length is_ data q sums :
  sum_blocks is_ (at_target data) tgt q = Ok sums → length sums = length is_.
Proof.
  revert sums. induction is_ as [|i is_ IH]; intros sums; cbn [sum_blocks].
  { by intros [= <-]. }
  intros (x & _ & (l & Hl & [= <-])%bind_ok)%bind_ok. simpl. f_equal. by apply IH.
Qed.

Lemma chain_loop_total fuel : ∀ d q n c, 0 ≤ n → (Z.to_nat n ≤ fuel)%nat →
  is_Some (chain_loop fuel d tgt q n c).
Proof.
  induction fuel as [|fuel IH]; intros d q n c Hn Hf; cbn [chain_loop];
    destruct (Z.eqb_spec n 0); [by eexists|lia|by eexists|].
  destruct (sum_blocks _ _ _ _); [|by eexists].
  destruct (aetherfs_write_checksum_block _ _ _ _) as [[[]?]?]; [|by eexists].
  unfold AETHERFS_CHECKSUMS_PER_BLOCK.
  apply IH; destruct (Z.ltb_spec 1020 n); lia.
Qed.

Lemma len_encode_sums (b : aetherfs_checksum_block) :
  length (cb_sums b) = 1020%nat → len (encode b) = 4096.
Proof.
  intros Hl. unfold len, encode. cbn [layout checksum_block_on_disk].
  change (Z.of_nat (length (le_bytes 8 (cb_next b) ++ le_bytes 4 (cb_entries b) ++
    le_bytes 4 (cb_checksum b) ++ flat_map (le_bytes 4) (cb_sums b))) = 4096).
  rewrite !length_app, !length_le_bytes.
  assert (∀ l, length (flat_map (le_bytes 4) l) = (4 * length l)%nat) as ->; [|lia].
  induction l as [|z l IH]; [done|]. cbn [flat_map]. rewrite length_app, length_le_bytes, IH.
  simpl. lia.
Qed.

Lemma chain_len_step n : 0 < n →
  chain_len n = 1 + chain_len (n - (if 1020 <? n then 1020 else n)).
Proof.
  intros Hn. unfold chain_len. destruct (Z.ltb_spec 1020 n).
  - replace (n + 1019) with ((n - 1020 + 1019) + 1 * 1020) by lia. rewrite Z.div_add by lia. lia.
  - replace (n - n + 1019) with 1019 by lia. change (1019 / 1020) with 0.
    assert ((n + 1019) / 1020 = 1); [|lia]. symmetry. apply Z.div_unique with (n - 1); lia.
Qed.

Lemma chain_loop_ok fuel : ∀ data q n c d',
  0 ≤ q → 0 ≤ n → q + n ≤ 2 ^ 51 → 0 ≤ c → c + chain_len n ≤ 2 ^ 51 →
  chain_loop fuel (at_target data) tgt q n c = Some (Ok tt, d') →
  ∃ data', d' = at_target data' ∧ keeps (range c (chain_len n)) data data'.
Proof.
  induction fuel as [|fuel IH]; intros data q n c d' Hq Hn Hqn Hc Hcn; cbn [chain_loop];
    destruct (Z.eqb_spec n 0) as [->|].
  1,3: intros [= <-]; exists data; (split; [done|]); apply keeps_refl.
  { done. }
  rewrite chain_len_step in * by lia. unfold AETHERFS_CHECKSUMS_PER_BLOCK in *.
  set (k := if 1020 <? n then 1020 else n) in *.
  assert (0 < k ≤ n ∧ k ≤ 1020) as [Hk Hk'] by (unfold k; destruct (Z.ltb_spec 1020 n); lia).
  assert (0 ≤ chain_len (n - k)) by (apply Z.div_pos; lia).
  destruct (sum_blocks _ _ _ _) as [sums|] eqn:Es; [|done].
  apply sum_blocks_length in Es. rewrite length_seqZ in Es.
  unfold aetherfs_write_checksum_block. set (b := set_cb_checksum _ _).
  assert (len (encode b) = 4096) as Hlb.
  { apply len_encode_sums. unfold b, chain_block. cbn [set_cb_checksum cb_sums].
    rewrite length_app, length_replicate, Es. unfold AETHERFS_CHECKSUMS_PER_BLOCK. lia. }
  destruct (aetherfs_image_write_block _ tgt c (encode b)) as [[[]|] d1] eqn:Ew; [|done].
  apply write_tgt in Ew as (data1 & -> & _ & Hk1); [|lia|done].
  rewrite (u64_small (q + k)), (u64_small (c + 1)) by (unfold is_u64; lia). intros H'.
  apply IH in H' as (data' & -> & Hk2); [|lia..].
  exists data'. split; [done|]. eapply keeps_trans; [exact Hk1|exact Hk2|].
  unfold range. intros x [<-|?]; lia.
Qed.

Lemma write_chain_ok data q n c d' : 0 ≤ q → 0 ≤ n → q + n ≤ 2 ^ 51 → 0 ≤ c →
  c + chain_len n ≤ 2 ^ 51 →
  aetherfs_write_checksum_chain (at_target data) tgt q n c = (Ok tt, d') →
  ∃ data', d' = at_target data' ∧ keeps (range c (chain_len n)) data data'.
Proof.
  intros Hq Hn Hqn Hc Hcn. unfold aetherfs_write_checksum_chain.
  destruct (chain_loop_total (Z.to_nat n) (at_target data) q n c Hn ltac:(lia)) as [r Hr].
  rewrite Hr. simpl. intros ->. by apply chain_loop_ok in Hr.
Qed.
End target.
End copy.

(** ** Files *)

(** The extents of the file whose extent node is in block [root]. *)
Definition extents_at (data : bytes) (root : Z) : list aetherfs_extent :=
  let node := decode (slice (root * AETHERFS_DEF_BLOCK_SIZE) AETHERFS_DEF_BLOCK_SIZE data) in
  take (Z.to_nat (en_count node)) (en_extents node).

(** The contents of a file, block by block. *)
Definition contents (data : bytes) (root : Z) : list bytes :=
  flat_map (extent_blocks data) (extents_at data root).

(** What the validation of the source guarantees of a regular file. *)
Definition file_sane (data : bytes) (inode : aetherfs_inode) : Prop :=
  0 ≤ i_extent_root inode < 2 ^ 51 ∧
  Forall extent_bounded (extents_at data (i_extent_root inode)) ∧
  i_blocks inode = extents_len (extents_at data (i_extent_root inode)) ∧
  i_blocks inode ≤ 2 ^ 51.

(** A file rebuilt at [root]: its one extent starts behind the node. *)
Definition rebuilt_at (data : bytes) (root : Z) (xs : list bytes) : Prop :=
  ∃ csum_start, is_u64 csum_start ∧
    blk data root = Ok (encode (seal (one_extent (root + 1) csum_start (len xs)))) ∧
    holds data (root + 1) xs.

Lemma one_extent_wf p c n : is_u64 p → is_u64 c → is_u64 n → wf (one_extent p c n).
Proof.
  intros Hp Hc Hn.
  assert (Forall wf (Extent 0 p c n 0 0 :: replicate 101 (zeroed : aetherfs_extent))) as H.
  { constructor; [|apply Forall_replicate, zeroed_wf]. cbn. solve_fields. }
  unfold one_extent. change (Z.to_nat (AETHERFS_EXTENT_LOG_MAX - 1)) with 101%nat.
  cbn -[zeros replicate zeroed]. solve_fields.
Qed.

Lemma rebuilt_contents data root xs : 0 ≤ root < 2 ^ 51 → len xs ≤ 2 ^ 51 →
  rebuilt_at data root xs → contents data root = xs.
Proof.
  intros Hr Hl (cs & Hcs & Hb & Hh). pose proof (len_nonneg xs).
  assert (wf (one_extent (root + 1) cs (len xs))) as Hw
    by (apply one_extent_wf; unfold is_u64 in *; lia).
  unfold contents, extents_at. apply blk_slice in Hb. unfold AETHERFS_DEF_BLOCK_SIZE.
  rewrite <-Hb. rewrite (decode_encode _ (seal_wf _ Hw)).
  change (take _ _) with [Extent 0 (root + 1) cs (len xs) 0 0]. cbn [flat_map].
  rewrite app_nil_r. apply list_eq. intros k. unfold extent_blocks. cbn [e_pstart e_len].
  destruct (xs !! k) as [x|] eqn:Ek.
  - apply list_lookup_fmap_Some. exists (Z.of_nat k). apply lookup_lt_Some in Ek as Hlt. split.
    + apply Hh, blk_slice in Ek. exact Ek.
    + apply lookup_seqZ. unfold len. lia.
  - apply lookup_ge_None in Ek. apply lookup_ge_None. rewrite length_map, length_seqZ.
    unfold len. lia.
Qed.

Lemma rebuilt_keeps P data data' root xs : 0 ≤ root → rebuilt_at data root xs →
  keeps P data data' → (∀ b, range root (1 + len xs) b → ¬ P b) → rebuilt_at data' root xs.
Proof.
  intros Hr (cs & Hcs & Hb & Hh) Hk Hn. pose proof (len_nonneg xs). exists cs. split; [done|]. split.
  - apply (kp_blocks _ _ _ Hk); [done| |done]. apply Hn. unfold range. lia.
  - eapply holds_keeps; [lia|exact Hh|exact Hk|]. intros b Hb'. apply Hn. unfold range in *. lia.
Qed.

Section move.
Context (src : aetherfs_image) (Hsrc : sole src) (ft : Z) (d0 : disks) (sdata : bytes).
Context (Hsd : d0 !! m_fd (get_member src 0) = Some sdata) (Hne : m_fd (get_member src 0) ≠ ft).

(** The node of a file is the one its root block holds. *)
Lemma read_node_src data root node : 0 ≤ root < 2 ^ 51 →
  rebalance_read_extent_node (at_target ft d0 data) src root = Ok node →
  take (Z.to_nat (en_count node)) (en_extents node) = extents_at sdata root.
Proof.
  intros Hroot Er. unfold rebalance_read_extent_node in Er. apply bind_ok in Er as (buf & Hbuf & Er).
  apply reject_ok in Er as [_ Er]. apply reject_ok in Er as [_ Er]. injection Er as <-.
  apply (read_src src Hsrc ft d0 sdata Hsd Hne) in Hbuf; [|lia]. apply blk_slice in Hbuf. by subst buf.
Qed.

Lemma chain_len_bounds n : 0 ≤ n → 0 ≤ chain_len n ≤ n + 1019.
Proof. intros Hn. unfold chain_len. split; [apply Z.div_pos; lia|]. apply Z.div_le_upper_bound; lia. Qed.

Lemma move_file_ok data index st st' d' :
  sole (rb_target st) → m_fd (get_member (rb_target st) 0) = ft →
  file_sane sdata (inode_at src index) → 8 ≤ rb_next st → blocks (rb_target st) ≤ 2 ^ 51 →
  rb_next st ≤ blocks (rb_target st) →
  move_file (at_target ft d0 data) src index st = (Ok st', d') →
  let xs := contents sdata (i_extent_root (inode_at src index)) in
  rb_target st' =
    set_inode index (repoint (rb_next st) (inode_at (rb_target st) index)) (rb_target st) ∧
  rb_next st + 1 + len xs ≤ rb_next st' ≤ blocks (rb_target st) ∧
  ∃ data', d' = at_target ft d0 data' ∧
    keeps (λ b, rb_next st ≤ b < rb_next st') data data' ∧ rebuilt_at data' (rb_next st) xs.
Proof.
  intros Ht Hft (Hroot & Hes & Hib & Hmax) H8 Hblocks Hnb.
  unfold move_file. set (inode := inode_at src index) in *.
  destruct (rebalance_read_extent_node _ src (i_extent_root inode)) as [node|] eqn:Er; [|done].
  apply (read_node_src data) in Er; [|done].
  set (es := extents_at sdata (i_extent_root inode)) in *.
  destruct (len_flat_extents sdata es Hes) as [Hlen Hnn].
  rewrite (u64_small (rb_next st + 1)) by (unfold is_u64; lia).
  rewrite (u64_small (rb_next st + 1 + _)) by (unfold is_u64; lia).
  unfold AETHERFS_CHECKSUMS_PER_BLOCK. replace (i_blocks inode + 1020 - 1) with (i_blocks inode + 1019)
    by lia. rewrite (u64_small (i_blocks inode + 1019)) by (unfold is_u64; lia).
  fold (chain_len (i_blocks inode)). set (n := i_blocks inode) in *.
  pose proof (chain_len_bounds n ltac:(lia)) as Hch.
  rewrite (u64_small (rb_next st + 1 + n + _)) by (unfold is_u64; lia).
  destruct (Z.ltb_spec (blocks (rb_target st)) (rb_next st + 1 + n + chain_len n)); [done|].
  unfold aetherfs_copy_file_data.
  rewrite Er. fold es.
  destruct (copy_extents es _ _ _ _) as [[r|] d1] eqn:Ec; [|done].
  apply (copy_extents_ok src Hsrc ft d0 sdata Hsd Hne _ Ht Hft) in Ec as (data1 & -> & Hk1 & Hh1);
    [|done|lia|lia].
  destruct (aetherfs_write_checksum_chain _ _ _ _ _) as [[[]|] d2] eqn:Ew; [|done].
  apply (write_chain_ok ft d0 _ Ht Hft) in Ew as (data2 & -> & Hk2); [|lia..].
  unfold aetherfs_write_extent_node.
  change (set_en_checksum _ _) with (seal (one_extent (rb_next st + 1) (rb_next st + 1 + n) n)).
  assert (wf (one_extent (rb_next st + 1) (rb_next st + 1 + n) n)) as Hw
    by (apply one_extent_wf; unfold is_u64; lia).
  destruct (aetherfs_image_write_block _ _ (rb_next st) _) as [[[]|] d3] eqn:Ee; [|done].
  apply (write_tgt ft d0 _ Ht Hft) in Ee as (data3 & -> & Hb3 & Hk3);
    [|lia|rewrite (len_encode _ (seal_wf _ Hw)); apply sizeof_extent_node].
  intros [= <- <-]. cbn [rb_target rb_next].
  set (xs := contents sdata (i_extent_root inode)) in *. assert (len xs = n) as Hxs
    by (rewrite Hib; exact Hlen).
  split; [done|]. split; [lia|]. exists data3. split; [done|]. split.
  - eapply keeps_trans; [eapply keeps_trans; [exact Hk1|exact Hk2|]|exact Hk3|].
    + intros b Hb. exact Hb.
    + unfold range. intros b [[?|?]|<-]; lia.
  - exists (rb_next st + 1 + n). split; [unfold is_u64; lia|]. rewrite Hxs. split; [done|].
    eapply holds_keeps; [lia| |exact Hk3|unfold range; lia].
    eapply holds_keeps; [lia|exact Hh1|exact Hk2|].
    fold (contents sdata (i_extent_root inode)). fold xs. unfold range. lia.
Qed.

(** Only the inode table differs. *)
Definition only_inodes (T T' : aetherfs_image) : Prop :=
  T' = set_inode_table (inode_table T') T ∧ length (inode_table T') = length (inode_table T).

Lemma only_inodes_refl T : only_inodes T T.
Proof. split; [|done]. by destruct T. Qed.

Lemma only_inodes_trans T1 T2 T3 : only_inodes T1 T2 → only_inodes T2 T3 → only_inodes T1 T3.
Proof.
  intros [E1 L1] [E2 L2]. split; [|congruence]. rewrite E2 at 1. rewrite E1. reflexivity.
Qed.

Lemma only_set_inode i x T : only_inodes T (set_inode i x T).
Proof. split; [reflexivity|]. cbn. apply length_insert. Qed.

Lemma only_inodes_pool T T' : only_inodes T T' → same_pool T' T.
Proof. intros [-> _]. done. Qed.

Lemma inode_at_set i j x T : 0 ≤ i < len (inode_table T) → 0 ≤ j →
  inode_at (set_inode i x T) j = if decide (j = i) then x else inode_at T j.
Proof.
  intros Hi Hj. unfold inode_at, set_inode. cbn [inode_table set_inode_table].
  unfold len in *. rewrite length_insert. destruct (decide (j = i)) as [->|Hn].
  - rewrite (proj2 (Z.ltb_lt _ _)) by lia. by rewrite list_lookup_insert_eq by lia.
  - case_match; [|done]. by rewrite list_lookup_insert_ne by lia.
Qed.

Lemma regular_in_table T i : S_ISREG (i_mode (inode_at T i)) = true → i < len (inode_table T).
Proof.
  unfold inode_at. destruct (Z.ltb_spec i (len (inode_table T))); [done|].
  by vm_compute (S_ISREG _).
Qed.

(** The regular files a target lists. *)
Definition is_file (T : aetherfs_image) (i : Z) : bool :=
  aetherfs_image_bitmap_test (inode_bitmap T) i && S_ISREG (i_mode (inode_at T i)).

(** What the loop has done to inode [i], starting at block [lo], by block [hi]. *)
Definition inode_done (T T' : aetherfs_image) (lo hi : Z) (data : bytes) (i : Z) : Prop :=
  if is_file T i then
    if i_blocks (inode_at src i) =? 0 then inode_at T' i = repoint 0 (inode_at T i)
    else ∃ root, let xs := contents sdata (i_extent_root (inode_at src i)) in
      inode_at T' i = repoint root (inode_at T i) ∧
      lo ≤ root ∧ root + 1 + len xs ≤ hi ∧ rebuilt_at data root xs
  else inode_at T' i = inode_at T i.

Lemma rebuild_inode_ok data index st st' d' :
  sole (rb_target st) → m_fd (get_member (rb_target st) 0) = ft → 0 ≤ index →
  (is_file (rb_target st) index = true → file_sane sdata (inode_at src index)) →
  8 ≤ rb_next st → blocks (rb_target st) ≤ 2 ^ 51 → rb_next st ≤ blocks (rb_target st) →
  rebuild_inode (at_target ft d0 data) src index st = (Ok st', d') →
  only_inodes (rb_target st) (rb_target st') ∧
  rb_next st ≤ rb_next st' ≤ blocks (rb_target st) ∧
  (∀ j, 0 ≤ j → j ≠ index → inode_at (rb_target st') j = inode_at (rb_target st) j) ∧
  ∃ data', d' = at_target ft d0 data' ∧ keeps (λ b, rb_next st ≤ b < rb_next st') data data' ∧
    inode_done (rb_target st) (rb_target st') (rb_next st) (rb_next st') data' index.
Proof.
  intros Ht Hft Hi Hsane H8 Hb Hnb. unfold rebuild_inode, inode_done, is_file in *.
  destruct (aetherfs_image_bitmap_test _ index); cbn [negb andb] in *.
  2:{ intros [= <- <-]. split; [apply only_inodes_refl|]. split; [lia|]. split; [done|].
      exists data. split; [done|]. split; [apply keeps_refl|done]. }
  destruct (S_ISREG _) eqn:Ereg; cbn [negb].
  2:{ intros [= <- <-]. split; [apply only_inodes_refl|]. split; [lia|]. split; [done|].
      exists data. split; [done|]. split; [apply keeps_refl|done]. }
  pose proof (regular_in_table _ _ Ereg) as Hlt.
  assert (∀ x j, 0 ≤ j → j ≠ index →
    inode_at (set_inode index x (rb_target st)) j = inode_at (rb_target st) j) as Hother.
  { intros x j Hj Hn. rewrite inode_at_set by lia. by rewrite decide_False. }
  assert (∀ x, inode_at (set_inode index x (rb_target st)) index = x) as Hsame.
  { intros x. rewrite inode_at_set by lia. by rewrite decide_True. }
  destruct (i_blocks (inode_at src index) =? 0).
  - intros [= <- <-]. cbn [rb_target rb_next]. split; [apply only_set_inode|]. split; [lia|].
    split; [by apply Hother|]. exists data. split; [done|]. split; [apply keeps_refl|apply Hsame].
  - intros H. apply move_file_ok in H as (-> & Hn & data' & -> & Hk & Hr); try done; [|by apply Hsane].
    pose proof (len_nonneg (contents sdata (i_extent_root (inode_at src index)))).
    split; [apply only_set_inode|]. split; [lia|]. split; [by apply Hother|].
    exists data'. split; [done|]. split; [eapply keeps_mono; [exact Hk|simpl; lia]|].
    exists (rb_next st). split; [apply Hsame|]. split; [lia|]. split; [lia|done].
Qed.

Lemma inode_done_keeps T T' T2 lo hi hi' data data' i :
  0 ≤ lo → hi ≤ hi' → inode_at T2 i = inode_at T' i →
  keeps (λ b, hi ≤ b < hi') data data' → inode_done T T' lo hi data i → inode_done T T2 lo hi' data' i.
Proof.
  intros Hlo Hh E Hk. unfold inode_done. rewrite E. case_match; [|done]. case_match; [done|].
  intros (root & H1 & H2 & H3 & H4). exists root. split; [done|]. split; [done|]. split; [lia|].
  eapply rebuilt_keeps; [lia|exact H4|exact Hk|]. simpl. unfold range. lia.
Qed.

Lemma inode_done_ext T T0 T' lo lo' hi data i :
  inode_bitmap T = inode_bitmap T0 → inode_at T i = inode_at T0 i → lo' ≤ lo →
  inode_done T T' lo hi data i → inode_done T0 T' lo' hi data i.
Proof.
  intros Eb Ei Hl. unfold inode_done, is_file. rewrite Eb, Ei. case_match; [|done].
  case_match; [done|]. intros (root & H1 & H2 & H3). exists root. split; [done|]. split; [lia|done].
Qed.

Lemma rebuild_inodes_ok indices : ∀ data st st' d',
  sole (rb_target st) → m_fd (get_member (rb_target st) 0) = ft →
  Forall (λ i, 0 ≤ i) indices → NoDup indices →
  Forall (λ i, is_file (rb_target st) i = true → file_sane sdata (inode_at src i)) indices →
  8 ≤ rb_next st → blocks (rb_target st) ≤ 2 ^ 51 → rb_next st ≤ blocks (rb_target st) →
  rebuild_inodes indices (at_target ft d0 data) src st = (Ok st', d') →
  only_inodes (rb_target st) (rb_target st') ∧
  rb_next st ≤ rb_next st' ≤ blocks (rb_target st) ∧
  (∀ j, 0 ≤ j → j ∉ indices → inode_at (rb_target st') j = inode_at (rb_target st) j) ∧
  ∃ data', d' = at_target ft d0 data' ∧ keeps (λ b, rb_next st ≤ b < rb_next st') data data' ∧
    Forall (inode_done (rb_target st) (rb_target st') (rb_next st) (rb_next st') data') indices.
Proof.
  induction indices as [|i indices IH]; intros data st st' d' Ht Hft Hpos Hnd Hsane H8 Hb Hnb;
    cbn [rebuild_inodes].
  { intros [= <- <-]. split; [apply only_inodes_refl|]. split; [lia|]. split; [done|].
    exists data. split; [done|]. split; [apply keeps_refl|constructor]. }
  apply Forall_cons in Hpos as [Hi Hpos]. apply NoDup_cons in Hnd as [Hni Hnd].
  apply Forall_cons in Hsane as [Hsi Hsane].
  destruct (rebuild_inode _ src i st) as [[st1|] d1] eqn:E1; [|done].
  apply rebuild_inode_ok in E1 as (Ho1 & Hn1 & Hj1 & data1 & -> & Hk1 & Hd1); [|done..].
  pose proof (only_inodes_pool _ _ Ho1) as Hp1.
  assert (blocks (rb_target st1) = blocks (rb_target st)) as Eb by (destruct Ho1 as [-> _]; done).
  assert (inode_bitmap (rb_target st1) = inode_bitmap (rb_target st)) as Ebm
    by (destruct Ho1 as [-> _]; done).
  intros H. apply IH in H as (Ho2 & Hn2 & Hj2 & data' & -> & Hk2 & Hd2);
    [|by rewrite Hp1| |done|done| |lia|lia|lia].
  2:{ destruct Hp1 as (_ & Hm & _). unfold get_member in *. by rewrite Hm. }
  2:{ apply Forall_forall. intros j Hj Hf. rewrite Forall_forall in Hsane, Hpos.
      apply Hsane; [done|]. revert Hf. unfold is_file. rewrite Ebm, Hj1; [done|by apply Hpos|].
      intros ->. done. }
  split; [by eapply only_inodes_trans|]. split; [lia|]. split.
  { intros j Hj Hnj. apply not_elem_of_cons in Hnj as [Hn Hnj]. by rewrite Hj2, Hj1. }
  exists data'. split; [done|]. split.
  { eapply keeps_trans; [exact Hk1|exact Hk2|]. simpl. intros b [?|?]; lia. }
  constructor.
  - eapply inode_done_keeps; [| |apply Hj2; [done|exact Hni]|exact Hk2|exact Hd1]; lia.
  - apply Forall_forall. intros j Hj. rewrite Forall_forall in Hd2, Hpos.
    eapply inode_done_ext; [exact Ebm| |apply Hn1|by apply Hd2].
    apply Hj1; [by apply Hpos|]. intros ->. done.
Qed.
End move.
