(* ===== verification/Preserved.v ===== *)
(** * Rebalancing preserves the files

    The whole command on a regular file: what the validation of the source guarantees of
    its files, the metadata writes, and the inode table before and after.  A successful
    rebalance leaves every file its contents and every inode its other fields; an image
    with an empty file cannot be rebalanced. *)

From stdpp Require Import strings.
From S2P Require Import Prelude Codec Crc Format Integrity SysIo State Pool Blocks Bitmap.
From S2P Require Import Open Load RootDir Validate Coverage Mkfs Formatted Tools World Rebalance.
From S2P Require Import Rebalanced.

(** ** What the source's validation provides *)

Lemma extents_verified_intervals d image es c ivs : extents_verified d image es c ivs →
  Forall (λ e, Interval (e_pstart e) (e_len e) ∈ ivs ∧ 0 < e_len e) es ∧
  (Forall (λ iv, 0 < iv_len iv) ivs → extents_len es ≤ total_len ivs).
Proof.
  induction 1 as [|e rest c iv ivs _ Hv _ [IH1 IH2]]; [split; [constructor|done]|].
  destruct Hv as (Hl & _ & _ & chain & sums & _ & _ & -> & _). split.
  - constructor.
    + split; [|done]. rewrite <-app_comm_cons. apply elem_of_cons. by left.
    + eapply Forall_impl; [exact IH1|]. intros e' [H1 H2]. split; [|done].
      apply elem_of_app. by right.
  - intros [Hp1 Hp2]%Forall_app. apply Forall_cons in Hp1 as [_ Hp1].
    cbn [extents_len foldr app total_len iv_len]. fold (extents_len rest).
    specialize (IH2 Hp2). change (foldr _ 0 (?l)) with (total_len l) in *.
    rewrite total_len_app. pose proof (total_len_nonneg _ Hp1). simpl in *. lia.
Qed.

Lemma total_len_part (claims : list (list aetherfs_interval)) k ivs :
  claims !! k = Some ivs → Forall (λ iv, 0 < iv_len iv) (concat claims) →
  total_len ivs ≤ total_len (concat claims).
Proof.
  intros Hk. rewrite <-(take_drop_middle _ _ _ Hk), concat_app. cbn [concat].
  intros [H1 [_ H2]%Forall_app]%Forall_app. rewrite !total_len_app.
  apply total_len_nonneg in H1, H2. lia.
Qed.

(** The extents the validation read are those of the file on disk. *)
Lemma read_node_extents d image data root node :
  sole image → d !! m_fd (get_member image 0) = Some data → 0 ≤ root < 2 ^ 51 →
  aetherfs_read_extent_node d image root = Ok node →
  take (Z.to_nat (en_count node)) (en_extents node) = extents_at data root.
Proof.
  intros Hs Hd Hr H. unfold aetherfs_read_extent_node in H. apply bind_ok in H as (buf & Hb & H).
  apply reject_ok in H as [_ H]. apply reject_ok in H as [_ H]. injection H as <-.
  apply (sole_read_inv image Hs d data Hd) in Hb; [|done]. apply blk_slice in Hb. by subst buf.
Qed.

Lemma validated_file_sane d image0 image data report i :
  disks_bytes d → aetherfs_image_load d image0 = Ok image →
  aetherfs_image_validate d image = Ok report → sole image →
  d !! m_fd (get_member image 0) = Some data → blocks image ≤ 2 ^ 51 →
  0 ≤ i < AETHERFS_MAX_INODES → is_file image i = true → file_sane data (inode_at image i).
Proof.
  intros Hd Hl Hv Hs Hdata Hbl Hi Hf. pose proof (load_image_wf _ _ _ Hd Hl) as Hw.
  apply validate_inv in Hv as (_ & claims & _ & Hc & _ & (cover & Hp & Hcont) & _); [|done..].
  destruct (Forall2_lookup_l _ _ _ (Z.to_nat i) i Hc) as (ivs & Hivs & Hic).
  { apply lookup_seqZ. lia. }
  unfold inode_claims in Hic. unfold is_file in Hf. rewrite Hf in Hic.
  destruct Hic as (_ & node & ivs' & Hn & Hroot & Hver & Hib & _ & ->).
  apply (read_node_extents d image data _ node Hs Hdata) in Hn as En; [|lia].
  rewrite En in *. clear En.
  apply extents_verified_intervals in Hver as [Hes Htot].
  assert (∀ iv, iv ∈ ivs' → iv ∈ cover) as Hsub.
  { intros iv Hiv. rewrite Hp. apply elem_of_app. right. apply list_elem_of_In, in_concat.
    exists (Interval (i_extent_root (inode_at image i)) 1 :: ivs').
    split; apply list_elem_of_In; [by eapply list_elem_of_lookup_2|by apply elem_of_cons; right]. }
  assert (Forall extent_bounded (extents_at data (i_extent_root (inode_at image i)))) as Hb.
  { eapply Forall_impl; [exact Hes|]. intros e [He _].
    destruct (contiguous_member _ _ _ _ Hcont (Hsub _ He)) as (H1 & H2 & H3). simpl in *.
    unfold extent_bounded. lia. }
  assert (extents_len (extents_at data (i_extent_root (inode_at image i))) ≤ blocks image) as Hmax.
  { assert (Forall (λ iv, 0 < iv_len iv) cover) as Hpos by by eapply contiguous_len_pos.
    apply contiguous_total in Hcont as Ht.
    rewrite (total_len_perm _ _ Hp), total_len_app in Ht. rewrite Hp in Hpos.
    apply Forall_app in Hpos as [H1 H2].
    pose proof (total_len_part _ _ _ Hivs H2) as Hpart.
    rewrite <-(take_drop_middle _ _ _ Hivs), concat_app in H2. apply Forall_app in H2 as [_ H2].
    cbn [concat] in H2. rewrite <-app_comm_cons in H2. apply Forall_cons in H2 as [_ H2].
    apply Forall_app in H2 as [H2 _]. specialize (Htot H2). apply total_len_nonneg in H1.
    cbn [total_len foldr iv_len] in Hpart. change (foldr _ 0 ivs') with (total_len ivs') in Hpart. lia. }
  destruct (len_flat_extents data _ Hb) as [_ Hnn].
  split; [lia|]. split; [done|]. rewrite Hib, u64_small by (unfold is_u64; lia). lia.
Qed.

(** ** The inode table *)

(** Inode [k] of the table in block 2. *)
Definition inode_on (data : bytes) (k : Z) : aetherfs_inode :=
  decode (slice (AETHERFS_ROOT_INODE_BLOCK * AETHERFS_DEF_BLOCK_SIZE + k * AETHERFS_INODE_SIZE)
    AETHERFS_INODE_SIZE data).

Lemma inode_table_on data bi k : blk data 2 = Ok bi → 0 ≤ k < 8 →
  decode_inode_table bi !! Z.to_nat k = Some (inode_on data k).
Proof.
  intros Hb Hk. apply blk_slice in Hb. unfold decode_inode_table.
  apply list_lookup_fmap_Some. exists k. split.
  - subst bi. unfold inode_on. f_equal. symmetry.
    unfold AETHERFS_ROOT_INODE_BLOCK, AETHERFS_DEF_BLOCK_SIZE, AETHERFS_INODE_SIZE.
    apply slice_slice; lia.
  - apply lookup_seqZ. change AETHERFS_INODES_PER_BLOCK with 8. lia.
Qed.

Lemma slice_flat_map {A} (f : Z → list A) n m k lo : 0 ≤ n →
  (∀ j, lo ≤ j < lo + m → len (f j) = n) → 0 ≤ k < m →
  slice (k * n) n (flat_map f (seqZ lo m)) = f (lo + k).
Proof.
  intros Hn Hf [H0 Hkm]. revert lo m Hf Hkm.
  apply (natlike_ind (λ k, ∀ lo m, (∀ j, lo ≤ j < lo + m → len (f j) = n) → k < m →
    slice (k * n) n (flat_map f (seqZ lo m)) = f (lo + k))); [..|exact H0].
  - intros lo m Hf Hm. rewrite seqZ_cons by lia. cbn [flat_map].
    rewrite slice_app_l by (rewrite ?Hf; lia). rewrite Z.add_0_r. apply slice_all, Hf. lia.
  - clear k H0. intros k Hk IH lo m Hf Hm. rewrite seqZ_cons by lia. cbn [flat_map].
    assert (len (f lo) = n) as Hlo by (apply Hf; lia).
    replace (Z.succ k * n) with (len (f lo) + k * n) by lia.
    unfold slice. unfold len in *. rewrite drop_app_ge by lia.
    replace (Z.to_nat (Z.of_nat (length (f lo)) + k * n) - length (f lo))%nat
      with (Z.to_nat (k * n)) by nia.
    unfold slice in IH. rewrite (IH (Z.succ lo) (Z.pred m)); [f_equal; lia| |lia].
    intros j Hj. apply Hf. lia.
Qed.

Lemma encode_inode_table_at im k : (∀ j, 0 ≤ j < 8 → wf (inode_at im j)) → 0 ≤ k < 8 →
  len (encode_inode_table im) = 4096 ∧
  decode (slice (k * AETHERFS_INODE_SIZE) AETHERFS_INODE_SIZE (encode_inode_table im))
    = inode_at im k.
Proof.
  intros Hw Hk. assert (∀ j, 0 ≤ j < 8 → len (encode (inode_at im j)) = 512) as Hl.
  { intros j Hj. rewrite (len_encode _ (Hw j Hj)). apply sizeof_inode. }
  split.
  - unfold encode_inode_table. change AETHERFS_INODES_PER_BLOCK with 8.
    change (seqZ 0 8) with [0; 1; 2; 3; 4; 5; 6; 7]. cbn [flat_map].
    rewrite !len_app, !Hl by lia. reflexivity.
  - unfold encode_inode_table, AETHERFS_INODE_SIZE. change AETHERFS_INODES_PER_BLOCK with 8.
    rewrite (slice_flat_map (λ j, encode (inode_at im j)) 512 8 k 0) by (lia || intros; apply Hl; lia).
    apply decode_encode, Hw. lia.
Qed.

(** ** Metadata *)

Lemma repoint_wf root inode : is_u64 root → wf inode → wf (repoint root inode).
Proof.
  intros Hr Hw. change (repoint root inode) with (seal (set_i_extent_root root inode)).
  apply seal_wf. revert Hw Hr. unfold is_u64. generalize inode. solve_wf_set.
Qed.

Lemma repoint_fields root inode :
  i_mode (repoint root inode) = i_mode inode ∧ i_extent_root (repoint root inode) = root ∧
  i_size (repoint root inode) = i_size inode ∧ i_blocks (repoint root inode) = i_blocks inode.
Proof. done. Qed.

Lemma free_tail_wf blocks next : 0 ≤ next → 0 ≤ blocks < 2 ^ 64 → wf (free_tail blocks next).
Proof.
  intros Hn Hb. unfold free_tail. destruct (Z.ltb_spec next blocks); [|apply zeroed_wf].
  assert (Forall wf (Extent 0 next 0 (blocks - next) 0 0 :: replicate 101 (zeroed : aetherfs_extent)))
    as H'. { constructor; [|apply Forall_replicate, zeroed_wf]. cbn. solve_fields. }
  change (Z.to_nat (AETHERFS_EXTENT_LOG_MAX - 1)) with 101%nat.
  cbn -[zeros replicate zeroed]. solve_fields.
Qed.

(** The blocks [write_metadata] replaces. *)
Definition metadata_block (b : Z) : Prop := b = 1 ∨ b = 2 ∨ b = 4 ∨ b = 6.

Section metadata.
Context (ft : Z) (d0 : disks) (im : aetherfs_image).
Context (Him : sole im) (Hft : m_fd (get_member im 0) = ft).
Context (Hinodes : ∀ j, 0 ≤ j < 8 → wf (inode_at im j)) (Hfree : wf (free_extents im)).
Context (Hsuper : wf (super im)) (Hjournal : wf (journal im)).

Lemma write_same_pool (im' : aetherfs_image) data b buf d' : same_pool im' im →
  0 ≤ b < 2 ^ 51 → len buf = 4096 →
  aetherfs_image_write_block (at_target ft d0 data) im' b buf = (Ok tt, d') →
  ∃ data', d' = at_target ft d0 data' ∧ blk data' b = Ok buf ∧ keeps (eq b) data data'.
Proof.
  intros Hp. apply write_tgt; [by rewrite Hp|]. rewrite <-Hft.
  destruct Hp as (_ & Hm & _). unfold get_member. by rewrite Hm.
Qed.

Lemma write_metadata_ok data d' :
  write_metadata (at_target ft d0 data) im = (Ok tt, d') →
  ∃ data', d' = at_target ft d0 data' ∧ keeps metadata_block data data' ∧
    blk data' 2 = Ok (encode_inode_table im) ∧
    blk data' 1 = Ok (to_block 4096 (seal (super im))).
Proof.
  unfold write_metadata, aetherfs_image_write_inode_table.
  destruct (aetherfs_image_write_block _ im AETHERFS_ROOT_INODE_BLOCK _) as [[[]|] d1] eqn:E1; [|done].
  apply (write_same_pool im) in E1 as (data1 & -> & Hb1 & Hk1);
    [|done|unfold AETHERFS_ROOT_INODE_BLOCK; lia|by apply (encode_inode_table_at im 0)].
  unfold aetherfs_image_write_free_extents, aetherfs_write_extent_node.
  set (node := set_en_checksum _ _).
  destruct (aetherfs_image_write_block _ im AETHERFS_FREE_EXTENT_BLOCK _) as [[[]|] d2] eqn:E2; [|done].
  apply (write_same_pool im) in E2 as (data2 & -> & Hb2 & Hk2);
    [|done|unfold AETHERFS_FREE_EXTENT_BLOCK; lia|].
  2:{ change node with (seal (free_extents im)).
      rewrite (len_encode _ (seal_wf _ Hfree)). apply sizeof_extent_node. }
  unfold aetherfs_image_write_super. cbn [super set_super set_free_extents].
  change (set_s_checksum _ _) with (seal (super im)).
  destruct (aetherfs_image_write_block _ _ AETHERFS_SUPERBLOCK_BLOCK _) as [[[]|] d3] eqn:E3; [|done].
  apply write_same_pool in E3 as (data3 & -> & Hb3 & Hk3);
    [|done|unfold AETHERFS_SUPERBLOCK_BLOCK; lia|].
  2:{ apply len_to_block; [by apply seal_wf|]. by rewrite sizeof_super. }
  unfold aetherfs_image_write_journal. cbn [fst].
  intros E4. apply write_same_pool in E4 as (data4 & -> & _ & Hk4);
    [|done|unfold AETHERFS_JOURNAL_BLOCK; lia|].
  2:{ apply len_to_block; [|by rewrite sizeof_intent_log].
      cbn [journal set_journal set_super set_free_extents].
      change (set_il_checksum _ _) with (seal (journal im)). by apply seal_wf. }
  unfold AETHERFS_ROOT_INODE_BLOCK, AETHERFS_FREE_EXTENT_BLOCK, AETHERFS_SUPERBLOCK_BLOCK,
    AETHERFS_JOURNAL_BLOCK in *.
  exists data4. split; [done|]. split; [|split].
  - eapply (keeps_trans (eq 2) (λ b, b = 6 ∨ b = 1 ∨ b = 4)); [exact Hk1| |unfold metadata_block; lia].
    eapply (keeps_trans (eq 6) (λ b, b = 1 ∨ b = 4)); [exact Hk2| |lia].
    eapply keeps_trans; [exact Hk3|exact Hk4|]. cbn beta. lia.
  - apply Hk4, Hk3, Hk2; try done; lia.
  - apply Hk4; [lia|lia|exact Hb3].
Qed.
End metadata.

(** ** A loaded image, in terms of its file *)

Definition super_on (data : bytes) : aetherfs_super :=
  decode (slice (AETHERFS_SUPERBLOCK_BLOCK * AETHERFS_DEF_BLOCK_SIZE) AETHERFS_DEF_BLOCK_SIZE data).

Definition bitmap_on (data : bytes) : aetherfs_bitmap_block :=
  decode (slice (AETHERFS_INODE_BITMAP_BLOCK * AETHERFS_DEF_BLOCK_SIZE) AETHERFS_DEF_BLOCK_SIZE data).

(** Inode [i] is in use as a regular file. *)
Definition is_file_on (data : bytes) (i : Z) : bool :=
  aetherfs_image_bitmap_test (bitmap_on data) i && S_ISREG (i_mode (inode_on data i)).

Record loaded_on (data : bytes) (im : aetherfs_image) : Prop := {
  lo_super : super im = super_on data;
  lo_blocks : blocks im = s_blocks_count (super_on data);
  lo_bitmap : inode_bitmap im = bitmap_on data;
  lo_table : len (inode_table im) = 8;
  lo_inode : ∀ i, 0 ≤ i < 8 → inode_at im i = inode_on data i;
}.

Lemma load_on im0 d data im : sole im0 → d !! m_fd (get_member im0 0) = Some data →
  aetherfs_image_load d im0 = Ok im → s_root_inode (super_on data) = 2 →
  loaded_on data im ∧ same_pool im im0.
Proof.
  intros Hs Hd Hl Hroot. apply load_loads in Hl as (bs & bc & bj & bb & bf & bi & bd & L).
  pose proof (loads_same_pool _ _ _ _ _ _ _ _ _ _ L) as Hpool. split; [|done].
  destruct L as [Him R1 _ _ R5 _ Ri _ _ _ _ _ _].
  apply (sole_read_inv im0 Hs d data Hd) in R1; [|lia].
  apply (sole_read_inv im0 Hs d data Hd) in R5; [|lia].
  apply blk_slice in R1, R5. assert (super im = super_on data) as Es by (rewrite Him, R1; done).
  rewrite Es, Hroot in Ri. apply (sole_read_inv im0 Hs d data Hd) in Ri; [|lia].
  split; [done|rewrite Him, R1; done|rewrite Him, R5; done|rewrite Him; done|].
  intros i Hi. unfold inode_at. assert (inode_table im = decode_inode_table bi) as -> by by rewrite Him.
  change (len (decode_inode_table bi)) with 8. rewrite (proj2 (Z.ltb_lt _ _)) by lia.
  by rewrite (inode_table_on _ _ _ Ri Hi).
Qed.

Lemma loaded_is_file data im i : loaded_on data im → 0 ≤ i < 8 → is_file im i = is_file_on data i.
Proof. intros L Hi. unfold is_file, is_file_on. by rewrite (lo_bitmap _ _ L), (lo_inode _ _ L). Qed.

Lemma loaded_not_file data im i : loaded_on data im → 8 ≤ i → is_file im i = false.
Proof.
  intros L Hi. unfold is_file. destruct (S_ISREG _) eqn:E; [|by rewrite andb_false_r].
  apply regular_in_table in E. rewrite (lo_table _ _ L) in E. lia.
Qed.

(** The validation looks at every inode in use. *)
Lemma check_inodes_each d im refs indices st st' :
  check_inodes indices d im refs st = Ok st' →
  Forall (λ i, ∃ st st', check_inode d im refs i st = Ok st') indices.
Proof.
  revert st. induction indices as [|i indices IH]; intros st; cbn [check_inodes]; [constructor|].
  intros (st1 & H1 & H2)%bind_ok. constructor; [eauto|by eapply IH].
Qed.

(** A valid file has its extent node in the data area. *)
Lemma validate_file_root d im report i : aetherfs_image_validate d im = Ok report →
  0 ≤ i < AETHERFS_MAX_INODES → is_file im i = true → 8 ≤ i_extent_root (inode_at im i).
Proof.
  intros H Hi Hf. unfold aetherfs_image_validate in H.
  apply reject_ok in H as [_ H]. apply reject_ok in H as [_ H].
  apply bind_ok in H as (refs & _ & H). apply bind_ok in H as (st & Hst & _).
  apply check_inodes_each in Hst. rewrite count_up_seqZ, Forall_forall in Hst.
  destruct (Hst i) as (st1 & st2 & Hc); [apply elem_of_seqZ; lia|]. clear Hst.
  unfold is_file in Hf. apply andb_true_iff in Hf as [Ht Hreg].
  unfold check_inode in Hc. rewrite Ht in Hc. cbn [negb] in Hc.
  apply reject_ok in Hc as [_ Hc]. apply reject_ok in Hc as [_ Hc].
  assert (S_ISDIR (i_mode (inode_at im i)) = false) as Hdir.
  { unfold S_ISDIR, S_ISREG in *. apply Z.eqb_eq in Hreg. by rewrite Hreg. }
  rewrite Hdir in Hc. apply reject_ok in Hc as [_ Hc]. unfold check_file in Hc.
  apply reject_ok in Hc as [Hc _]. bool_to_prop. unfold AETHERFS_DATA_START_BLOCK in *. lia.
Qed.

Lemma loaded_wf d im0 im : disks_bytes d → aetherfs_image_load d im0 = Ok im →
  wf (super im) ∧ wf (journal im) ∧ ∀ j, wf (inode_at im j).
Proof.
  intros Hd (bs & bc & bj & bb & bf & bi & bd & [Him R1 _ Rj _ _ Ri _ _ _ _ _ _])%load_loads.
  apply read_block_bytes in R1 as [B1 L1], Rj as [Bj Lj], Ri as [Bi Li]; [|done..].
  split; [|split].
  - rewrite Him. apply wf_decode; [done|]. rewrite sizeof_super. lia.
  - rewrite Him. apply wf_decode; [done|]. rewrite sizeof_intent_log. lia.
  - intros j. unfold inode_at. assert (inode_table im = decode_inode_table bi) as -> by by rewrite Him.
    case_match; [|apply zeroed_wf].
    destruct (decode_inode_table bi !! Z.to_nat j) as [x|] eqn:E; [|apply zeroed_wf].
    apply list_lookup_fmap_Some in E as (k & -> & Hk%lookup_seqZ).
    change AETHERFS_INODES_PER_BLOCK with 8 in Hk. apply wf_decode; [by apply is_bytes_slice|].
    rewrite sizeof_inode, len_slice; unfold AETHERFS_INODE_SIZE; lia.
Qed.

(** The fate of inode [i] when the image [data] was rebuilt as [data']. *)
Definition inode_preserved (data data' : bytes) (i : Z) : Prop :=
  if (1 <=? i) && is_file_on data i then
    ∃ root, inode_on data' i = repoint root (inode_on data i) ∧
      contents data' root = contents data (i_extent_root (inode_on data i))
  else inode_on data' i = inode_on data i.

(** The image [data] rebuilt as [data']. *)
Record rebuilt_from (data data' : bytes) : Prop := {
  rf_label : blk data' 0 = blk data 0;
  rf_bitmap : bitmap_on data' = bitmap_on data;
  rf_dir : blk data' 3 = blk data 3;
  rf_root : s_root_inode (super_on data') = 2;
  rf_count : s_blocks_count (super_on data') = s_blocks_count (super_on data);
  rf_inode : ∀ i, 0 ≤ i < 8 → inode_preserved data data' i;
  rf_full : ∀ i, 1 ≤ i < 8 → is_file_on data i = true → i_blocks (inode_on data i) ≠ 0;
}.

Section rebuild.
Context (sim target : aetherfs_image) (ft : Z) (d1 : disks) (sdata data0 : bytes).
Context (Hsrc : sole sim) (Hsd : d1 !! m_fd (get_member sim 0) = Some sdata).
Context (Hne : m_fd (get_member sim 0) ≠ ft).
Context (Htgt : sole target) (Hft : m_fd (get_member target 0) = ft).
Context (Hbytes : disks_bytes (at_target ft d1 data0)).
Context (Hlow : ∀ b, 0 ≤ b < 8 → ∃ x, blk sdata b = Ok x ∧ blk data0 b = Ok x).
Context (Hroot : s_root_inode (super_on sdata) = 2).
Context (Hsize : s_blocks_count (super_on sdata) ≤ 2 ^ 51).
Context (Hon : loaded_on sdata sim).
Context (Hsane : ∀ i, 0 ≤ i < AETHERFS_MAX_INODES → is_file sim i = true →
  file_sane sdata (inode_at sim i)).

Lemma low_slice data b : (∃ x, blk sdata b = Ok x ∧ blk data b = Ok x) →
  slice (b * 4096) 4096 data = slice (b * 4096) 4096 sdata.
Proof. intros (x & H1%blk_slice & H2%blk_slice). congruence. Qed.

Lemma low_super data : (∃ x, blk sdata 1 = Ok x ∧ blk data 1 = Ok x) → super_on data = super_on sdata.
Proof. intros H. exact (f_equal decode (low_slice data 1 H)). Qed.

Lemma low_bitmap data : (∃ x, blk sdata 5 = Ok x ∧ blk data 5 = Ok x) →
  bitmap_on data = bitmap_on sdata.
Proof. intros H. exact (f_equal decode (low_slice data 5 H)). Qed.

Lemma inode_on_block data bi k : blk data 2 = Ok bi → 0 ≤ k < 8 →
  inode_on data k = decode (slice (k * AETHERFS_INODE_SIZE) AETHERFS_INODE_SIZE bi).
Proof.
  intros H2 Hk. pose proof (inode_table_on _ _ _ H2 Hk) as H. unfold decode_inode_table in H.
  apply list_lookup_fmap_Some in H as (j & -> & Hj%lookup_seqZ).
  destruct Hj as [-> _]. by rewrite Z.add_0_l, Z2Nat.id by lia.
Qed.

Lemma low_inode data k : (∃ x, blk sdata 2 = Ok x ∧ blk data 2 = Ok x) → 0 ≤ k < 8 →
  inode_on data k = inode_on sdata k.
Proof. intros (x & H1 & H2) Hk. by rewrite (inode_on_block _ _ _ H1 Hk), (inode_on_block _ _ _ H2 Hk). Qed.

Lemma inode_at_neg im j : 0 < len (inode_table im) → j < 0 → inode_at im j = inode_at im 0.
Proof.
  intros Hl Hj. unfold inode_at. rewrite !(proj2 (Z.ltb_lt _ _)) by lia.
  by replace (Z.to_nat j) with (Z.to_nat 0) by lia.
Qed.

(** What the loop leaves of inode [i]: its entry in the table, and the file's blocks. *)
Definition inode_rebuilt (T : aetherfs_image) (next : Z) (data : bytes) (i : Z) : Prop :=
  let old := inode_on sdata i in
  if (1 <=? i) && is_file_on sdata i then
    if i_blocks old =? 0 then inode_at T i = repoint 0 old
    else ∃ root, let xs := contents sdata (i_extent_root old) in
      inode_at T i = repoint root old ∧ 8 ≤ root ∧ root + 1 + len xs ≤ next ∧
      rebuilt_at data root xs
  else inode_at T i = old.

(** The target after the inode loop. *)
Record rebuilt_target (st : rebuild_state) (data : bytes) : Prop := {
  rt_pool : same_pool (rb_target st) target;
  rt_super : super (rb_target st) = super_on sdata;
  rt_wf : wf (super (rb_target st)) ∧ wf (journal (rb_target st)) ∧
          ∀ j, 0 ≤ j < 8 → wf (inode_at (rb_target st) j);
  rt_next : 8 ≤ rb_next st ≤ blocks (rb_target st);
  rt_max : blocks (rb_target st) ≤ 2 ^ 51;
  rt_blocks : blocks (rb_target st) = s_blocks_count (super_on sdata);
  rt_keeps : keeps (λ b, 8 ≤ b < blocks (rb_target st)) data0 data;
  rt_inode : ∀ i, 0 ≤ i < 8 → inode_rebuilt (rb_target st) (rb_next st) data i;
}.

(** The target before the loop. *)
Record loop_target (T : aetherfs_image) : Prop := {
  lt_pool : same_pool T target;
  lt_super : super T = super_on sdata;
  lt_blocks : blocks T = s_blocks_count (super_on sdata);
  lt_wf : wf (super T) ∧ wf (journal T) ∧ ∀ j, wf (inode_at T j);
  lt_table : len (inode_table T) = 8;
  lt_low : 8 ≤ blocks T;
  lt_file : ∀ i, 0 ≤ i → is_file T i = is_file sim i;
  lt_inode : ∀ i, 0 ≤ i < 8 → inode_at T i = inode_on sdata i;
}.

Lemma rebuild_start T0 : aetherfs_image_load (at_target ft d1 data0) target = Ok T0 →
  loop_target (set_free_extents zeroed T0).
Proof.
  set (d := at_target ft d1 data0) in *. intros El.
  assert (d !! m_fd (get_member target 0) = Some data0) as Hd0
    by (unfold d; rewrite Hft; apply lookup_insert_eq).
  pose proof (low_super data0 (Hlow 1 ltac:(lia))) as Es0.
  destruct (load_on _ _ _ _ Htgt Hd0 El ltac:(by rewrite Es0)) as [L0 Hp0].
  split.
  - exact Hp0.
  - rewrite <-Es0. exact (lo_super _ _ L0).
  - rewrite <-Es0. exact (lo_blocks _ _ L0).
  - exact (loaded_wf _ _ _ Hbytes El).
  - exact (lo_table _ _ L0).
  - apply (load_image_wf _ _ _ Hbytes El).
  - intros i Hi. change (is_file T0 i = is_file sim i).
    destruct (decide (8 ≤ i)); [by rewrite (loaded_not_file _ _ _ L0), (loaded_not_file _ _ _ Hon)|].
    rewrite (loaded_is_file _ _ _ L0), (loaded_is_file _ _ _ Hon) by lia. unfold is_file_on.
    by rewrite (low_bitmap data0), (low_inode data0) by (lia || apply Hlow; lia).
  - intros i Hi. change (inode_at T0 i = inode_on sdata i). rewrite (lo_inode _ _ L0) by lia.
    apply low_inode; [apply Hlow; lia|done].
Qed.

(** What the loop leaves in the table is a structure that can be written. *)
Lemma inode_rebuilt_wf T T' next data j : loop_target T → next ≤ 2 ^ 51 → 0 ≤ j < 8 →
  inode_rebuilt T' next data j → wf (inode_at T' j).
Proof.
  intros HT Hn Hj Hin. destruct (lt_wf _ HT) as (_ & _ & Wi). unfold inode_rebuilt in Hin.
  rewrite <-(lt_inode _ HT) in Hin by done.
  destruct ((1 <=? j) && is_file_on sdata j); [|rewrite Hin; apply Wi].
  destruct (_ =? 0); [rewrite Hin; apply repoint_wf; [unfold is_u64; lia|apply Wi]|].
  destruct Hin as (root & Hin & H1 & H2 & _). rewrite Hin. apply repoint_wf; [|apply Wi].
  pose proof (len_nonneg (contents sdata (i_extent_root (inode_at T j)))).
  unfold is_u64. lia.
Qed.

Lemma rebuild_loop_ok T0 st d' :
  aetherfs_image_load (at_target ft d1 data0) target = Ok T0 →
  rebuild_inodes (count_up (Z.to_nat (AETHERFS_MAX_INODES - 1)) 1) (at_target ft d1 data0) sim
    (Rebuild (set_free_extents zeroed T0) AETHERFS_DATA_START_BLOCK) = (Ok st, d') →
  ∃ data, d' = at_target ft d1 data ∧ rebuilt_target st data.
Proof.
  intros HT%rebuild_start. set (T1 := set_free_extents zeroed T0) in *. intros Er.
  pose proof (lt_pool _ HT) as Hp1. assert (sole T1) as Hs1 by by rewrite Hp1.
  assert (m_fd (get_member T1 0) = ft) as Hf1.
  { destruct Hp1 as (_ & Hm & _). unfold get_member in *. by rewrite Hm. }
  apply (rebuild_inodes_ok sim Hsrc ft d1 sdata Hsd Hne) in Er
    as (Honly & Hnext & Hother & data1 & -> & Hk1 & Hdone); cbn [rb_target rb_next] in *;
    rewrite ?count_up_seqZ in *; unfold AETHERFS_DATA_START_BLOCK in *;
    [|exact Hs1|exact Hf1| |apply NoDup_seqZ| |lia|by rewrite (lt_blocks _ HT)|exact (lt_low _ HT)].
  2: { apply Forall_forall. intros i Hi%elem_of_seqZ. lia. }
  2: { apply Forall_forall. intros i Hi%elem_of_seqZ Hf. rewrite (lt_file _ HT) in Hf by lia.
       apply Hsane; [|done]. unfold AETHERFS_MAX_INODES, AETHERFS_BITMAP_BITS in *. lia. }
  assert (∀ i, 0 ≤ i < 8 → inode_rebuilt (rb_target st) (rb_next st) data1 i) as Hin.
  { intros i Hi. unfold inode_rebuilt. destruct (Z.leb_spec 1 i) as [H1|H0]; cbn [andb].
    2:{ rewrite Hother, (lt_inode _ HT) by (lia || rewrite elem_of_seqZ; lia). done. }
    rewrite Forall_forall in Hdone. specialize (Hdone i).
    rewrite elem_of_seqZ in Hdone. change AETHERFS_MAX_INODES with 32640 in Hdone.
    specialize (Hdone ltac:(lia)). unfold inode_done in Hdone.
    rewrite (lt_file _ HT), (loaded_is_file _ _ _ Hon), (lt_inode _ HT) in Hdone by lia.
    by rewrite (lo_inode _ _ Hon) in Hdone by lia. }
  exists data1. split; [done|]. pose proof (lt_blocks _ HT) as Eb.
  assert (super (rb_target st) = super T1 ∧ journal (rb_target st) = journal T1 ∧
    blocks (rb_target st) = blocks T1) as (Es & Ej & Ebk)
    by (destruct Honly as [-> _]; repeat split).
  destruct (lt_wf _ HT) as (Ws & Wj & _).
  split; [|by rewrite Es, (lt_super _ HT)| |lia|lia|lia| |exact Hin].
  - by rewrite (only_inodes_pool _ _ Honly).
  - rewrite Es, Ej. split; [exact Ws|]. split; [exact Wj|]. intros j Hj.
    apply (inode_rebuilt_wf T1 _ (rb_next st) data1); [done|lia|done|by apply Hin].
  - eapply keeps_mono; [exact Hk1|]. cbn beta. lia.
Qed.

(** The target after the metadata writes. *)
Lemma metadata_written st data d' : rebuilt_target st data →
  write_metadata (at_target ft d1 data) (rebuilt_metadata (rb_target st) (rb_next st)) = (Ok tt, d') →
  ∃ data', d' = at_target ft d1 data' ∧ keeps metadata_block data data' ∧
    (∀ i, 0 ≤ i < 8 → inode_on data' i = inode_at (rb_target st) i) ∧
    s_root_inode (super_on data') = 2 ∧
    s_blocks_count (super_on data') = s_blocks_count (super_on sdata).
Proof.
  intros [Hp Es (Ws & Wj & Wi) Hn Hm _ _ _] Hw.
  set (M := rebuilt_metadata (rb_target st) (rb_next st)) in *.
  assert (same_pool M target) as HpM by exact Hp.
  assert (wf (super M)) as WsM.
  { change (super M) with (seal (set_s_free_blocks (u64 (blocks (rb_target st) - rb_next st))
      (super (rb_target st)))). apply seal_wf. revert Ws. pose proof (u64_range (blocks (rb_target st) - rb_next st)) as Hu.
    revert Hu. unfold is_u64. generalize (super (rb_target st)). solve_wf_set. }
  assert (wf (journal M)) as WjM.
  { change (journal M) with (seal (set_il_outstanding 0 (journal (rb_target st)))).
    apply seal_wf. revert Wj.
    generalize (journal (rb_target st)). solve_wf_set. }
  apply write_metadata_ok in Hw as (data' & -> & Hk & H2 & H1).
  - exists data'. split; [done|]. split; [done|]. split.
    + intros i Hi. rewrite (inode_on_block _ _ _ H2 Hi). by apply (encode_inode_table_at M).
    + apply blk_slice in H1. unfold super_on.
      change (slice (AETHERFS_SUPERBLOCK_BLOCK * AETHERFS_DEF_BLOCK_SIZE) AETHERFS_DEF_BLOCK_SIZE data')
        with (slice (1 * 4096) 4096 data').
      rewrite <-H1, (decode_to_block 4096 _ (seal_wf _ WsM)).
      change (s_root_inode (super (rb_target st)) = 2 ∧
        s_blocks_count (super (rb_target st)) = s_blocks_count (super_on sdata)). by rewrite Es.
  - by rewrite HpM.
  - destruct HpM as (_ & Hmm & _). unfold get_member in *. by rewrite Hmm.
  - exact Wi.
  - apply (free_tail_wf (blocks (rb_target st))); lia.
  - exact WsM.
  - exact WjM.
Qed.

(** A validated image has no file without an extent node. *)
Lemma empty_file_refused T data' L report i :
  same_pool T target →
  aetherfs_image_load (at_target ft d1 data') T = Ok L →
  aetherfs_image_validate (at_target ft d1 data') L = Ok report →
  s_root_inode (super_on data') = 2 → 0 ≤ i < 8 → is_file_on data' i = true →
  i_extent_root (inode_on data' i) ≠ 0.
Proof.
  intros Hp HL HV Hr Hi Hf. assert (sole T) as HT by by rewrite Hp.
  assert (at_target ft d1 data' !! m_fd (get_member T 0) = Some data') as Hd.
  { destruct Hp as (_ & Hm & _). unfold get_member in *. rewrite Hm, Hft. apply lookup_insert_eq. }
  destruct (load_on _ _ _ _ HT Hd HL Hr) as [Hon' _].
  rewrite <-(loaded_is_file _ _ _ Hon' Hi) in Hf.
  pose proof (validate_file_root _ _ _ i HV) as Hge. rewrite (lo_inode _ _ Hon' i Hi) in Hge.
  change AETHERFS_MAX_INODES with 32640 in Hge. specialize (Hge ltac:(lia) Hf). lia.
Qed.

(** An image whose blocks lie in its file does not grow. *)
Lemma rebuilt_size st data data' : rebuilt_target st data → keeps metadata_block data data' →
  s_blocks_count (super_on sdata) * 4096 ≤ len data0 → len data' = len data0.
Proof.
  intros Hst Hk Hs. pose proof (rt_blocks _ _ Hst) as Hb.
  assert (8 * 4096 ≤ len data0) as H8.
  { destruct (Hlow 7 ltac:(lia)) as (x & _ & H). unfold read_fs_block, read_at, AETHERFS_DEF_BLOCK_SIZE in H.
    destruct (Z.leb_spec (7 * 4096 + 4096) (len data0)); [lia|done]. }
  assert (len data = len data0) as E by (apply (keeps_len _ _ _ (rt_keeps _ _ Hst)); cbn beta; lia).
  rewrite <-E. apply (keeps_len _ _ _ Hk). unfold metadata_block. lia.
Qed.

(** No file of a rebuilt image is empty. *)
Lemma rebuilt_full st data T data' L report i :
  rebuilt_target st data → (∀ i, 0 ≤ i < 8 → inode_on data' i = inode_at (rb_target st) i) →
  same_pool T target → aetherfs_image_load (at_target ft d1 data') T = Ok L →
  aetherfs_image_validate (at_target ft d1 data') L = Ok report →
  s_root_inode (super_on data') = 2 → bitmap_on data' = bitmap_on sdata →
  1 ≤ i < 8 → is_file_on sdata i = true → i_blocks (inode_on sdata i) ≠ 0.
Proof.
  intros Hst Hin Hp HL HV Hr Ebm Hi Hf E0.
  pose proof (rt_inode _ _ Hst i ltac:(lia)) as Hri. unfold inode_rebuilt in Hri.
  rewrite Hf, E0, (proj2 (Z.leb_le 1 i)) in Hri by lia. cbn [andb Z.eqb] in Hri.
  rewrite <-Hin in Hri by lia.
  apply (empty_file_refused T data' L report i Hp HL HV Hr);
    [lia| |rewrite Hri; exact (proj1 (proj2 (repoint_fields _ _)))].
  unfold is_file_on in *. rewrite Ebm, Hri, (proj1 (repoint_fields _ _)). exact Hf.
Qed.

(** The fate of an inode, from the loop and the metadata writes. *)
Lemma rebuilt_inode st data data' i :
  rebuilt_target st data → (∀ i, 0 ≤ i < 8 → inode_on data' i = inode_at (rb_target st) i) →
  keeps metadata_block data data' →
  (∀ i, 1 ≤ i < 8 → is_file_on sdata i = true → i_blocks (inode_on sdata i) ≠ 0) →
  0 ≤ i < 8 → inode_preserved sdata data' i.
Proof.
  intros Hst Hin Hk Hfull Hi. pose proof (rt_inode _ _ Hst i Hi) as Hri.
  unfold inode_rebuilt in Hri. unfold inode_preserved. rewrite <-Hin in Hri by lia.
  destruct ((1 <=? i) && is_file_on sdata i) eqn:Ef; [|done].
  apply andb_true_iff in Ef as [H1%Z.leb_le Hf].
  rewrite (proj2 (Z.eqb_neq _ _) (Hfull i ltac:(lia) Hf)) in Hri.
  destruct Hri as (root & E & Hr1 & Hr2 & Hr3). exists root. split; [done|].
  pose proof (rt_next _ _ Hst). pose proof (rt_max _ _ Hst).
  pose proof (len_nonneg (contents sdata (i_extent_root (inode_on sdata i)))).
  apply rebuilt_contents; [lia|lia|]. eapply rebuilt_keeps; [lia|exact Hr3|exact Hk|].
  unfold range, metadata_block. lia.
Qed.

Lemma rebuild_ok report next L d' :
  rebuild (at_target ft d1 data0) sim target = (Ok (report, next, L), d') →
  ∃ data' T, d' = at_target ft d1 data' ∧ rebuilt_from sdata data' ∧ same_pool T target ∧
    aetherfs_image_load d' T = Ok L ∧ aetherfs_image_validate d' L = Ok report ∧
    (s_blocks_count (super_on sdata) * 4096 ≤ len data0 → len data' = len data0).
Proof.
  unfold rebuild. destruct (aetherfs_image_load _ target) as [T0|] eqn:El; [|done].
  destruct (rebuild_inodes _ _ sim _) as [[st|] d2] eqn:Er; [|done].
  apply (rebuild_loop_ok _ _ _ El) in Er as (data1 & -> & Hst).
  destruct (write_metadata _ _) as [[[]|] d3] eqn:Ew; [|done].
  apply (metadata_written _ _ _ Hst) in Ew as (data' & -> & Hk & Hin & Hroot' & Hcount).
  intros H. injection H as H <-.
  apply bind_ok in H as (L' & HL & H). apply bind_ok in H as (report' & HV & [= <- _ <-]).
  assert (∀ b, b = 0 ∨ b = 3 ∨ b = 5 → ∃ x, blk sdata b = Ok x ∧ blk data' b = Ok x) as Hlow'.
  { intros b Hb. destruct (Hlow b) as (x & H1 & H2); [lia|]. exists x. split; [done|].
    apply (kp_blocks _ _ _ Hk); [lia|unfold metadata_block; lia|]. apply (kp_blocks _ _ _ (rt_keeps _ _ Hst)); [lia|cbn beta; lia|done]. }
  pose proof (low_bitmap data' (Hlow' 5 ltac:(tauto))) as Ebm.
  pose proof (λ i, rebuilt_full st data1 _ data' L' report' i Hst Hin (rt_pool _ _ Hst) HL HV Hroot' Ebm) as Hfull.
  exists data', (rb_target st). split; [done|]. split; [|exact (conj (rt_pool _ _ Hst) (conj HL (conj HV (rebuilt_size _ _ _ Hst Hk))))].
  split; [|exact Ebm| |exact Hroot'|exact Hcount| |exact Hfull].
  - destruct (Hlow' 0 ltac:(tauto)) as (x & -> & ->). reflexivity.
  - destruct (Hlow' 3 ltac:(tauto)) as (x & -> & ->). reflexivity.
  - intros i. exact (rebuilt_inode st data1 data' i Hst Hin Hk Hfull).
Qed.
End rebuild.

(** ** Opening the two images *)

Lemma assign_aliases_one im : member_count im = 1 →
  aetherfs_image_assign_primary_aliases im =
    set_aliases (m_fd (get_member im 0)) (m_is_block_device (get_member im 0))
      (m_size_bytes (get_member im 0)) im.
Proof.
  intros Hc. unfold aetherfs_image_assign_primary_aliases.
  assert (aetherfs_pool_metadata_mask im = 1) as ->.
  { unfold aetherfs_pool_metadata_mask, limited_mask. rewrite Hc.
    by destruct (sole_limit im (pl_metadata_mask (pool_label im)) Hc) as [-> | ->]. }
  rewrite Hc. reflexivity.
Qed.

Definition is_device (f : open_file) : bool :=
  match of_stat f with Ok S_IFBLK => true | _ => false end.

Lemma image_open_sole {path} (sys_open : path → bool → result open_file) d p w image d' f :
  sys_open p w = Ok f → is_bytes (of_data f) →
  aetherfs_image_open sys_open d p w = (Ok image, d') →
  sole image ∧ is_block_device image = is_device f ∧ size_bytes image = len (of_data f).
Proof.
  intros Hf Hb. unfold aetherfs_image_open.
  destruct (aetherfs_member_open_path sys_open d p w) as [[m|] d1] eqn:Em; [|done].
  assert (m_is_block_device m = is_device f) as Hdev.
  { revert Em. unfold aetherfs_member_open_path, is_device. rewrite Hf.
    destruct (of_stat f) as [[]|]; [| |done|done]; [by intros [= <- _]|].
    destruct (of_ioctl f); [by intros [= <- _]|done]. }
  apply member_open_ok in Em as (f' & Hf' & Hm & -> & _ & Hsz & _).
  rewrite Hf in Hf'. injection Hf' as <-.
  destruct (fresh_fd_spec d) as [Hfd _].
  destruct (aetherfs_member_read_pool_label _ m) as [[label|]|] eqn:El; [| |done].
  - destruct (negb _); [done|]. intros [= <- _].
    rewrite assign_aliases_one by done. split; [|by cbn [is_block_device size_bytes set_aliases]].
    split; [done|change (0 ≤ m_fd m); by rewrite Hm|].
    unfold aetherfs_member_read_pool_label in El. apply bind_ok in El as (block & Hr & El).
    assert (is_bytes block ∧ len block = 4096) as [Hby Hlen].
    { unfold aetherfs_member_read_block in Hr. rewrite Hm, lookup_insert_eq in Hr. inv_ok.
      unfold read_at in Hr. destruct (Z.leb_spec (block_offset AETHERFS_POOL_LABEL_BLOCK +
        AETHERFS_DEF_BLOCK_SIZE) (len (of_data f))); [|done]. injection Hr as <-.
      split; [by apply is_bytes_slice|].
      change (block_offset AETHERFS_POOL_LABEL_BLOCK) with 0 in *.
      unfold AETHERFS_DEF_BLOCK_SIZE in *. apply len_slice; lia. }
    destruct (negb _); [done|]. inv_ok. apply label_wf_fields, wf_decode; [done|].
    rewrite sizeof_pool_label. lia.
  - intros [= <- _]. unfold aetherfs_image_synthesize_single_label.
    rewrite assign_aliases_one by done. split; [|done]. split; [done|change (0 ≤ m_fd m); by rewrite Hm|].
    unfold is_u32. cbn. lia.
Qed.

(** ** The reserved blocks *)

Lemma pwrite_regular data b buf : 0 ≤ b → len buf = 4096 → is_bytes data → is_bytes buf →
  let data' := (pwrite_file false data (b * AETHERFS_DEF_BLOCK_SIZE) buf).2 in
  is_bytes data' ∧ blk data' b = Ok buf ∧ keeps (eq b) data data'.
Proof.
  intros Hb Hl Hd Hbuf. split; [by apply is_bytes_pwrite|].
  destruct (pwrite_file false data (b * AETHERFS_DEF_BLOCK_SIZE) buf) as [r data'] eqn:E. cbn [snd].
  apply (pwrite_keeps false); [done|done|].
  assert (r = Ok tt) as -> by (unfold pwrite_file in E; by destruct (_ <=? _); injection E as <- _).
  exact E.
Qed.

(** Only the destination is written. *)
Lemma pwrite_fd_frame answer fd offset buf d : delete fd (pwrite_fd answer fd offset buf d).2 = delete fd d.
Proof.
  unfold pwrite_fd. destruct answer; [|done]. destruct (d !! fd) as [data|]; [|done].
  destruct (pwrite_file _ _ _ _) as [r data']. apply delete_insert_eq.
Qed.

Lemma copy_reserved_frame answers source fd bs : ∀ d,
  delete fd (copy_reserved answers bs d source fd).2 = delete fd d.
Proof.
  induction bs as [|b bs IH]; intros d; cbn [copy_reserved]; [done|].
  destruct (aetherfs_image_read_block d source b) as [x|]; [|done].
  pose proof (pwrite_fd_frame (answers b) fd (b * AETHERFS_DEF_BLOCK_SIZE) x d) as Hf.
  destruct (pwrite_fd _ _ _ _ _) as [[|] d']; cbn [snd] in *; [|done]. by rewrite IH.
Qed.

Lemma copy_reserved_ok answers source d sdata fd bs : sole source →
  d !! m_fd (get_member source 0) = Some sdata → m_fd (get_member source 0) ≠ fd → disks_bytes d →
  Forall (λ b, 0 ≤ b < 8) bs → NoDup bs → ∀ data d', is_bytes data →
  copy_reserved answers bs (at_target fd d data) source fd = (Ok tt, d') →
  ∃ data', d' = at_target fd d data' ∧ is_bytes data' ∧ keeps (λ b, b ∈ bs) data data' ∧
  Forall (λ b, ∃ x, blk sdata b = Ok x ∧ blk data' b = Ok x) bs.
Proof.
  intros Hs Hd Hne Hby. induction bs as [|b bs IH]; intros Hlow Hnd data d' Hb;
    cbn [copy_reserved].
  { intros [= <-]. exists data. split; [done|]. split; [done|]. split; [apply keeps_refl|constructor]. }
  apply Forall_cons in Hlow as [H8 Hlow]. apply NoDup_cons in Hnd as [Hni Hnd].
  assert (at_target fd d data !! m_fd (get_member source 0) = Some sdata) as Hd'
    by (unfold at_target; by rewrite lookup_insert_ne).
  destruct (aetherfs_image_read_block _ source b) as [x|] eqn:Hx; [|done].
  assert (disks_bytes (at_target fd d data)) as Hby' by by apply map_Forall_insert_2.
  destruct (read_block_bytes _ _ _ _ Hby' Hx) as [Hxb Hxl].
  apply (sole_read_inv source Hs _ sdata Hd') in Hx; [|lia].
  unfold pwrite_fd. destruct (answers b); [|done]. unfold at_target at 1. rewrite lookup_insert_eq.
  destruct (pwrite_regular data b x ltac:(lia) Hxl Hb Hxb) as (Hb1 & Hr1 & Hk1).
  destruct (pwrite_file _ _ _ _) as [[[]|] data1]; [|done]. cbn [snd] in *.
  unfold at_target. rewrite insert_insert_eq. intros H.
  apply IH in H as (data' & -> & Hb2 & Hk2 & Hall); [|done..].
  exists data'. split; [done|]. split; [done|]. split.
  - eapply keeps_trans; [exact Hk1|exact Hk2|]. intros c [<-|?]; apply elem_of_cons; auto.
  - constructor; [|done]. exists x. split; [done|]. by apply (kp_blocks _ _ _ Hk2); [lia|..].
Qed.

(** ** The temporary file *)

Section temp.
Context (sys_open : string → bool → result open_file).

Lemma make_temp_spec env size w r w' : world_ok w →
  aetherfs_image_make_temp_path sys_open env size w = (r, w') →
  match r with
  | Ok t => w_files w !! t = None ∧ (∃ e, lookup_file sys_open w t false = Err e) ∧ w' = with_temp t [] w
  | Err _ => w' = w
  end.
Proof.
  intros Hw. unfold aetherfs_image_make_temp_path.
  destruct (te_stat env) as [kind|]; [|by intros [= <- <-]].
  generalize ((match kind with S_IFBLK => [] | _ => [te_dirname env] end) ++ ["/var/tmp"; "/home"; "/"; "/tmp"]).
  intros dirs. induction dirs as [|dir dirs IH]; cbn [first_with_space]; [by intros [= <- <-]|].
  destruct (aetherfs_dir_has_space env dir size); [|exact IH].
  unfold aetherfs_make_temp_path_in_dir.
  destruct (mkstemp _ _ w) as [[[fd t]|] w1] eqn:Em; intros [= <- <-].
  - by eapply mkstemp_ok.
  - by eapply mkstemp_err.
Qed.

(** The state while the temporary file is open as [fd]. *)
Definition temp_opened (fd : Z) (t : string) (data : bytes) (d : disks) (w : world) : world :=
  World d (<[fd := t]> (w_writing w)) (<[t := temp_file data]> (w_files w)).

Lemma fill_temp_spec env source t w r tfd w' : world_ok w →
  fill_temp sys_open env source t (with_temp t [] w) = (r, tfd, w') →
  let fd := fresh_fd (w_disks w) in
  match r with
  | Ok _ => tfd = -1 ∧ ∃ d,
      aetherfs_copy_reserved_blocks (re_pwrite env) (at_target fd (w_disks w) (zeros (size_bytes source)))
        source fd = (Ok tt, d) ∧ w' = with_temp t (default [] (d !! fd)) w
  | Err _ => (tfd = -1 ∧ w' = with_temp t [] w) ∨
      (tfd = fd ∧ ∃ d, delete fd d = w_disks w ∧ w' = temp_opened fd t [] d w)
  end.
Proof.
  intros Hw. cbv zeta. set (fd := fresh_fd (w_disks w)).
  destruct (fresh_fd_spec (w_disks w)) as [_ Hn]. fold fd in Hn.
  unfold fill_temp, sys_open_rw. destruct (re_temp_open env); [|intros [= <- <- <-]; by left].
  rewrite lookup_temp. change (fresh_fd (w_disks (with_temp t [] w))) with fd.
  unfold sys_ftruncate. destruct (re_truncate env).
  2: { intros [= <- <- <-]. right. split; [done|]. exists (<[fd := []]> (w_disks w)).
       split; [by apply delete_insert_id|done]. }
  cbn [w_disks with_temp]. rewrite lookup_insert_eq. cbn [with_disks w_disks]. rewrite insert_insert_eq.
  assert (resize (size_bytes source) [] = zeros (size_bytes source)) as ->.
  { unfold resize. change (len (@nil Z)) with 0. rewrite Z.sub_0_r. cbn [app].
    destruct (Z.leb_spec (size_bytes source) 0); [|done]. unfold zeros, slice.
    by replace (Z.to_nat (size_bytes source)) with 0%nat by lia. }
  fold (at_target fd (w_disks w) (zeros (size_bytes source))).
  pose proof (copy_reserved_frame (re_pwrite env) source fd (seqZ 0 AETHERFS_DATA_START_BLOCK)
    (at_target fd (w_disks w) (zeros (size_bytes source)))) as Hf.
  unfold at_target in Hf at 2. rewrite delete_insert_id in Hf by done.
  change (copy_reserved (re_pwrite env) (seqZ 0 AETHERFS_DATA_START_BLOCK)) with
    (aetherfs_copy_reserved_blocks (re_pwrite env)) in Hf.
  destruct (aetherfs_copy_reserved_blocks _ _ source fd) as [[[]|] d]; cbn [snd] in Hf; intros [= <- <- <-].
  - split; [done|]. exists d. split; [done|]. by apply close_temp.
  - right. split; [done|]. exists d. by split.
Qed.
End temp.

(** ** Properties *)

Section run.
Context (sys_open : string → bool → result open_file).

(** The steps of a successful run on a regular file: the image opened and loaded as
    [sim], the reserved blocks copied to [data0], the temporary file opened as [target],
    rebuilt to [d3] and installed. *)
Record regular_run (env : rebalance_env) (w : world) (path : string) (f : open_file)
    (report : aetherfs_scrub_report) (w' : world) (source sim target : aetherfs_image) (temp : string)
    (dc : disks) (data0 : bytes) (next : Z) (L : aetherfs_image) (d3 : disks) : Prop := {
  rr_fresh : w_files w !! temp = None ∧ temp ≠ path;
  rr_open : aetherfs_image_open (lookup_file sys_open w) (w_disks w) path false =
    (Ok source, <[fresh_fd (w_disks w) := of_data f]> (w_disks w));
  rr_fd : m_fd (get_member source 0) = fresh_fd (w_disks w);
  rr_load : aetherfs_image_load (<[fresh_fd (w_disks w) := of_data f]> (w_disks w)) source = Ok sim;
  rr_valid : ∃ report0, aetherfs_image_validate (<[fresh_fd (w_disks w) := of_data f]> (w_disks w)) sim = Ok report0;
  rr_copy : let d1 := <[fresh_fd (w_disks w) := of_data f]> (w_disks w) in
    aetherfs_copy_reserved_blocks (re_pwrite env) (at_target (fresh_fd d1) d1 (zeros (size_bytes sim)))
      sim (fresh_fd d1) = (Ok tt, dc) ∧ data0 = default [] (dc !! fresh_fd d1);
  rr_temp : let d1 := <[fresh_fd (w_disks w) := of_data f]> (w_disks w) in
    aetherfs_image_open (λ _ _, Ok (temp_file data0)) d1 temp true = (Ok target, at_target (fresh_fd d1) d1 data0);
  rr_temp_fd : m_fd (get_member target 0) = fresh_fd (<[fresh_fd (w_disks w) := of_data f]> (w_disks w));
  rr_rebuild : let d1 := <[fresh_fd (w_disks w) := of_data f]> (w_disks w) in
    rebuild (at_target (fresh_fd d1) d1 data0) sim target = (Ok (report, next, L), d3);
  rr_install : let d1 := <[fresh_fd (w_disks w) := of_data f]> (w_disks w) in
    install_file sys_open env source target report path temp
      (temp_opened (fresh_fd d1) temp data0 d3 w) = (Ok report, w');
}.

Lemma image_open_ext so so' d (p : string) wr : so p wr = so' p wr →
  aetherfs_image_open so d p wr = aetherfs_image_open so' d p wr.
Proof. intros H. unfold aetherfs_image_open, aetherfs_member_open_path. by rewrite H. Qed.

(** A file that is there is not the temporary file. *)
Lemma temp_not_path w path wr f t e : lookup_file sys_open w path wr = Ok f →
  lookup_file sys_open w t wr = Err e → t ≠ path.
Proof. congruence. Qed.

Lemma run_rebalance_steps env w path f report w' : world_ok w →
  lookup_file sys_open w path false = Ok f → is_bytes (of_data f) → is_device f = false →
  aetherfs_run_rebalance sys_open env w path = (Ok report, w') →
  ∃ source sim target temp dc data0 next L d3,
    regular_run env w path f report w' source sim target temp dc data0 next L d3.
Proof.
  intros Hw Hf Hfb Hreg. unfold aetherfs_run_rebalance.
  destruct (open_image sys_open (Ok tt) path false w) as [[source|] w1] eqn:Eo; [|done].
  apply open_image_ok in Eo as (f' & Eo & Hf' & Hfd & _ & ->). rewrite Hf in Hf'. injection Hf' as <-.
  destruct (image_open_sole _ _ _ _ _ _ _ Hf Hfb Eo) as (_ & Hdev & _).
  set (d1 := <[fresh_fd (w_disks w) := of_data f]> (w_disks w)) in *.
  change (World d1 (w_writing w) (w_files w)) with (with_disks d1 w).
  assert (world_ok (with_disks d1 w)) as Hw1 by by apply world_ok_insert.
  destruct (size_bytes source =? 0); [done|]. cbn [w_disks with_disks].
  destruct (aetherfs_image_load d1 source) as [sim|] eqn:El; [|done]. cbn [mbind result_bind].
  destruct (aetherfs_image_validate d1 sim) as [rep0|] eqn:Ev; [|done]. cbn [mbind result_bind].
  destruct (aetherfs_image_make_temp_path _ _ _ _) as [[temp|] w2] eqn:Em; [|done].
  apply (make_temp_spec _ _ _ _ _ _ Hw1) in Em as (Hfresh & [e He] & ->).
  destruct (fill_temp _ _ _ _ _) as [[[[]|] tfd] w3] eqn:Ec; [|done].
  apply (fill_temp_spec _ _ _ _ _ _ _ _ Hw1) in Ec as (-> & dc & Ec & ->).
  cbn [w_disks with_disks] in Ec |- *. set (data0 := default [] (dc !! fresh_fd d1)) in *.
  destruct (open_image sys_open (re_target_open env) temp true _) as [[target|] w4] eqn:Et; [|done].
  apply open_image_ok in Et as (ft & Et & Hft & Htfd & _ & ->).
  rewrite lookup_temp in Hft. injection Hft as <-.
  rewrite (image_open_ext _ (λ _ _, Ok (temp_file data0))) in Et by apply lookup_temp.
  cbn [w_disks w_writing w_files with_temp with_disks of_data temp_file] in *.
  fold (at_target (fresh_fd d1) d1 data0) in Et |- *.
  destruct (rebuild _ sim target) as [[[[rep next] L]|] d3] eqn:Er; [|done].
  assert (is_block_device sim = false) as ->.
  { apply load_loads in El as (? & ? & ? & ? & ? & ? & ? & [Him _ _ _ _ _ _ _ _ _ _ _ _]).
    rewrite Him, <-Hreg, <-Hdev. reflexivity. }
  intros Hi. assert (rep = report) as ->.
  { revert Hi. unfold install_file. destruct (close_image _ source _) as [s' w5].
    destruct (rename _ _ _ _) as [[]?]; [|done]. unfold finish. by intros [= -> _]. }
  exists source, sim, target, temp, dc, data0, next, L, d3.
  split; try assumption; [|by exists rep0|by split].
  split; [exact Hfresh|]. eapply temp_not_path; [exact Hf|exact He].
Qed.

(** The temporary file has the size of the image, before the rebuild. *)
Lemma copied_size sd data0 size : size = len sd →
  (∀ b, 0 ≤ b < 8 → ∃ x, blk sd b = Ok x ∧ blk data0 b = Ok x) →
  keeps (λ b, b ∈ seqZ 0 AETHERFS_DATA_START_BLOCK) (zeros size) data0 → len data0 = len sd.
Proof.
  intros -> Hlow Hk. destruct (Hlow 7 ltac:(lia)) as (x & H & _).
  unfold read_fs_block, read_at, AETHERFS_DEF_BLOCK_SIZE in H.
  destruct (Z.leb_spec (7 * 4096 + 4096) (len sd)); [|done].
  pose proof (len_zeros (len sd) (len_nonneg sd)) as E. transitivity (len (zeros (len sd))); [|exact E]. apply (keeps_len _ _ _ Hk).
  intros b Hb%elem_of_seqZ. unfold AETHERFS_DATA_START_BLOCK in Hb. lia.
Qed.

(** Both images closed and the file renamed: the temporary file is in the place of [path], or
    everything is as it was. *)
Lemma installed env w path source target report temp sd data0 d3 r w' : world_ok w →
  w_files w !! temp = None → temp ≠ path →
  let d := w_disks w in let d1 := <[fresh_fd d := sd]> d in let fd := fresh_fd d1 in
  (∃ so, aetherfs_image_open so d path false = (Ok source, d1)) →
  member_count target = 1 → m_fd (get_member target 0) = fd → delete fd d3 = d1 →
  install_file sys_open env source target report path temp
    (temp_opened fd temp data0 d3 (with_disks d1 w)) = (r, w') →
  w' = if is_ok r then World d (w_writing w) (<[path := temp_file (default data0 (d3 !! fd))]> (w_files w)) else w.
Proof.
  intros Hw Hfresh Hne d d1 fd [so Eo] Htc Htfd Hd3.
  destruct (fresh_fd_spec d) as [H0 Hn], (fresh_fd_spec d1) as [H1 Hn1].
  pose proof (image_open_member _ _ _ _ _ _ Eo) as [m Hm].
  apply image_open_ok in Eo as (_ & _ & _ & _ & _ & _ & Hfd & Hc & _).
  assert (world_ok (with_disks d1 w)) as Hw1 by by apply world_ok_insert.
  unfold install_file. rewrite (close_image_one _ target) by (done || by rewrite Htfd). rewrite Htfd.
  unfold temp_opened. rewrite (close_temp _ _ (with_disks d1 w)) by done.
  set (data' := default data0 (d3 !! fd)).
  destruct (close_image sys_open source _) as [source' w1] eqn:Ec.
  assert (w1 = with_temp temp data' w) as ->.
  { change w1 with (source', w1).2. rewrite <-Ec, close_image_one by (done || by rewrite Hfd). rewrite Hfd.
    apply (close_reader sys_open (fresh_fd d) (with_temp temp data' w) d1); [done|done|by apply delete_insert_id]. }
  unfold rename. destruct (re_rename env); cbn [w_files with_temp].
  2: { intros [= <- <-]. by apply unlink_temp. }
  rewrite lookup_insert_eq. unfold finish. intros H. injection H as <- H. rewrite <-H. cbn [is_ok].
  assert (source' = (close_image sys_open source (with_temp temp data' (with_disks d1 w))).1) as -> by by rewrite Ec.
  assert (get_member source 0 = m) as Em.
  { change (default member_zero (members source !! 0%nat) = m). by rewrite Hm. }
  pose proof (close_image_again sys_open source m (with_temp temp data' (with_disks d1 w))) as Hag.
  unfold close_image at 1 in Hag. cbn [snd] in Hag. rewrite Hag by (done || by rewrite <-Em, Hfd).
  unfold unlink. cbn [w_disks w_writing w_files with_temp].
  rewrite delete_insert_id by done. rewrite delete_insert_ne by done. by rewrite delete_id.
Qed.

(** What such a run has done: a rebuilt image in the place of the source, and nothing else. *)
Lemma regular_run_rebuilt env w path f report w' source sim target temp dc data0 next L d3 :
  world_ok w → disks_bytes (w_disks w) → lookup_file sys_open w path false = Ok f →
  is_bytes (of_data f) → is_device f = false →
  s_root_inode (super_on (of_data f)) = 2 → s_blocks_count (super_on (of_data f)) ≤ 2 ^ 51 →
  regular_run env w path f report w' source sim target temp dc data0 next L d3 →
  ∃ data' T, w' = World (w_disks w) (w_writing w) (<[path := temp_file data']> (w_files w)) ∧
    d3 !! m_fd (get_member target 0) = Some data' ∧
    blk data0 0 = blk (of_data f) 0 ∧ len data0 = len (of_data f) ∧ is_bytes data0 ∧
    rebuilt_from (of_data f) data' ∧ same_pool T target ∧
    aetherfs_image_load d3 T = Ok L ∧ aetherfs_image_validate d3 L = Ok report ∧
    (s_blocks_count (super_on (of_data f)) * 4096 ≤ len (of_data f) → len data' = len (of_data f)).
Proof.
  intros Hw Hd Hf Hfb Hreg Hroot Hsize [[Hfresh Hne] Eo Hfd El [rep0 Ev] [Ec Ed0] Et Htfd Er Ei].
  set (sd := of_data f) in *.
  destruct (image_open_sole _ _ _ _ _ _ _ Hf Hfb Eo) as (Hsole & _ & Hsz).
  set (d := w_disks w) in *. set (d1 := <[fresh_fd d := sd]> d) in *.
  assert (d1 !! m_fd (get_member source 0) = Some sd) as Hsd by (rewrite Hfd; apply lookup_insert_eq).
  assert (disks_bytes d1) as Hd1 by by apply map_Forall_insert_2.
  destruct (load_on _ _ _ _ Hsole Hsd El Hroot) as [Hon Hpool].
  assert (sole sim) as Hsim by by rewrite Hpool.
  assert (m_fd (get_member sim 0) = m_fd (get_member source 0)) as Hsfd.
  { destruct Hpool as (_ & Hm & _). unfold get_member in *. by rewrite Hm. }
  rewrite <-Hsfd in Hsd.
  assert (m_fd (get_member sim 0) ≠ fresh_fd d1) as Hnfd.
  { destruct (fresh_fd_spec d1) as [_ Hn]. intros E. rewrite <-E, Hsd in Hn. done. }
  assert (size_bytes sim = len sd) as Hsz'.
  { fold sd in Hsz. rewrite <-Hsz. apply load_loads in El as (? & ? & ? & ? & ? & ? & ? & [Him _ _ _ _ _ _ _ _ _ _ _ _]).
    rewrite Him. reflexivity. }
  apply (copy_reserved_ok _ sim d1 sd) in Ec as (data1 & -> & Hb0 & Hk0 & Hlow); [|done..| | |].
  2: { apply Forall_forall. intros b Hb%elem_of_seqZ. unfold AETHERFS_DATA_START_BLOCK in Hb. lia. }
  2: apply NoDup_seqZ.
  2: apply is_bytes_zeros.
  unfold at_target in Ed0. rewrite lookup_insert_eq in Ed0. cbn [default] in Ed0. unfold id in Ed0. subst data1.
  rewrite Forall_forall in Hlow.
  assert (∀ b, 0 ≤ b < 8 → ∃ x, blk sd b = Ok x ∧ blk data0 b = Ok x) as Hlow'.
  { intros b Hb. apply Hlow, elem_of_seqZ. unfold AETHERFS_DATA_START_BLOCK. lia. }
  assert (len data0 = len sd) as Hlen0 by by eapply copied_size.
  destruct (image_open_sole _ _ _ _ _ _ (temp_file data0) eq_refl Hb0 Et) as (Htsole & _ & _).
  apply (rebuild_ok sim target (fresh_fd d1) d1 sd data0) in Er as (data' & T & -> & Hres & Hrest); try assumption.
  - exists data', T. split.
    { apply image_open_ok in Et as (_ & _ & _ & _ & _ & _ & _ & Htc & _).
      apply (installed env w path source target report temp sd data0 _ (Ok report)) in Ei as ->; try done.
      - unfold at_target. by rewrite lookup_insert_eq.
      - by exists (lookup_file sys_open w).
      - apply delete_insert_id, fresh_fd_spec. }
    rewrite Htfd. unfold at_target at 1. rewrite lookup_insert_eq. split; [reflexivity|].
    rewrite Hlen0 in Hrest.
    split; [|split; [exact Hlen0|split; [exact Hb0|split; [exact Hres|exact Hrest]]]].
    destruct (Hlow' 0 ltac:(lia)) as (x & -> & ->). reflexivity.
  - by apply map_Forall_insert_2.
  - intros i Hi Hfile. eapply validated_file_sane; try eassumption. by rewrite (lo_blocks _ _ Hon).
Qed.

(** C7: a rebalance that reports success on a regular file keeps every file.  The
    inode bitmap and the root directory block are those of the source, every inode
    that is not a regular file in use is unchanged, and each regular file keeps all
    its inode fields but the extent root and the checksum, and its contents: the
    data blocks its new extent node lists, in order, are those the old one listed. *)
Theorem rebalance_preserves_files env w path f report w' :
  world_ok w → disks_bytes (w_disks w) → lookup_file sys_open w path false = Ok f →
  is_bytes (of_data f) → is_device f = false →
  s_root_inode (super_on (of_data f)) = AETHERFS_ROOT_INODE_BLOCK →
  s_blocks_count (super_on (of_data f)) ≤ 2 ^ 51 →
  aetherfs_run_rebalance sys_open env w path = (Ok report, w') →
  ∃ data', lookup_file sys_open w' path false = Ok (temp_file data') ∧
    bitmap_on data' = bitmap_on (of_data f) ∧ blk data' 3 = blk (of_data f) 3 ∧
    ∀ i, 0 ≤ i < AETHERFS_INODES_PER_BLOCK → inode_preserved (of_data f) data' i.
Proof.
  intros Hw Hd Hf Hfb Hreg Hroot Hsize Hrun.
  apply (run_rebalance_steps _ _ _ f) in Hrun
    as (source & sim & target & temp & dc & data0 & next & L & d3 & Hrun); [|done..].
  apply regular_run_rebuilt in Hrun as (data' & T & -> & _ & _ & _ & _ & [_ H1 H2 _ _ H3 _] & _); [|done..].
  exists data'. split; [exact (lookup_temp _ path data' w false)|]. split; [exact H1|]. split; [exact H2|exact H3].
Qed.

(** An image with an empty regular file is never rebalanced.  The rebuild points
    the inode of a file without blocks at extent root 0, and the validation of the
    rebuilt image refuses every regular file whose extent root lies below the data
    region. *)
Theorem rebalance_empty_file_fails env w path f i :
  world_ok w → disks_bytes (w_disks w) → lookup_file sys_open w path false = Ok f →
  is_bytes (of_data f) → is_device f = false →
  s_root_inode (super_on (of_data f)) = AETHERFS_ROOT_INODE_BLOCK →
  s_blocks_count (super_on (of_data f)) ≤ 2 ^ 51 →
  1 ≤ i < AETHERFS_INODES_PER_BLOCK → is_file_on (of_data f) i = true →
  i_blocks (inode_on (of_data f) i) = 0 →
  is_ok (aetherfs_run_rebalance sys_open env w path).1 = false.
Proof.
  intros Hw Hd Hf Hfb Hreg Hroot Hsize Hi Hfile Hempty.
  destruct (aetherfs_run_rebalance sys_open env w path) as [[report|] w'] eqn:Hrun; [|done].
  apply (run_rebalance_steps _ _ _ f) in Hrun
    as (source & sim & target & temp & dc & data0 & next & L & d3 & Hrun); [|done..].
  apply regular_run_rebuilt in Hrun as (data' & T & _ & _ & _ & _ & _ & [_ _ _ _ _ _ H] & _); [|done..].
  destruct (H i Hi Hfile Hempty).
Qed.
End run.
