(* ===== verification/Isolated.v ===== *)
(** * A rebalance is confined to its temporary file

    Frame lemmas for the writes of the rebuild: whatever happens, successes and errors
    alike, only the descriptor of the temporary file changes.  Then the ways out of the
    command, label by label: every run closes the descriptors it opened and removes its
    temporary file, and a failed rebalance of a regular file leaves the image alone. *)

From stdpp Require Import strings.
From S2P Require Import Prelude Codec Crc Format Integrity SysIo State Pool Blocks Bitmap.
From S2P Require Import Open Load RootDir Validate Coverage Mkfs Formatted Tools World Rebalance.
From S2P Require Import Rebalanced Preserved.

(** What a write may do: change one descriptor, and leave a table of bytes one.  The
    second part is stated for what is [known] of the table before, so that the frame can
    also be used where nothing is. *)
Section frame.
Context (known : Prop).

Definition good (d : disks) : Prop := known → disks_bytes d.

Record effect (fd : Z) (d d' : disks) : Prop := {
  ef_rest : delete fd d' = delete fd d;
  ef_good : good d';
  ef_open : is_Some (d !! fd) → is_Some (d' !! fd);
}.

Lemma effect_refl fd d : good d → effect fd d d.
Proof. by split. Qed.

Lemma effect_trans fd d1 d2 d3 : effect fd d1 d2 → effect fd d2 d3 → effect fd d1 d3.
Proof. intros [H1 _ H3] [H2 H H4]. split; [congruence|done|auto]. Qed.

Lemma is_bytes_xor a b : is_bytes a → is_bytes b → is_bytes (xor_blocks a b).
Proof.
  intros Ha. revert b. induction Ha as [|x a Hx _ IH]; intros b Hb; [constructor|].
  destruct Hb as [|y b Hy Hb]; [constructor|]. constructor; [|by apply IH].
  apply (lxor_range 8); [lia|done|done].
Qed.

(** ** One block *)

Section image.
Context (image : aetherfs_image) (Hc : member_count image = 1).
Let fd := m_fd (get_member image 0).

Lemma member_write_effect d index b buf : good d → (known → is_bytes buf) →
  effect fd d (aetherfs_image_write_physical_member d image index b buf).2.
Proof.
  intros Hg Hb. unfold aetherfs_image_write_physical_member, aetherfs_member_write_block. rewrite Hc.
  destruct (Z.leb_spec 1 index); [by apply effect_refl|].
  assert (get_member image index = get_member image 0) as ->
    by (unfold get_member; by replace (Z.to_nat index) with (Z.to_nat 0) by lia).
  destruct (_ <? 0); [by apply effect_refl|].
  destruct (d !! m_fd (get_member image 0)) as [data|] eqn:Hd; [|by apply effect_refl].
  destruct (negb _); [by apply effect_refl|].
  destruct (pwrite_file _ _ _ _) as [r data'] eqn:Ew. split; cbn [snd].
  - apply delete_insert_eq.
  - intros Hk. apply map_Forall_insert_2; [|by apply Hg].
    change data' with (r, data').2. rewrite <-Ew. apply is_bytes_pwrite; [|by apply Hb].
    exact (Hg Hk _ _ Hd).
  - intros _. unfold fd. rewrite lookup_insert_eq. by eexists.
Qed.

Lemma replicas_effect ordinals d mask b buf : good d → (known → is_bytes buf) →
  effect fd d (write_replicas ordinals d image mask b buf).2.
Proof.
  intros Hg Hb. revert d Hg. induction ordinals as [|o rest IH]; intros d Hg; cbn [write_replicas];
    [by apply effect_refl|]. destruct (_ <? 0); [by apply effect_refl|].
  pose proof (member_write_effect d (aetherfs_mask_nth mask o) b buf Hg Hb) as H.
  destruct (aetherfs_image_write_physical_member _ _ _ _ _) as [[[]|] d']; [|done].
  eapply effect_trans; [exact H|]. apply IH, H.
Qed.

Lemma write_effect d b buf : good d → (known → is_bytes buf) →
  effect fd d (aetherfs_image_write_block d image b buf).2.
Proof.
  intros Hg Hb. unfold aetherfs_image_write_block. destruct (negb _); [by apply effect_refl|].
  destruct (_ <? _).
  { destruct (_ =? 0); [by apply effect_refl|by apply replicas_effect]. }
  destruct (aetherfs_pool_map_data_block image b) as [m|]; [|by apply effect_refl].
  destruct (_ || _); [by apply member_write_effect|].
  destruct (_ =? _); [by apply replicas_effect|]. destruct (_ =? _); [|by apply effect_refl].
  unfold write_parity.
  destruct (aetherfs_image_read_physical_member d image (member_index m) _) as [x|] eqn:Ex; [|by apply effect_refl].
  destruct (aetherfs_image_read_physical_member d image (parity_member_index m) _) as [y|] eqn:Ey; [|by apply effect_refl].
  assert (known → is_bytes (xor_blocks (xor_blocks y x) buf)) as Hp.
  { intros Hk. apply is_bytes_xor; [|by apply Hb].
    apply is_bytes_xor; by eapply read_physical_bytes; [apply Hg|]. }
  match goal with |- context [aetherfs_image_write_physical_member d image ?i ?k ?z] =>
    pose proof (member_write_effect d i k z Hg Hp) as H end.
  destruct (aetherfs_image_write_physical_member _ _ _ _ _) as [[[]|] d']; cbn [snd] in *; [|exact H].
  eapply effect_trans; [exact H|]. apply member_write_effect; [apply H|done].
Qed.
End image.

(** Images that reach the same file. *)
Definition reaches (fd : Z) (image : aetherfs_image) : Prop :=
  member_count image = 1 ∧ m_fd (get_member image 0) = fd.

Lemma reaches_write fd image d b buf : reaches fd image → good d → (known → is_bytes buf) →
  effect fd d (aetherfs_image_write_block d image b buf).2.
Proof. intros [Hc <-]. by apply write_effect. Qed.

Lemma reaches_pool fd i j : same_pool i j → reaches fd j → reaches fd i.
Proof. intros (_ & Hm & Hc) [H1 H2]. split; [congruence|]. unfold get_member in *. by rewrite Hm. Qed.

Lemma is_bytes_inode_table im : is_bytes (encode_inode_table im).
Proof.
  unfold encode_inode_table. induction (seqZ _ _) as [|k l IH]; [constructor|].
  apply Forall_app. split; [apply is_bytes_encode_any|exact IH].
Qed.

(** ** The rebuild *)

(** One write of the command taken, and the effect of what follows asked for. *)
Ltac take_write H :=
  match goal with
  | Hg : good ?d |- context [aetherfs_image_write_block ?d ?im ?b ?buf] =>
      let Hw := fresh "Hw" in
      pose proof (reaches_write _ im d b buf H Hg) as Hw;
      destruct (aetherfs_image_write_block d im b buf) as [[[]|] ?]; cbn [snd fst] in *;
      (assert (known → is_bytes buf) as Hbuf
        by (intros _; lazymatch goal with
            | |- is_bytes (encode_inode_table _) => apply is_bytes_inode_table
            | |- is_bytes (to_block _ _) => apply is_bytes_to_block_any
            | |- _ => apply is_bytes_encode_any end));
      specialize (Hw Hbuf); clear Hbuf;
      [eapply effect_trans; [exact Hw|]; clear Hg; apply ef_good in Hw as Hg|exact Hw]
  end.

Context (fd : Z) (sim : aetherfs_image).

Lemma copy_extent_effect target ks pstart : reaches fd target → ∀ d dst, good d →
  effect fd d (copy_extent ks d sim target pstart dst).2.
Proof.
  intros Ht. induction ks as [|k ks IH]; intros d dst Hg; cbn [copy_extent]; [by apply effect_refl|].
  destruct (aetherfs_image_read_block _ _ _) as [x|] eqn:Ex; [|by apply effect_refl].
  pose proof (reaches_write fd target d dst x Ht Hg) as Hw.
  destruct (aetherfs_image_write_block d target dst x) as [[[]|] d1]; cbn [snd] in *.
  - assert (effect fd d d1) as H by (apply Hw; intros Hk; by eapply read_block_bytes; [apply Hg|]).
    eapply effect_trans; [exact H|]. apply IH, H.
  - apply Hw. intros Hk. by eapply read_block_bytes; [apply Hg|].
Qed.

Lemma copy_extents_effect target es : reaches fd target → ∀ d dst, good d →
  effect fd d (copy_extents es d sim target dst).2.
Proof.
  intros Ht. induction es as [|e es IH]; intros d dst Hg; cbn [copy_extents]; [by apply effect_refl|].
  pose proof (copy_extent_effect target (seqZ 0 (e_len e)) (e_pstart e) Ht d dst Hg) as H.
  destruct (copy_extent _ _ _ _ _ _) as [[dst'|] d']; cbn [snd] in *; [|done].
  eapply effect_trans; [exact H|]. apply IH, H.
Qed.

Lemma chain_effect target fuel : reaches fd target → ∀ d db rem cs r, good d →
  chain_loop fuel d target db rem cs = Some r → effect fd d r.2.
Proof.
  intros Ht. induction fuel as [|fuel IH]; intros d db rem cs r Hg; cbn [chain_loop];
    (destruct (rem =? 0); [intros [= <-]; by apply effect_refl|]); [done|].
  destruct (sum_blocks _ _ _ _); [|intros [= <-]; by apply effect_refl].
  unfold aetherfs_write_checksum_block.
  match goal with |- context [aetherfs_image_write_block d target ?b ?x] =>
    pose proof (reaches_write fd target d b x Ht Hg (λ _, is_bytes_encode_any _)) as Hw;
    destruct (aetherfs_image_write_block d target b x) as [[[]|] d'] end; cbn [snd] in *.
  - intros H%IH; [|apply Hw]. by eapply effect_trans.
  - by intros [= <-].
Qed.

Lemma move_file_effect d index st : reaches fd (rb_target st) → good d →
  effect fd d (move_file d sim index st).2.
Proof.
  intros Ht Hg. unfold move_file.
  destruct (rebalance_read_extent_node _ _ _) as [node|]; [|by apply effect_refl].
  destruct (_ <? _); [by apply effect_refl|]. unfold aetherfs_copy_file_data.
  match goal with |- context [copy_extents ?es d sim ?t ?dst] =>
    pose proof (copy_extents_effect t es Ht d dst Hg) as H1;
    destruct (copy_extents es d sim t dst) as [[next|] d1] end; cbn [snd] in *; [|done].
  eapply effect_trans; [exact H1|]. apply ef_good in H1. unfold aetherfs_write_checksum_chain.
  match goal with |- context [chain_loop ?n d1 ?t ?a ?b ?c] =>
    pose proof (chain_effect t n Ht d1 a b c) as H2;
    destruct (chain_loop n d1 t a b c) as [[[[]|] d2]|] end; cbn [default snd] in *;
    [|exact (H2 _ H1 eq_refl)|by apply effect_refl].
  specialize (H2 _ H1 eq_refl). cbn [snd] in H2. eapply effect_trans; [exact H2|]. apply ef_good in H2.
  unfold id, aetherfs_write_extent_node. cbv iota beta zeta. take_write Ht. by apply effect_refl.
Qed.

Lemma rebuild_inode_effect d index st : reaches fd (rb_target st) → good d →
  effect fd d (rebuild_inode d sim index st).2 ∧
  ∀ st' d', rebuild_inode d sim index st = (Ok st', d') → reaches fd (rb_target st').
Proof.
  intros Ht Hg. pose proof (effect_refl fd d Hg) as Hr.
  unfold rebuild_inode. destruct (negb _); [split; [done|by intros ?? [= <- _]]|].
  destruct (negb _); [split; [done|by intros ?? [= <- _]]|].
  destruct (_ =? 0); [split; [done|by intros ?? [= <- _]]|].
  split; [by apply move_file_effect|]. intros st' d'. unfold move_file.
  destruct (rebalance_read_extent_node _ _ _); [|done]. destruct (_ <? _); [done|].
  destruct (aetherfs_copy_file_data _ _ _ _ _) as [[|] ?]; [|done].
  destruct (aetherfs_write_checksum_chain _ _ _ _ _) as [[|] ?]; [|done].
  destruct (aetherfs_write_extent_node _ _ _ _) as [[[|] ?] ?]; [|done].
  by intros [= <- _].
Qed.

Lemma rebuild_inodes_effect l : ∀ d st, reaches fd (rb_target st) → good d →
  effect fd d (rebuild_inodes l d sim st).2 ∧
  ∀ st' d', rebuild_inodes l d sim st = (Ok st', d') → reaches fd (rb_target st').
Proof.
  induction l as [|i l IH]; intros d st Ht Hg; cbn [rebuild_inodes].
  { split; [by apply effect_refl|by intros ?? [= <- _]]. }
  destruct (rebuild_inode_effect d i st Ht Hg) as [H1 H2].
  destruct (rebuild_inode d sim i st) as [[st1|] d1]; cbn [snd] in H1; [|split; [done|done]].
  destruct (IH d1 st1 (H2 _ _ eq_refl) (ef_good _ _ _ H1)) as [H3 H4].
  split; [by eapply effect_trans|exact H4].
Qed.

Lemma write_metadata_effect d target : reaches fd target → good d →
  effect fd d (write_metadata d target).2.
Proof.
  intros Ht Hg. unfold write_metadata, aetherfs_image_write_inode_table,
    aetherfs_image_write_free_extents, aetherfs_write_extent_node, aetherfs_image_write_super,
    aetherfs_image_write_journal. cbv iota beta zeta. do 3 take_write Ht. cbn [fst].
  apply reaches_write; [done|done|]. intros _. apply is_bytes_to_block_any.
Qed.

Lemma rebuild_effect d target : reaches fd target → good d → effect fd d (rebuild d sim target).2.
Proof.
  intros Ht Hg. unfold rebuild. destruct (aetherfs_image_load d target) as [T|] eqn:El; [|by apply effect_refl].
  assert (same_pool T target) as Hp.
  { apply load_loads in El as (? & ? & ? & ? & ? & ? & ? & L). exact (loads_same_pool _ _ _ _ _ _ _ _ _ _ L). }
  match goal with |- context [rebuild_inodes ?l d sim ?st] =>
    destruct (rebuild_inodes_effect l d st (reaches_pool _ _ _ Hp Ht) Hg) as [H1 H2];
    destruct (rebuild_inodes l d sim st) as [[st'|] d1] end; [|done].
  cbn [snd] in H1. eapply effect_trans; [exact H1|]. specialize (H2 _ _ eq_refl). apply ef_good in H1.
  pose proof (write_metadata_effect d1 (rebuilt_metadata (rb_target st') (rb_next st')) H2 H1) as H3.
  destruct (write_metadata d1 _) as [[[]|] d2]; exact H3.
Qed.
End frame.

(** The copy to a device writes to its descriptor only. *)
Lemma copy_prefix_frame answers source fd bs : ∀ d,
  delete fd (copy_prefix answers bs d source fd).2 = delete fd d.
Proof.
  induction bs as [|b bs IH]; intros d; cbn [copy_prefix]; [done|].
  destruct (aetherfs_image_read_block d source b) as [x|]; [|done].
  assert (∀ o, delete fd (pwrite_device (answers b) fd o x d).2 = delete fd d) as Hf.
  { intros o. unfold pwrite_device. destruct (answers b); [|done]. destruct (d !! fd); [|done].
    destruct (_ <=? _); [apply delete_insert_eq|]. destruct (_ <? _); [apply delete_insert_eq|done]. }
  specialize (Hf (u64 (b * AETHERFS_DEF_BLOCK_SIZE))).
  destruct (pwrite_device _ _ _ _ _) as [[|] d']; cbn [snd] in *; [|done]. by rewrite IH.
Qed.

(** ** Properties *)

Section run.
Context (sys_open : string → bool → result open_file).

(** ** Leaving the command

    The state [w] it was called in, with the source open as [source], and from some point on
    the temporary file [t]. *)
Section leaving.
Context (w : world) (source : aetherfs_image) (sd : bytes) (t : string).
Context (Hw : world_ok w) (Hs : reaches (fresh_fd (w_disks w)) source) (Ht : w_files w !! t = None).
Let d1 : disks := <[fresh_fd (w_disks w) := sd]> (w_disks w).

Lemma source_closed files : (close_image sys_open source (World d1 (w_writing w) files)).2 =
  World (w_disks w) (w_writing w) files.
Proof.
  destruct Hs as [Hc Hfd]. destruct (fresh_fd_spec (w_disks w)) as [H0 Hn].
  rewrite close_image_one by (done || by rewrite Hfd). rewrite Hfd.
  apply (close_reader sys_open _ (World (w_disks w) (w_writing w) files) d1); [done|done|].
  by apply delete_insert_id.
Qed.

Lemma source_closed_temp x :
  (close_image sys_open source (with_temp t x (with_disks d1 w))).2 = with_temp t x w.
Proof. exact (source_closed _). Qed.

Lemma leave_source e : out_source sys_open source (-1) None e (with_disks d1 w) = (Err e, w).
Proof.
  unfold out_source, out_cleanup, with_disks. rewrite source_closed, world_eta. reflexivity.
Qed.

Lemma leave_temp e x :
  out_source sys_open source (-1) (Some t) e (with_temp t x (with_disks d1 w)) = (Err e, w).
Proof.
  unfold out_source, out_cleanup. rewrite source_closed_temp.
  exact (f_equal (pair (Err e)) (unlink_temp t x w Ht)).
Qed.

Lemma leave_finish report x :
  finish sys_open source t report (with_temp t x (with_disks d1 w)) = (Ok report, w).
Proof.
  unfold finish. rewrite source_closed_temp. exact (f_equal (pair (Ok report)) (unlink_temp t x w Ht)).
Qed.

(** The temporary file still open: the source is closed first. *)
Lemma leave_temp_open e x d : delete (fresh_fd d1) d = d1 →
  out_source sys_open source (fresh_fd d1) (Some t) e (temp_opened (fresh_fd d1) t x d (with_disks d1 w)) = (Err e, w).
Proof.
  intros Hd. destruct Hs as [Hc Hfd]. destruct (fresh_fd_spec (w_disks w)) as [H0 Hn].
  destruct (fresh_fd_spec d1) as [H1 Hn1].
  assert (fresh_fd (w_disks w) ≠ fresh_fd d1) as Hne.
  { intros E. rewrite <-E in Hn1. unfold d1 in Hn1. by rewrite lookup_insert_eq in Hn1. }
  unfold out_source. rewrite close_image_one by (done || by rewrite Hfd). rewrite Hfd.
  assert (sys_close sys_open (fresh_fd (w_disks w)) (temp_opened (fresh_fd d1) t x d (with_disks d1 w)) =
    temp_opened (fresh_fd d1) t x (delete (fresh_fd (w_disks w)) d) w) as ->.
  { assert (<[fresh_fd d1 := t]> (w_writing w) !! fresh_fd (w_disks w) = None) as Hnw
      by (rewrite lookup_insert_ne by done; by apply Hw).
    unfold sys_close, temp_opened. cbn [w_disks w_writing w_files with_disks].
    rewrite Hnw, (delete_id (<[_ := t]> _)) by done. by destruct (d !! _). }
  rewrite (proj2 (Z.leb_le _ _) H1). unfold temp_opened, out_cleanup.
  rewrite close_temp; [by rewrite unlink_temp|done| |].
  - unfold d1 in Hn1. by apply lookup_insert_None in Hn1 as [? _].
  - rewrite delete_delete, Hd. by apply delete_insert_id.
Qed.

(** With the temporary image open. *)
Lemma target_closed target x d : reaches (fresh_fd d1) target → delete (fresh_fd d1) d = d1 →
  (close_image sys_open target (temp_opened (fresh_fd d1) t x d (with_disks d1 w))).2 =
    with_temp t (default x (d !! fresh_fd d1)) (with_disks d1 w).
Proof.
  intros [Hc Hfd] Hd. destruct (fresh_fd_spec d1) as [H1 Hn1].
  rewrite close_image_one by (done || by rewrite Hfd). rewrite Hfd.
  apply (close_temp sys_open _ (with_disks d1 w)); [by apply world_ok_insert|done|done].
Qed.

Lemma leave_target target e x d : reaches (fresh_fd d1) target → delete (fresh_fd d1) d = d1 →
  out_target sys_open source target (Some t) e (temp_opened (fresh_fd d1) t x d (with_disks d1 w)) = (Err e, w).
Proof. intros Hr Hd. unfold out_target. rewrite target_closed by done. apply leave_temp. Qed.
End leaving.

(** ** Installing *)

(** The state is as before but for the file [path]. *)
Definition touched (path : string) (w w' : world) : Prop :=
  w_disks w' = w_disks w ∧ w_writing w' = w_writing w ∧
  ∀ p, p ≠ path → w_files w' !! p = w_files w !! p.

Lemma touched_refl path w : touched path w w.
Proof. done. Qed.

Section device.
Context (env : rebalance_env) (w : world) (source target : aetherfs_image) (sd : bytes) (path t : string).
Context (Hw : world_ok w) (Hs : reaches (fresh_fd (w_disks w)) source).
Context (Ht : w_files w !! t = None) (Hne : t ≠ path).
Let d1 : disks := <[fresh_fd (w_disks w) := sd]> (w_disks w).
Context (Htgt : reaches (fresh_fd d1) target) (d3 : disks) (Hd3 : delete (fresh_fd d1) d3 = d1).
Context (Hopen : is_Some (d3 !! fresh_fd d1)).

(** The device closed after the copy. *)
Lemma dst_closed x d : delete (fresh_fd d3) d = d3 →
  ∃ files,
    sys_close sys_open (fresh_fd d3) (World d (<[fresh_fd d3 := path]> (<[fresh_fd d1 := t]> (w_writing w)))
      (<[t := temp_file x]> (w_files w))) =
      temp_opened (fresh_fd d1) t x d3 (with_disks d1 (World (w_disks w) (w_writing w) files)) ∧
    ∀ p, p ≠ path → files !! p = w_files w !! p.
Proof.
  intros Hd. destruct (fresh_fd_spec d3) as [H3 Hn3].
  assert (<[fresh_fd d1 := t]> (w_writing w) !! fresh_fd d3 = None) as Hnw.
  { rewrite lookup_insert_ne.
    - apply Hw. assert (d1 !! fresh_fd d3 = None) as H1.
      { rewrite <-Hd3. apply lookup_delete_None. by right. }
      unfold d1 in H1. by apply lookup_insert_None in H1 as [? _].
    - intros E. rewrite E, Hn3 in Hopen. by destruct Hopen. }
  unfold sys_close. cbn [w_disks w_writing w_files]. rewrite Hd, delete_insert_id, lookup_insert_eq by done.
  unfold lookup_file. cbn [w_files].
  destruct (d !! fresh_fd d3) as [data|]; [|by exists (w_files w)].
  destruct (match <[t := temp_file x]> (w_files w) !! path with Some f => Ok f | None => sys_open path true end) as [f|];
    [|by exists (w_files w)].
  exists (<[path := OpenFile (of_stat f) (of_ioctl f) data]> (w_files w)). split.
  - unfold temp_opened, with_disks. cbn [w_disks w_writing w_files].
    by rewrite (insert_insert_ne _ path t).
  - intros p Hp. by rewrite lookup_insert_ne.
Qed.

Lemma install_device_touched loaded next x r w' :
  install_device sys_open env source target loaded next path t
    (temp_opened (fresh_fd d1) t x d3 (with_disks d1 w)) = (r, w') → touched path w w'.
Proof.
  unfold install_device, sys_open_rw.
  assert (∀ e, out_target sys_open source target (Some t) e
    (temp_opened (fresh_fd d1) t x d3 (with_disks d1 w)) = (Err e, w)) as Hleave
    by (intros e; by apply leave_target).
  destruct (re_dst_open env); [|rewrite Hleave; by intros [= <- <-]].
  destruct (lookup_file _ _ path true) as [f|]; [|rewrite Hleave; by intros [= <- <-]].
  cbn [w_disks w_writing w_files temp_opened].
  destruct (aetherfs_copy_prefix_to_device _ _ _ _ _ _) as [rc d] eqn:Ec.
  assert (delete (fresh_fd d3) d = d3) as Hd.
  { unfold aetherfs_copy_prefix_to_device in Ec.
    pose proof (copy_prefix_frame (re_pwrite env) loaded (fresh_fd d3) (seqZ 0 next)
      (<[fresh_fd d3 := of_data f]> d3)) as Hf.
    rewrite delete_insert_id in Hf by apply fresh_fd_spec.
    destruct (copy_prefix _ _ _ _ _) as [[|] d'] in Ec, Hf; by injection Ec as _ <-. }
  destruct (dst_closed x d Hd) as (files & Ecl & Hfiles). 
  cbv zeta. change (with_disks d (World ?a ?b ?c)) with (World d b c).
  cbn [w_writing w_files with_disks] in Ecl |- *. rewrite Ecl. clear Ecl.
  set (w2 := World (w_disks w) (w_writing w) files).
  assert (touched path w w2) as Htouch by done.
  assert (w_files w2 !! t = None) as Ht2 by (change (files !! t = None); by rewrite Hfiles).
  destruct rc as [[]|e].
  2: { intros Hi. apply (eq_trans (eq_sym (leave_target w2 source sd t Hw Hs Ht2 target e x d3 Htgt Hd3))) in Hi.
       by injection Hi as <- <-. }
  assert (∀ e x, out_source sys_open source (-1) (Some t) e (with_temp t x (with_disks d1 w2)) = (Err e, w2)) as Hleave2
    by exact (leave_temp w2 source sd t Hw Hs Ht2).
  assert (∀ report x, finish sys_open source t report (with_temp t x (with_disks d1 w2)) = (Ok report, w2)) as Hfinish
    by exact (leave_finish w2 source sd t Hw Hs Ht2).
  pose proof (target_closed w2 sd t Hw target x d3 Htgt Hd3) as Etc.
  change (<[fresh_fd (w_disks w2) := sd]> (w_disks w2)) with d1 in Etc. rewrite Etc. clear Etc.
  set (data' := default x _).
  destruct (open_image sys_open (re_reopen env) path false _) as [[rewritten|e] w3] eqn:Eo.
  2: { apply open_image_err in Eo as ->. rewrite Hleave2. by intros [= <- <-]. }
  apply open_image_ok in Eo as (f' & _ & _ & Hrfd & Hrc & ->).
  rewrite close_image_one by (done || (rewrite Hrfd; apply fresh_fd_spec)). rewrite Hrfd.
  change (World (<[?k := ?v]> ?dd) (w_writing (with_temp t data' ?ww)) (w_files ?www)) with
    (with_disks (<[k := v]> dd) (with_temp t data' ww)).
  rewrite close_reader; [|exact (world_ok_insert _ sd w2 Hw)|apply fresh_fd_spec|apply delete_insert_id, fresh_fd_spec].
  destruct (_ ← aetherfs_image_load _ rewritten; _) as [report|e].
  - rewrite Hfinish. by intros [= <- <-].
  - rewrite Hleave2. by intros [= <- <-].
Qed.
End device.

(** From the rebuild on, with both images open. *)
Lemma rebuilt_touched env w path t f source sim target data0 r w' :
  let d1 := <[fresh_fd (w_disks w) := of_data f]> (w_disks w) in
  let w4 := temp_opened (fresh_fd d1) t data0 (<[fresh_fd d1 := data0]> d1) (with_disks d1 w) in
  world_ok w → w_files w !! t = None → t ≠ path → is_block_device sim = is_device f →
  (∃ so, aetherfs_image_open so (w_disks w) path false = (Ok source, d1)) →
  reaches (fresh_fd d1) target →
  match rebuild (w_disks w4) sim target with
  | (Err e, d) => out_target sys_open source target (Some t) e (with_disks d w4)
  | (Ok (report, next_block, rebuilt), d) =>
      if is_block_device sim
      then install_device sys_open env source target rebuilt next_block path t (with_disks d w4)
      else install_file sys_open env source target report path t (with_disks d w4)
  end = (r, w') →
  touched path w w' ∧ (is_device f = false → is_ok r = false → w' = w).
Proof.
  intros d1 w4 Hw Ht Hne Hsdev [so Eo] Hr. pose proof Hr as [Htc Htfd].
  assert (reaches (fresh_fd (w_disks w)) source) as Hs
    by (apply image_open_ok in Eo as (_ & _ & _ & _ & _ & _ & Hfd & Hc & _); by split).
  unfold w4 at 1. cbn [w_disks temp_opened].
  pose proof (rebuild_effect False _ sim (<[fresh_fd d1 := data0]> d1) target Hr (False_ind _)) as [Hd3 _ Hopen].
  rewrite delete_insert_id in Hd3 by apply fresh_fd_spec. rewrite lookup_insert_eq in Hopen.
  specialize (Hopen (ex_intro _ _ eq_refl)).
  destruct (rebuild _ sim target) as [[[[rep next] L]|e] d3]; cbn [snd] in Hd3, Hopen;
    change (with_disks d3 w4) with (temp_opened (fresh_fd d1) t data0 d3 (with_disks d1 w)).
  2: { intros Hi. apply (eq_trans (eq_sym (leave_target w source (of_data f) t Hw Hs Ht target e data0 d3 Hr Hd3))) in Hi.
       by injection Hi as <- <-. }
  rewrite Hsdev. destruct (is_device f) eqn:Edev.
  - intros Hi. split; [|done]. by eapply install_device_touched; [..|exact Hi].
  - intros Hi%(installed sys_open env w path source target rep t (of_data f) data0 d3); try done.
    2: by exists so.
    subst w'. destruct (is_ok r) eqn:Er; [|by split]. split; [|intros _ H; congruence].
    split; [done|]. split; [done|]. intros p Hp. cbn [w_files]. by rewrite lookup_insert_ne.
Qed.

(** The whole command. *)
Lemma run_rebalance_touched env w path f r w' : world_ok w →
  lookup_file sys_open w path false = Ok f → is_bytes (of_data f) →
  aetherfs_run_rebalance sys_open env w path = (r, w') →
  touched path w w' ∧ (is_device f = false → is_ok r = false → w' = w).
Proof.
  intros Hw Hf Hfb. unfold aetherfs_run_rebalance.
  destruct (open_image sys_open (Ok tt) path false w) as [[source|e] w1] eqn:Eo.
  2: { intros [= <- <-]. apply open_image_err in Eo as ->. by split. }
  apply open_image_ok in Eo as (f' & Eo & Hf' & Hfd & Hc & ->). rewrite Hf in Hf'. injection Hf' as <-.
  destruct (image_open_sole _ _ _ _ _ _ _ Hf Hfb Eo) as (_ & Hdev & _).
  set (d1 := <[fresh_fd (w_disks w) := of_data f]> (w_disks w)) in *.
  change (World d1 (w_writing w) (w_files w)) with (with_disks d1 w).
  assert (world_ok (with_disks d1 w)) as Hw1 by by apply world_ok_insert.
  assert (∀ e, out_source sys_open source (-1) None e (with_disks d1 w) = (Err e, w)) as Hleave
    by (intros e; by apply leave_source).
  destruct (size_bytes source =? 0); [rewrite Hleave; by intros [= <- <-]|]. cbn [w_disks with_disks].
  destruct (aetherfs_image_load d1 source) as [sim|] eqn:El; cbn [mbind result_bind];
    [|rewrite Hleave; by intros [= <- <-]].
  destruct (aetherfs_image_validate d1 sim) as [rep0|]; cbn [mbind result_bind];
    [|rewrite Hleave; by intros [= <- <-]].
  assert (is_block_device sim = is_device f) as Hsdev.
  { rewrite <-Hdev. apply load_loads in El as (? & ? & ? & ? & ? & ? & ? & [Him _ _ _ _ _ _ _ _ _ _ _ _]).
    by rewrite Him. }
  destruct (aetherfs_image_make_temp_path _ _ _ _) as [[t|e] w2] eqn:Em;
    apply (make_temp_spec _ _ _ _ _ _ Hw1) in Em; [|change (w2 = with_disks d1 w) in Em; subst w2; rewrite Hleave; by intros [= <- <-]].
  destruct Em as (Ht & [e0 He] & ->).
  pose proof (temp_not_path sys_open w path false f t e0 Hf He) as Hne.
  assert (∀ e x, out_source sys_open source (-1) (Some t) e (with_temp t x (with_disks d1 w)) = (Err e, w)) as Hleave2
    by exact (leave_temp w source (of_data f) t Hw (conj Hc Hfd) Ht).
  assert (∀ e x d, delete (fresh_fd d1) d = d1 → out_source sys_open source (fresh_fd d1) (Some t) e
    (temp_opened (fresh_fd d1) t x d (with_disks d1 w)) = (Err e, w)) as Hleave3
    by exact (leave_temp_open w source (of_data f) t Hw (conj Hc Hfd) Ht).
  destruct (fill_temp _ _ _ _ _) as [[[[]|e] tfd] w3] eqn:Ec;
    apply (fill_temp_spec _ _ _ _ _ _ _ _ Hw1) in Ec; cbn [w_disks with_disks] in Ec.
  2: { destruct Ec as [[-> ->]|(-> & d & Hd & ->)]; [rewrite Hleave2|rewrite Hleave3 by done];
       by intros [= <- <-]. }
  destruct Ec as (-> & dc & _ & ->). set (data0 := default [] _).
  destruct (open_image sys_open (re_target_open env) t true _) as [[target|e] w4] eqn:Et.
  2: { apply open_image_err in Et as ->. rewrite Hleave2. by intros [= <- <-]. }
  apply open_image_ok in Et as (ft & _ & Hft & Htfd & Htc & ->).
  rewrite lookup_temp in Hft. injection Hft as <-.
  intros Hi. by apply (rebuilt_touched env w path t f source sim target data0 r w') in Hi; [..|eexists|split].
Qed.

(** C8: a rebalance gives back what it took, whatever its outcome.  Every descriptor it opened,
    of the source, the temporary file, the rebuilt image and the device, is closed, no temporary
    file is left, and no file but [path] has changed; and one that fails on a regular file leaves
    that as it was too: nothing is written through [path], which only the final rename
    replaces. *)
Theorem rebalance_failure_keeps_image env w path f r w' : world_ok w →
  lookup_file sys_open w path false = Ok f → is_bytes (of_data f) →
  aetherfs_run_rebalance sys_open env w path = (r, w') →
  w_disks w' = w_disks w ∧ w_writing w' = w_writing w ∧
  (∀ p, p ≠ path → w_files w' !! p = w_files w !! p) ∧
  (is_device f = false → is_ok r = false → w_files w' = w_files w).
Proof.
  intros Hw Hf Hfb Hrun.
  destruct (run_rebalance_touched env w path f r w' Hw Hf Hfb Hrun) as [(H1 & H2 & H3) H4].
  split; [exact H1|]. split; [exact H2|]. split; [exact H3|]. intros Hd Hr. by rewrite H4.
Qed.
End run.
