(* ===== verification/Lifetime.v ===== *)
(** * The life of an image

    A sequence of rebalances, each with whatever environment and outcome: what one leaves
    is a file the scrub accepts whenever the one before was, with the same directory, the
    same inodes in use and the same contents of every file.  So a valid image stays valid,
    and keeps its files, for as long as only these commands touch it. *)

From stdpp Require Import strings.
From S2P Require Import Prelude Codec Crc Format Integrity SysIo State Pool Blocks Bitmap.
From S2P Require Import Open Load RootDir Validate Reopen Coverage Mkfs Formatted Tools World Rebalance.
From S2P Require Import Rebalanced Preserved Isolated.

(** ** Images and commands *)

(** A regular file under every path, for the commands that create none. *)
Definition file_open (data : bytes) (p : string) (w : bool) : result open_file :=
  Ok (OpenFile (Ok S_IFREG) (Ok tt) data).

(** What [aetherfs scrub] prints of the file. *)
Definition scrub_of (data : bytes) : result (image_summary * aetherfs_scrub_report) :=
  (aetherfs_run_scrub (file_open data) (λ _, 0) ∅ (one_image "image")).1.

(** An image in good order: the scrub accepts it, its root inode block is the one every
    tool writes, and its blocks lie in the file. *)
Record sound_image (data : bytes) : Prop := {
  si_bytes : is_bytes data;
  si_root : s_root_inode (super_on data) = AETHERFS_ROOT_INODE_BLOCK;
  si_max : s_blocks_count (super_on data) ≤ 2 ^ 51;
  si_fits : s_blocks_count (super_on data) * AETHERFS_DEF_BLOCK_SIZE ≤ len data;
  si_scrub : is_ok (scrub_of data) = true;
}.

(** One rebalance of the file, whatever its name, the other files, the state of the process, the
    answers of the system calls and the outcome: the file afterwards. *)
Inductive command_step (data : bytes) : bytes → Prop :=
  | step_rebalance sys_open env w path r w' f' :
      world_ok w → disks_bytes (w_disks w) →
      lookup_file sys_open w path false = Ok (temp_file data) →
      aetherfs_run_rebalance sys_open env w path = (r, w') →
      lookup_file sys_open w' path false = Ok f' →
      command_step data (of_data f').

(** The file system an image holds.  Of a regular file the inode counts but for the place
    of its extent root, with the blocks of its contents. *)
Definition file_at (data : bytes) (i : Z) : aetherfs_inode * list bytes :=
  let inode := inode_on data i in
  if (1 <=? i) && is_file_on data i then (repoint 0 inode, contents data (i_extent_root inode))
  else (inode, []).

Record file_system := FileSystem {
  fs_in_use : aetherfs_bitmap_block;
  fs_root_dir : result bytes;
  fs_files : list (aetherfs_inode * list bytes);
}.

Definition file_system_of (data : bytes) : file_system :=
  FileSystem (bitmap_on data) (read_fs_block data AETHERFS_ROOT_DIR_BLOCK)
    (map (file_at data) (seqZ 0 AETHERFS_INODES_PER_BLOCK)).

(** ** One step *)

Lemma repoint_repoint r s inode : repoint r (repoint s inode) = repoint r inode.
Proof.
  unfold repoint.
  assert (∀ c, set_i_extent_root r (set_i_checksum c (set_i_extent_root s inode)) =
    set_i_checksum c (set_i_extent_root r inode)) as -> by (intros c; by destruct inode).
  assert (∀ c x, aetherfs_inode_checksum (set_i_checksum c x) = aetherfs_inode_checksum x) as ->.
  { intros c x. unfold aetherfs_inode_checksum.
    assert (set_i_checksum 0 (set_i_checksum c x) = set_i_checksum 0 x) as -> by (by destruct x). reflexivity. }
  generalize (aetherfs_inode_checksum (set_i_extent_root r inode)). intros c.
  generalize (aetherfs_inode_checksum (set_i_extent_root s inode)). intros c'. by destruct inode.
Qed.

Lemma is_file_preserved data data' i : bitmap_on data' = bitmap_on data →
  i_mode (inode_on data' i) = i_mode (inode_on data i) → is_file_on data' i = is_file_on data i.
Proof. intros Hb Hm. unfold is_file_on. rewrite Hb, Hm. reflexivity. Qed.

Lemma repointed data data' i root : inode_on data' i = repoint root (inode_on data i) →
  i_mode (inode_on data' i) = i_mode (inode_on data i) ∧ i_extent_root (inode_on data' i) = root ∧
  repoint 0 (inode_on data' i) = repoint 0 (inode_on data i).
Proof.
  intros ->. destruct (repoint_fields root (inode_on data i)) as (Hm & Hr & _).
  exact (conj Hm (conj Hr (repoint_repoint 0 root _))).
Qed.

Lemma file_at_preserved data data' i : bitmap_on data' = bitmap_on data →
  inode_preserved data data' i → file_at data' i = file_at data i.
Proof.
  intros Hb. unfold inode_preserved, file_at. cbv zeta.
  destruct (1 <=? i); [rewrite !andb_true_l|intros ->; reflexivity].
  destruct (is_file_on data i) eqn:Ef.
  - intros (root & (Hm & Hr & Hi)%repointed & Hc).
    rewrite (is_file_preserved _ _ _ Hb Hm), Ef, Hi, Hr, Hc. reflexivity.
  - intros Hp. assert (is_file_on data' i = is_file_on data i) as E
      by (apply is_file_preserved; [exact Hb|rewrite Hp; reflexivity]). rewrite E, Ef, Hp. reflexivity.
Qed.

Lemma rebuilt_file_system data data' : rebuilt_from data data' → file_system_of data' = file_system_of data.
Proof.
  intros [_ Hb Hd _ _ Hi _]. unfold file_system_of, AETHERFS_ROOT_DIR_BLOCK. rewrite Hb, Hd.
  apply (f_equal (FileSystem _ _)), map_ext_in. intros i Hin%list_elem_of_In%elem_of_seqZ. change AETHERFS_INODES_PER_BLOCK with 8 in Hin.
  apply file_at_preserved; [done|]. apply Hi. lia.
Qed.

(** The scrub of a file looks at it as any other opening does. *)
Lemma scrub_of_view data o d m w image L report : len data / 4096 = m_blocks m → 0 ≤ m_fd m →
  d !! m_fd m = Some data → label_seen data = Ok o → sole_seen o = true →
  same_pool image (opened_image w m o) →
  aetherfs_image_load d image = Ok L → aetherfs_image_validate d L = Ok report →
  is_ok (scrub_of data) = true.
Proof.
  intros Hm H0 Hd Hl Hs Hp HL HV. unfold scrub_of, aetherfs_run_scrub. rewrite open_one.
  rewrite (open_regular (file_open data) ∅ "image" false data o (Ok tt) eq_refl Hl Hs).
  set (m' := Member _ _ _ _ _ _ _). set (d' := <[fresh_fd ∅ := data]> ∅).
  assert (same_view d image d' (opened_image false m' o)) as Hv.
  { apply (same_view_pool d (opened_image w m o) image d' (opened_image false m' o)).
    - by symmetry.
    - done.
    - apply (opened_same_view _ _ _ _ _ _ _ data); [done|done|apply fresh_fd_spec|done|apply lookup_insert_eq]. }
  pose proof (view_verdict _ _ _ _ Hv) as E. rewrite HL in E. cbn [mbind result_bind] in E. rewrite HV in E.
  destruct (aetherfs_image_load d' (opened_image false m' o)) as [L'|]; [|done].
  cbn [mbind result_bind] in *. by rewrite <-E.
Qed.

Lemma label_seen_block data data' : blk data' 0 = blk data 0 → label_seen data' = label_seen data.
Proof. intros H. unfold label_seen. exact (f_equal (λ r, block ← r; _) H). Qed.

Lemma regular_run_bytes so env w data path report w' source sim target temp dc data0 next L d3 data' :
  disks_bytes (w_disks w) → is_bytes data →
  regular_run so env w path (temp_file data) report w' source sim target temp dc data0 next L d3 →
  is_bytes data0 → d3 !! m_fd (get_member target 0) = Some data' → is_bytes data'.
Proof.
  intros Hd Hb Hrun Hb0 Hout. destruct Hrun as [_ _ _ _ _ _ Et Htfd Er _].
  pose proof (image_open_ok _ _ _ _ _ _ Et) as (_ & _ & _ & _ & _ & _ & _ & Hc & _).
  cbn [of_data temp_file] in *. set (d1 := <[fresh_fd (w_disks w) := data]> (w_disks w)) in *.
  pose proof (rebuild_effect True (fresh_fd d1) sim (at_target (fresh_fd d1) d1 data0) target) as He.
  rewrite Er in He. cbn [snd] in He. destruct He as [_ Hg _].
  - by split.
  - intros _. apply map_Forall_insert_2; [done|]. by apply map_Forall_insert_2.
  - exact (Hg I _ _ Hout).
Qed.

(** ** Properties *)

Section step.
Context (data : bytes) (Hsound : sound_image data).

(** A successful rebalance of an image in good order. *)
Lemma rebalance_sound so env w path report w' : world_ok w → disks_bytes (w_disks w) →
  lookup_file so w path false = Ok (temp_file data) →
  aetherfs_run_rebalance so env w path = (Ok report, w') →
  ∃ data', lookup_file so w' path false = Ok (temp_file data') ∧ sound_image data' ∧
    file_system_of data' = file_system_of data.
Proof.
  intros Hw Hd Hf Hrun. destruct Hsound as [Hb Hroot Hmax Hfits _].
  apply (run_rebalance_steps _ _ _ _ (temp_file data)) in Hrun
    as (source & sim & target & temp & dc & data0 & next & L & d3 & Hrun); [|done..].
  destruct (regular_run_rebuilt _ _ _ _ _ _ _ _ _ _ _ _ _ _ _ _ Hw Hd Hf Hb eq_refl Hroot Hmax Hrun)
    as (data' & T & -> & Hout & H0 & Hl0 & Hb0 & Hres & Hp & HL & HV & Hsize). cbn [of_data temp_file] in *.
  specialize (Hsize Hfits). exists data'. split; [exact (lookup_temp so path data' w false)|].
  split; [|by apply rebuilt_file_system].
  pose proof (rr_temp _ _ _ _ _ _ _ _ _ _ _ _ _ _ _ _ Hrun) as Et. cbv zeta in Et. cbn [of_data temp_file] in Et.
  destruct (open_seen _ _ _ _ _ _ (temp_file data0) eq_refl Et) as (ol & m & Hs & Hsole & -> & Hfd & Hmb).
  destruct (fresh_fd_spec (<[fresh_fd (w_disks w) := data]> (w_disks w))) as [Hnn _]. cbn [of_data temp_file] in *.
  split.
  - eapply regular_run_bytes; [exact Hd|exact Hb|exact Hrun|exact Hb0|exact Hout].
  - exact (rf_root _ _ Hres).
  - rewrite (rf_count _ _ Hres). exact Hmax.
  - rewrite (rf_count _ _ Hres), Hsize. exact Hfits.
  - assert (m_fd (get_member (opened_image true m ol) 0) = m_fd m) as Em by by destruct ol.
    rewrite Em in Hout. apply (scrub_of_view data' ol d3 m true T L report); try done.
    + rewrite Hsize, <-Hl0. by symmetry.
    + rewrite Hfd. exact Hnn.
    + rewrite (label_seen_block data0); [exact Hs|]. rewrite (rf_label _ _ Hres). by symmetry.
Qed.
End step.

Lemma command_step_sound data data' : command_step data data' → sound_image data →
  sound_image data' ∧ file_system_of data' = file_system_of data.
Proof.
  intros [so env w path r w' f' Hw Hd Hf Hrun Hf'] Hs. destruct r as [report|e].
  - destruct (rebalance_sound _ Hs _ _ _ _ _ _ Hw Hd Hf Hrun) as (data1 & E & H1 & H2).
    rewrite Hf' in E. injection E as ->. exact (conj H1 H2).
  - apply (run_rebalance_touched _ _ _ _ (temp_file data)) in Hrun as [_ H];
      [|done|done|exact (si_bytes _ Hs)]. rewrite (H eq_refl eq_refl), Hf in Hf'. injection Hf' as <-.
    exact (conj Hs eq_refl).
Qed.

(** C5: an image keeps its file system through any sequence of rebalances.  Whatever
    the environments, the states of the processes and the outcomes, failures at any point
    included, what they leave of a file the scrub accepts is a file the scrub accepts,
    with the same inodes in use, the same root directory, and for each inode the same
    fields (of a regular file all but the place of its extent root) and the same
    contents. *)
Theorem image_outlives_rebalances data data' : rtc command_step data data' → sound_image data →
  sound_image data' ∧ file_system_of data' = file_system_of data.
Proof.
  induction 1 as [data|data data1 data' Hstep _ IH]; [done|]. intros Hs.
  destruct (command_step_sound _ _ Hstep Hs) as [Hs1 <-]. exact (IH Hs1).
Qed.

(** ** The beginning *)

(** What [mkfs] makes is an image in good order. *)
Lemma formatted_sound env options t b data :
  env_ok env → is_u16 (o_mode options) → 0 ≤ o_blocks options → t_stat t = Ok S_IFREG →
  is_bytes (t_data t) → b < 2 ^ 51 → aetherfs_run_mkfs env options t = (Ok b, data) →
  sound_image data.
Proof.
  intros Henv Hmode Ho Hst Hby Hb Hrun. apply run_mkfs_regular in Hrun
    as (uuid & Hopt & Hul & Hub & H8 & Hfmt & Hl & Hdb); try assumption.
  assert (super_on data = seal (plain_super options b uuid)) as Es.
  { pose proof (blk_slice _ _ _ (fm_super _ _ _ _ _ Hfmt)) as E. unfold super_on.
    change (slice (AETHERFS_SUPERBLOCK_BLOCK * AETHERFS_DEF_BLOCK_SIZE) AETHERFS_DEF_BLOCK_SIZE data)
      with (slice (1 * 4096) 4096 data). rewrite <-E. apply decode_to_block, seal_wf, plain_super_wf;
      [done|unfold is_u64; lia|done|done]. }
  destruct (formatted_opens (file_open data) env options b uuid data ∅ "image" false (Ok tt))
    as (image & d' & im & Hop & Hload & Hval); [done|done|lia|done|done|done|done|reflexivity|].
  split; [by apply Hdb|rewrite Es; reflexivity|rewrite Es; change (b ≤ 2 ^ 51); lia| |].
  - rewrite Es, Hl. change (b * AETHERFS_DEF_BLOCK_SIZE ≤ b * 4096). unfold AETHERFS_DEF_BLOCK_SIZE. lia.
  - unfold scrub_of, aetherfs_run_scrub. rewrite open_one, Hop, Hload. cbn [mbind result_bind].
    rewrite Hval. reflexivity.
Qed.
