(* ===== verification/Samples.v ===== *)
(** * Sample filesystems

    Concrete three-member pools, written block by block with the modelled
    operations, on which the properties of loading, validation and formatting are
    instantiated. *)

From stdpp Require Import strings.
From S2P Require Import Prelude Codec Crc Format Integrity SysIo State Pool Blocks Bitmap Open.
From S2P Require Import Load RootDir Validate Coverage Mkfs Formatted Tools.

(** ** A filesystem with one file *)

Definition sample_env : mkfs_env := MkfsEnv (Ok (replicate 16 170)) 1700000000 1000 1000 (Ok tt).

(** A superblock for a pool of three members. *)
Definition sample_super (blocks free : Z) : aetherfs_super :=
  seal (Super AETHERFS_MAGIC AETHERFS_VERSION 4096 blocks free 12 1 3 0 1 0 (replicate 16 7) 1 1
    (7 :: replicate 7 0) 4 2 1 AETHERFS_MAX_INODES 5 0 6 0 0 0 (zeros 6)).

Definition block_a : bytes := replicate 4096 65.
Definition block_b : bytes := replicate 4095 66 ++ [10].

(** Inode 17: 5000 bytes in two blocks, described by the extent node in block 8. *)
Definition sample_file_inode : aetherfs_inode :=
  seal (Inode 0x81A4 1 0 0 5000 2 0 0 0 8 1 0 0 0 16 0 0 0 0 (zeros 24) (zeros 372)).

Definition sample_inode_table : bytes :=
  splice 512 (encode sample_file_inode) (to_block 4096 (aetherfs_init_root_inode sample_env)).

Definition sample_bitmap : aetherfs_bitmap_block :=
  seal (set_bb_set_bits 2 (aetherfs_image_bitmap_set aetherfs_init_inode_bitmap 1)).

Definition sample_free (blocks : Z) : aetherfs_extent_node :=
  seal (ExtentNode 0 (if blocks =? 12 then 0 else 1) 0
    (Extent 0 12 0 (blocks - 12) 0 0 :: replicate 101 zeroed)).

(** Blocks 9 and 10 hold the data, block 11 its sums. *)
Definition sample_extents : aetherfs_extent_node :=
  seal (ExtentNode 0 1 0 (Extent 0 9 11 2 0 0 :: replicate 101 zeroed)).

Definition sample_sums : aetherfs_checksum_block :=
  seal (ChecksumBlock 0 2 0
    (aetherfs_crc32c_data block_a :: aetherfs_crc32c_data block_b :: replicate 1018 0)).

Definition sample_writes (blocks : Z) : list (Z * bytes) :=
  let super := sample_super blocks (blocks - 12) in
  [(1, to_block 4096 super); (2, sample_inode_table); (3, sample_root_dir);
   (4, to_block 4096 aetherfs_init_journal); (5, to_block 4096 sample_bitmap);
   (6, to_block 4096 (sample_free blocks));
   (7, to_block 4096 (aetherfs_init_checkpoint_root super blocks));
   (8, to_block 4096 sample_extents); (9, block_a); (10, block_b); (11, to_block 4096 sample_sums)].

(** The writes through [aetherfs_image_write_block], over zeroed members. *)
Definition sample_fs (profile logical_data : Z) : disks :=
  foldl (λ d w, (aetherfs_image_write_block d (sample_image profile logical_data) w.1 w.2).2)
    sample_disks (sample_writes (logical_data + 8)).

(** ** Evaluation *)

Definition all_bytes (d : disks) : bool :=
  forallb (λ kv : Z * bytes, forallb (λ b, (0 <=? b) && (b <? 256)) kv.2) (map_to_list d).

Lemma all_bytes_ok d : all_bytes d = true → disks_bytes d.
Proof.
  unfold all_bytes. rewrite forallb_forall. intros H fd data Hd. apply Forall_forall. intros b Hb.
  specialize (H (fd, data)). rewrite <-list_elem_of_In, elem_of_map_to_list in H.
  specialize (H Hd). rewrite forallb_forall in H. specialize (H b).
  rewrite <-list_elem_of_In in H. apply H, andb_true_iff in Hb as [H1%Z.leb_le H2%Z.ltb_lt].
  by split.
Qed.

(** The validation with the inode loop cut at the first block of inodes. *)
Definition validate_first (d : disks) (image : aetherfs_image) : result aetherfs_scrub_report :=
  return_if negb (il_outstanding (journal image) =? 0) with EUCLEAN ;;
  return_if negb (aetherfs_image_bitmap_test (inode_bitmap image) 0) with EINVAL ;;
  refs ← aetherfs_image_validate_root_dir image;
  st ← check_inodes (count_up 8 0) d image refs
    (Walk (aetherfs_interval_list_append [] (cr_root_dir_block (checkpoint_root image)) 1) 0 0 0);
  '(coverage, free_blocks) ← check_free_list image;
  _ ← check_cover (sort_intervals (add_used (sort_intervals (w_used st)) coverage))
    AETHERFS_DATA_START_BLOCK (blocks image);
  return_if negb (s_free_blocks (super image) =? free_blocks) with EINVAL ;;
  _ ← aetherfs_image_validate_pool_redundancy d image (sort_intervals (w_used st));
  Ok (Report (w_files st) (w_directories st) (bb_set_bits (inode_bitmap image))
    (w_data_blocks st) free_blocks).

Lemma check_inodes_app l k d image refs st :
  check_inodes (l ++ k) d image refs st =
    check_inodes l d image refs st ≫= check_inodes k d image refs.
Proof.
  revert st. induction l as [|i l IH]; intros st; [done|]. cbn [check_inodes app].
  destruct (check_inode d image refs i st); cbn [mbind result_bind]; [apply IH|done].
Qed.

Lemma check_inodes_skip l d image refs st :
  Forall (λ i, len (inode_table image) ≤ i ∧
    aetherfs_image_bitmap_test (inode_bitmap image) i = false) l →
  check_inodes l d image refs st = Ok st.
Proof.
  induction 1 as [|i l [Hi Hb] Hl IH]; [done|]. cbn [check_inodes].
  assert (check_inode d image refs i st = Ok st) as ->; [|exact IH].
  unfold check_inode. rewrite Hb. cbn [negb]. unfold inode_at.
  by rewrite (proj2 (Z.ltb_ge _ _) Hi).
Qed.

(** Inodes beyond the first block are neither loaded nor marked. *)
Lemma validate_first_ok d image byte rest r :
  len (inode_table image) = 8 → bb_bits (inode_bitmap image) = byte :: rest →
  Forall (eq 0) rest → validate_first d image = Ok r → aetherfs_image_validate d image = Ok r.
Proof.
  intros Hl Hbits Hz. unfold validate_first, aetherfs_image_validate.
  rewrite count_up_seqZ. change AETHERFS_MAX_INODES with (8 + 32632).
  rewrite seqZ_app by lia. change (count_up 8 0) with (seqZ 0 8).
  intros H. apply reject_ok in H as [H1 H]. apply reject_ok. split; [exact H1|].
  apply reject_ok in H as [H2 H]. apply reject_ok. split; [exact H2|].
  apply bind_ok in H as (refs & H3 & H). apply bind_ok. exists refs. split; [exact H3|].
  apply bind_ok in H as (st & H4 & H). apply bind_ok. exists st. split; [|exact H].
  rewrite check_inodes_app, H4. cbn [mbind result_bind]. apply check_inodes_skip.
  apply Forall_forall. intros i Hi%elem_of_seqZ. split; [lia|].
  unfold aetherfs_image_bitmap_test, bitmap_byte. rewrite Hbits.
  assert (1 ≤ i / 8) by (apply Z.div_le_lower_bound; lia).
  replace (Z.to_nat (i / 8)) with (S (Z.to_nat (i / 8 - 1))) by lia. cbn [lookup list_lookup].
  destruct (rest !! Z.to_nat (i / 8 - 1)) as [x|] eqn:E; [|done].
  apply (Forall_lookup_1 _ _ _ _ Hz) in E as <-. done.
Qed.

(** Load and validate, as scrub does. *)
Definition scrub_report (d : disks) (image : aetherfs_image) : result aetherfs_scrub_report :=
  im ← aetherfs_image_load d image; validate_first d im.

Definition low_bits_only (d : disks) (image : aetherfs_image) : bool :=
  match aetherfs_image_load d image with
  | Ok im => match bb_bits (inode_bitmap im) with
             | _ :: rest => forallb (Z.eqb 0) rest
             | [] => false
             end
  | Err _ => false
  end.

Lemma scrub_report_ok d image r :
  low_bits_only d image = true → scrub_report d image = Ok r →
  ∃ im, aetherfs_image_load d image = Ok im ∧ aetherfs_image_validate d im = Ok r.
Proof.
  unfold low_bits_only, scrub_report. intros Hlow H. apply bind_ok in H as (im & Hl & H).
  rewrite Hl in Hlow. destruct (bb_bits (inode_bitmap im)) as [|byte rest] eqn:Eb; [done|].
  exists im. split; [done|]. eapply validate_first_ok; [|exact Eb| |exact H].
  - apply load_loads in Hl as (? & ? & ? & ? & ? & bi & ? & [-> _ _ _ _ _ _ _ _ _ _ _ _]).
    reflexivity.
  - rewrite forallb_forall in Hlow. apply Forall_forall. intros x Hx%list_elem_of_In%Hlow.
    by apply Z.eqb_eq.
Qed.

Definition sample_check (profile logical_data : Z) (r : aetherfs_scrub_report) : Prop :=
  let d := sample_fs profile logical_data in
  let image := sample_image profile logical_data in
  all_bytes d = true ∧ low_bits_only d image = true ∧ scrub_report d image = Ok r.

Lemma sample_bytes profile logical_data r :
  sample_check profile logical_data r → disks_bytes (sample_fs profile logical_data).
Proof. intros H. exact (all_bytes_ok _ (proj1 H)). Qed.

Lemma sample_loads profile logical_data r :
  sample_check profile logical_data r →
  ∃ im, aetherfs_image_load (sample_fs profile logical_data) (sample_image profile logical_data)
      = Ok im ∧
    aetherfs_image_validate (sample_fs profile logical_data) im = Ok r.
Proof. intros (_ & H1 & H2). exact (scrub_report_ok _ _ _ H1 H2). Qed.

Lemma sample_linear : sample_check 0 8 (Report 1 1 2 2 4).
Proof. vm_compute. repeat split; reflexivity. Qed.

Lemma sample_mirror : sample_check 1 4 (Report 1 1 2 2 0).
Proof. vm_compute. repeat split; reflexivity. Qed.

Lemma sample_parity : sample_check 3 8 (Report 1 1 2 2 4).
Proof. vm_compute. repeat split; reflexivity. Qed.

(** ** Witnesses: loading *)

Definition corrupt_super (d : disks) : disks :=
  (λ data, <[4116%nat := 9]> data) <$> d.

Lemma load_rejects_corrupted_super_witness :
  is_ok (aetherfs_image_load (corrupt_super (sample_fs 0 8)) (sample_image 0 8)) = false.
Proof.
  apply (load_rejects_corrupted_super (sample_fs 0 8) (corrupt_super (sample_fs 0 8))
    (sample_image 0 8) (to_block 4096 (sample_super 16 4)) 20 9).
  - exact (sample_bytes _ _ _ sample_linear).
  - vm_compute. reflexivity.
  - vm_compute. reflexivity.
  - lia.
  - vm_compute. split; [discriminate|reflexivity].
  - vm_compute. discriminate.
  - vm_compute. reflexivity.
Defined.

Definition readable_all (d : disks) (image : aetherfs_image) : bool :=
  forallb (λ b, forallb (λ index, is_ok (aetherfs_image_read_physical_member d image index b))
    (members_of (aetherfs_pool_role_mask_for_bootstrap_block image b))) (seqZ 0 8).

Lemma readable_all_ok d image : readable_all d image = true → replicas_readable d image.
Proof.
  unfold readable_all. rewrite forallb_forall. intros H b Hb index Hi.
  specialize (H b). rewrite <-list_elem_of_In, elem_of_seqZ in H. specialize (H ltac:(lia)).
  rewrite forallb_forall in H. by apply H, list_elem_of_In.
Qed.

Lemma flush_super_roundtrip_witness :
  ∃ d' im', aetherfs_image_load d' (sample_image 1 4) = Ok im' ∧ s_free_blocks (super im') = 77.
Proof.
  destruct (sample_loads _ _ _ sample_mirror) as (im & Hl & _).
  destruct (aetherfs_image_write_super (sample_fs 1 4)
    (set_super (set_s_free_blocks 77 (super im)) im)) as [[r d'] im'] eqn:E.
  assert (match aetherfs_image_load (sample_fs 1 4) (sample_image 1 4) with
    | Ok im => (s_root_inode (super im) =? 2) && (s_journal_addr (super im) =? 4) &&
        is_ok (aetherfs_image_write_super (sample_fs 1 4)
          (set_super (set_s_free_blocks 77 (super im)) im)).1.1
    | Err _ => false end = true) as Hc by (vm_compute; reflexivity).
  rewrite Hl in Hc. rewrite E in Hc. cbn [fst] in Hc.
  apply andb_true_iff in Hc as [[H1%Z.eqb_eq H2%Z.eqb_eq]%andb_true_iff H3].
  destruct r as [[]|]; [|discriminate H3].
  exists d', im'. apply (flush_super_roundtrip (sample_fs 1 4) (sample_image 1 4) im 77 d' im').
  - apply sample_access_ok; [unfold is_u32|]; lia.
  - exact (sample_bytes _ _ _ sample_mirror).
  - apply readable_all_ok. vm_compute. reflexivity.
  - unfold is_u64. lia.
  - exact Hl.
  - exact H1.
  - exact H2.
  - exact E.
Defined.

(** ** Witnesses: validation *)

Lemma csum_walk_terminates_witness :
  is_Some (csum_loop 2 (sample_fs 0 8) (sample_image 0 8) 9 2 11 0 []).
Proof.
  apply (csum_walk_terminates (sample_fs 0 8) (sample_image 0 8) 9 2 11 []).
  - exact (sample_bytes _ _ _ sample_linear).
  - unfold is_u64. lia.
Defined.

Lemma validate_tiles_data_area_witness :
  ∃ image claims, aetherfs_image_load (sample_fs 0 8) (sample_image 0 8) = Ok image ∧
    Forall2 (inode_claims (sample_fs 0 8) image) (seqZ 0 AETHERFS_MAX_INODES) claims ∧
    cover_count (free_list image ++ concat claims) 9 = 1 ∧ total_len (free_list image) = 4.
Proof.
  destruct (sample_loads _ _ _ sample_linear) as (im & Hl & Hv).
  destruct (validate_tiles_data_area (sample_fs 0 8) (sample_image 0 8) im (Report 1 1 2 2 4))
    as (claims & Hc & Ht & Hf & _).
  - exact (sample_bytes _ _ _ sample_linear).
  - exact Hl.
  - exact Hv.
  - exists im, claims. split; [exact Hl|]. split; [exact Hc|]. split; [|symmetry; exact Hf].
    rewrite Ht. apply load_loads in Hl as (bs & ? & ? & ? & ? & ? & ? & [-> R1 _ _ _ _ _ _ _ _ _ _ _]).
    assert (aetherfs_image_read_block (sample_fs 0 8) (sample_image 0 8) 1 =
      Ok (to_block 4096 (sample_super 16 4))) as Hr by (vm_compute; reflexivity).
    rewrite Hr in R1. injection R1 as <-. vm_compute. reflexivity.
Defined.

Lemma validate_files_are_named_witness :
  ∃ image entries, aetherfs_image_load (sample_fs 0 8) (sample_image 0 8) = Ok image ∧
    dir_chain (root_dir image) 0 entries ∧ NoDup (children entries).
Proof.
  destruct (sample_loads _ _ _ sample_linear) as (im & Hl & Hv).
  destruct (validate_files_are_named (sample_fs 0 8) (sample_image 0 8) im (Report 1 1 2 2 4))
    as (entries & claims & Hc & Hn & _).
  - exact (sample_bytes _ _ _ sample_linear).
  - exact Hl.
  - exact Hv.
  - exists im, entries. split; [exact Hl|]. split; [exact Hc|exact Hn].
Defined.

Lemma loaded_geometry d profile logical_data im :
  is_u32 profile → 0 ≤ logical_data < 2 ^ 63 →
  aetherfs_image_load d (sample_image profile logical_data) = Ok im →
  same_pool im (sample_image profile logical_data) ∧ geometry_ok im.
Proof.
  intros Hp Hd (? & ? & ? & ? & ? & ? & ? & L)%load_loads.
  apply loads_same_pool in L as Hs. split; [done|]. apply acc_geo. rewrite Hs.
  by apply sample_access_ok.
Qed.

Lemma validate_mirror_copies_agree_witness :
  ∃ image claims, aetherfs_image_load (sample_fs 1 4) (sample_image 1 4) = Ok image ∧
    (∀ b, owned (concat claims) b → ∃ content, ∀ index,
      index ∈ members_of (aetherfs_pool_data_mask image) →
      aetherfs_image_read_physical_member (sample_fs 1 4) image index b = Ok content).
Proof.
  destruct (sample_loads _ _ _ sample_mirror) as (im & Hl & Hv).
  destruct (loaded_geometry _ 1 4 im ltac:(unfold is_u32; lia) ltac:(lia) Hl) as [Hs Hg].
  destruct (validate_mirror_copies_agree (sample_fs 1 4) (sample_image 1 4) im (Report 1 1 2 2 0))
    as (claims & _ & Hc).
  - exact (sample_bytes _ _ _ sample_mirror).
  - exact Hg.
  - exact Hl.
  - exact Hv.
  - rewrite (profile_proper _ _ Hs). vm_compute. reflexivity.
  - rewrite (data_mask_proper _ _ Hs). vm_compute. reflexivity.
  - exists im, claims. split; [exact Hl|exact Hc].
Defined.

Lemma validate_parity_recoverable_witness :
  ∃ image claims, aetherfs_image_load (sample_fs 3 8) (sample_image 3 8) = Ok image ∧
    Forall2 (inode_claims (sample_fs 3 8) image) (seqZ 0 AETHERFS_MAX_INODES) claims ∧
    (∀ b, owned (concat claims) b → is_ok (aetherfs_pool_map_parity image b) = true).
Proof.
  destruct (sample_loads _ _ _ sample_parity) as (im & Hl & Hv).
  destruct (loaded_geometry _ 3 8 im ltac:(unfold is_u32; lia) ltac:(lia) Hl) as [Hs Hg].
  destruct (validate_parity_recoverable (sample_fs 3 8) (sample_image 3 8) im (Report 1 1 2 2 4))
    as (claims & Hcl & Hc).
  - exact (sample_bytes _ _ _ sample_parity).
  - exact Hg.
  - exact Hl.
  - exact Hv.
  - rewrite (profile_proper _ _ Hs). vm_compute. reflexivity.
  - exists im, claims. split; [exact Hl|]. split; [exact Hcl|].
    intros b Hb. destruct (Hc b Hb) as (m & Hm & _). rewrite Hm. reflexivity.
Defined.

(** ** Witnesses: formatting *)

Definition sample_options (blocks : Z) : aetherfs_mkfs_options := MkfsOptions blocks 4096 0 false.

(** A path where no file exists yet. *)
Definition sample_target : target := Target false (Ok tt) (Ok S_IFREG) (Ok tt) (Ok tt) [].

(** Every path opens, as a regular file with the given contents. *)
Definition sample_file_open (data : bytes) (p : unit) (w : bool) : result open_file :=
  Ok (OpenFile (Ok S_IFREG) (Ok tt) data).

Lemma sample_env_ok : env_ok sample_env.
Proof.
  split; [unfold is_u64; simpl; lia|unfold is_u32; simpl; lia|unfold is_u32; simpl; lia|].
  intros uuid [= <-]. apply (Forall_replicate is_byte 16 170). split; lia.
Qed.

Lemma sample_options_ok blocks : options_ok (sample_options blocks).
Proof. split; [done|]. unfold is_u16. simpl. lia. Qed.

Lemma sample_formattable blocks : formattable (sample_options blocks) sample_target.
Proof. repeat split. discriminate. Qed.

Lemma mkfs_succeeds_witness :
  ∃ data, aetherfs_run_mkfs sample_env (sample_options 100) sample_target = (Ok 100, data) ∧
    len data = 100 * AETHERFS_DEF_BLOCK_SIZE.
Proof.
  apply (mkfs_succeeds sample_env (sample_options 100) sample_target (replicate 16 170)).
  - exact sample_env_ok.
  - apply sample_options_ok.
  - reflexivity.
  - reflexivity.
  - reflexivity.
  - apply sample_formattable.
  - simpl. lia.
Defined.

Lemma mkfs_image_valid_witness :
  ∃ data image d im,
    aetherfs_run_mkfs sample_env (sample_options 20) sample_target = (Ok 20, data) ∧
    aetherfs_image_open (sample_file_open data) ∅ tt false = (Ok image, d) ∧
    aetherfs_image_load d image = Ok im ∧
    aetherfs_image_validate d im = Ok (Report 0 1 1 0 12).
Proof.
  destruct (formattable_size (sample_options 20) sample_target) as (data0 & Hs & Hl);
    [apply sample_formattable|apply sample_options_ok|simpl; lia|reflexivity|].
  destruct (run_mkfs_result sample_env (sample_options 20) sample_target false 20 data0
    (replicate 16 170)) as (uuid & data & _ & _ & Hrun & _);
    [exact sample_env_ok|apply sample_options_ok|reflexivity|reflexivity|reflexivity
    |apply formattable_check, sample_formattable|exact Hs|lia
    |rewrite Hl; vm_compute; discriminate|].
  destruct (mkfs_image_valid (sample_file_open data) sample_env (sample_options 20) sample_target 20
    data ∅ tt false (Ok tt)) as (image & d & im & H).
  - exact sample_env_ok.
  - unfold is_u16. simpl. lia.
  - simpl. lia.
  - reflexivity.
  - lia.
  - exact Hrun.
  - reflexivity.
  - exists data, image, d, im. split; [exact Hrun|exact H].
Defined.

Lemma mkfs_eight_blocks_fails_late_witness :
  ∃ uuid data, aetherfs_run_mkfs sample_env (sample_options 8) sample_target = (Err EINVAL, data) ∧
    formatted sample_env (sample_options 8) 8 uuid data.
Proof.
  apply (mkfs_eight_blocks_fails_late sample_env (sample_options 8) sample_target
    (replicate 16 170)).
  - exact sample_env_ok.
  - apply sample_options_ok.
  - reflexivity.
  - reflexivity.
  - reflexivity.
  - apply sample_formattable.
  - reflexivity.
Defined.

Lemma mkfs_size_overflow_witness :
  ∃ data, aetherfs_run_mkfs sample_env (sample_options (2 ^ 52 + 9)) sample_target
      = (Ok (2 ^ 52 + 9), data) ∧ len data = 9 * 4096.
Proof.
  destruct (mkfs_size_overflow (sample_file_open []) sample_env (sample_options (2 ^ 52 + 9))
    sample_target (replicate 16 170) 9 ∅ tt false (Ok tt)) as (data & H1 & H2 & _).
  - exact sample_env_ok.
  - apply sample_options_ok.
  - reflexivity.
  - reflexivity.
  - reflexivity.
  - apply sample_formattable.
  - lia.
  - reflexivity.
  - exists data. split; [exact H1|exact H2].
Defined.

(** ** Witnesses: the tools *)

(** A file of 20 blocks fresh from [mkfs], under every path. *)
Lemma sample_formatted : ∃ data, ∀ d p, ∃ image d' im,
  aetherfs_image_open (λ (_ : String.string) (_ : bool),
    Ok (OpenFile (Ok S_IFREG) (Ok tt) data)) d p false = (Ok image, d') ∧
  aetherfs_image_load d' image = Ok im ∧
  aetherfs_image_validate d' im = Ok (Report 0 1 1 0 12).
Proof.
  destruct (formattable_size (sample_options 20) sample_target) as (data0 & Hs & Hl);
    [apply sample_formattable|apply sample_options_ok|simpl; lia|reflexivity|].
  destruct (run_mkfs_result sample_env (sample_options 20) sample_target false 20 data0
    (replicate 16 170)) as (uuid & data & Hul & Hub & _ & Hfmt & Hlen & _);
    [exact sample_env_ok|apply sample_options_ok|reflexivity|reflexivity|reflexivity
    |apply formattable_check, sample_formattable|exact Hs|lia
    |rewrite Hl; vm_compute; discriminate|].
  exists data. intros d p.
  apply (formatted_opens _ sample_env (sample_options 20) 20 uuid data d p false (Ok tt));
    [exact sample_env_ok|apply sample_options_ok|lia|exact Hul|exact Hub|exact Hfmt| |reflexivity].
  rewrite Hlen, Hl. reflexivity.
Qed.

Definition sample_mount (behavior : aetherfs_mount_behavior) : aetherfs_mount_options :=
  MountOptions "/tmp/a.img" "/mnt" None false behavior.

Definition sample_mount_env : mount_env :=
  MountEnv (Ok S_IFREG) (Some true) (Ok tt) (Some ["nodev aetherfs"]) (λ _, false) true (λ _, Exited 0).

Lemma recommendation_is_mountable_witness : ∃ data,
  preflight (λ _ _, Ok (OpenFile (Ok S_IFREG) (Ok tt) data)) ∅ (sample_mount AETHERFS_MOUNT_STRICT)
    = (Ok false, ∅).
Proof.
  destruct sample_formatted as (data & H).
  destruct (H ∅ "/tmp/a.img") as (image & d' & im & Ho & Hl & Hv).
  exists data.
  eapply (recommendation_is_mountable (λ _ _, Ok (OpenFile (Ok S_IFREG) (Ok tt) data)) (λ _, 0) ∅
    "/tmp/a.img" (Ok tt) (closed image d') (summary_of im) (Ok (Report 0 1 1 0 12)) Strict
    (sample_mount AETHERFS_MOUNT_STRICT)).
  - unfold aetherfs_run_health. rewrite open_one. rewrite Ho. unfold judge. rewrite Hl, Hv.
    reflexivity.
  - reflexivity.
  - reflexivity.
Defined.

Lemma read_write_mount_is_validated_witness : ∃ data,
  let sys_open := λ (_ : String.string) (_ : bool), Ok (OpenFile (Ok S_IFREG) (Ok tt) data) in
  aetherfs_run_mount sys_open sample_mount_env ∅ (sample_mount AETHERFS_MOUNT_STRICT) =
    (Ok tt, [["mount"; "-t"; "aetherfs"; "-o"; "loop"; "/tmp/a.img"; "/mnt"]], ∅) ∧
  (aetherfs_validate_strict_image sys_open ∅ "/tmp/a.img").1 = Ok tt.
Proof.
  destruct sample_formatted as (data & H).
  destruct (H ∅ (mo_image_path (sample_mount AETHERFS_MOUNT_STRICT)))
    as (image & d' & im & Ho & Hl & Hv).
  exists data. intros sys_open.
  assert (aetherfs_run_mount sys_open sample_mount_env ∅ (sample_mount AETHERFS_MOUNT_STRICT) =
    (Ok tt, [mount_args (sample_mount AETHERFS_MOUNT_STRICT) false false], ∅)) as Hrun.
  { unfold aetherfs_run_mount, preflight, aetherfs_validate_strict_image. fold sys_open in Ho.
    cbn [me_source sample_mount_env mo_behavior sample_mount]. rewrite Ho.
    rewrite (closed_sole _ _ _ _ _ Ho), Hl. cbn [mbind result_bind]. rewrite Hv. reflexivity. }
  split; [exact Hrun|].
  apply (read_write_mount_is_validated sys_open sample_mount_env ∅
    (sample_mount AETHERFS_MOUNT_STRICT) _ _ _ Hrun).
  apply Exists_cons_hd. exists ["-t"; "aetherfs"; "-o"; "loop"; "/tmp/a.img"; "/mnt"].
  split; [left; reflexivity|]. vm_compute. intros Hin.
  apply list_elem_of_singleton in Hin. discriminate Hin.
Defined.
