(* ===== verification/RebalanceSample.v ===== *)
(** * A fragmented file, rebalanced

    A single-member image whose only file lies in two pieces, on which the properties
    of [aetherfs_run_rebalance] are instantiated. *)

From stdpp Require Import strings.
From S2P Require Import Prelude Codec Crc Format Integrity SysIo State Pool Blocks Bitmap Open.
From S2P Require Import Load RootDir Validate Coverage Mkfs Formatted Tools World Rebalance Rebalanced.
From S2P Require Import Reopen Preserved Isolated Lifetime Samples.

(** ** Evaluation

    The loops over [AETHERFS_MAX_INODES] cut after the first block of inodes. *)

Definition low_bits (image : aetherfs_image) : bool :=
  (len (inode_table image) =? 8) &&
  match bb_bits (inode_bitmap image) with _ :: rest => forallb (Z.eqb 0) rest | [] => false end.

Definition validate_low (d : disks) (image : aetherfs_image) : result aetherfs_scrub_report :=
  return_if negb (low_bits image) with EFAULT ;; validate_first d image.

Lemma low_bits_inv image : low_bits image = true → len (inode_table image) = 8 ∧
  ∃ byte rest, bb_bits (inode_bitmap image) = byte :: rest ∧ Forall (eq 0) rest.
Proof.
  unfold low_bits. intros [H1%Z.eqb_eq H2]%andb_true_iff. split; [done|].
  destruct (bb_bits (inode_bitmap image)) as [|byte rest]; [done|]. exists byte, rest.
  split; [done|]. rewrite forallb_forall in H2. apply Forall_forall.
  intros x Hx%list_elem_of_In%H2. by apply Z.eqb_eq.
Qed.

Lemma validate_low_ok d image r :
  validate_low d image = Ok r → aetherfs_image_validate d image = Ok r.
Proof.
  unfold validate_low. intros [Hl H]%reject_ok. apply negb_false_iff in Hl.
  apply low_bits_inv in Hl as (H8 & byte & rest & Hb & Hz). by eapply validate_first_ok.
Qed.

Lemma low_bits_test image i : low_bits image = true → 8 ≤ i →
  aetherfs_image_bitmap_test (inode_bitmap image) i = false.
Proof.
  intros (_ & byte & rest & Hb & Hz)%low_bits_inv Hi.
  unfold aetherfs_image_bitmap_test, bitmap_byte. rewrite Hb.
  assert (1 ≤ i / 8) by (apply Z.div_le_lower_bound; lia).
  replace (Z.to_nat (i / 8)) with (S (Z.to_nat (i / 8 - 1))) by lia. cbn [lookup list_lookup].
  destruct (rest !! Z.to_nat (i / 8 - 1)) as [x|] eqn:E; [|done].
  apply (Forall_lookup_1 _ _ _ _ Hz) in E as <-. done.
Qed.

Definition rebuild_low (d : disks) (source target : aetherfs_image)
    : result (aetherfs_scrub_report * Z * aetherfs_image) * disks :=
  match aetherfs_image_load d target with
  | Err e => (Err e, d)
  | Ok target =>
      let target := set_free_extents zeroed target in
      match rebuild_inodes (count_up 7 1) d source (Rebuild target AETHERFS_DATA_START_BLOCK) with
      | (Err e, d) => (Err e, d)
      | (Ok st, d) =>
          if negb (low_bits (rb_target st)) then (Err EFAULT, d)
          else match write_metadata d (rebuilt_metadata (rb_target st) (rb_next st)) with
          | (Err e, d) => (Err e, d)
          | (Ok _, d) =>
              (loaded ← aetherfs_image_load d (rb_target st);
               report ← validate_low d loaded;
               Ok (report, rb_next st, loaded), d)
          end
      end
  end.

Lemma rebuild_inodes_app l k d source st st' d' :
  rebuild_inodes l d source st = (Ok st', d') →
  rebuild_inodes (l ++ k) d source st = rebuild_inodes k d' source st'.
Proof.
  revert d st. induction l as [|i l IH]; intros d st; cbn [rebuild_inodes app].
  { by intros [= <- <-]. }
  destruct (rebuild_inode d source i st) as [[st1|] d1]; [apply IH|done].
Qed.

Lemma rebuild_inodes_skip l d source st : low_bits (rb_target st) = true → Forall (Z.le 8) l →
  rebuild_inodes l d source st = (Ok st, d).
Proof.
  intros Hl. induction 1 as [|i l Hi _ IH]; [done|]. cbn [rebuild_inodes]. unfold rebuild_inode.
  rewrite low_bits_test by done. exact IH.
Qed.

Lemma rebuild_low_ok d source target r d' :
  rebuild_low d source target = (Ok r, d') → rebuild d source target = (Ok r, d').
Proof.
  unfold rebuild_low, rebuild. destruct (aetherfs_image_load d target) as [T|]; [|done].
  destruct (rebuild_inodes (count_up 7 1) _ _ _) as [[st|] d1] eqn:E; [|done].
  destruct (low_bits (rb_target st)) eqn:Hl; [|done]. cbn [negb].
  change (count_up 7 1) with (seqZ 1 7) in E. rewrite count_up_seqZ.
  change (AETHERFS_MAX_INODES - 1) with (7 + 32632).
  rewrite seqZ_app, (rebuild_inodes_app _ _ _ _ _ _ _ E) by lia.
  rewrite rebuild_inodes_skip; [|done|apply Forall_forall; intros i Hi%elem_of_seqZ; lia].
  destruct (write_metadata _ _) as [[[]|] d2]; [|done]. intros H. injection H as H <-. f_equal.
  apply bind_ok in H as (L & -> & H). apply bind_ok in H as (rep & Hv & H).
  cbn [mbind result_bind]. by rewrite (validate_low_ok _ _ _ Hv).
Qed.

(** ** The image

    16 blocks: the extent node of inode 1 in block 9, its two data blocks in 10 and 12
    with their checksum blocks in 13 and 14, and holes at 8, 11 and 15. *)

Definition frag_super : aetherfs_super :=
  seal (Super AETHERFS_MAGIC AETHERFS_VERSION 4096 16 3 16 1 1 0 1 0 (replicate 16 7) 1 1
    (7 :: replicate 7 0) 4 2 1 AETHERFS_MAX_INODES 5 0 6 0 0 0 (zeros 6)).

Definition frag_inode : aetherfs_inode :=
  seal (Inode 0x81A4 1 0 0 5000 2 0 0 0 9 1 0 0 0 16 0 0 0 0 (zeros 24) (zeros 372)).

Definition frag_inode_table : bytes :=
  splice 512 (encode frag_inode) (to_block 4096 (aetherfs_init_root_inode sample_env)).

Definition frag_free : aetherfs_extent_node :=
  seal (ExtentNode 0 3 0 (Extent 0 8 0 1 0 0 :: Extent 0 11 0 1 0 0 :: Extent 0 15 0 1 0 0
    :: replicate 99 zeroed)).

Definition frag_extents : aetherfs_extent_node :=
  seal (ExtentNode 0 2 0 (Extent 0 10 13 1 0 0 :: Extent 1 12 14 1 0 0 :: replicate 100 zeroed)).

Definition frag_sums (block : bytes) : aetherfs_checksum_block :=
  seal (ChecksumBlock 0 1 0 (aetherfs_crc32c_data block :: replicate 1019 0)).

Definition frag_bytes : bytes :=
  zeros 4096 ++ to_block 4096 frag_super ++ frag_inode_table ++ sample_root_dir ++
  to_block 4096 aetherfs_init_journal ++ to_block 4096 sample_bitmap ++
  to_block 4096 frag_free ++ to_block 4096 (aetherfs_init_checkpoint_root frag_super 16) ++
  zeros 4096 ++ to_block 4096 frag_extents ++ block_a ++ zeros 4096 ++ block_b ++
  to_block 4096 (frag_sums block_a) ++ to_block 4096 (frag_sums block_b) ++ zeros 4096.

Definition frag_file : open_file := OpenFile (Ok S_IFREG) (Ok tt) frag_bytes.

(** No other file is there. *)
Definition only_file (data : bytes) (p : string) (w : bool) : result open_file :=
  if decide (p = "a.img") then Ok (temp_file data) else Err ENOENT.

Definition frag_env (rename : result unit) : rebalance_env :=
  RebalanceEnv (TempEnv (Ok S_IFREG) (λ _, Ok (1000000, 4096)) "." "a.img" Ok)
    (Ok tt) (Ok tt) (λ _, Ok tt) (Ok tt) rename (Ok tt) (Ok tt) (Ok tt).

Definition start : world := World ∅ ∅ ∅.

Lemma start_ok : world_ok start.
Proof. done. Qed.

(** The command with the loops cut, up to the installation: the two images, the report, the
    temporary file and the state. *)
Definition run_low (so : string → bool → result open_file) (env : rebalance_env) (w : world) (path : string)
    : option (aetherfs_image * aetherfs_image * aetherfs_scrub_report * string * world) :=
  match open_image so (Ok tt) path false w with
  | (Err _, _) => None
  | (Ok source, w) =>
      if size_bytes source =? 0 then None
      else match (loaded ← aetherfs_image_load (w_disks w) source;
                  _ ← validate_low (w_disks w) loaded; Ok loaded) with
      | Err _ => None
      | Ok loaded =>
          match aetherfs_image_make_temp_path so (re_temp env) (size_bytes source) w with
          | (Err _, _) => None
          | (Ok temp_path, w) =>
              match fill_temp so env loaded temp_path w with
              | (Err _, _, _) => None
              | (Ok _, _, w) =>
                  match open_image so (re_target_open env) temp_path true w with
                  | (Err _, _) => None
                  | (Ok target, w) =>
                      match rebuild_low (w_disks w) loaded target with
                      | (Err _, _) => None
                      | (Ok (report, next_block, rebuilt), d) =>
                          if is_block_device loaded then None
                          else Some (source, target, report, temp_path, with_disks d w)
                      end
                  end
              end
          end
      end
  end.

Lemma run_low_ok so env w path source target report temp w' :
  run_low so env w path = Some (source, target, report, temp, w') →
  aetherfs_run_rebalance so env w path = install_file so env source target report path temp w'.
Proof.
  unfold run_low, aetherfs_run_rebalance.
  destruct (open_image so (Ok tt) path false w) as [[source'|] w1]; [|done].
  destruct (size_bytes source' =? 0); [done|].
  destruct (aetherfs_image_load _ source') as [sim|]; [|done]. cbn [mbind result_bind].
  destruct (validate_low _ sim) as [rep|] eqn:Ev; [|done]. rewrite (validate_low_ok _ _ _ Ev).
  cbn [mbind result_bind].
  destruct (aetherfs_image_make_temp_path _ _ _ _) as [[temp'|] w2]; [|done].
  destruct (fill_temp _ _ _ _ _) as [[[[]|] tfd] w3]; [|done].
  destruct (open_image _ _ temp' true w3) as [[target'|] w4]; [|done].
  destruct (rebuild_low _ sim target') as [[[[rep' next] L]|] d3] eqn:Er; [|done].
  rewrite (rebuild_low_ok _ _ _ _ _ Er). destruct (is_block_device sim); [done|]. by intros [= <- <- <- <- <-].
Qed.

(** What is asked of the image and of the run. *)
#[local] Instance report_eq_dec : EqDecision aetherfs_scrub_report.
Proof. solve_decision. Defined.

(** The contents of the image afterwards. *)
Definition image_after (w : world) : bytes :=
  match lookup_file (only_file frag_bytes) w "a.img" false with Ok f => of_data f | Err _ => [] end.

Definition frag_low (rename : result unit) :=
  run_low (only_file frag_bytes) (frag_env rename) start "a.img".

(** Renaming is not part of it. *)
Lemma frag_low_rename rename : frag_low rename = frag_low (Ok tt).
Proof. reflexivity. Qed.

(** What is asked of a run: with a rename that succeeds and with one that does not. *)
Definition low_check (x : option (aetherfs_image * aetherfs_image * aetherfs_scrub_report * string * world)) : bool :=
  match x with
  | Some (source, target, report, temp, w) =>
      let install rename :=
        install_file (only_file frag_bytes) (frag_env rename) source target report "a.img" temp w in
      bool_decide ((install (Ok tt)).1 = Ok (Report 1 1 2 2 4)) &&
      bool_decide ((install (Err EPERM)).1 = Err EPERM) &&
      (i_extent_root (inode_on (image_after (install (Ok tt)).2) 1) =? 8)
  | None => false
  end.

Lemma low_check_spec x : low_check x = true → ∃ source target report temp w,
  x = Some (source, target, report, temp, w) ∧
  let install rename :=
    install_file (only_file frag_bytes) (frag_env rename) source target report "a.img" temp w in
  (install (Ok tt)).1 = Ok (Report 1 1 2 2 4) ∧ (install (Err EPERM)).1 = Err EPERM ∧
  i_extent_root (inode_on (image_after (install (Ok tt)).2) 1) = 8.
Proof.
  destruct x as [[[[[source target] report] temp] w]|]; [|done]. unfold low_check. cbv zeta.
  rewrite !andb_true_iff, !bool_decide_eq_true, Z.eqb_eq. intros [[H1 H2] H3].
  exists source, target, report, temp, w. by split_and!.
Qed.

Definition frag_check : bool :=
  low_check (frag_low (Ok tt)) && forallb (λ b, (0 <=? b) && (b <? 256)) frag_bytes
  && bool_decide (contents frag_bytes 9 = [block_a; block_b]).

Lemma frag_check_true : frag_check = true.
Proof. vm_compute. reflexivity. Qed.

Lemma frag_runs : is_bytes frag_bytes ∧ contents frag_bytes 9 = [block_a; block_b] ∧
  (∃ w', i_extent_root (inode_on (image_after w') 1) = 8 ∧
    aetherfs_run_rebalance (only_file frag_bytes) (frag_env (Ok tt)) start "a.img" = (Ok (Report 1 1 2 2 4), w')) ∧
  ∃ w', aetherfs_run_rebalance (only_file frag_bytes) (frag_env (Err EPERM)) start "a.img" = (Err EPERM, w').
Proof.
  pose proof frag_check_true as H. unfold frag_check in H.
  apply andb_true_iff in H as [[H1 H2]%andb_true_iff H3%bool_decide_eq_true].
  apply low_check_spec in H1 as (source & target & report & temp & w & E & E1 & E2 & H1).
  rewrite forallb_forall in H2. split; [|split; [exact H3|split]].
  - apply Forall_forall. intros b Hb%list_elem_of_In%H2.
    apply andb_true_iff in Hb as [Hb1%Z.leb_le Hb2%Z.ltb_lt]. by split.
  - eexists. split; [exact H1|]. rewrite (run_low_ok _ _ _ _ _ _ _ _ _ E). rewrite <-E1. apply surjective_pairing.
  - rewrite <-(frag_low_rename (Err EPERM)) in E. rewrite (run_low_ok _ _ _ _ _ _ _ _ _ E).
    eexists. rewrite <-E2. apply surjective_pairing.
Qed.

(** ** Witnesses *)

Lemma rebalance_preserves_files_witness : ∃ data w',
  aetherfs_run_rebalance (only_file frag_bytes) (frag_env (Ok tt)) start "a.img" = (Ok (Report 1 1 2 2 4), w') ∧
  lookup_file (only_file frag_bytes) w' "a.img" false = Ok (temp_file data) ∧
  inode_preserved frag_bytes data 1.
Proof.
  destruct frag_runs as (Hb & Hc & (w' & Hr & Hrun) & _).
  destruct (rebalance_preserves_files (only_file frag_bytes) (frag_env (Ok tt)) start "a.img"
    frag_file (Report 1 1 2 2 4) w') as (data' & Hl & _ & _ & Hp).
  - exact start_ok.
  - exact (map_Forall_empty _).
  - reflexivity.
  - exact Hb.
  - reflexivity.
  - vm_compute. reflexivity.
  - vm_compute. discriminate.
  - exact Hrun.
  - exists data', w'. split; [exact Hrun|]. split; [exact Hl|]. exact (Hp 1 ltac:(by split)).
Defined.

(** A rename that fails. *)
Lemma rebalance_failure_keeps_image_witness : ∃ w',
  aetherfs_run_rebalance (only_file frag_bytes) (frag_env (Err EPERM)) start "a.img" = (Err EPERM, w') ∧
  w_disks w' = ∅ ∧ w_writing w' = ∅ ∧ w_files w' = ∅.
Proof.
  destruct frag_runs as (Hb & _ & _ & w' & Hrun).
  destruct (rebalance_failure_keeps_image (only_file frag_bytes) (frag_env (Err EPERM)) start "a.img" frag_file
    (Err EPERM) w') as (H1 & H2 & _ & H3).
  - exact start_ok.
  - reflexivity.
  - exact Hb.
  - exact Hrun.
  - exists w'. split; [exact Hrun|]. split; [exact H1|]. split; [exact H2|]. by apply H3.
Defined.

(** 12 blocks whose inode 1 is an empty file with an empty extent node in block 8. *)
Definition empty_super : aetherfs_super :=
  seal (Super AETHERFS_MAGIC AETHERFS_VERSION 4096 12 3 12 1 1 0 1 0 (replicate 16 7) 1 1
    (7 :: replicate 7 0) 4 2 1 AETHERFS_MAX_INODES 5 0 6 0 0 0 (zeros 6)).

Definition empty_inode : aetherfs_inode :=
  seal (Inode 0x81A4 1 0 0 0 0 0 0 0 8 1 0 0 0 16 0 0 0 0 (zeros 24) (zeros 372)).

Definition empty_bytes : bytes :=
  zeros 4096 ++ to_block 4096 empty_super ++
  splice 512 (encode empty_inode) (to_block 4096 (aetherfs_init_root_inode sample_env)) ++
  sample_root_dir ++ to_block 4096 aetherfs_init_journal ++ to_block 4096 sample_bitmap ++
  to_block 4096 (seal (ExtentNode 0 1 0 (Extent 0 9 0 3 0 0 :: replicate 101 zeroed))) ++
  to_block 4096 (aetherfs_init_checkpoint_root empty_super 12) ++
  to_block 4096 (seal (zeroed : aetherfs_extent_node)) ++ zeros 12288.

(** The image passes the validation, so that it could have been rebalanced. *)
Definition empty_valid : result aetherfs_scrub_report :=
  '(image, d) ← (let '(r, d) := aetherfs_image_open (only_file empty_bytes) ∅ "a.img" false in
                 image ← r; Ok (image, d));
  loaded ← aetherfs_image_load d image; validate_low d loaded.

Lemma empty_check :
  forallb (λ b, (0 <=? b) && (b <? 256)) empty_bytes = true ∧ empty_valid = Ok (Report 1 1 2 0 3).
Proof. vm_compute. split; reflexivity. Qed.

Lemma rebalance_empty_file_fails_witness :
  empty_valid = Ok (Report 1 1 2 0 3) ∧
  is_ok (aetherfs_run_rebalance (only_file empty_bytes) (frag_env (Ok tt)) start "a.img").1 = false.
Proof.
  split; [exact (proj2 empty_check)|].
  apply (rebalance_empty_file_fails (only_file empty_bytes)) with (f := temp_file empty_bytes) (i := 1).
  - exact start_ok.
  - exact (map_Forall_empty _).
  - reflexivity.
  - apply Forall_forall. intros b Hb. pose proof (proj1 empty_check) as H.
    rewrite forallb_forall in H. apply list_elem_of_In, H, andb_true_iff in Hb as [H1 H2].
    split; [by apply Z.leb_le|by apply Z.ltb_lt].
  - reflexivity.
  - vm_compute. reflexivity.
  - vm_compute. discriminate.
  - split; [done|reflexivity].
  - vm_compute. reflexivity.
  - vm_compute. reflexivity.
Defined.

(** The fragmented image is in good order; a rebalance whose rename fails and then one that
    succeeds leave the file with the same contents, elsewhere. *)
Definition frag_scrub : result aetherfs_scrub_report :=
  '(image, d) ← (let '(r, d) := aetherfs_image_open (file_open frag_bytes) ∅ "image" false in
                 image ← r; Ok (image, d));
  loaded ← aetherfs_image_load d image; validate_low d loaded.

Lemma frag_scrub_ok : frag_scrub = Ok (Report 1 1 2 2 3).
Proof. vm_compute. reflexivity. Qed.

Lemma frag_sound : sound_image frag_bytes.
Proof.
  split.
  - exact (proj1 frag_runs).
  - vm_compute. reflexivity.
  - vm_compute. discriminate.
  - vm_compute. discriminate.
  - pose proof frag_scrub_ok as H. unfold frag_scrub in H. unfold scrub_of, aetherfs_run_scrub.
    rewrite open_one. destruct (aetherfs_image_open _ _ _ _) as [[image|] d]; [|discriminate H].
    cbn [mbind result_bind] in H. apply bind_ok in H as (loaded & Hl & Hv). rewrite Hl.
    cbn [mbind result_bind]. rewrite (validate_low_ok _ _ _ Hv). reflexivity.
Qed.

Lemma image_outlives_rebalances_witness : ∃ data,
  rtc command_step frag_bytes data ∧ i_extent_root (inode_on data 1) = 8 ∧
  sound_image data ∧ file_system_of data = file_system_of frag_bytes.
Proof.
  destruct frag_runs as (Hb & _ & (w' & Hr & Hrun) & w2 & Hrun2).
  destruct (rebalance_sound frag_bytes frag_sound (only_file frag_bytes) (frag_env (Ok tt)) start "a.img" _ w'
    start_ok (map_Forall_empty _) eq_refl Hrun) as (data & Hl & _).
  assert (image_after w' = data) as Ed.
  { unfold image_after. rewrite Hl. reflexivity. }
  exists data.
  assert (rtc command_step frag_bytes data) as Hsteps.
  { apply (rtc_l _ _ frag_bytes).
    - refine (step_rebalance frag_bytes (only_file frag_bytes) (frag_env (Err EPERM)) start "a.img" _ w2
        (temp_file frag_bytes) start_ok (map_Forall_empty _) eq_refl Hrun2 _).
      destruct (run_rebalance_touched (only_file frag_bytes) (frag_env (Err EPERM)) start "a.img"
        (temp_file frag_bytes) _ w2 start_ok eq_refl Hb Hrun2) as [_ H]. by rewrite (H eq_refl eq_refl).
    - apply rtc_once.
      exact (step_rebalance frag_bytes (only_file frag_bytes) (frag_env (Ok tt)) start "a.img" _ w'
        (temp_file data) start_ok (map_Forall_empty _) eq_refl Hrun Hl). }
  split; [exact Hsteps|]. split; [by rewrite <-Ed|].
  exact (image_outlives_rebalances frag_bytes data Hsteps frag_sound).
Defined.
