(* ===== verification/Forensics.v ===== *)
(** * The forensics export

    The second command of [aetherfsprogs/health.c]: the bootstrap blocks of every member
    and a report are written to files of an output directory.  The files are a map from
    paths to contents; an export reads its sources from it and writes to it, so that an
    output that is also a source is seen. *)

From stdpp Require Import strings pretty.
From S2P Require Import Prelude Codec Crc Format Integrity SysIo State Pool Blocks Bitmap Open.
From S2P Require Import Load RootDir Validate Mkfs Coverage Formatted Tools.

(** What the system answers: [stat] of the output directory ([Some] when it exists, with
    whether it is a directory) and [mkdir]; [pread] of a source block; the creation of an
    output file and the [write] calls on it; the texts of [strerror]. *)
Record forensics_env := ForensicsEnv {
  fe_stat : option bool;
  fe_mkdir : result unit;
  fe_pread : string → Z → io_event;
  fe_create : string → result unit;
  fe_writes : string → list io_event;
  fe_strerror : errno → string;
}.

(** ** Writing files *)

Definition aetherfs_make_dir_if_missing (env : forensics_env) : result unit :=
  match fe_stat env with
  | Some is_dir => if is_dir then Ok tt else Err ENOTDIR
  | None => fe_mkdir env
  end.

(** The loop over [write] on a file opened empty: the bytes in the file.  [None] when the
    calls given run out before the loop ends. *)
Fixpoint append_loop (evs : list io_event) (data buf : bytes) (written : Z)
    : option (result unit * bytes) :=
  if written <? len buf then
    match evs with
    | [] => None
    | Interrupted :: evs => append_loop evs data buf written
    | Failed e :: _ => Some (Err e, data)
    | Transfer most :: evs =>
        let rc := Z.min (len buf - written) (Z.max 1 most) in
        if rc =? 0 then Some (Err EIO, data)
        else append_loop evs (data ++ slice written rc buf) buf (written + rc)
    end
  else Some (Ok tt, data).

Definition health_write_all (evs : list io_event) (buf : bytes) : option (result unit * bytes) :=
  append_loop evs [] buf 0.

(** [open] with [O_CREAT | O_TRUNC], the loop and [close]. *)
Definition write_file (env : forensics_env) (fs : gmap string bytes) (dest : string) (buf : bytes)
    : option (result unit * gmap string bytes) :=
  match fe_create env dest with
  | Err e => Some (Err e, fs)
  | Ok _ =>
      '(rc, data) ← health_write_all (fe_writes env dest) buf;
      Some (rc, <[dest := data]> fs)
  end.

Definition aetherfs_copy_block_to_file (env : forensics_env) (fs : gmap string bytes) (source dest : string)
    (block : Z) : option (result unit * gmap string bytes) :=
  match fs !! source with
  | None => Some (Err ENOENT, fs)
  | Some data =>
      match fe_pread env source block with
      | Interrupted => Some (Err EINTR, fs)
      | Failed e => Some (Err e, fs)
      | Transfer most =>
          let buffer := sys_pread data (u64 (block * AETHERFS_DEF_BLOCK_SIZE))
            AETHERFS_DEF_BLOCK_SIZE most in
          if negb (len buffer =? AETHERFS_DEF_BLOCK_SIZE) then Some (Err EIO, fs)
          else write_file env fs dest buffer
      end
  end.

(** ** The report *)

Definition newline : string := String (Ascii.ascii_of_nat 10) EmptyString.

Definition bytes_of_string (s : string) : bytes :=
  map (λ c, Z.of_N (Ascii.N_of_ascii c)) (String.list_ascii_of_string s).

Definition recommendation_name (r : recommendation) : string :=
  match r with Strict => "strict" | DegradedReadOnly => "degraded-read-only" | Rescue => "rescue" end.

Definition report_text (strerror : errno → string) (load_rc : result aetherfs_image)
    (validate_rc : result aetherfs_scrub_report) : string :=
  let line name value := (name +:+ ": " +:+ value +:+ newline)%string in
  let recommended := recommendation_name (aetherfs_mount_recommendation load_rc validate_rc) in
  match load_rc with
  | Ok loaded =>
      let s := summary_of loaded in
      (line "status" (if is_ok validate_rc then "clean" else "damaged") +:+
       line "profile" (is_profile s) +:+
       line "members" (pretty (is_members s)) +:+
       line "checkpoint_root" (pretty (is_checkpoint_root s)) +:+
       line "logical_blocks" (pretty (is_logical_blocks s)) +:+
       line "data_region" (pretty (is_data_region s).1 +:+ "-" +:+ pretty (is_data_region s).2) +:+
       line "free_blocks" (pretty (is_free_blocks s)) +:+
       line "load_result" "ok" +:+
       line "scrub_result" (match validate_rc with Ok _ => "ok" | Err e => strerror e end) +:+
       line "recommended_mount" recommended)%string
  | Err e =>
      (line "status" "unreadable" +:+ line "load_result" (strerror e) +:+
       line "recommended_mount" recommended)%string
  end.

(** The file is created before the text is measured. *)
Definition aetherfs_write_report (env : forensics_env) (fs : gmap string bytes) (path : string)
    (load_rc : result aetherfs_image) (validate_rc : result aetherfs_scrub_report)
    : option (result unit * gmap string bytes) :=
  let report := report_text (fe_strerror env) load_rc validate_rc in
  match fe_create env path with
  | Err e => Some (Err e, fs)
  | Ok _ =>
      if 4096 <=? Z.of_nat (String.length report) then Some (Err EOVERFLOW, <[path := []]> fs)
      else write_file env fs path (bytes_of_string report)
  end.

(** ** The command *)

(** [snprintf(path, sizeof(path), ...)] into [char path[512]] cuts the text. *)
Definition snprintf_path (s : string) : string := String.substring 0 511 s.

Definition block_path (output : string) (member block : Z) : string :=
  snprintf_path (output +:+ "/member" +:+ pretty member +:+ "-block" +:+ pretty block +:+ ".bin").

Definition report_path (output : string) : string := snprintf_path (output +:+ "/report.txt").

(** The two nested loops, until the first failure. *)
Fixpoint copy_blocks (env : forensics_env) (output source : string) (member : Z)
    (blocks : list Z) (fs : gmap string bytes) : option (result unit * gmap string bytes) :=
  match blocks with
  | [] => Some (Ok tt, fs)
  | block :: blocks =>
      '(rc, fs) ← aetherfs_copy_block_to_file env fs source (block_path output member block) block;
      match rc with
      | Err e => Some (Err e, fs)
      | Ok _ => copy_blocks env output source member blocks fs
      end
  end.

Fixpoint copy_members (env : forensics_env) (output : string) (member : Z)
    (sources : list string) (fs : gmap string bytes) : option (result unit * gmap string bytes) :=
  match sources with
  | [] => Some (Ok tt, fs)
  | source :: sources =>
      '(rc, fs) ← copy_blocks env output source member
        (seqZ AETHERFS_POOL_LABEL_BLOCK (AETHERFS_DATA_START_BLOCK - AETHERFS_POOL_LABEL_BLOCK)) fs;
      match rc with
      | Err e => Some (Err e, fs)
      | Ok _ => copy_members env output (member + 1) sources fs
      end
  end.

(** The paths the first loop runs over. *)
Definition source_paths (options : aetherfs_admin_options) : list string :=
  if 0 <? len (ao_members options) then map ds_path (ao_members options)
  else match ao_path options with None => [] | Some p => [p] end.

Section forensics.
Context (sys_open : string → bool → result open_file) (garbage : Z → Z).

(** The return code, the descriptors and the files. *)
Definition aetherfs_run_forensics (env : forensics_env) (d : disks) (fs : gmap string bytes)
    (options : aetherfs_admin_options) : option (result unit * disks * gmap string bytes) :=
  match ao_output_path options with
  | None => Some (Err EINVAL, d, fs)
  | Some output =>
      match aetherfs_make_dir_if_missing env with
      | Err e => Some (Err e, d, fs)
      | Ok _ =>
          match aetherfs_open_admin_image sys_open garbage d options with
          | (Err e, d) => Some (Err e, d, fs)
          | (Ok image, d) =>
              let '(load_rc, validate_rc) := judge d image in
              let d := closed image d in
              '(rc, fs) ← copy_members env output 0 (source_paths options) fs;
              match rc with
              | Err e => Some (Err e, d, fs)
              | Ok _ =>
                  '(rc, fs) ← aetherfs_write_report env fs (report_path output) load_rc validate_rc;
                  match rc with
                  | Err e => Some (Err e, d, fs)
                  | Ok _ =>
                      Some (match validate_rc with Ok _ => Ok tt | Err e => Err e end, d, fs)
                  end
              end
          end
      end
  end.
End forensics.

(** ** Exports that meet no error *)

Lemma append_loop_complete evs buf : ∀ data written,
  0 ≤ written ≤ len buf → no_failure evs → len buf - written ≤ transfers evs →
  append_loop evs data buf written = Some (Ok tt, data ++ slice written (len buf - written) buf).
Proof.
  induction evs as [|ev evs IH]; intros data written Hw Hf Ht; cbn [append_loop].
  - change (transfers []) with 0 in Ht. destruct (Z.ltb_spec written (len buf)); [lia|].
    replace (len buf - written) with 0 by lia. unfold slice. by rewrite take_0, app_nil_r.
  - rewrite transfers_cons in Ht. apply Forall_cons in Hf as [Hev Hf].
    destruct (Z.ltb_spec written (len buf)) as [Hlt|Hge].
    + destruct ev as [|e|most]; [by apply IH|done|].
      set (rc := Z.min (len buf - written) (Z.max 1 most)).
      destruct (Z.eqb_spec rc 0); [lia|]. rewrite IH by (done || lia).
      rewrite <- app_assoc, slice_app_slice by lia. do 3 f_equal. f_equal. lia.
    + replace (len buf - written) with 0 by lia. unfold slice. by rewrite take_0, app_nil_r.
Qed.

(** Nothing the export asks of the system fails, and every [write] call it needs is
    answered. *)
Definition calm (env : forensics_env) : Prop :=
  aetherfs_make_dir_if_missing env = Ok tt ∧
  (∀ source block, ∃ most, fe_pread env source block = Transfer most ∧ 4096 ≤ most) ∧
  (∀ dest, fe_create env dest = Ok tt) ∧
  (∀ dest, no_failure (fe_writes env dest) ∧ 4096 ≤ transfers (fe_writes env dest)).

Lemma write_file_calm env fs dest buf :
  calm env → len buf ≤ 4096 → write_file env fs dest buf = Some (Ok tt, <[dest := buf]> fs).
Proof.
  intros (_ & _ & Hc & Hw) Hl. unfold write_file, health_write_all. rewrite Hc.
  destruct (Hw dest) as [Hf Ht]. pose proof (len_nonneg buf).
  rewrite append_loop_complete by (done || lia). cbn [mbind option_bind app].
  by rewrite slice_all by lia.
Qed.

(** A source block in full. *)
Definition block_of (data : bytes) (block : Z) : bytes := slice (block * 4096) 4096 data.

Lemma copy_block_calm env fs source dest block data :
  calm env → fs !! source = Some data → 0 ≤ block → (block + 1) * 4096 ≤ len data →
  len data < 2 ^ 63 →
  aetherfs_copy_block_to_file env fs source dest block =
    Some (Ok tt, <[dest := block_of data block]> fs).
Proof.
  intros Hcalm Hs H0 Hb Hd. unfold aetherfs_copy_block_to_file. rewrite Hs.
  destruct (proj1 (proj2 Hcalm) source block) as (most & -> & Hm).
  unfold AETHERFS_DEF_BLOCK_SIZE, sys_pread. rewrite u64_small by (unfold is_u64; lia).
  rewrite Z.min_l by lia. change (slice (block * 4096) 4096 data) with (block_of data block).
  assert (len (block_of data block) = 4096) as El by (apply len_slice; lia).
  rewrite El. cbn [negb Z.eqb]. apply write_file_calm; [done|lia].
Qed.

(** The files after the blocks of one source were written. *)
Definition put_blocks (output : string) (data : bytes) (member : Z) (blocks : list Z)
    (fs : gmap string bytes) : gmap string bytes :=
  foldl (λ fs block, <[block_path output member block := block_of data block]> fs) fs blocks.

Lemma copy_blocks_calm env output source member data blocks : ∀ fs,
  calm env → fs !! source = Some data → len data < 2 ^ 63 →
  Forall (λ block, 0 ≤ block ∧ (block + 1) * 4096 ≤ len data ∧
    source ≠ block_path output member block) blocks →
  copy_blocks env output source member blocks fs =
    Some (Ok tt, put_blocks output data member blocks fs).
Proof.
  induction blocks as [|block blocks IH]; intros fs Hcalm Hs Hd Hb; [done|].
  apply Forall_cons in Hb as [(H0 & Hl & Hne) Hb]. cbn [copy_blocks].
  rewrite (copy_block_calm _ _ _ _ _ data) by done. cbn [mbind option_bind].
  apply IH; try done. by rewrite lookup_insert_ne.
Qed.

Lemma put_blocks_other output data member blocks path : ∀ fs,
  Forall (λ block, path ≠ block_path output member block) blocks →
  put_blocks output data member blocks fs !! path = fs !! path.
Proof.
  induction blocks as [|block blocks IH]; intros fs Hp; [done|].
  apply Forall_cons in Hp as [Hne Hp]. unfold put_blocks. cbn [foldl].
  fold (put_blocks output data member blocks (<[block_path output member block:=block_of data block]> fs)).
  rewrite IH by done. by rewrite lookup_insert_ne.
Qed.

Lemma put_blocks_here output data member blocks b : ∀ fs,
  b ∈ blocks → NoDup blocks →
  (∀ b', b' ∈ blocks → block_path output member b' = block_path output member b → b' = b) →
  put_blocks output data member blocks fs !! block_path output member b = Some (block_of data b).
Proof.
  induction blocks as [|block blocks IH]; intros fs Hin Hnd Hinj; [by apply elem_of_nil in Hin|].
  apply NoDup_cons in Hnd as [Hni Hnd]. unfold put_blocks. cbn [foldl].
  fold (put_blocks output data member blocks (<[block_path output member block:=block_of data block]> fs)).
  destruct (decide (block = b)) as [->|Hne].
  - rewrite put_blocks_other; [by rewrite lookup_insert_eq|].
    apply Forall_forall. intros b' Hb' Heq. apply Hni.
    rewrite <- (Hinj b'); [done|by right|by symmetry].
  - apply IH; [|done|]. { by apply elem_of_cons in Hin as [->|]. }
    intros b' Hb'. apply Hinj. by right.
Qed.

(** ** The names of the output files *)

Lemma substring_short s : ∀ n, (String.length s ≤ n)%nat → String.substring 0 n s = s.
Proof.
  induction s as [|c s IH]; intros n Hn; [destruct n; reflexivity|].
  destruct n as [|n]; cbn in *; [lia|]. f_equal. apply IH. lia.
Qed.

Lemma length_append s t : String.length (s +:+ t) = (String.length s + String.length t)%nat.
Proof.
  induction s as [|c s IH]; [done|].
  change (S (String.length (s +:+ t)) = S (String.length s + String.length t))%nat. by rewrite IH.
Qed.

Lemma substring_app s t : ∀ n, (String.length s ≤ n)%nat →
  String.substring 0 n (s +:+ t) = s +:+ String.substring 0 (n - String.length s) t.
Proof.
  induction s as [|c s IH]; intros n Hn; [by rewrite Nat.sub_0_r|].
  destruct n as [|n]; [cbn in Hn; lia|]. cbn [String.length] in Hn.
  change (String c (String.substring 0 n (s +:+ t)) =
    String c (s +:+ String.substring 0 (n - String.length s) t)).
  f_equal. apply IH. lia.
Qed.

Lemma length_string_bytes s : length (bytes_of_string s) = String.length s.
Proof. unfold bytes_of_string. rewrite length_map. induction s as [|c s IH]; cbn; by f_equal. Qed.

Definition block_suffix (member block : Z) : string :=
  "/member" +:+ pretty member +:+ "-block" +:+ pretty block +:+ ".bin".

(** Up to eight members with eight blocks each. *)
Definition output_index : list (Z * Z) :=
  m ← seqZ 0 8; b ← seqZ 0 8; [(m, b)].

Lemma output_index_in m b : 0 ≤ m < 8 → 0 ≤ b < 8 → (m, b) ∈ output_index.
Proof.
  intros Hm Hb. unfold output_index. apply list_elem_of_bind.
  exists m. split; [|apply elem_of_seqZ; lia]. apply list_elem_of_bind.
  exists b. split; [by apply list_elem_of_singleton|apply elem_of_seqZ; lia].
Qed.

Lemma output_suffixes : forallb (λ '(m, b),
    (String.length (block_suffix m b) <=? 20)%nat &&
    negb (bool_decide (block_suffix m b = "/report.txt")) &&
    forallb (λ '(m', b'), bool_decide (block_suffix m b = block_suffix m' b' → (m, b) = (m', b')))
      output_index) output_index = true.
Proof. vm_compute. reflexivity. Qed.

Lemma block_suffix_facts m b : 0 ≤ m < 8 → 0 ≤ b < 8 →
  (String.length (block_suffix m b) ≤ 20)%nat ∧ block_suffix m b ≠ "/report.txt" ∧
  ∀ m' b', 0 ≤ m' < 8 → 0 ≤ b' < 8 → block_suffix m b = block_suffix m' b' → m = m' ∧ b = b'.
Proof.
  intros Hm Hb. pose proof output_suffixes as H. rewrite forallb_forall in H.
  specialize (H (m, b)). rewrite <- list_elem_of_In in H. specialize (H (output_index_in m b Hm Hb)).
  cbn beta iota in H. apply andb_true_iff in H as [[H1 H2]%andb_true_iff H3].
  split; [by apply Nat.leb_le|]. split; [by apply negb_true_iff, bool_decide_eq_false in H2|].
  intros m' b' Hm' Hb'. rewrite forallb_forall in H3. specialize (H3 (m', b')).
  rewrite <- list_elem_of_In in H3. specialize (H3 (output_index_in m' b' Hm' Hb')).
  cbn beta iota in H3. apply bool_decide_eq_true in H3. intros E. by injection (H3 E).
Qed.

(** Outputs whose names are not cut. *)
Definition short_output (output : string) : Prop := (String.length output ≤ 491)%nat.

Lemma block_path_short output m b : short_output output → 0 ≤ m < 8 → 0 ≤ b < 8 →
  block_path output m b = output +:+ block_suffix m b.
Proof.
  intros Ho Hm Hb. destruct (block_suffix_facts m b Hm Hb) as (Hl & _).
  unfold short_output in Ho. apply substring_short.
  change (String.length (output +:+ block_suffix m b) ≤ 511)%nat. rewrite length_append. lia.
Qed.

Lemma block_path_inj output m b m' b' : short_output output →
  0 ≤ m < 8 → 0 ≤ b < 8 → 0 ≤ m' < 8 → 0 ≤ b' < 8 →
  block_path output m b = block_path output m' b' → m = m' ∧ b = b'.
Proof.
  intros Ho Hm Hb Hm' Hb'. rewrite !block_path_short by done. intros E%(inj _).
  by apply (block_suffix_facts m b Hm Hb).
Qed.

Lemma report_path_other output m b : short_output output → 0 ≤ m < 8 → 0 ≤ b < 8 →
  report_path output ≠ block_path output m b.
Proof.
  intros Ho Hm Hb. rewrite block_path_short by done. unfold report_path, snprintf_path.
  rewrite substring_short by (rewrite length_append; unfold short_output in Ho; cbn; lia).
  intros E%(inj _). by apply (block_suffix_facts m b Hm Hb).
Qed.

(** Names cut before the number of the block. *)
Lemma long_names output : 497 ≤ Z.of_nat (String.length output) ≤ 500 →
  ∃ dest, (∀ b, 0 ≤ b < 8 → block_path output 0 b = dest) ∧ report_path output ≠ dest.
Proof.
  intros Hlen. exists (output +:+ String.substring 0 (511 - String.length output) "/member0-block").
  assert (∃ k, (511 - String.length output)%nat = k ∧ k ∈ [11; 12; 13; 14]%nat) as (k & Hk & Hin).
  { exists (511 - String.length output)%nat. split; [done|].
    assert (511 - String.length output = 11 ∨ 511 - String.length output = 12 ∨
      511 - String.length output = 13 ∨ 511 - String.length output = 14)%nat by lia. set_solver. }
  split.
  - intros b Hb. unfold block_path, snprintf_path. rewrite substring_app, Hk by lia. f_equal.
    assert (b ∈ seqZ 0 8) as Hs by (apply elem_of_seqZ; lia). revert b Hb Hs Hin. clear.
    intros b _ Hb Hk. change (seqZ 0 8) with [0; 1; 2; 3; 4; 5; 6; 7] in Hb.
    repeat (apply elem_of_cons in Hk as [->|Hk]; [repeat (apply elem_of_cons in Hb as [->|Hb]; [reflexivity|]);
      by apply elem_of_nil in Hb|]). by apply elem_of_nil in Hk.
  - unfold report_path, snprintf_path. rewrite substring_app, Hk by lia. intros E%(inj _). revert E.
    repeat (apply elem_of_cons in Hin as [->|Hin]; [discriminate|]). by apply elem_of_nil in Hin.
Qed.

(** ** The files an export leaves behind *)

Fixpoint put_members (output : string) (member : Z) (datas : list bytes)
    (fs : gmap string bytes) : gmap string bytes :=
  match datas with
  | [] => fs
  | data :: datas => put_members output (member + 1) datas (put_blocks output data member (seqZ 0 8) fs)
  end.

(** A source with all bootstrap blocks that is none of the outputs. *)
Definition good_source (output source : string) (data : bytes) : Prop :=
  8 * 4096 ≤ len data < 2 ^ 63 ∧
  ∀ m b, 0 ≤ m < 8 → 0 ≤ b < 8 → source ≠ block_path output m b.

Lemma put_blocks_fresh output data member path fs : 0 ≤ member < 8 →
  (∀ m b, 0 ≤ m < 8 → 0 ≤ b < 8 → path ≠ block_path output m b) →
  put_blocks output data member (seqZ 0 8) fs !! path = fs !! path.
Proof.
  intros Hm Hp. apply put_blocks_other, Forall_forall. intros b Hb%elem_of_seqZ. apply Hp; lia.
Qed.

Lemma copy_members_calm env output sources datas : ∀ member fs,
  calm env → 0 ≤ member → member + len sources ≤ 8 →
  Forall2 (λ source data, fs !! source = Some data ∧ good_source output source data) sources datas →
  copy_members env output member sources fs = Some (Ok tt, put_members output member datas fs).
Proof.
  revert datas. induction sources as [|source sources IH]; intros datas member fs Hcalm H0 H8 Hs;
    [by apply Forall2_nil_inv_l in Hs as ->|].
  apply Forall2_cons_inv_l in Hs as (data & datas' & [Hd [Hl Hne]] & Hs & ->).
  unfold len in H8. cbn [length] in H8. cbn [copy_members put_members].
  change (seqZ AETHERFS_POOL_LABEL_BLOCK (AETHERFS_DATA_START_BLOCK - AETHERFS_POOL_LABEL_BLOCK))
    with (seqZ 0 8).
  rewrite (copy_blocks_calm _ _ _ _ data); [|done|done|lia|].
  2: { apply Forall_forall. intros b Hb%elem_of_seqZ. split; [lia|]. split; [lia|]. apply Hne; lia. }
  cbn [mbind option_bind]. apply IH; [done|lia|unfold len; lia|].
  eapply Forall2_impl; [exact Hs|]. intros s x [Hx [Hlx Hnx]]. split; [|by split].
  rewrite put_blocks_fresh; [done|lia|done].
Qed.

Lemma put_members_other output path datas : ∀ member fs,
  0 ≤ member → member + len datas ≤ 8 →
  (∀ m b, member ≤ m < member + len datas → 0 ≤ b < 8 → path ≠ block_path output m b) →
  put_members output member datas fs !! path = fs !! path.
Proof.
  induction datas as [|data datas IH]; intros member fs H0 H8 Hp; [done|].
  unfold len in H8, Hp. cbn [length] in H8, Hp. cbn [put_members]. unfold len in *.
  rewrite IH; [|lia|lia|intros; apply Hp; lia].
  apply put_blocks_other, Forall_forall. intros b Hb%elem_of_seqZ. apply Hp; lia.
Qed.

Lemma put_members_here output datas : ∀ member fs i b data,
  short_output output → 0 ≤ member → member + len datas ≤ 8 → 0 ≤ b < 8 →
  datas !! i = Some data →
  put_members output member datas fs !! block_path output (member + Z.of_nat i) b =
    Some (block_of data b).
Proof.
  induction datas as [|x datas IH]; intros member fs i b data Ho H0 H8 Hb Hi; [done|].
  unfold len in H8. cbn [length] in H8. cbn [put_members]. destruct i as [|i].
  - injection Hi as ->. rewrite Z.add_0_r. rewrite put_members_other; [|lia|unfold len; lia|].
    + apply put_blocks_here; [apply elem_of_seqZ; lia|apply NoDup_seqZ|].
      intros b' Hb'%elem_of_seqZ E. by apply block_path_inj in E as [_ ?]; try (done || lia).
    + intros m b' Hm Hb' E. unfold len in Hm. apply block_path_inj in E as [? _]; try (done || lia).
  - replace (member + Z.of_nat (S i)) with (member + 1 + Z.of_nat i) by lia.
    apply IH; try (done || unfold len; lia).
Qed.

Section exports.
Context (sys_open : string → bool → result open_file) (garbage : Z → Z).

(** At most eight sources, or the image does not open. *)
Lemma opened_sources d options image d' :
  aetherfs_open_admin_image sys_open garbage d options = (Ok image, d') →
  len (source_paths options) ≤ 8.
Proof.
  unfold aetherfs_open_admin_image, source_paths. intros H.
  destruct (Z.ltb_spec 0 (len (ao_members options))).
  - revert H. unfold aetherfs_image_open_pool.
    destruct (_ =? 0); [done|]. cbn [orb].
    destruct (Z.ltb_spec AETHERFS_MAX_DEVICES (len (map ds_path (ao_members options)))) as [|Hle]; done.
  - by destruct (ao_path options).
Qed.

Lemma write_report_calm env fs path load_rc validate_rc :
  calm env → Z.of_nat (String.length (report_text (fe_strerror env) load_rc validate_rc)) < 4096 →
  aetherfs_write_report env fs path load_rc validate_rc =
    Some (Ok tt, <[path := bytes_of_string (report_text (fe_strerror env) load_rc validate_rc)]> fs).
Proof.
  intros Hcalm Hfit. unfold aetherfs_write_report.
  rewrite (proj1 (proj2 (proj2 Hcalm))), (proj2 (Z.leb_gt _ _) Hfit).
  apply write_file_calm; [done|]. unfold len. rewrite length_string_bytes. lia.
Qed.

(** The whole export, as one map. *)
Lemma run_forensics_calm env d fs options output image d1 datas :
  calm env → ao_output_path options = Some output →
  aetherfs_open_admin_image sys_open garbage d options = (Ok image, d1) →
  Forall2 (λ source data, fs !! source = Some data ∧ good_source output source data)
    (source_paths options) datas →
  let '(load_rc, validate_rc) := judge d1 image in
  let report := report_text (fe_strerror env) load_rc validate_rc in
  Z.of_nat (String.length report) < 4096 →
  aetherfs_run_forensics sys_open garbage env d fs options =
    Some (match validate_rc with Ok _ => Ok tt | Err e => Err e end, closed image d1,
      <[report_path output := bytes_of_string report]> (put_members output 0 datas fs)).
Proof.
  intros Hcalm Hout Hopen Hs. destruct (judge d1 image) as [load_rc validate_rc] eqn:Ej.
  cbn zeta. intros Hfit. unfold aetherfs_run_forensics.
  rewrite Hout, (proj1 Hcalm), Hopen, Ej.
  rewrite (copy_members_calm _ _ _ datas); [|done|lia|pose proof (opened_sources _ _ _ _ Hopen); lia|done].
  cbn [mbind option_bind]. rewrite write_report_calm by done. done.
Qed.

(** C23: an export that meets no error is complete, if the output path has at most 491
    characters and the sources, of eight blocks or more, are none of the files written: every
    bootstrap block of every member is in its own file, byte for byte, next to the report; no
    other file is touched; and the command returns what [health] returns for the same image.
    (With a longer path see [forensics_long_path_overwrites].) *)
Theorem forensics_exports_members env d fs options output image d1 datas :
  calm env → ao_output_path options = Some output → short_output output →
  aetherfs_open_admin_image sys_open garbage d options = (Ok image, d1) →
  Forall2 (λ source data, fs !! source = Some data ∧ good_source output source data)
    (source_paths options) datas →
  Z.of_nat (String.length (report_text (fe_strerror env) (judge d1 image).1 (judge d1 image).2)) < 4096 →
  ∃ rc fs', aetherfs_run_forensics sys_open garbage env d fs options = Some (rc, closed image d1, fs') ∧
    (aetherfs_run_health sys_open garbage d options).1.1 = rc ∧
    (∀ i b data, datas !! i = Some data → 0 ≤ b < 8 →
      fs' !! block_path output (Z.of_nat i) b = Some (block_of data b)) ∧
    fs' !! report_path output =
      Some (bytes_of_string (report_text (fe_strerror env) (judge d1 image).1 (judge d1 image).2)) ∧
    (∀ p, p ≠ report_path output → (∀ m b, 0 ≤ m < 8 → 0 ≤ b < 8 → p ≠ block_path output m b) →
      fs' !! p = fs !! p).
Proof.
  intros Hcalm Hout Hshort Hopen Hs. pose proof (opened_sources _ _ _ _ Hopen) as H8.
  pose proof (run_forensics_calm _ _ _ _ _ _ _ _ Hcalm Hout Hopen Hs) as Hrun.
  unfold aetherfs_run_health. rewrite Hopen.
  destruct (judge d1 image) as [load_rc validate_rc]. cbn [fst snd]. intros Hfit.
  assert (len datas ≤ 8) as H8' by (apply Forall2_length in Hs; unfold len in *; lia).
  eexists _, _. split; [by apply Hrun|]. split; [done|]. split; [|split].
  - intros i b data Hi Hb. assert (Z.of_nat i < 8) as Hi8.
    { apply lookup_lt_Some in Hi. unfold len in H8'. lia. }
    rewrite lookup_insert_ne by (apply report_path_other; [done|lia|done]).
    apply (put_members_here output datas 0 fs i b data); (done || lia).
  - apply lookup_insert_eq.
  - intros p Hr Hp. rewrite lookup_insert_ne by done.
    apply put_members_other; [lia|lia|]. intros; apply Hp; lia.
Qed.

(** An output directory with a path of 497 to 500 characters loses the export of a
    single image silently: the names are cut before the block number, the eight blocks are
    written over each other, only the last one remains, and the code returned is that of a
    complete export. *)
Theorem forensics_long_path_overwrites env d fs options output path image d1 data :
  calm env → options = AdminOptions (Some path) [] (Some output) →
  497 ≤ Z.of_nat (String.length output) ≤ 500 →
  aetherfs_open_admin_image sys_open garbage d options = (Ok image, d1) →
  fs !! path = Some data → good_source output path data →
  Z.of_nat (String.length (report_text (fe_strerror env) (judge d1 image).1 (judge d1 image).2)) < 4096 →
  ∃ rc fs' dest, aetherfs_run_forensics sys_open garbage env d fs options = Some (rc, closed image d1, fs') ∧
    (aetherfs_run_health sys_open garbage d options).1.1 = rc ∧
    (∀ b, 0 ≤ b < 8 → block_path output 0 b = dest) ∧
    fs' !! dest = Some (block_of data 7).
Proof.
  intros Hcalm -> Hlen Hopen Hd Hgood.
  assert (Forall2 (λ source data, fs !! source = Some data ∧ good_source output source data)
    [path] [data]) as Hs by (constructor; [done|constructor]).
  pose proof (run_forensics_calm env d fs (AdminOptions (Some path) [] (Some output)) output image d1
    [data] Hcalm eq_refl Hopen Hs) as Hrun.
  unfold aetherfs_run_health. rewrite Hopen.
  destruct (judge d1 image) as [load_rc validate_rc]. cbn [fst snd]. intros Hfit.
  destruct (long_names output Hlen) as (dest & Hdest & Hreport).
  eexists _, _, dest. split; [by apply Hrun|]. split; [done|]. split; [done|].
  rewrite lookup_insert_ne by done. cbn [put_members]. unfold put_blocks.
  change (seqZ 0 8) with (seqZ 0 7 ++ [7]). rewrite foldl_app. cbn [foldl].
  rewrite Hdest by lia. apply lookup_insert_eq.
Qed.
End exports.

(** ** The theorems at concrete inputs *)

(** An image of eight zero blocks: it opens, and does not load. *)
Definition blank : bytes := zeros 32768.

Definition blank_open (_ : string) (_ : bool) : result open_file :=
  Ok (OpenFile (Ok S_IFREG) (Ok tt) blank).

Definition blank_env : forensics_env :=
  ForensicsEnv (Some true) (Ok tt) (λ _ _, Transfer 4096) (λ _, Ok tt)
    (λ _, replicate (Z.to_nat 4096) (Transfer 1)) (λ _, "Invalid argument").

Definition blank_image : aetherfs_image :=
  single_image false (Member 0 false 32768 8 0 0 0).

Lemma blank_calm : calm blank_env.
Proof.
  split; [done|]. split; [by intros; exists 4096|]. split; [done|]. intros dest.
  split; [by apply Forall_replicate|]. vm_compute. discriminate.
Qed.

Lemma blank_opens path output :
  aetherfs_open_admin_image blank_open (λ _, 0) ∅ (AdminOptions (Some path) [] (Some output)) =
    (Ok blank_image, <[0 := blank]> ∅).
Proof.
  unfold aetherfs_open_admin_image. cbn [ao_members ao_path].
  change (0 <? len []) with false. cbn iota.
  rewrite (open_bare blank_open ∅ path false (Ok tt) blank); [reflexivity|reflexivity|].
  vm_compute. reflexivity.
Qed.

Lemma blank_report :
  bool_decide (Z.of_nat (String.length (report_text (fe_strerror blank_env)
    (judge (<[0 := blank]> ∅) blank_image).1 (judge (<[0 := blank]> ∅) blank_image).2)) < 4096) = true.
Proof. vm_compute. reflexivity. Qed.

Lemma blank_source rest : good_source (String (Ascii.ascii_of_nat 47) rest) "a.img" blank.
Proof. split; [vm_compute; split; [discriminate|reflexivity]|]. intros m b _ _. discriminate. Qed.

Lemma forensics_exports_members_witness :
  ∃ rc fs', aetherfs_run_forensics blank_open (λ _, 0) blank_env ∅ {[ "a.img" := blank ]}
      (AdminOptions (Some "a.img") [] (Some "/out")) = Some (rc, closed blank_image (<[0 := blank]> ∅), fs') ∧
    fs' !! "/out/member0-block7.bin" = Some (block_of blank 7).
Proof.
  destruct (forensics_exports_members blank_open (λ _, 0) blank_env ∅ {[ "a.img" := blank ]}
    (AdminOptions (Some "a.img") [] (Some "/out")) "/out" blank_image (<[0 := blank]> ∅) [blank])
    as (rc & fs' & Hrun & _ & Hb & _).
  - exact blank_calm.
  - reflexivity.
  - unfold short_output. cbn. lia.
  - apply blank_opens.
  - constructor; [|constructor]. split; [apply lookup_singleton_eq|apply blank_source].
  - exact (bool_decide_eq_true_1 _ blank_report).
  - exists rc, fs'. split; [exact Hrun|]. apply (Hb 0%nat 7 blank eq_refl). lia.
Defined.

Fixpoint letters (n : nat) : string :=
  match n with O => "" | S n => String (Ascii.ascii_of_nat 111) (letters n) end.

Definition long_output : string := String (Ascii.ascii_of_nat 47) (letters 497).

Lemma forensics_long_path_overwrites_witness :
  ∃ rc fs' dest, aetherfs_run_forensics blank_open (λ _, 0) blank_env ∅ {[ "a.img" := blank ]}
      (AdminOptions (Some "a.img") [] (Some long_output)) =
        Some (rc, closed blank_image (<[0 := blank]> ∅), fs') ∧
    block_path long_output 0 0 = dest ∧ block_path long_output 0 7 = dest.
Proof.
  destruct (forensics_long_path_overwrites blank_open (λ _, 0) blank_env ∅ {[ "a.img" := blank ]}
    (AdminOptions (Some "a.img") [] (Some long_output)) long_output "a.img" blank_image
    (<[0 := blank]> ∅) blank) as (rc & fs' & dest & Hrun & _ & Hp & _).
  - exact blank_calm.
  - reflexivity.
  - vm_compute. split; discriminate.
  - apply blank_opens.
  - apply lookup_singleton_eq.
  - apply blank_source.
  - exact (bool_decide_eq_true_1 _ blank_report).
  - exists rc, fs', dest. split; [exact Hrun|]. split; apply Hp; lia.
Defined.
