(* ===== verification/CommandLine.v ===== *)
(** * The command line

    [aetherfsprogs/main.c]: the values of options, the six commands and [main], with
    [getopt_long] as the C library documents it (options may follow operands, long options
    may be abbreviated, [POSIXLY_CORRECT] is not set).  A run is the exit code and what was
    executed. *)

From Stdlib Require Import Ascii.
From stdpp Require Import strings pretty.
From S2P Require Import Prelude Codec Crc Format Integrity SysIo State Pool Blocks Bitmap Open.
From S2P Require Import Load RootDir Validate Mkfs Coverage Formatted Tools World Rebalance Forensics.

(** ** Numbers: [strtoull] in base 10 *)

(** [isspace]: blank and the control characters 9 to 13. *)
Definition is_space (c : Ascii.ascii) : bool :=
  let n := Z.of_N (Ascii.N_of_ascii c) in (n =? 32) || ((9 <=? n) && (n <=? 13)).

Definition digit_value (c : Ascii.ascii) : option Z :=
  let n := Z.of_N (Ascii.N_of_ascii c) in
  if (48 <=? n) && (n <=? 57) then Some (n - 48) else None.

Fixpoint skip_space (s : string) : string :=
  match s with
  | String c rest => if is_space c then skip_space rest else s
  | EmptyString => s
  end.

(** The value of the leading digits after [acc], and what follows them. *)
Fixpoint digits (s : string) (acc : Z) : Z * string :=
  match s with
  | String c rest =>
      match digit_value c with
      | Some v => digits rest (10 * acc + v)
      | None => (acc, s)
      end
  | EmptyString => (acc, s)
  end.

(** The sign, and what follows it. *)
Definition sign (s : string) : bool * string :=
  match s with
  | String c rest =>
      if bool_decide (c = "-"%char) then (true, rest)
      else if bool_decide (c = "+"%char) then (false, rest)
      else (false, s)
  | EmptyString => (false, s)
  end.

(** The value, the text at [end] and whether [errno] is [ERANGE].  Without digits [end] is
    the start of the text; a minus sign negates the value modulo 2^64. *)
Definition strtoull (value : string) : Z * string * bool :=
  let '(negative, s) := sign (skip_space value) in
  match s with
  | String c _ =>
      match digit_value c with
      | None => (0, value, false)
      | Some _ =>
          let '(v, rest) := digits s 0 in
          if 2 ^ 64 <=? v then (2 ^ 64 - 1, rest, true)
          else ((if negative then u64 (- v) else v), rest, false)
      end
  | EmptyString => (0, value, false)
  end.

Definition aetherfs_parse_u64 (value : string) : result Z :=
  let '(parsed, rest, range) := strtoull value in
  if range || negb (bool_decide (rest = "")) then Err EINVAL else Ok parsed.

Definition aetherfs_parse_u32 (value : string) : result Z :=
  match aetherfs_parse_u64 value with
  | Err _ => Err EINVAL
  | Ok parsed => if 2 ^ 32 - 1 <? parsed then Err EINVAL else Ok parsed
  end.

Definition aetherfs_parse_mode (value : string) : result Z :=
  if bool_decide (value = "cow") then Ok AETHERFS_COW_MODE
  else if bool_decide (value = "overwrite") then Ok AETHERFS_OVERWRITE_MODE
  else if bool_decide (value = "append") then Ok AETHERFS_APPEND_MODE
  else Err EINVAL.

(** ** Devices *)

Definition AETHERFS_DEV_CLASS_FAST : Z := 0x1.
Definition AETHERFS_DEV_CLASS_CAPACITY : Z := 0x2.
Definition AETHERFS_DEV_CLASS_ARCHIVAL : Z := 0x4.
Definition AETHERFS_DEV_CLASS_METADATA : Z := 0x8.
Definition AETHERFS_DEV_CLASS_LOG : Z := 0x10.
Definition AETHERFS_DEV_CLASS_CACHE : Z := 0x20.

(** The text before the first [sep], and the text behind it if there is one. *)
Fixpoint split_at (sep : Ascii.ascii) (s : string) : string * option string :=
  match s with
  | EmptyString => (EmptyString, None)
  | String c rest =>
      if bool_decide (c = sep) then (EmptyString, Some rest)
      else let '(l, r) := split_at sep rest in (String c l, r)
  end.

(** The tokens [strtok_r] finds: the maximal non-empty pieces between separators. *)
Fixpoint strtok (sep : Ascii.ascii) (s current : string) : list string :=
  let flush (l : list string) := if bool_decide (current = "") then l else current :: l in
  match s with
  | EmptyString => flush []
  | String c rest =>
      if bool_decide (c = sep) then flush (strtok sep rest "")
      else strtok sep rest (current +:+ String c "")
  end.

Definition comma : Ascii.ascii := ","%char.
Definition equals : Ascii.ascii := "="%char.

Definition device_class (token : string) : option Z :=
  if bool_decide (token = "fast") then Some AETHERFS_DEV_CLASS_FAST
  else if bool_decide (token = "capacity") then Some AETHERFS_DEV_CLASS_CAPACITY
  else if bool_decide (token = "archival") then Some AETHERFS_DEV_CLASS_ARCHIVAL
  else if bool_decide (token = "metadata") then Some AETHERFS_DEV_CLASS_METADATA
  else if bool_decide (token = "log") then Some AETHERFS_DEV_CLASS_LOG
  else if bool_decide (token = "cache") then Some AETHERFS_DEV_CLASS_CACHE
  else None.

Fixpoint class_loop (tokens : list string) (mask : Z) : result Z :=
  match tokens with
  | [] => Ok mask
  | token :: tokens =>
      match device_class token with
      | Some class => class_loop tokens (Z.lor mask class)
      | None => Err EINVAL
      end
  end.

Definition aetherfs_parse_device_classes (value : string) : result Z :=
  class_loop (strtok comma value "") 0.

Definition aetherfs_parse_device_spec (value : string) : result aetherfs_device_spec :=
  let '(before, after) := split_at equals value in
  spec ← match after with
         | Some path => mask ← aetherfs_parse_device_classes before; Ok (DeviceSpec path mask)
         | None => Ok (DeviceSpec value 0)
         end;
  return_if bool_decide (ds_path spec = "") with EINVAL ;;
  Ok spec.

(** ** [getopt_long] *)

Record long_option := LongOption {
  lo_name : string;
  lo_has_arg : bool;
  lo_val : Ascii.ascii;
}.

(** What one call returns: an option with [optarg], or ['?']. *)
Inductive getopt_event :=
| GotOption (opt : Ascii.ascii) (optarg : option string)
| GotUnknown.

Definition dash : Ascii.ascii := "-"%char.
Definition colon : Ascii.ascii := ":"%char.
Definition semicolon : Ascii.ascii := ";"%char.

(** [strchr(optstring, c)]: whether the option takes an argument, if it exists. *)
Fixpoint short_option (optstring : string) (c : Ascii.ascii) : option bool :=
  match optstring with
  | EmptyString => None
  | String o rest =>
      if bool_decide (o = c) then
        if bool_decide (c = colon) || bool_decide (c = semicolon) then None
        else Some match rest with
                  | String next _ => bool_decide (next = colon)
                  | EmptyString => false
                  end
      else short_option rest c
  end.

(** An exact match, or the only option the name abbreviates. *)
Definition find_long (options : list long_option) (name : string) : option long_option :=
  match List.filter (λ o, bool_decide (lo_name o = name)) options with
  | o :: _ => Some o
  | [] =>
      match List.filter (λ o, String.prefix name (lo_name o)) options with
      | [o] => Some o
      | _ => None
      end
  end.

(** The options of one element ["-xyz"], and the last of them when it still needs its
    argument. *)
Fixpoint short_cluster (optstring : string) (cluster : string)
    : list getopt_event * option Ascii.ascii :=
  match cluster with
  | EmptyString => ([], None)
  | String c rest =>
      match short_option optstring c with
      | None => let '(evs, pending) := short_cluster optstring rest in (GotUnknown :: evs, pending)
      | Some false =>
          let '(evs, pending) := short_cluster optstring rest in (GotOption c None :: evs, pending)
      | Some true =>
          if bool_decide (rest = "") then ([], Some c) else ([GotOption c (Some rest)], None)
      end
  end.

Inductive argument := Operand | Terminator | Long (text : string) | Short (cluster : string).

(** Elements that start with a dash are options, but for the dash alone. *)
Definition classify (arg : string) : argument :=
  match arg with
  | String c1 (String c2 rest) =>
      if bool_decide (c1 = dash) then
        if bool_decide (c2 = dash)
        then if bool_decide (rest = "") then Terminator else Long rest
        else Short (String c2 rest)
      else Operand
  | _ => Operand
  end.

(** The calls until the end of the options, and the operands that remain at [optind]: the
    elements that were skipped, then what follows ["--"]. *)
Fixpoint getopt_long (optstring : string) (options : list long_option) (args : list string)
    : list getopt_event * list string :=
  match args with
  | [] => ([], [])
  | arg :: rest =>
      let emit evs := let '(evs', operands) := getopt_long optstring options rest in
        (evs ++ evs', operands) in
      (* the option whose argument is the next element *)
      let emit_next evs opt := match rest with
        | [] => (evs ++ [GotUnknown], [])
        | optarg :: rest => let '(evs', operands) := getopt_long optstring options rest in
            (evs ++ GotOption opt (Some optarg) :: evs', operands)
        end in
      match classify arg with
      | Operand => let '(evs, operands) := getopt_long optstring options rest in
          (evs, arg :: operands)
      | Terminator => ([], rest)
      | Long text =>
          let '(name, value) := split_at equals text in
          match find_long options name with
          | None => emit [GotUnknown]
          | Some o =>
              if lo_has_arg o then
                match value with
                | Some v => emit [GotOption (lo_val o) (Some v)]
                | None => emit_next [] (lo_val o)
                end
              else match value with
                   | Some _ => emit [GotUnknown]
                   | None => emit [GotOption (lo_val o) None]
                   end
          end
      | Short cluster =>
          let '(evs, pending) := short_cluster optstring cluster in
          match pending with
          | None => emit evs
          | Some c => emit_next evs c
          end
      end
  end.

(** ** The commands *)

(** What a run did besides printing: nothing, or one of the commands with its outcome. *)
Inductive ran :=
| Nothing
| RanMkfs (path : string) (outcome : result Z * bytes)
| RanMount (outcome : result unit * list (list string) * disks)
| RanScrub (outcome : result (image_summary * aetherfs_scrub_report) * disks)
| RanHealth (outcome : result unit * option health_output * disks)
| RanForensics (outcome : result unit * disks * gmap string bytes)
| RanRebalance (outcome : result aetherfs_scrub_report * world).

Definition exit_code {A} (rc : result A) : Z := match rc with Ok _ => 0 | Err _ => 1 end.

(** What the system gives the commands, each of them for the paths it is run on. *)
Record system := System {
  sy_realpath : string → option string;
  sy_target : string → target;
  sy_mkfs : mkfs_env;
  sy_open : string → bool → result open_file;
  sy_garbage : Z → Z;
  sy_disks : disks;
  sy_mount : aetherfs_mount_options → mount_env;
  sy_files : gmap string bytes;
  sy_forensics : aetherfs_admin_options → forensics_env;
  sy_rebalance : string → rebalance_env;
}.

(** Reading the options ends with options or with an exit code. *)
Inductive parsed (A : Type) := Continue (options : A) | Exit (code : Z).
Arguments Continue {A} options.
Arguments Exit {A} code.

(** *** mkfs *)

Definition mkfs_optstring : string := "b:B:m:fh".

Definition mkfs_long_options : list long_option :=
  [LongOption "blocks" true "b"; LongOption "block-size" true "B"; LongOption "mode" true "m";
   LongOption "force" false "f"; LongOption "help" false "h"].

Definition mkfs_defaults : aetherfs_mkfs_options :=
  MkfsOptions 0 AETHERFS_DEF_BLOCK_SIZE AETHERFS_COW_MODE false.

Fixpoint mkfs_options (evs : list getopt_event) (o : aetherfs_mkfs_options)
    : parsed aetherfs_mkfs_options :=
  match evs with
  | [] => Continue o
  | GotUnknown :: _ => Exit 2
  | GotOption opt optarg :: evs =>
      let value := default "" optarg in
      if bool_decide (opt = "b"%char) then
        match aetherfs_parse_u64 value with
        | Err _ => Exit 2
        | Ok blocks => mkfs_options evs (MkfsOptions blocks (o_block_size o) (o_mode o) (o_force o))
        end
      else if bool_decide (opt = "B"%char) then
        match aetherfs_parse_u32 value with
        | Err _ => Exit 2
        | Ok block_size => mkfs_options evs (MkfsOptions (o_blocks o) block_size (o_mode o) (o_force o))
        end
      else if bool_decide (opt = "m"%char) then
        match aetherfs_parse_mode value with
        | Err _ => Exit 2
        | Ok mode => mkfs_options evs (MkfsOptions (o_blocks o) (o_block_size o) mode (o_force o))
        end
      else if bool_decide (opt = "f"%char) then
        mkfs_options evs (MkfsOptions (o_blocks o) (o_block_size o) (o_mode o) true)
      else if bool_decide (opt = "h"%char) then Exit 0
      else Exit 2
  end.

Definition aetherfs_cmd_mkfs (sys : system) (args : list string) : Z * ran :=
  let '(evs, operands) := getopt_long mkfs_optstring mkfs_long_options args in
  match mkfs_options evs mkfs_defaults with
  | Exit code => (code, Nothing)
  | Continue options =>
      match operands with
      | [] => (2, Nothing)
      | path :: _ =>
          let outcome := aetherfs_run_mkfs (sy_mkfs sys) options (sy_target sys path) in
          (exit_code outcome.1, RanMkfs path outcome)
      end
  end.

(** *** mount *)

(** POSIX [dirname]: trailing slashes, the last component and the slashes before it go. *)
Definition dirname (path : string) : string :=
  let slash (c : ascii) := bool_decide (c = "/"%char) in
  let fix skip (p : ascii → bool) (l : list ascii) :=
    match l with c :: rest => if p c then skip p rest else l | [] => [] end in
  let chars := rev (String.list_ascii_of_string path) in
  match skip slash chars with
  | [] => if bool_decide (path = "") then "." else "/"
  | name =>
      match skip (λ c, negb (slash c)) name with
      | [] => "."
      | dir => match skip slash dir with
               | [] => "/"
               | dir => String.string_of_list_ascii (rev dir)
               end
      end
  end.

Definition aetherfs_default_module_path (sys : system) (argv0 : string) : option string :=
  resolved ← sy_realpath sys argv0;
  Some (dirname resolved +:+ "/../kernel/aetherfs.ko").

Definition mount_optstring : string := "pm:sdrh".

Definition mount_long_options : list long_option :=
  [LongOption "mkdir" false "p"; LongOption "module" true "m"; LongOption "strict" false "s";
   LongOption "degraded-ro" false "d"; LongOption "rescue" false "r"; LongOption "help" false "h"].

Fixpoint mount_options (evs : list getopt_event) (module_path : option string)
    (create_mountpoint : bool) (behavior : aetherfs_mount_behavior)
    : parsed (option string * bool * aetherfs_mount_behavior) :=
  match evs with
  | [] => Continue (module_path, create_mountpoint, behavior)
  | GotUnknown :: _ => Exit 2
  | GotOption opt optarg :: evs =>
      if bool_decide (opt = "p"%char) then mount_options evs module_path true behavior
      else if bool_decide (opt = "m"%char) then mount_options evs optarg create_mountpoint behavior
      else if bool_decide (opt = "s"%char) then
        mount_options evs module_path create_mountpoint AETHERFS_MOUNT_STRICT
      else if bool_decide (opt = "d"%char) then
        mount_options evs module_path create_mountpoint AETHERFS_MOUNT_DEGRADED_RO
      else if bool_decide (opt = "r"%char) then
        mount_options evs module_path create_mountpoint AETHERFS_MOUNT_RESCUE
      else if bool_decide (opt = "h"%char) then Exit 0
      else Exit 2
  end.

Definition aetherfs_cmd_mount (sys : system) (argv0 : string) (args : list string) : Z * ran :=
  let '(evs, operands) := getopt_long mount_optstring mount_long_options args in
  match mount_options evs (aetherfs_default_module_path sys argv0) false AETHERFS_MOUNT_STRICT with
  | Exit code => (code, Nothing)
  | Continue (module_path, create_mountpoint, behavior) =>
      match operands with
      | [image_path; mount_path] =>
          let options := MountOptions image_path mount_path module_path create_mountpoint behavior in
          let outcome := aetherfs_run_mount (sy_open sys) (sy_mount sys options) (sy_disks sys) options in
          (exit_code outcome.1.1, RanMount outcome)
      | _ => (2, Nothing)
      end
  end.

(** *** scrub, health and forensics *)

Definition device_optstring : string := "d:h".

Definition device_long_options : list long_option :=
  [LongOption "device" true "d"; LongOption "help" false "h"].

(** The option loop the three commands share: the members given. *)
Fixpoint device_options (evs : list getopt_event) (members : list aetherfs_device_spec)
    : parsed (list aetherfs_device_spec) :=
  match evs with
  | [] => Continue members
  | GotUnknown :: _ => Exit 2
  | GotOption opt optarg :: evs =>
      if bool_decide (opt = "d"%char) then
        if AETHERFS_MAX_DEVICES <=? len members then Exit 2
        else match aetherfs_parse_device_spec (default "" optarg) with
             | Err _ => Exit 2
             | Ok spec => device_options evs (members ++ [spec])
             end
      else if bool_decide (opt = "h"%char) then Exit 0
      else Exit 2
  end.

(** The members or one image. *)
Definition admin_operands (members : list aetherfs_device_spec) (operands : list string)
    : option aetherfs_admin_options :=
  match members, operands with
  | [], [path] => Some (AdminOptions (Some path) [] None)
  | _ :: _, [] => Some (AdminOptions None members None)
  | _, _ => None
  end.

Definition aetherfs_cmd_scrub (sys : system) (args : list string) : Z * ran :=
  let '(evs, operands) := getopt_long device_optstring device_long_options args in
  match device_options evs [] with
  | Exit code => (code, Nothing)
  | Continue members =>
      match admin_operands members operands with
      | None => (2, Nothing)
      | Some options =>
          let outcome := aetherfs_run_scrub (sy_open sys) (sy_garbage sys) (sy_disks sys) options in
          (exit_code outcome.1, RanScrub outcome)
      end
  end.

Definition aetherfs_cmd_health (sys : system) (args : list string) : Z * ran :=
  let '(evs, operands) := getopt_long device_optstring device_long_options args in
  match device_options evs [] with
  | Exit code => (code, Nothing)
  | Continue members =>
      match admin_operands members operands with
      | None => (2, Nothing)
      | Some options =>
          let outcome := aetherfs_run_health (sy_open sys) (sy_garbage sys) (sy_disks sys) options in
          (exit_code outcome.1.1, RanHealth outcome)
      end
  end.

(** The members or one image, and the output directory. *)
Definition forensics_operands (members : list aetherfs_device_spec) (operands : list string)
    : option aetherfs_admin_options :=
  match members, operands with
  | [], [path; output] => Some (AdminOptions (Some path) [] (Some output))
  | _ :: _, [output] => Some (AdminOptions None members (Some output))
  | _, _ => None
  end.

Definition aetherfs_cmd_forensics (sys : system) (args : list string) : option (Z * ran) :=
  let '(evs, operands) := getopt_long device_optstring device_long_options args in
  match device_options evs [] with
  | Exit code => Some (code, Nothing)
  | Continue members =>
      match forensics_operands members operands with
      | None => Some (2, Nothing)
      | Some options =>
          outcome ← aetherfs_run_forensics (sy_open sys) (sy_garbage sys) (sy_forensics sys options)
            (sy_disks sys) (sy_files sys) options;
          Some (exit_code outcome.1.1, RanForensics outcome)
      end
  end.

(** *** rebalance *)

Definition aetherfs_cmd_rebalance (sys : system) (args : list string) : Z * ran :=
  match args with
  | [path] =>
      let outcome := aetherfs_run_rebalance (sy_open sys) (sy_rebalance sys path) (World (sy_disks sys) ∅ ∅) path in
      (exit_code outcome.1, RanRebalance outcome)
  | _ => (2, Nothing)
  end.

(** *** main *)

(** [None] when a [write] call of a forensics export is not answered. *)
Definition main (sys : system) (argv : list string) : option (Z * ran) :=
  match argv with
  | argv0 :: command :: args =>
      if bool_decide (command = "mkfs") then Some (aetherfs_cmd_mkfs sys args)
      else if bool_decide (command = "mount") then Some (aetherfs_cmd_mount sys argv0 args)
      else if bool_decide (command = "scrub") then Some (aetherfs_cmd_scrub sys args)
      else if bool_decide (command = "health") then Some (aetherfs_cmd_health sys args)
      else if bool_decide (command = "forensics") then aetherfs_cmd_forensics sys args
      else if bool_decide (command = "rebalance") then Some (aetherfs_cmd_rebalance sys args)
      else if bool_decide (command = "--help") || bool_decide (command = "help")
      then Some (0, Nothing)
      else Some (2, Nothing)
  | _ => Some (2, Nothing)
  end.

(** ** Numbers are read back *)

Lemma digit_char x : (x < 10)%N → digit_value (pretty_N_char x) = Some (Z.of_N x).
Proof.
  intros H. assert (x = 0 ∨ x = 1 ∨ x = 2 ∨ x = 3 ∨ x = 4 ∨ x = 5 ∨ x = 6 ∨ x = 7 ∨ x = 8 ∨ x = 9)%N
    as [->|[->|[->|[->|[->|[->|[->|[->|[->| ->]]]]]]]]] by lia; reflexivity.
Qed.

Lemma digits_go x : ∀ s, digits (pretty_N_go x s) 0 = digits s (Z.of_N x).
Proof.
  induction (N.lt_wf_0 x) as [x _ IH]. intros s.
  destruct (decide (x = 0%N)) as [->|Hx]; [by rewrite pretty_N_go_0|].
  rewrite pretty_N_go_step, IH by (try apply N.div_lt; lia). cbn [digits].
  rewrite digit_char by (apply N.mod_lt; lia). f_equal.
  rewrite (N.div_mod x 10) at 3 by lia. lia.
Qed.

(** A text that starts with a digit. *)
Definition numeral (s : string) : Prop :=
  match s with String c _ => is_Some (digit_value c) | EmptyString => False end.

Lemma numeral_go x s : (0 < x)%N → numeral (pretty_N_go x s).
Proof.
  revert s. induction (N.lt_wf_0 x) as [x _ IH]. intros s Hx.
  rewrite pretty_N_go_step by done. destruct (decide (x `div` 10 = 0)%N) as [->|Hd].
  - rewrite pretty_N_go_0. cbn. rewrite digit_char by (apply N.mod_lt; lia). done.
  - apply IH; [by apply N.div_lt|by apply N.neq_0_lt_0].
Qed.

Lemma pretty_digits z : 0 ≤ z → numeral (pretty z) ∧ digits (pretty z) 0 = (z, "").
Proof.
  intros Hz. destruct z as [|p|p]; [by split; [exists 0|]| |lia].
  change (pretty (Z.pos p)) with (pretty (Npos p)). unfold pretty, pretty_N.
  rewrite decide_False by done. split; [by apply numeral_go|]. by rewrite digits_go.
Qed.

Lemma digit_plain c : is_Some (digit_value c) → is_space c = false ∧ c ≠ "-"%char ∧ c ≠ "+"%char.
Proof.
  intros [v Hv]. split; [|by split; intros ->].
  unfold digit_value in Hv. unfold is_space.
  set (n := Z.of_N (Ascii.N_of_ascii c)) in *.
  destruct (Z.leb_spec 48 n); [|done]. destruct (Z.eqb_spec n 32); [lia|].
  destruct (Z.leb_spec n 13); [lia|]. by rewrite andb_false_r.
Qed.

(** A numeral, with or without a minus sign before it. *)
Lemma strtoull_numeral (negative : bool) s v : numeral s → digits s 0 = (v, "") → v < 2 ^ 64 →
  strtoull (if negative then String "-"%char s else s) =
    ((if negative then u64 (- v) else v), "", false).
Proof.
  intros Hn Hd Hv. unfold strtoull.
  destruct s as [|c s]; [done|]. pose proof Hn as [w Hw]. destruct (digit_plain c Hn) as (Hs & Hm & Hp).
  assert (sign (skip_space (if negative then String "-"%char (String c s) else String c s)) =
    (negative, String c s)) as ->.
  { destruct negative; [reflexivity|]. cbn [skip_space]. rewrite Hs. cbn [sign].
    by rewrite !bool_decide_eq_false_2. }
  rewrite Hw, Hd. by rewrite (proj2 (Z.leb_gt _ _) Hv).
Qed.

Lemma parse_u64_pretty z : 0 ≤ z < 2 ^ 64 → aetherfs_parse_u64 (pretty z) = Ok z.
Proof.
  intros [H0 H1]. destruct (pretty_digits z H0) as [Hn Hd]. unfold aetherfs_parse_u64.
  by rewrite (strtoull_numeral false _ _ Hn Hd H1).
Qed.

Lemma parse_u32_pretty z : 0 ≤ z < 2 ^ 32 → aetherfs_parse_u32 (pretty z) = Ok z.
Proof.
  intros Hz. unfold aetherfs_parse_u32. rewrite parse_u64_pretty by lia.
  destruct (Z.ltb_spec (2 ^ 32 - 1) z); [lia|done].
Qed.

(** Negative counts wrap around instead of being refused. *)
Lemma parse_u64_negative z : 0 < z < 2 ^ 64 →
  aetherfs_parse_u64 (String "-"%char (pretty z)) = Ok (2 ^ 64 - z).
Proof.
  intros [H0 H1]. destruct (pretty_digits z) as [Hn Hd]; [lia|]. unfold aetherfs_parse_u64.
  rewrite (strtoull_numeral true _ _ Hn Hd H1). cbn [orb negb]. rewrite bool_decide_eq_true_2 by done.
  cbn [negb]. f_equal. unfold u64. rewrite Z.mod_opp_l_nz; rewrite ?Z.mod_small; lia.
Qed.

(** ** Command lines of [mkfs] *)

(** What the options of [mkfs] set. *)
Inductive mkfs_setting :=
| SetBlocks (blocks : Z)
| SetBlockSize (block_size : Z)
| SetMode (mode : Z)
| SetForce.

Definition mode_name (mode : Z) : string :=
  if mode =? AETHERFS_COW_MODE then "cow"
  else if mode =? AETHERFS_OVERWRITE_MODE then "overwrite" else "append".

Definition setting_args (s : mkfs_setting) : list string :=
  match s with
  | SetBlocks n => ["--blocks"; pretty n]
  | SetBlockSize n => ["--block-size"; pretty n]
  | SetMode m => ["--mode"; mode_name m]
  | SetForce => ["--force"]
  end.

Definition setting_ok (s : mkfs_setting) : Prop :=
  match s with
  | SetBlocks n => 0 ≤ n < 2 ^ 64
  | SetBlockSize n => 0 ≤ n < 2 ^ 32
  | SetMode m => m ∈ [AETHERFS_COW_MODE; AETHERFS_OVERWRITE_MODE; AETHERFS_APPEND_MODE]
  | SetForce => True
  end.

Definition apply_setting (o : aetherfs_mkfs_options) (s : mkfs_setting) : aetherfs_mkfs_options :=
  match s with
  | SetBlocks n => MkfsOptions n (o_block_size o) (o_mode o) (o_force o)
  | SetBlockSize n => MkfsOptions (o_blocks o) n (o_mode o) (o_force o)
  | SetMode m => MkfsOptions (o_blocks o) (o_block_size o) m (o_force o)
  | SetForce => MkfsOptions (o_blocks o) (o_block_size o) (o_mode o) true
  end.

Definition setting_event (s : mkfs_setting) : getopt_event :=
  match s with
  | SetBlocks n => GotOption "b" (Some (pretty n))
  | SetBlockSize n => GotOption "B" (Some (pretty n))
  | SetMode m => GotOption "m" (Some (mode_name m))
  | SetForce => GotOption "f" None
  end.

Lemma getopt_settings l rest :
  getopt_long mkfs_optstring mkfs_long_options (flat_map setting_args l ++ rest) =
    let '(evs, operands) := getopt_long mkfs_optstring mkfs_long_options rest in
    (map setting_event l ++ evs, operands).
Proof.
  induction l as [|s l IH]; [cbn [flat_map map app]; by destruct (getopt_long _ _ rest)|].
  cbn [flat_map map]. rewrite <- app_assoc.
  assert (∀ tail, getopt_long mkfs_optstring mkfs_long_options (setting_args s ++ tail) =
    let '(evs, operands) := getopt_long mkfs_optstring mkfs_long_options tail in
    (setting_event s :: evs, operands)) as -> by (intros; destruct s; reflexivity).
  rewrite IH. by destruct (getopt_long _ _ rest).
Qed.

Lemma settings_options l o : Forall setting_ok l →
  mkfs_options (map setting_event l) o = Continue (foldl apply_setting o l).
Proof.
  intros Hl. revert o. induction Hl as [|s l Hs Hl IH]; intros o; [done|].
  cbn [map foldl]. rewrite <- IH. destruct s as [n|n|m|]; cbn in Hs.
  - change (match aetherfs_parse_u64 (pretty n) with
      | Ok n => mkfs_options (map setting_event l) (apply_setting o (SetBlocks n))
      | Err _ => Exit 2 end = mkfs_options (map setting_event l) (apply_setting o (SetBlocks n))).
    by rewrite parse_u64_pretty.
  - change (match aetherfs_parse_u32 (pretty n) with
      | Ok n => mkfs_options (map setting_event l) (apply_setting o (SetBlockSize n))
      | Err _ => Exit 2 end = mkfs_options (map setting_event l) (apply_setting o (SetBlockSize n))).
    by rewrite parse_u32_pretty.
  - rewrite !elem_of_cons, elem_of_nil in Hs. destruct Hs as [->|[->|[->|[]]]]; reflexivity.
  - reflexivity.
Qed.

(** C22: every command line of [mkfs] that sets options by their long names, in any order, with
    repetitions and with the path before, between or behind them, formats that path with
    exactly the options set, where later ones win; the exit code tells whether it worked. *)
Theorem mkfs_line_runs sys argv0 l1 l2 path :
  Forall setting_ok (l1 ++ l2) → classify path = Operand →
  let outcome := aetherfs_run_mkfs (sy_mkfs sys) (foldl apply_setting mkfs_defaults (l1 ++ l2))
    (sy_target sys path) in
  main sys (argv0 :: "mkfs" :: flat_map setting_args l1 ++ path :: flat_map setting_args l2) =
    Some (exit_code outcome.1, RanMkfs path outcome).
Proof.
  intros Hl Hp. cbn zeta. unfold main, aetherfs_cmd_mkfs.
  rewrite bool_decide_eq_true_2 by done. rewrite getopt_settings. cbn [getopt_long]. rewrite Hp.
  rewrite <- (app_nil_r (flat_map setting_args l2)), getopt_settings. cbn [getopt_long].
  rewrite app_nil_r, <- map_app, settings_options by done. done.
Qed.

(** ** Command lines with devices *)

Definition class_table : list (Z * string) :=
  [(AETHERFS_DEV_CLASS_FAST, "fast"); (AETHERFS_DEV_CLASS_CAPACITY, "capacity");
   (AETHERFS_DEV_CLASS_ARCHIVAL, "archival"); (AETHERFS_DEV_CLASS_METADATA, "metadata");
   (AETHERFS_DEV_CLASS_LOG, "log"); (AETHERFS_DEV_CLASS_CACHE, "cache")].

Fixpoint join (l : list string) : string :=
  match l with
  | [] => ""
  | [s] => s
  | s :: l => s +:+ String comma (join l)
  end.

(** The names of the classes in a mask, separated by commas. *)
Definition class_names (mask : Z) : string :=
  join (map snd (List.filter (λ '(bit, _), negb (Z.land mask bit =? 0)) class_table)).

Definition device_text (spec : aetherfs_device_spec) : string :=
  class_names (ds_class_mask spec) +:+ String equals (ds_path spec).

Definition device_args (spec : aetherfs_device_spec) : list string := ["--device"; device_text spec].

(** A path, and classes of the format. *)
Definition spec_ok (spec : aetherfs_device_spec) : Prop :=
  ds_path spec ≠ "" ∧ 0 ≤ ds_class_mask spec < 64.

Lemma class_names_read_back : forallb (λ mask,
    bool_decide (split_at equals (class_names mask) = (class_names mask, None)) &&
    bool_decide (aetherfs_parse_device_classes (class_names mask) = Ok mask)) (seqZ 0 64) = true.
Proof. vm_compute. reflexivity. Qed.

Lemma split_at_app sep s t : split_at sep s = (s, None) →
  split_at sep (s +:+ String sep t) = (s, Some t).
Proof.
  induction s as [|c s IH]; intros H.
  { change (split_at sep (String sep t) = ("", Some t)). cbn [split_at]. by rewrite bool_decide_eq_true_2. }
  change (String c s +:+ String sep t) with (String c (s +:+ String sep t)). cbn [split_at] in *.
  case_bool_decide; [done|]. destruct (split_at sep s) as [l r]. injection H as -> ->.
  by rewrite IH.
Qed.

Lemma parse_device_text spec : spec_ok spec →
  aetherfs_parse_device_spec (device_text spec) = Ok spec.
Proof.
  intros [Hp Hm]. unfold aetherfs_parse_device_spec, device_text.
  pose proof class_names_read_back as H. rewrite forallb_forall in H.
  specialize (H (ds_class_mask spec)). rewrite <- list_elem_of_In, elem_of_seqZ in H.
  specialize (H ltac:(lia)). apply andb_true_iff in H as [H1%bool_decide_eq_true H2%bool_decide_eq_true].
  rewrite (split_at_app _ _ _ H1), H2. cbn [mbind result_bind ds_path].
  rewrite bool_decide_eq_false_2 by done. by destruct spec.
Qed.

Definition device_event (spec : aetherfs_device_spec) : getopt_event :=
  GotOption "d" (Some (device_text spec)).

Lemma getopt_devices l rest :
  getopt_long device_optstring device_long_options (flat_map device_args l ++ rest) =
    let '(evs, operands) := getopt_long device_optstring device_long_options rest in
    (map device_event l ++ evs, operands).
Proof.
  induction l as [|s l IH]; [cbn [flat_map map app]; by destruct (getopt_long _ _ rest)|].
  cbn [flat_map map]. rewrite <- app_assoc.
  change (getopt_long device_optstring device_long_options
      (device_args s ++ flat_map device_args l ++ rest)) with
    (let '(evs, operands) := getopt_long device_optstring device_long_options
       (flat_map device_args l ++ rest) in (device_event s :: evs, operands)).
  rewrite IH. by destruct (getopt_long _ _ rest).
Qed.

Lemma devices_options l : ∀ members, Forall spec_ok l →
  device_options (map device_event l) members =
    if len members + len l <=? 8 then Continue (members ++ l) else
    if len members <=? 8 then Exit 2 else
    match l with [] => Continue members | _ => Exit 2 end.
Proof.
  induction l as [|s l IH]; intros members Hl; unfold len in *; cbn [map length].
  - cbn [device_options]. rewrite app_nil_r, Z.add_0_r. by destruct (_ <=? 8).
  - apply Forall_cons in Hl as [Hs Hl].
    change (device_options (device_event s :: map device_event l) members) with
      (if AETHERFS_MAX_DEVICES <=? len members then Exit 2 else
       match aetherfs_parse_device_spec (device_text s) with
       | Err _ => Exit 2
       | Ok spec => device_options (map device_event l) (members ++ [spec]) end).
    unfold AETHERFS_MAX_DEVICES, len. destruct (Z.leb_spec 8 (Z.of_nat (length members))).
    + destruct (Z.leb_spec (Z.of_nat (length members) + Z.of_nat (S (length l))) 8); [lia|].
      by destruct (_ <=? 8).
    + rewrite parse_device_text by done. rewrite IH by done. rewrite length_app. cbn [length].
      rewrite <- app_assoc. cbn [app].
      replace (Z.of_nat (length members + 1) + Z.of_nat (length l)) with
        (Z.of_nat (length members) + Z.of_nat (S (length l))) by lia.
      destruct (_ <=? 8); [done|]. by rewrite !(proj2 (Z.leb_le _ 8)) by lia.
Qed.

(** The devices on a command line are read back: for up to eight members, each written
    as its class names and its path, which may itself contain equals signs, [scrub],
    [health] and [forensics] run on exactly those members in that order. *)
Theorem device_lines_run sys argv0 members output :
  Forall spec_ok members → 0 < len members ≤ 8 → classify output = Operand →
  main sys (argv0 :: "scrub" :: flat_map device_args members) =
    (let outcome := aetherfs_run_scrub (sy_open sys) (sy_garbage sys) (sy_disks sys)
       (AdminOptions None members None) in
     Some (exit_code outcome.1, RanScrub outcome)) ∧
  main sys (argv0 :: "health" :: flat_map device_args members) =
    (let outcome := aetherfs_run_health (sy_open sys) (sy_garbage sys) (sy_disks sys)
       (AdminOptions None members None) in
     Some (exit_code outcome.1.1, RanHealth outcome)) ∧
  main sys (argv0 :: "forensics" :: output :: flat_map device_args members) =
    (let options := AdminOptions None members (Some output) in
     outcome ← aetherfs_run_forensics (sy_open sys) (sy_garbage sys) (sy_forensics sys options)
       (sy_disks sys) (sy_files sys) options;
     Some (exit_code outcome.1.1, RanForensics outcome)).
Proof.
  intros Hm [H0 H8] Ho.
  assert (getopt_long device_optstring device_long_options (flat_map device_args members) =
    (map device_event members, [])) as Hg.
  { rewrite <- (app_nil_r (flat_map _ _)), getopt_devices. cbn [getopt_long]. by rewrite app_nil_r. }
  assert (device_options (map device_event members) [] = Continue members) as Hd.
  { rewrite devices_options by done. change (len []) with 0. by rewrite (proj2 (Z.leb_le _ 8)) by lia. }
  destruct members as [|m members]; [done|].
  unfold main, aetherfs_cmd_scrub, aetherfs_cmd_health, aetherfs_cmd_forensics.
  cbn [getopt_long]. rewrite Ho. rewrite !Hg. rewrite !Hd. split; [done|]. split; [done|]. done.
Qed.

(** An image next to devices is refused.  The usage text gives the devices of [scrub]
    and [health] as options before the image; with both the commands exit with a usage
    error and run nothing. *)
Theorem device_and_image_refused sys argv0 members image :
  Forall spec_ok members → 0 < len members → classify image = Operand →
  main sys (argv0 :: "scrub" :: flat_map device_args members ++ [image]) = Some (2, Nothing) ∧
  main sys (argv0 :: "health" :: flat_map device_args members ++ [image]) = Some (2, Nothing).
Proof.
  intros Hm H0 Hi. destruct members as [|m members]; [done|].
  assert (getopt_long device_optstring device_long_options
    (flat_map device_args (m :: members) ++ [image]) = (map device_event (m :: members), [image])) as Hg.
  { rewrite getopt_devices. cbn [getopt_long]. by rewrite Hi, app_nil_r. }
  unfold main, aetherfs_cmd_scrub, aetherfs_cmd_health. rewrite !Hg, !devices_options by done.
  by destruct (_ <=? 8); [|change (len [] <=? 8) with true].
Qed.

(** ** The theorems at concrete inputs *)

Definition sample_system : system :=
  System (λ _, Some "/opt/aetherfs/bin/aetherfs")
    (λ _, Target false (Ok tt) (Ok S_IFREG) (Ok tt) (Ok tt) [])
    (MkfsEnv (Ok (replicate 16 170)) 0 0 0 (Ok tt)) blank_open (λ _, 0) ∅
    (λ _, MountEnv (Ok S_IFREG) (Some true) (Ok tt) None (λ _, false) true (λ _, Exited 0))
    {[ "a.img" := blank ]} (λ _, blank_env)
    (λ _, RebalanceEnv (TempEnv (Ok S_IFREG) (λ _, Err ENOENT) "." "a.img" (λ _, Err ENOENT))
      (Ok tt) (Ok tt) (λ _, Ok tt) (Ok tt) (Ok tt) (Ok tt) (Ok tt) (Ok tt)).

Lemma mkfs_line_runs_witness :
  let options := MkfsOptions 64 4096 AETHERFS_APPEND_MODE true in
  let outcome := aetherfs_run_mkfs (sy_mkfs sample_system) options (sy_target sample_system "a.img") in
  main sample_system ["aetherfs"; "mkfs"; "--blocks"; "32"; "--force"; "a.img"; "--mode"; "append";
      "--blocks"; "64"] =
    Some (exit_code outcome.1, RanMkfs "a.img" outcome).
Proof.
  apply (mkfs_line_runs sample_system "aetherfs" [SetBlocks 32; SetForce]
    [SetMode AETHERFS_APPEND_MODE; SetBlocks 64] "a.img"); [|reflexivity].
  repeat constructor; cbn; lia.
Defined.

Lemma device_lines_run_witness :
  let members := [DeviceSpec "/dev/sda" 9; DeviceSpec "/x=y" 0] in
  main sample_system ["aetherfs"; "scrub"; "--device"; "fast,metadata=/dev/sda"; "--device"; "=/x=y"] =
    (let outcome := aetherfs_run_scrub (sy_open sample_system) (sy_garbage sample_system)
       (sy_disks sample_system) (AdminOptions None members None) in
     Some (exit_code outcome.1, RanScrub outcome)).
Proof.
  refine (proj1 (device_lines_run sample_system "aetherfs"
    [DeviceSpec "/dev/sda" 9; DeviceSpec "/x=y" 0] "/out" _ _ eq_refl)).
  - repeat constructor; cbn; (discriminate || lia).
  - split; [reflexivity|discriminate].
Defined.

Lemma device_and_image_refused_witness :
  main sample_system ["aetherfs"; "scrub"; "--device"; "fast=/dev/sda"; "a.img"] = Some (2, Nothing).
Proof.
  refine (proj1 (device_and_image_refused sample_system "aetherfs" [DeviceSpec "/dev/sda" 1] "a.img" _ _ eq_refl)).
  - repeat constructor; cbn; (discriminate || lia).
  - reflexivity.
Defined.
