(* ===== verification/Btree.v ===== *)
(** * The kernel's extent tree

    [kernel/btree.c]: one leaf of up to [AETHERFS_BTREE_DEF_ORDER] keys sorted by offset
    or by inode number, searched by bisection.  A node is the
    [AETHERFS_BTREE_DEF_NODE_SIZE] bytes the code works on: a header, an array of keys and
    what is left behind the array. *)

From stdpp Require Import sorting.
From S2P Require Import Prelude Codec Crc.

Definition AETHERFS_BTREE_DEF_ORDER : Z := 32.
Definition AETHERFS_BTREE_DEF_NODE_SIZE : Z := 4096.

(** [aetherfs_crc32] of [kernel/aetherfs.h]. *)
Definition kernel_aetherfs_crc32 (buf : bytes) : Z := kernel_aetherfs_crc32c 0xFFFFFFFF buf.

Lemma kernel_crc_range seed buf : 0 ≤ seed < 2 ^ 32 → is_bytes buf →
  0 ≤ kernel_aetherfs_crc32c seed buf < 2 ^ 32.
Proof.
  intros Hs Hb. unfold kernel_aetherfs_crc32c. apply (lxor_range 32); [lia| |split; reflexivity || discriminate].
  revert seed Hs. induction Hb as [|b buf Hb Hbuf IH]; intros seed Hs; [done|]. cbn [foldl].
  apply IH. unfold kernel_crc_byte. apply crc_bit_range, (lxor_range 32); [lia|done|].
  unfold is_byte in Hb. lia.
Qed.

(** [struct aetherfs_btree_key], with the padding behind its last field. *)
Record aetherfs_btree_key := Key {
  k_ino : Z;
  k_offset : Z;
  k_value : Z;
  k_len : Z;
  k_flags : Z;
  k_checksum : Z;
  k_pad : Z;
}.

Definition key_codec : codec aetherfs_btree_key :=
  c_iso (λ '(i, (o, (v, (l, (f, (c, p)))))), Key i o v l f c p)
    (λ k, (k_ino k, (k_offset k, (k_value k, (k_len k, (k_flags k, (k_checksum k, k_pad k)))))))
    (c_le 8 ⊗ c_le 8 ⊗ c_le 8 ⊗ c_le 4 ⊗ c_le 4 ⊗ c_le 4 ⊗ c_le 4)%codec.

Lemma key_lawful : lawful key_codec.
Proof. solve_lawful. Qed.

#[export] Hint Resolve key_lawful : codec.
#[export] Instance key_on_disk : OnDisk aetherfs_btree_key :=
  {| layout := key_codec; layout_lawful := key_lawful |}.

(** The keys that fit behind the header: (4096 - 24) / 40. *)
Definition NODE_KEYS : nat := 101.

(** [struct aetherfs_btree_node] *)
Record aetherfs_btree_node := BtreeNode {
  bn_next : Z;
  bn_level : Z;
  bn_count : Z;
  bn_checksum : Z;
  bn_reserved : Z;
  bn_data : list aetherfs_btree_key;
  bn_tail : bytes;
}.

Definition btree_node_codec : codec aetherfs_btree_node :=
  c_iso (λ '(n, (l, (c, (s, (r, (d, t)))))), BtreeNode n l c s r d t)
    (λ n, (bn_next n, (bn_level n, (bn_count n, (bn_checksum n, (bn_reserved n,
      (bn_data n, bn_tail n)))))))
    (c_le 8 ⊗ c_le 4 ⊗ c_le 4 ⊗ c_le 4 ⊗ c_le 4 ⊗ c_vec NODE_KEYS key_codec ⊗
      c_vec 32 (c_le 1))%codec.

Lemma btree_node_lawful : lawful btree_node_codec.
Proof. solve_lawful. Qed.

#[export] Instance btree_node_on_disk : OnDisk aetherfs_btree_node :=
  {| layout := btree_node_codec; layout_lawful := btree_node_lawful |}.

Lemma sizeof_btree_node : sizeof aetherfs_btree_node = AETHERFS_BTREE_DEF_NODE_SIZE.
Proof. reflexivity. Qed.

Definition set_bn_checksum (c : Z) (n : aetherfs_btree_node) : aetherfs_btree_node :=
  BtreeNode (bn_next n) (bn_level n) (bn_count n) c (bn_reserved n) (bn_data n) (bn_tail n).
Definition set_keys (keys : list aetherfs_btree_key) (count : Z) (n : aetherfs_btree_node)
    : aetherfs_btree_node :=
  BtreeNode (bn_next n) (bn_level n) count (bn_checksum n) (bn_reserved n) keys (bn_tail n).

(** ** Slots *)

Definition zero_key : aetherfs_btree_key := Key 0 0 0 0 0 0 0.

(** [keys[i]]; the callers keep [i] below [bn_count]. *)
Definition key_at (keys : list aetherfs_btree_key) (i : Z) : aetherfs_btree_key :=
  default zero_key (keys !! Z.to_nat i).

Definition btree_is_leaf (node : aetherfs_btree_node) : bool := bn_level node =? 0.

Definition btree_is_full (node : aetherfs_btree_node) (order : Z) : bool := order <=? bn_count node.

Definition btree_is_min (node : aetherfs_btree_node) (order : Z) : bool :=
  bn_count node <=? order / 2.

(** The sign of the C comparison. *)
Definition compare3 (a b : Z) : Z := if a <? b then -1 else if b <? a then 1 else 0.

Definition btree_compare_ino (a : aetherfs_btree_key) (ino : Z) : Z := compare3 (k_ino a) ino.

Definition btree_compare_extent (a : aetherfs_btree_key) (lblock : Z) : Z :=
  compare3 (k_offset a) lblock.

(** [while (low < high)], [None] when the fuel runs out. *)
Fixpoint find_slot_loop (fuel : nat) (compare : aetherfs_btree_key → Z)
    (keys : list aetherfs_btree_key) (low high : Z) : option Z :=
  if low <? high then
    match fuel with
    | O => None
    | S fuel =>
        let mid := Z.shiftr (low + high) 1 in
        if compare (key_at keys mid) <? 0
        then find_slot_loop fuel compare keys (mid + 1) high
        else find_slot_loop fuel compare keys low mid
    end
  else Some low.

Definition btree_find_slot (compare : aetherfs_btree_key → Z) (node : aetherfs_btree_node) : Z :=
  default 0 (find_slot_loop (Z.to_nat (bn_count node)) compare (bn_data node) 0 (bn_count node)).

Definition btree_find_slot_ino (node : aetherfs_btree_node) (ino : Z) : Z :=
  btree_find_slot (λ k, btree_compare_ino k ino) node.

Definition btree_find_slot_extent (node : aetherfs_btree_node) (lblock : Z) : Z :=
  btree_find_slot (λ k, btree_compare_extent k lblock) node.

(** ** Operations *)

(** [btree_alloc_node] and [aetherfs_btree_create]: a zeroed node. *)
Definition btree_alloc_node : aetherfs_btree_node :=
  BtreeNode 0 0 0 0 0 (replicate NODE_KEYS zero_key) (zeros 32).

Definition aetherfs_btree_create (node_size : Z) : result aetherfs_btree_node :=
  return_if node_size =? 0 with EINVAL ;; Ok btree_alloc_node.

(** [aetherfs_crc32(&keys[slot], sizeof(keys[slot]) - 4)]: all but the padding, the old
    checksum included. *)
Definition key_checksum (k : aetherfs_btree_key) : Z :=
  kernel_aetherfs_crc32 (slice 0 (sizeof aetherfs_btree_key - 4) (encode k)).

Definition btree_checksum_node (node : aetherfs_btree_node) (size : Z) : Z :=
  kernel_aetherfs_crc32 (slice 0 (size - 4) (encode node)).

(** [memmove] by one slot, and the new key in place of the old contents of its slot. *)
Definition insert_key (slot : Z) (fill : aetherfs_btree_key → aetherfs_btree_key)
    (node : aetherfs_btree_node) : aetherfs_btree_node :=
  let keys := memmove (slot + 1) slot (bn_count node - slot) (bn_data node) in
  let key := fill (key_at keys slot) in
  let key := Key (k_ino key) (k_offset key) (k_value key) (k_len key) (k_flags key)
    (key_checksum key) (k_pad key) in
  set_keys (<[Z.to_nat slot := key]> keys) (u32 (bn_count node + 1)) node.

Definition aetherfs_btree_insert_extent (root : option aetherfs_btree_node)
    (ino lblock pblock blocks : Z) : result unit * option aetherfs_btree_node :=
  match root with
  | None => (Err EINVAL, None)
  | Some node =>
      (Ok tt, Some
        (if btree_is_leaf node then
           if negb (btree_is_full node AETHERFS_BTREE_DEF_ORDER) then
             let slot := btree_find_slot_extent node lblock in
             let node := insert_key slot (λ old,
               Key ino lblock pblock (u32 blocks) (k_flags old) (k_checksum old) (k_pad old)) node in
             set_bn_checksum (btree_checksum_node node AETHERFS_BTREE_DEF_NODE_SIZE) node
           else node
         else node))
  end.

Definition aetherfs_btree_insert_metadata (root : option aetherfs_btree_node)
    (ino block size flags : Z) : result unit * option aetherfs_btree_node :=
  match root with
  | None => (Err EINVAL, None)
  | Some node =>
      (Ok tt, Some
        (if btree_is_leaf node then
           if negb (btree_is_full node AETHERFS_BTREE_DEF_ORDER) then
             insert_key (btree_find_slot_ino node ino) (λ old,
               Key ino 0 block size flags (k_checksum old) (k_pad old)) node
           else node
         else node))
  end.

(** [while (node)] never changes [node]: on an inner node without the key it spins, which
    is [None]. *)
Definition aetherfs_btree_lookup_extent (root : option aetherfs_btree_node) (ino lblock : Z)
    : option (result (Z * Z)) :=
  match root with
  | None => Some (Err EINVAL)
  | Some node =>
      let slot := btree_find_slot_extent node lblock in
      let key := key_at (bn_data node) slot in
      if (slot <? bn_count node) && (k_ino key =? ino) && (k_offset key =? lblock)
      then Some (Ok (k_value key, k_len key))
      else if btree_is_leaf node then Some (Err ENOENT)
      else None
  end.

Definition aetherfs_btree_lookup_metadata (root : option aetherfs_btree_node) (ino : Z)
    : option (result (Z * Z * Z)) :=
  match root with
  | None => Some (Err EINVAL)
  | Some node =>
      let slot := btree_find_slot_ino node ino in
      let key := key_at (bn_data node) slot in
      if (slot <? bn_count node) && (k_ino key =? ino)
      then Some (Ok (k_value key, k_len key, k_flags key))
      else if btree_is_leaf node then Some (Err ENOENT)
      else None
  end.

Definition aetherfs_btree_delete_extent (root : option aetherfs_btree_node) (ino lblock : Z)
    : result unit * option aetherfs_btree_node :=
  match root with
  | None => (Err ENOENT, None)
  | Some node =>
      let slot := btree_find_slot_extent node lblock in
      let key := key_at (bn_data node) slot in
      if (bn_count node <=? slot) || negb (k_ino key =? ino) || negb (k_offset key =? lblock)
      then (Err ENOENT, Some node)
      else (Ok tt, Some (set_keys
        (memmove slot (slot + 1) (bn_count node - slot - 1) (bn_data node))
        (u32 (bn_count node - 1)) node))
  end.

(** The two halves of a node, copied into fresh ones. *)
Definition btree_split_node (node : aetherfs_btree_node)
    : aetherfs_btree_node * aetherfs_btree_node :=
  let mid := bn_count node / 2 in
  let half keys count := set_keys (splice 0 keys (bn_data btree_alloc_node)) count
    (BtreeNode 0 (bn_level node) 0 0 0 (bn_data btree_alloc_node) (zeros 32)) in
  (half (slice 0 mid (bn_data node)) mid,
   half (slice mid (bn_count node - mid) (bn_data node)) (bn_count node - mid)).

(** ** Bisection *)

(** The keys in use. *)
Definition live (node : aetherfs_btree_node) : list aetherfs_btree_key :=
  take (Z.to_nat (bn_count node)) (bn_data node).

Definition sorted_by (f : aetherfs_btree_key → Z) : list aetherfs_btree_key → Prop :=
  StronglySorted (λ a b, f a ≤ f b).

Lemma sorted_by_lookup f l i j a b : sorted_by f l → (i ≤ j)%nat →
  l !! i = Some a → l !! j = Some b → f a ≤ f b.
Proof.
  intros Hs. revert i j. induction Hs as [|x l _ IH Hx]; intros i j Hij Ha Hb; [done|].
  destruct i as [|i], j as [|j]; simpl in *; simplify_eq; [lia| |lia|by eapply (IH i j); [lia|..]].
  rewrite Forall_forall in Hx. apply Hx. by eapply list_elem_of_lookup_2.
Qed.

(** The reference: where the keys below [x] end. *)
Definition lower_bound (f : aetherfs_btree_key → Z) (x : Z) (l : list aetherfs_btree_key) : nat :=
  length (filter (λ k, f k < x) l).

Lemma lower_bound_char f x l s : (s ≤ length l)%nat →
  (∀ i a, (i < s)%nat → l !! i = Some a → f a < x) →
  (∀ i a, (s ≤ i)%nat → l !! i = Some a → x ≤ f a) → s = lower_bound f x l.
Proof.
  revert s. induction l as [|k l IH]; intros s Hl H1 H2;
    [unfold lower_bound; simpl in *; lia|].
  unfold lower_bound. rewrite filter_cons. destruct s as [|s].
  - pose proof (H2 0%nat k ltac:(lia) eq_refl) as Hk. rewrite decide_False by lia.
    apply IH; [simpl in *; lia|intros; lia|]. intros i a _ Ha. by apply (H2 (S i)); [lia|].
  - pose proof (H1 0%nat k ltac:(lia) eq_refl) as Hk. rewrite decide_True by lia.
    cbn [length]. f_equal. apply IH; [simpl in *; lia| |].
    + intros i a Hi Ha. by apply (H1 (S i)); [lia|].
    + intros i a Hi Ha. by apply (H2 (S i)); [lia|].
Qed.

Lemma compare3_neg a b : (compare3 a b <? 0) = (a <? b).
Proof. unfold compare3. destruct (Z.ltb_spec a b); [done|]. by destruct (b <? a). Qed.

Lemma key_at_take keys n i k : (Z.to_nat i < n)%nat → take n keys !! Z.to_nat i = Some k →
  key_at keys i = k.
Proof. intros Hi. rewrite lookup_take_lt by done. unfold key_at. by intros ->. Qed.

(** The loop ends, and halves what is left in every round. *)
Lemma find_slot_loop_ok f x keys n fuel low high :
  (n ≤ length keys)%nat → sorted_by f (take n keys) →
  0 ≤ low ≤ high → high ≤ Z.of_nat n → (Z.to_nat (high - low) ≤ fuel)%nat →
  (∀ i a, (i < Z.to_nat low)%nat → take n keys !! i = Some a → f a < x) →
  (∀ i a, (Z.to_nat high ≤ i)%nat → take n keys !! i = Some a → x ≤ f a) →
  find_slot_loop fuel (λ k, compare3 (f k) x) keys low high =
    Some (Z.of_nat (lower_bound f x (take n keys))).
Proof.
  intros Hn Hs. revert low high. induction fuel as [|fuel IH]; intros low high Hlh Hh Hf H1 H2;
    cbn [find_slot_loop]; destruct (Z.ltb_spec low high) as [Hlt|Hge]; [lia| |..].
  1, 3: (f_equal; replace low with (Z.of_nat (Z.to_nat low)) at 1 by lia; f_equal;
    apply lower_bound_char; [rewrite length_take; lia|done|]; intros i a Hi Ha;
    apply (H2 i); [lia|done]).
  set (mid := Z.shiftr (low + high) 1).
  assert (low ≤ mid < high) as Hmid by (unfold mid; rewrite Z.shiftr_div_pow2 by lia;
    change (2 ^ 1) with 2; Z.div_mod_to_equations; lia).
  destruct (lookup_lt_is_Some_2 (take n keys) (Z.to_nat mid)) as [k Hk];
    [rewrite length_take; lia|].
  rewrite (key_at_take keys n mid k) by (lia || done). rewrite compare3_neg.
  destruct (Z.ltb_spec (f k) x) as [Hk1|Hk1]; apply IH; try (done || lia).
  - intros i a Hi Ha. pose proof (sorted_by_lookup f _ i (Z.to_nat mid) a k Hs ltac:(lia) Ha Hk). lia.
  - intros i a Hi Ha. pose proof (sorted_by_lookup f _ (Z.to_nat mid) i k a Hs ltac:(lia) Hk Ha). lia.
Qed.

(** A node within its bounds. *)
Definition node_ok (node : aetherfs_btree_node) : Prop :=
  length (bn_data node) = NODE_KEYS ∧ 0 ≤ bn_count node ≤ AETHERFS_BTREE_DEF_ORDER ∧
  bn_level node = 0.

Lemma find_slot_ok f x node : node_ok node → sorted_by f (live node) →
  find_slot_loop (Z.to_nat (bn_count node)) (λ k, compare3 (f k) x) (bn_data node) 0 (bn_count node)
    = Some (Z.of_nat (lower_bound f x (live node))).
Proof.
  intros (Hl & Hc & _) Hs. unfold live, AETHERFS_BTREE_DEF_ORDER, NODE_KEYS in *.
  apply find_slot_loop_ok; try (done || lia).
  intros i a Hi Ha. apply lookup_lt_Some in Ha. rewrite length_take in Ha. lia.
Qed.

Lemma filter_none {A} (P : A → Prop) `{∀ x, Decision (P x)} (l : list A) :
  Forall (λ x, ¬ P x) l → filter P l = [].
Proof. induction 1 as [|x l Hx _ IH]; [done|]. by rewrite filter_cons_False. Qed.

Lemma lower_bound_split f x l : sorted_by f l →
  Forall (λ k, f k < x) (take (lower_bound f x l) l) ∧
  Forall (λ k, x ≤ f k) (drop (lower_bound f x l) l).
Proof.
  induction 1 as [|k l Hs [IH1 IH2] Hk]; [by split|]. unfold lower_bound. rewrite filter_cons.
  destruct (decide (f k < x)) as [Hlt|Hge]; cbn [length take drop].
  - split; [by constructor|done].
  - assert (Forall (λ k, x ≤ f k) l) as Hall by (eapply Forall_impl; [exact Hk|]; simpl; lia).
    rewrite filter_none by (eapply Forall_impl; [exact Hall|]; simpl; lia).
    simpl. split; [done|]. constructor; [lia|done].
Qed.

(** ** Leaf operations on the keys in use *)

Lemma slice_length {A} off n (l : list A) : 0 ≤ off → 0 ≤ n → off + n ≤ Z.of_nat (length l) →
  length (slice off n l) = Z.to_nat n.
Proof. intros. unfold slice. rewrite length_take, length_drop. lia. Qed.

Lemma insert_key_live node s fill : node_ok node → bn_count node < AETHERFS_BTREE_DEF_ORDER →
  (s ≤ length (live node))%nat →
  ∃ old c, let node' := insert_key (Z.of_nat s) fill node in
  live node' = take s (live node) ++ (let k := fill old in
    Key (k_ino k) (k_offset k) (k_value k) (k_len k) (k_flags k) c (k_pad k)) :: drop s (live node) ∧
  length (bn_data node') = NODE_KEYS ∧ bn_count node' = bn_count node + 1 ∧ bn_level node' = 0.
Proof.
  intros (Hl & Hc & Hv) Hlt Hs. unfold AETHERFS_BTREE_DEF_ORDER, NODE_KEYS in *.
  unfold live in *. rewrite length_take in Hs. set (n := Z.to_nat (bn_count node)) in *.
  assert (Z.of_nat n = bn_count node) as Hn by lia.
  set (keys := memmove (Z.of_nat s + 1) (Z.of_nat s) (bn_count node - Z.of_nat s) (bn_data node)).
  assert (keys = take (S s) (bn_data node) ++ drop s (take n (bn_data node)) ++
    drop (S n) (bn_data node)) as Hkeys.
  { unfold keys, memmove, splice, slice.
    replace (Z.to_nat (Z.of_nat s + 1)) with (S s) by lia. f_equal.
    rewrite Nat2Z.id, length_take, length_drop.
    replace (Z.to_nat (bn_count node - Z.of_nat s)) with (n - s)%nat by lia.
    rewrite take_drop_commute. f_equal; f_equal; [f_equal; lia|lia]. }
  exists (key_at keys (Z.of_nat s)), (key_checksum (fill (key_at keys (Z.of_nat s)))). cbv zeta.
  unfold insert_key, set_keys. fold keys. cbn [bn_data bn_count bn_level]. rewrite Nat2Z.id.
  generalize (fill (key_at keys (Z.of_nat s))) as k. intros k.
  assert (length keys = 101%nat) as Hlk.
  { rewrite Hkeys, !length_app, !length_drop, !length_take. lia. }
  split; [|split; [by rewrite length_insert|split; [apply u32_small; unfold is_u32; lia|done]]].
  rewrite u32_small by (unfold is_u32; lia).
  replace (Z.to_nat (bn_count node + 1)) with (S n) by lia.
  assert (∃ x, take (S s) (bn_data node) = take s (bn_data node) ++ [x]) as [x Hx].
  { destruct (lookup_lt_is_Some_2 (bn_data node) s) as [x Hx]; [lia|]. exists x.
    by apply take_S_r. }
  rewrite Hkeys, Hx, <-app_assoc, insert_app_r_alt by (rewrite length_take; lia).
  rewrite length_take, Nat.min_l, Nat.sub_diag by lia. cbn [app insert list_insert].
  rewrite take_app_ge by (rewrite length_take; lia). rewrite length_take, Nat.min_l by lia.
  replace (S n - s)%nat with (S (n - s)) by lia. cbn [take].
  rewrite take_app_ge by (rewrite length_drop, length_take; lia).
  rewrite length_drop, length_take, Nat.min_l, Nat.sub_diag, take_0, app_nil_r by lia.
  rewrite take_take, Nat.min_l by lia. reflexivity.
Qed.

Lemma delete_key_live node s : node_ok node → (s < length (live node))%nat →
  let node' := set_keys (memmove (Z.of_nat s) (Z.of_nat s + 1) (bn_count node - Z.of_nat s - 1)
    (bn_data node)) (u32 (bn_count node - 1)) node in
  live node' = take s (live node) ++ drop (S s) (live node) ∧ node_ok node'.
Proof.
  intros (Hl & Hc & Hv) Hs. cbv zeta. unfold node_ok, AETHERFS_BTREE_DEF_ORDER, NODE_KEYS in *.
  unfold live in *. rewrite length_take in Hs. set (n := Z.to_nat (bn_count node)) in *.
  unfold set_keys. cbn [bn_data bn_count bn_level].
  rewrite u32_small by (unfold is_u32; lia). unfold memmove, splice, slice.
  rewrite Nat2Z.id, !length_app, !length_take, !length_drop.
  replace (Z.to_nat (Z.of_nat s + 1)) with (S s) by lia.
  replace (Z.to_nat (bn_count node - Z.of_nat s - 1)) with (n - S s)%nat by lia.
  replace (Z.to_nat (bn_count node - 1)) with (n - 1)%nat by lia.
  split; [|repeat split; lia].
  assert (length (take s (bn_data node)) = s) as El by (rewrite length_take; lia).
  rewrite take_app_ge, El by lia. f_equal; [rewrite take_take; f_equal; lia|].
  replace (n - 1 - s)%nat with (n - S s)%nat by lia.
  rewrite take_app_le by (rewrite length_take, length_drop; lia).
  rewrite take_take, Nat.min_id, take_drop_commute. do 2 f_equal. lia.
Qed.

(** ** What a leaf promises

    An inode's extents are a stack per offset: an insertion pushes, a lookup sees the
    top, a deletion pops. *)

(** The extents recorded at [lblock], the one a lookup sees first. *)
Definition extents_of (node : aetherfs_btree_node) (lblock : Z) : list (Z * Z) :=
  (λ k, (k_value k, k_len k)) <$> filter (λ k, k_offset k = lblock) (live node).

(** A leaf that holds the extents of one inode. *)
Definition tree_ok (ino : Z) (node : aetherfs_btree_node) : Prop :=
  node_ok node ∧ sorted_by k_offset (live node) ∧ Forall (λ k, k_ino k = ino) (live node).

Lemma sorted_by_insert f l k n : sorted_by f l → n = lower_bound f (f k) l →
  sorted_by f (take n l ++ k :: drop n l).
Proof.
  intros Hs ->. destruct (lower_bound_split f (f k) l Hs) as [H1 H2].
  rewrite <-(take_drop (lower_bound f (f k) l) l) in Hs. revert Hs H1.
  generalize (take (lower_bound f (f k) l) l) as a. intros a Hs H1.
  induction a as [|x a IH]; cbn [app] in *.
  - constructor; [done|]. eapply Forall_impl; [exact H2|]. done.
  - apply StronglySorted_inv in Hs as [Hs Hx]. apply Forall_cons in H1 as [Hxk H1].
    constructor; [by apply IH|]. apply Forall_app in Hx as [Hx1 Hx2]. apply Forall_app.
    split; [done|]. constructor; [lia|done].
Qed.

Lemma sorted_by_remove f a (k : aetherfs_btree_key) b :
  sorted_by f (a ++ k :: b) → sorted_by f (a ++ b).
Proof.
  induction a as [|x a IH]; cbn [app]; intros [Hs Hx]%StronglySorted_inv; [done|].
  constructor; [by apply IH|]. apply Forall_app in Hx as [H1 [_ H2]%Forall_cons].
  by apply Forall_app.
Qed.

Section leaf.
Context (ino : Z) (node : aetherfs_btree_node) (Hok : tree_ok ino node).

Lemma slot_extent lblock :
  btree_find_slot_extent node lblock = Z.of_nat (lower_bound k_offset lblock (live node)).
Proof.
  destruct Hok as (Hn & Hs & _). unfold btree_find_slot_extent, btree_find_slot, btree_compare_extent.
  by rewrite (find_slot_ok k_offset lblock node Hn Hs).
Qed.

Lemma live_len : length (live node) = Z.to_nat (bn_count node).
Proof.
  destruct Hok as ((Hl & Hc & _) & _ & _). unfold live, NODE_KEYS, AETHERFS_BTREE_DEF_ORDER in *.
  rewrite length_take. lia.
Qed.

(** The key at the slot is the first of its offset, if there is one. *)
Lemma slot_key lblock : let s := lower_bound k_offset lblock (live node) in
  match drop s (live node) with
  | k :: rest => (s < length (live node))%nat ∧ key_at (bn_data node) (Z.of_nat s) = k ∧
      k_ino k = ino ∧
      if decide (k_offset k = lblock)
      then extents_of node lblock =
        (k_value k, k_len k) :: ((λ k, (k_value k, k_len k)) <$> filter (λ k, k_offset k = lblock) rest)
      else extents_of node lblock = []
  | [] => s = length (live node) ∧ extents_of node lblock = []
  end.
Proof.
  intros s. destruct Hok as (Hn & Hs & Hi).
  destruct (lower_bound_split k_offset lblock _ Hs) as [H1 H2]. fold s in H1, H2.
  assert (s ≤ length (live node))%nat as Hle by apply length_filter.
  assert (extents_of node lblock =
    (λ k, (k_value k, k_len k)) <$> filter (λ k, k_offset k = lblock) (drop s (live node))) as Hx.
  { unfold extents_of. rewrite <-(take_drop s (live node)) at 1. rewrite filter_app.
    rewrite (filter_none _ (take s (live node))); [done|].
    eapply Forall_impl; [exact H1|]. simpl. lia. }
  rewrite Hx. destruct (drop s (live node)) as [|k rest] eqn:Ed.
  - split; [|done]. apply (f_equal length) in Ed. rewrite length_drop in Ed. simpl in Ed. lia.
  - assert (live node !! s = Some k) as Hk.
    { rewrite <-(take_drop s (live node)), Ed, lookup_app_r by (rewrite length_take; lia).
      by rewrite length_take, Nat.min_l, Nat.sub_diag by lia. }
    pose proof (lookup_lt_Some _ _ _ Hk) as Hlt. split; [done|]. split.
    { apply (key_at_take _ (Z.to_nat (bn_count node))); rewrite Nat2Z.id; [|done].
      unfold live in Hlt. rewrite length_take in Hlt. lia. }
    split; [by eapply (Forall_lookup_1 _ _ _ _ Hi)|].
    apply Forall_cons in H2 as [Hge H2]. rewrite filter_cons.
    destruct (decide (k_offset k = lblock)) as [He|Hne]; [done|].
    rewrite filter_none; [done|]. rewrite <-(take_drop s (live node)), Ed in Hs.
    apply StronglySorted_app_1_r in Hs. apply StronglySorted_inv in Hs as [_ Hs].
    eapply Forall_impl; [exact Hs|]. simpl. lia.
Qed.
End leaf.

Section leaf_ops.
Context (ino : Z) (node : aetherfs_btree_node) (Hok : tree_ok ino node).

Lemma lookup_extent_top lblock :
  aetherfs_btree_lookup_extent (Some node) ino lblock =
    Some (match extents_of node lblock with [] => Err ENOENT | v :: _ => Ok v end).
Proof.
  pose proof (slot_key ino node Hok lblock) as H. unfold aetherfs_btree_lookup_extent, btree_is_leaf.
  rewrite (slot_extent ino node Hok), (proj2 (proj2 (proj1 Hok))). cbv zeta in *.
  pose proof (live_len ino node Hok) as Hl. destruct Hok as ((_ & Hc & _) & _).
  destruct (drop _ (live node)) as [|k rest].
  - destruct H as [Hs ->]. rewrite (proj2 (Z.ltb_ge _ _)) by lia. done.
  - destruct H as (Hs & -> & -> & H). rewrite (proj2 (Z.ltb_lt _ _)), Z.eqb_refl by lia.
    destruct (decide (k_offset k = lblock)) as [He|Hne]; rewrite H.
    + by rewrite He, Z.eqb_refl.
    + by rewrite (proj2 (Z.eqb_neq _ _)).
Qed.

Lemma insert_extent_push lblock pblock blocks : bn_count node < AETHERFS_BTREE_DEF_ORDER →
  ∃ node', aetherfs_btree_insert_extent (Some node) ino lblock pblock blocks = (Ok tt, Some node') ∧
    tree_ok ino node' ∧ bn_count node' = bn_count node + 1 ∧
    ∀ b, extents_of node' b =
      if decide (b = lblock) then (pblock, u32 blocks) :: extents_of node lblock
      else extents_of node b.
Proof.
  intros Hlt. unfold aetherfs_btree_insert_extent, btree_is_leaf, btree_is_full.
  rewrite (slot_extent ino node Hok), (proj2 (proj2 (proj1 Hok))), (proj2 (Z.leb_gt _ _) Hlt).
  cbn [Z.eqb negb]. destruct Hok as (Hn & Hs & Hi). set (s := lower_bound k_offset lblock (live node)).
  assert (s ≤ length (live node))%nat as Hle by apply length_filter.
  match goal with |- context [insert_key (Z.of_nat s) ?f node] =>
    destruct (insert_key_live node s f Hn Hlt Hle) as (old & c & Hlive & Hl & Hcnt & Hv) end.
  cbv beta zeta in Hlive. cbn [k_ino k_offset k_value k_len k_flags k_pad] in Hlive.
  eexists. split; [reflexivity|].
  match goal with |- tree_ok _ (set_bn_checksum ?c ?n) ∧ _ => set (n' := n) in * end.
  change (tree_ok ino n' ∧ bn_count n' = bn_count node + 1 ∧ ∀ b, extents_of n' b =
    if decide (b = lblock) then (pblock, u32 blocks) :: extents_of node lblock
    else extents_of node b).
  destruct (lower_bound_split k_offset lblock _ Hs) as [H1 H2]. fold s in H1, H2.
  split; [|split; [done|]].
  - split; [|split].
    + destruct Hn as (_ & Hcn & _). unfold node_ok, AETHERFS_BTREE_DEF_ORDER in *.
      split; [done|]. split; [lia|done].
    + rewrite Hlive. by apply sorted_by_insert.
    + rewrite Hlive. apply Forall_app. split; [by apply Forall_take|].
      constructor; [done|by apply Forall_drop].
  - intros b. unfold extents_of. rewrite Hlive, filter_app, filter_cons. cbn [k_offset].
    assert (∀ b, filter (λ k, k_offset k = b) (live node) =
      filter (λ k, k_offset k = b) (take s (live node)) ++
      filter (λ k, k_offset k = b) (drop s (live node))) as Hf
      by (intros; by rewrite <-filter_app, take_drop).
    rewrite !Hf. destruct (decide (b = lblock)) as [->|Hne].
    + rewrite decide_True by done. rewrite (filter_none _ (take s (live node))); [done|].
      eapply Forall_impl; [exact H1|]. simpl. lia.
    + rewrite decide_False by congruence. done.
Qed.

Lemma delete_extent_pop lblock :
  match extents_of node lblock with
  | [] => aetherfs_btree_delete_extent (Some node) ino lblock = (Err ENOENT, Some node)
  | _ :: rest => ∃ node', aetherfs_btree_delete_extent (Some node) ino lblock = (Ok tt, Some node') ∧
      tree_ok ino node' ∧
      ∀ b, extents_of node' b = if decide (b = lblock) then rest else extents_of node b
  end.
Proof.
  pose proof (slot_key ino node Hok lblock) as H. unfold aetherfs_btree_delete_extent.
  rewrite (slot_extent ino node Hok). cbv zeta in *. pose proof (live_len ino node Hok) as Hl.
  set (s := lower_bound k_offset lblock (live node)) in *.
  destruct (drop s (live node)) as [|k rest] eqn:Ed.
  { destruct H as [Hs ->]. rewrite (proj2 (Z.leb_le _ _)); [done|].
    destruct Hok as ((_ & Hc & _) & _). lia. }
  destruct H as (Hs & -> & -> & H). rewrite (proj2 (Z.leb_gt _ _)), Z.eqb_refl by lia.
  cbn [negb orb]. destruct (decide (k_offset k = lblock)) as [He|Hne]; rewrite H.
  2: { by rewrite (proj2 (Z.eqb_neq _ _)). }
  rewrite He, Z.eqb_refl. cbn [negb]. eexists. split; [reflexivity|].
  destruct Hok as (Hn & Hsort & Hi). destruct (delete_key_live node s Hn Hs) as [Hlive Hn'].
  assert (drop (S s) (live node) = rest) as Er.
  { replace (S s) with (s + 1)%nat by lia. by rewrite <-drop_drop, Ed. }
  assert (live node = take s (live node) ++ k :: rest) as Hsplit by by rewrite <-Ed, take_drop.
  cbv zeta in Hlive, Hn'. rewrite Er in Hlive.
  match goal with |- tree_ok _ ?n ∧ _ => set (n' := n) in * end.
  split.
  - split; [done|]. rewrite Hlive. rewrite Hsplit in Hsort, Hi. split.
    + by eapply sorted_by_remove.
    + apply Forall_app in Hi as [Hi1 [_ Hi2]%Forall_cons]. by apply Forall_app.
  - intros b. unfold extents_of in *. rewrite Hlive, filter_app.
    destruct (decide (b = lblock)) as [->|Hb].
    + rewrite (filter_none _ (take s (live node))); [done|].
      destruct (lower_bound_split k_offset lblock _ Hsort) as [H1 _]. fold s in H1.
      eapply Forall_impl; [exact H1|]. simpl. lia.
    + rewrite Hsplit at 2. by rewrite filter_app, filter_cons, decide_False by congruence.
Qed.

Lemma delete_extent_spec lblock :
  ∃ node', aetherfs_btree_delete_extent (Some node) ino lblock =
      (match extents_of node lblock with [] => Err ENOENT | _ :: _ => Ok tt end, Some node') ∧
    tree_ok ino node' ∧
    ∀ b, extents_of node' b =
      if decide (b = lblock) then tail (extents_of node lblock) else extents_of node b.
Proof.
  pose proof (delete_extent_pop lblock) as H.
  destruct (extents_of node lblock) as [|v rest] eqn:E; [|exact H].
  exists node. split; [done|]. split; [done|]. intros b.
  destruct (decide (b = lblock)) as [->|]; [exact E|done].
Qed.
End leaf_ops.

(** ** The interface

    What the tree promises to the code that keeps extents in it. *)

Class ExtentIndex (T : Type) := {
  xi_insert : T → Z → Z → Z → Z → result unit * T;
  xi_lookup : T → Z → Z → option (result (Z * Z));
  xi_delete : T → Z → Z → result unit * T;
  xi_ok : Z → T → Prop;
  xi_extents : T → Z → list (Z * Z);
  xi_lookup_spec ino t b : xi_ok ino t →
    xi_lookup t ino b = Some (match xi_extents t b with [] => Err ENOENT | v :: _ => Ok v end);
  xi_insert_spec ino t b p n : xi_ok ino t →
    ∃ t', xi_insert t ino b p n = (Ok tt, t') ∧ xi_ok ino t' ∧
      ((∀ b', xi_extents t' b' =
         if decide (b' = b) then (p, u32 n) :: xi_extents t b else xi_extents t b') ∨ t' = t);
  xi_delete_spec ino t b : xi_ok ino t →
    ∃ t', xi_ok ino t' ∧
      xi_delete t ino b = (match xi_extents t b with [] => Err ENOENT | _ :: _ => Ok tt end, t') ∧
      ∀ b', xi_extents t' b' = if decide (b' = b) then tail (xi_extents t b) else xi_extents t b';
}.

Definition root_ok (ino : Z) (root : option aetherfs_btree_node) : Prop :=
  match root with Some node => tree_ok ino node | None => False end.

Definition root_extents (root : option aetherfs_btree_node) (b : Z) : list (Z * Z) :=
  match root with Some node => extents_of node b | None => [] end.

#[export] Instance btree_extent_index : ExtentIndex (option aetherfs_btree_node).
Proof.
  refine {| xi_insert := aetherfs_btree_insert_extent; xi_lookup := aetherfs_btree_lookup_extent;
    xi_delete := aetherfs_btree_delete_extent; xi_ok := root_ok; xi_extents := root_extents |}.
  - intros ino [node|] b Hok; [|done]. by apply lookup_extent_top.
  - intros ino [node|] b p n Hok; [|done].
    destruct (decide (bn_count node < AETHERFS_BTREE_DEF_ORDER)) as [Hlt|Hge].
    + destruct (insert_extent_push ino node Hok b p n Hlt) as (node' & E & Hok' & _ & Hx).
      exists (Some node'). split; [done|]. split; [done|by left].
    + exists (Some node). split; [|split; [done|by right]].
      unfold aetherfs_btree_insert_extent, btree_is_full. rewrite (proj2 (Z.leb_le _ _)) by lia.
      by destruct (btree_is_leaf node).
  - intros ino [node|] b Hok; [|done].
    destruct (delete_extent_spec ino node Hok b) as (node' & H & Hok' & Hx).
    exists (Some node'). split; [done|]. by split.
Defined.

(** A new tree is empty. *)
Lemma create_ok ino node : node = btree_alloc_node → tree_ok ino node ∧ ∀ b, extents_of node b = [].
Proof.
  intros ->. split; [|done]. split; [|split; constructor].
  split; [reflexivity|]. by split.
Qed.

(** ** Properties *)

(** C14: on the extents of one inode, a leaf implements a stack per offset: an insertion
    that finds room pushes the extent at its offset and leaves every other offset alone,
    a lookup returns the last extent inserted and not yet deleted there, or [-ENOENT],
    a deletion removes exactly that one; and the keys stay sorted. *)
Theorem extent_tree_refines_stacks ino node lblock : tree_ok ino node →
  aetherfs_btree_lookup_extent (Some node) ino lblock =
    Some (match extents_of node lblock with [] => Err ENOENT | v :: _ => Ok v end) ∧
  (∀ pblock blocks, bn_count node < AETHERFS_BTREE_DEF_ORDER → ∃ node',
    aetherfs_btree_insert_extent (Some node) ino lblock pblock blocks = (Ok tt, Some node') ∧
    tree_ok ino node' ∧
    ∀ b, extents_of node' b =
      if decide (b = lblock) then (pblock, u32 blocks) :: extents_of node lblock
      else extents_of node b) ∧
  (∃ node', aetherfs_btree_delete_extent (Some node) ino lblock =
      (match extents_of node lblock with [] => Err ENOENT | _ :: _ => Ok tt end, Some node') ∧
    tree_ok ino node' ∧
    ∀ b, extents_of node' b =
      if decide (b = lblock) then tail (extents_of node lblock) else extents_of node b).
Proof.
  intros Hok. split; [by apply lookup_extent_top|]. split.
  - intros pblock blocks Hlt.
    destruct (insert_extent_push ino node Hok lblock pblock blocks Hlt) as (node' & H1 & H2 & _ & H3).
    by exists node'.
  - exact (delete_extent_spec ino node Hok lblock).
Qed.

(** The bisection of [btree_find_slot_extent] and [btree_find_slot_ino] ends within as
    many rounds as there are keys and, on sorted keys, finds the first slot whose key is
    not below the one sought, where a linear scan would. *)
Theorem find_slot_is_lower_bound node x : node_ok node →
  (sorted_by k_offset (live node) →
    find_slot_loop (Z.to_nat (bn_count node)) (λ k, btree_compare_extent k x) (bn_data node)
      0 (bn_count node) = Some (btree_find_slot_extent node x) ∧
    btree_find_slot_extent node x = Z.of_nat (lower_bound k_offset x (live node))) ∧
  (sorted_by k_ino (live node) →
    find_slot_loop (Z.to_nat (bn_count node)) (λ k, btree_compare_ino k x) (bn_data node)
      0 (bn_count node) = Some (btree_find_slot_ino node x) ∧
    btree_find_slot_ino node x = Z.of_nat (lower_bound k_ino x (live node))).
Proof.
  intros Hn. unfold btree_find_slot_extent, btree_find_slot_ino, btree_find_slot,
    btree_compare_extent, btree_compare_ino.
  split; intros Hs; by rewrite (find_slot_ok _ x node Hn Hs).
Qed.

(** An insertion into a full leaf is dropped and reported as a success: nothing splits
    the node, the tree is unchanged, and a lookup of the new extent does not find it. *)
Theorem full_leaf_drops_insertion ino node lblock pblock blocks :
  bn_count node = AETHERFS_BTREE_DEF_ORDER →
  aetherfs_btree_insert_extent (Some node) ino lblock pblock blocks = (Ok tt, Some node).
Proof.
  intros Hc. unfold aetherfs_btree_insert_extent, btree_is_full. rewrite Hc, Z.leb_refl.
  by destruct (btree_is_leaf node).
Qed.

(** The keys of the two halves are the keys of the node. *)
Lemma split_keeps_keys node : node_ok node →
  let '(l, r) := btree_split_node node in live l ++ live r = live node.
Proof.
  intros (Hl & Hc & _). unfold btree_split_node, live, set_keys. cbn [bn_data bn_count].
  unfold NODE_KEYS, AETHERFS_BTREE_DEF_ORDER in *.
  set (c := bn_count node) in *. assert (0 ≤ c / 2 ≤ c) by (Z.div_mod_to_equations; lia).
  assert (∀ (keys : list aetherfs_btree_key) n, length keys = n → (n ≤ 101)%nat →
    take n (splice 0 keys (replicate 101 zero_key)) = keys) as Hsp.
  { intros keys n <- _. unfold splice. change (Z.to_nat 0) with 0%nat. rewrite take_0, app_nil_l.
    apply take_app_length. }
  rewrite !Hsp; try (rewrite slice_length; lia || lia); try lia.
  unfold slice. change (Z.to_nat 0) with 0%nat. rewrite drop_0.
  rewrite <-(take_drop (Z.to_nat (c / 2)) (take (Z.to_nat c) (bn_data node))).
  rewrite take_take, take_drop_commute. f_equal; [f_equal; lia|]. f_equal. f_equal. lia.
Qed.

(** ** Witnesses *)

Definition sample_leaf : aetherfs_btree_node :=
  let root := (aetherfs_btree_insert_extent (Some btree_alloc_node) 0 9 100 8).2 in
  default btree_alloc_node (aetherfs_btree_insert_extent root 0 5 200 4).2.

Lemma extent_tree_refines_stacks_witness :
  aetherfs_btree_lookup_extent (Some btree_alloc_node) 0 5 = Some (Err ENOENT) ∧
  ∃ node, aetherfs_btree_insert_extent (Some btree_alloc_node) 0 5 100 8 = (Ok tt, Some node) ∧
    extents_of node 5 = [(100, 8)] ∧ extents_of node 6 = [].
Proof.
  destruct (extent_tree_refines_stacks 0 btree_alloc_node 5) as (H1 & H2 & _).
  - exact (proj1 (create_ok 0 _ eq_refl)).
  - split; [exact H1|]. destruct (H2 100 8) as (node & E & _ & Hx); [vm_compute; reflexivity|].
    exists node. split; [exact E|]. split; [exact (Hx 5)|exact (Hx 6)].
Defined.

Lemma find_slot_is_lower_bound_witness :
  btree_find_slot_extent sample_leaf 7 = Z.of_nat (lower_bound k_offset 7 (live sample_leaf)) ∧
  lower_bound k_offset 7 (live sample_leaf) = 1%nat.
Proof.
  split; [|vm_compute; reflexivity]. apply (find_slot_is_lower_bound sample_leaf 7).
  - vm_compute. repeat split; discriminate.
  - vm_compute. repeat constructor; discriminate.
Defined.

Lemma full_leaf_drops_insertion_witness :
  let node := set_keys (bn_data btree_alloc_node) 32 btree_alloc_node in
  aetherfs_btree_insert_extent (Some node) 0 5 100 8 = (Ok tt, Some node).
Proof. intros node. apply (full_leaf_drops_insertion 0 node 5 100 8). reflexivity. Defined.

(** An extent of another inode at the same offset hides the first one. *)
Example other_inode_hides_extent :
  let root := (aetherfs_btree_insert_extent (Some btree_alloc_node) 1 5 100 8).2 in
  let root := (aetherfs_btree_insert_extent root 2 5 200 8).2 in
  aetherfs_btree_lookup_extent root 2 5 = Some (Ok (200, 8)) ∧
  aetherfs_btree_lookup_extent root 1 5 = Some (Err ENOENT).
Proof. vm_compute. split; reflexivity. Qed.
