(* ===== verification/Balloc.v ===== *)
(** * The kernel's block allocator

    [kernel/balloc.c]: one bitmap per allocation group, the round over the groups that
    takes blocks from the first group with room, and the counters.  The bitmap routines
    of the Linux kernel are list operations; a write outside a bitmap is undefined there
    and [Err EFAULT] or [None] here. *)

From S2P Require Import Prelude Codec Crc Format Btree.

Definition kernel_AETHERFS_BLOCKS_PER_GROUP : Z := 2097152.
Definition kernel_AETHERFS_DATA_START_BLOCK : Z := 7.
Definition kernel_AETHERFS_BITMAP_BITS : Z := 32768.

(** ** Bitmaps *)

(** [find_next_zero_bit(bitmap, size, offset)]: [size] if there is none. *)
Fixpoint first_zero (bits : list bool) (pos : Z) : Z :=
  match bits with
  | [] => pos
  | b :: bits => if b then first_zero bits (pos + 1) else pos
  end.

Definition find_next_zero_bit (bitmap : list bool) (size offset : Z) : Z :=
  if size <=? offset then size else first_zero (slice offset (size - offset) bitmap) offset.

Definition find_next_zero_bit_wrap (bitmap : list bool) (size offset : Z) : Z :=
  let pos := find_next_zero_bit bitmap size offset in
  if size <=? pos then find_next_zero_bit bitmap size 0 else pos.

(** [bitmap_set] and [bitmap_clear]. *)
Definition bitmap_fill (v : bool) (start n : Z) (bitmap : list bool) : option (list bool) :=
  if start + n <=? len bitmap
  then Some (splice start (replicate (Z.to_nat n) v) bitmap) else None.

(** ** Allocation groups *)

(** [struct aetherfs_ag_bitmap] without its lock. *)
Record aetherfs_ag_bitmap := AgBitmap {
  ab_bitmap : list bool;
  ab_bits : Z;
  ab_free : Z;
  ab_reserved : Z;
}.

Definition ag_bitmap_init (bits : Z) : result aetherfs_ag_bitmap :=
  return_if bits =? 0 with EINVAL ;;
  Ok (AgBitmap (replicate (Z.to_nat bits) false) bits bits 0).

Definition ag_bitmap_alloc (agb : aetherfs_ag_bitmap) (count : Z)
    : result Z * aetherfs_ag_bitmap :=
  if count =? 0 then (Err EINVAL, agb)
  else if ab_free agb <? count then (Err ENOSPC, agb)
  else
    let pos := find_next_zero_bit_wrap (ab_bitmap agb) (ab_bits agb) 0 in
    if ab_bits agb <=? pos then (Err ENOSPC, agb)
    else match bitmap_fill true pos count (ab_bitmap agb) with
         | None => (Err EFAULT, agb)
         | Some bitmap =>
             (Ok pos, AgBitmap bitmap (ab_bits agb) (u32 (ab_free agb - count)) (ab_reserved agb))
         end.

Definition ag_bitmap_free (agb : aetherfs_ag_bitmap) (block count : Z)
    : option aetherfs_ag_bitmap :=
  if (block =? 0) || (count =? 0) then Some agb
  else
    bitmap ← bitmap_fill false block count (ab_bitmap agb);
    Some (AgBitmap bitmap (ab_bits agb) (u32 (ab_free agb + count)) (ab_reserved agb)).

(** ** The allocator *)

Inductive aetherfs_allocation_class := AETHERFS_ALLOC_HOT | AETHERFS_ALLOC_WARM | AETHERFS_ALLOC_COLD.

(** [struct aetherfs_alloc_class] *)
Record aetherfs_alloc_class := AllocClass {
  ac_class : aetherfs_allocation_class;
  ac_preferred_ag : Z;
  ac_min_size : Z;
  ac_max_size : Z;
  ac_device_hint : Z;
}.

Definition free_space_init_class (class : aetherfs_allocation_class) : aetherfs_alloc_class :=
  match class with
  | AETHERFS_ALLOC_HOT => AllocClass class 0 1 16 0
  | AETHERFS_ALLOC_WARM => AllocClass class 0 16 128 0
  | AETHERFS_ALLOC_COLD => AllocClass class 0 128 1024 0
  end.

(** [struct aetherfs_free_space_info] *)
Record aetherfs_free_space_info := FreeSpaceInfo {
  fs_ag_bitmaps : list aetherfs_ag_bitmap;
  fs_ag_count : Z;
  fs_classes : list aetherfs_alloc_class;
}.

(** The fields of [struct aetherfs_sb_info] the allocator uses, and the block count of the
    superblock behind it. *)
Record aetherfs_sb_info := SbInfo {
  s_private : option aetherfs_free_space_info;
  info_free_blocks : Z;
  s_next_ino : Z;
  s_dirty : bool;
  es_blocks_count : Z;
}.

Definition set_free_space (fsi : option aetherfs_free_space_info) (free : Z)
    (info : aetherfs_sb_info) : aetherfs_sb_info :=
  SbInfo fsi free (s_next_ino info) (s_dirty info) (es_blocks_count info).

Definition aetherfs_free_space_init (info : aetherfs_sb_info) (ag_count : Z)
    : result aetherfs_sb_info :=
  agb ← ag_bitmap_init kernel_AETHERFS_BITMAP_BITS;
  Ok (set_free_space (Some (FreeSpaceInfo (replicate (Z.to_nat ag_count) agb) ag_count
    (map free_space_init_class [AETHERFS_ALLOC_HOT; AETHERFS_ALLOC_WARM; AETHERFS_ALLOC_COLD])))
    (info_free_blocks info) info).

Definition aetherfs_free_space_destroy (info : aetherfs_sb_info) : aetherfs_sb_info :=
  set_free_space None (info_free_blocks info) info.

Definition no_group : aetherfs_ag_bitmap := AgBitmap [] 0 0 0.

(** [fsi->fs_ag_bitmaps[ag]] *)
Definition group_at (fsi : aetherfs_free_space_info) (ag : Z) : aetherfs_ag_bitmap :=
  default no_group (fs_ag_bitmaps fsi !! Z.to_nat ag).

Definition set_group (ag : Z) (agb : aetherfs_ag_bitmap) (fsi : aetherfs_free_space_info)
    : aetherfs_free_space_info :=
  FreeSpaceInfo (<[Z.to_nat ag := agb]> (fs_ag_bitmaps fsi)) (fs_ag_count fsi) (fs_classes fsi).

(** The loop over the groups: the block found, and the groups.  [EFAULT] stops the
    model; every other error moves on to the next group. *)
Fixpoint alloc_round (ags : list Z) (fsi : aetherfs_free_space_info) (ag_hint count : Z)
    : result (option Z) * aetherfs_free_space_info :=
  match ags with
  | [] => (Ok None, fsi)
  | ag :: rest =>
      let try_ag := u32 (ag_hint + ag) mod fs_ag_count fsi in
      match ag_bitmap_alloc (group_at fsi try_ag) count with
      | (Ok block, agb) =>
          (Ok (Some (u64 (u64 (block + u32 (try_ag * kernel_AETHERFS_BLOCKS_PER_GROUP))
                          + kernel_AETHERFS_DATA_START_BLOCK))), set_group try_ag agb fsi)
      | (Err EFAULT, _) => (Err EFAULT, fsi)
      | (Err _, _) => alloc_round rest fsi ag_hint count
      end
  end.

(** The block returned, 0 for none.  The allocation class is looked up and not used. *)
Definition aetherfs_alloc_blocks_extended (info : aetherfs_sb_info) (count ag_hint : Z)
    : result Z * aetherfs_sb_info :=
  if count =? 0 then (Ok 0, info)
  else match s_private info with
  | None => (Ok 0, info)
  | Some fsi =>
      let ag_hint := if fs_ag_count fsi <=? ag_hint then 0 else ag_hint in
      match alloc_round (seqZ 0 (fs_ag_count fsi)) fsi ag_hint count with
      | (Err e, _) => (Err e, info)
      | (Ok None, _) => (Ok 0, info)
      | (Ok (Some block), fsi) =>
          (Ok block, set_free_space (Some fsi) (u64 (info_free_blocks info - count)) info)
      end
  end.

Definition aetherfs_free_blocks_extended (info : aetherfs_sb_info) (start count : Z)
    : option aetherfs_sb_info :=
  if (start =? 0) || (count =? 0) then Some info
  else match s_private info with
  | None => Some info
  | Some fsi =>
      let ag_offset := u64 (start - kernel_AETHERFS_DATA_START_BLOCK) in
      if u32 (fs_ag_count fsi * kernel_AETHERFS_BLOCKS_PER_GROUP) <=? ag_offset then Some info
      else
        let ag := u32 (ag_offset / kernel_AETHERFS_BLOCKS_PER_GROUP) in
        let block_in_ag := ag_offset mod kernel_AETHERFS_BLOCKS_PER_GROUP in
        if ag <? fs_ag_count fsi then
          agb ← ag_bitmap_free (group_at fsi ag) block_in_ag count;
          Some (set_free_space (Some (set_group ag agb fsi))
            (u64 (info_free_blocks info + count)) info)
        else Some info
  end.

(** ** The simple allocator

    [aetherfs_alloc_blocks] and [aetherfs_free_blocks], which the rest of the module
    calls, keep a counter and no record of what is in use. *)

Definition aetherfs_alloc_blocks (info : aetherfs_sb_info) (len : Z) : Z * aetherfs_sb_info :=
  if info_free_blocks info =? 0 then (0, info)
  else
    let block := u64 (s_next_ino info mod kernel_AETHERFS_BLOCKS_PER_GROUP
                      + kernel_AETHERFS_DATA_START_BLOCK) in
    let block := if es_blocks_count info <=? block then kernel_AETHERFS_DATA_START_BLOCK else block in
    (block, SbInfo (s_private info) (u64 (info_free_blocks info - len)) (u64 (s_next_ino info + 1))
       true (es_blocks_count info)).

Definition aetherfs_free_blocks (info : aetherfs_sb_info) (start len : Z) : aetherfs_sb_info :=
  if (start =? 0) || (len =? 0) then info
  else SbInfo (s_private info) (u64 (info_free_blocks info + len)) (s_next_ino info) true
    (es_blocks_count info).

(** ** The free extent tree

    Clients of the extent tree, with inode number 0. *)

Section free_tree.
Context {T : Type} `{ExtentIndex T}.

Definition free_tree_insert_extent (tree : T) (start blocks : Z) : result unit * T :=
  if (start =? 0) || (blocks =? 0) then (Err EINVAL, tree)
  else xi_insert tree 0 start start blocks.

Definition free_tree_remove_extent (tree : T) (start : Z) : result unit * T :=
  if start =? 0 then (Err EINVAL, tree) else xi_delete tree 0 start.

Definition free_tree_find_contiguous (tree : T) (wanted : Z) : option (result Z) :=
  r ← xi_lookup tree 0 0;
  Some (match r with
        | Err e => Err e
        | Ok (pblock, blocks) => if wanted <=? blocks then Ok pblock else Err ENOSPC
        end).
End free_tree.

(** ** Bits *)

Lemma first_zero_spec bits pos : ∃ k : nat, first_zero bits pos = pos + Z.of_nat k ∧
  (k ≤ length bits)%nat ∧ Forall (eq true) (take k bits) ∧
  (bits !! k = Some false ∨ k = length bits).
Proof.
  revert pos. induction bits as [|[] bits IH]; intros pos; cbn [first_zero].
  - exists 0%nat. repeat split; [lia|done|constructor|by right].
  - destruct (IH (pos + 1)) as (k & -> & Hk & Ht & Hc). exists (S k). cbn [length take].
    split; [lia|]. split; [lia|]. split; [by constructor|]. destruct Hc; [by left|right; lia].
  - exists 0%nat. repeat split; [lia|lia|constructor|by left].
Qed.

Definition count_free (bits : list bool) : Z := len (filter (λ b, b = false) bits).

Lemma count_free_app a b : count_free (a ++ b) = count_free a + count_free b.
Proof. unfold count_free. by rewrite filter_app, len_app. Qed.

Lemma count_free_insert (bits : list bool) (i : nat) (b v : bool) : bits !! i = Some b →
  count_free (<[i := v]> bits) = count_free bits + (if b then 0 else -1) + (if v then 0 else 1).
Proof.
  intros Hi. rewrite <-(take_drop_middle bits i b Hi) at 2.
  rewrite insert_take_drop by by eapply lookup_lt_Some.
  rewrite !count_free_app. unfold count_free, len. rewrite !filter_cons.
  destruct b, v; simpl; lia.
Qed.

Lemma count_free_all bits : Forall (eq true) bits → count_free bits = 0.
Proof. unfold count_free. induction 1 as [|b bits <- _ IH]; [done|]. by rewrite filter_cons. Qed.

Lemma count_free_pos bits : count_free bits ≤ 0 → Forall (eq true) bits.
Proof.
  induction bits as [|b bits IH]; [done|]. unfold count_free in *. rewrite filter_cons.
  destruct b; simpl; intros H; [constructor; [done|by apply IH]|]. unfold len in *. simpl in *. lia.
Qed.

Lemma count_free_new n : count_free (replicate n false) = Z.of_nat n.
Proof. unfold count_free, len. induction n as [|n IH]; [done|].
  cbn [replicate]. rewrite filter_cons_True by done. cbn [length]. lia.
Qed.

Lemma splice_one {A} (i : Z) (v : A) l : 0 ≤ i < len l → splice i [v] l = <[Z.to_nat i := v]> l.
Proof.
  intros Hi. unfold splice, len in *. rewrite insert_take_drop by lia. cbn [length app].
  do 2 f_equal. f_equal. lia.
Qed.

(** ** One group *)

Record group_ok (agb : aetherfs_ag_bitmap) : Prop := {
  go_bits : ab_bits agb = kernel_AETHERFS_BITMAP_BITS;
  go_len : len (ab_bitmap agb) = kernel_AETHERFS_BITMAP_BITS;
  go_free : ab_free agb = count_free (ab_bitmap agb);
}.

(** [test_bit(i, bitmap)] *)
Definition bit (agb : aetherfs_ag_bitmap) (i : Z) : bool :=
  default false (ab_bitmap agb !! Z.to_nat i).

Definition with_bit (i : Z) (v : bool) (agb : aetherfs_ag_bitmap) : aetherfs_ag_bitmap :=
  AgBitmap (<[Z.to_nat i := v]> (ab_bitmap agb)) (ab_bits agb)
    (ab_free agb + (if v then -1 else 1)) (ab_reserved agb).

Lemma bit_lookup agb i : group_ok agb → 0 ≤ i < kernel_AETHERFS_BITMAP_BITS →
  ab_bitmap agb !! Z.to_nat i = Some (bit agb i).
Proof.
  intros [_ Hl _] Hi. unfold bit, len in *.
  destruct (lookup_lt_is_Some_2 (ab_bitmap agb) (Z.to_nat i)) as [b ->]; [lia|done].
Qed.

Lemma count_free_range bits : 0 ≤ count_free bits ≤ len bits.
Proof. unfold count_free, len. pose proof (length_filter (λ b, b = false) bits). lia. Qed.

Lemma with_bit_ok agb i v : group_ok agb → 0 ≤ i < kernel_AETHERFS_BITMAP_BITS → bit agb i = negb v →
  group_ok (with_bit i v agb) ∧
  ∀ j, 0 ≤ j → bit (with_bit i v agb) j = if decide (j = i) then v else bit agb j.
Proof.
  intros Hok Hi Hb. pose proof (bit_lookup _ _ Hok Hi) as Hl. destruct Hok as [H1 H2 H3]. split.
  - split; [done|by unfold len in *; cbn [ab_bitmap with_bit]; rewrite length_insert|].
    cbn [ab_bitmap ab_free with_bit]. rewrite (count_free_insert _ _ _ _ Hl), Hb.
    destruct v; simpl; lia.
  - intros j Hj. unfold bit. cbn [ab_bitmap with_bit].
    destruct (decide (j = i)) as [->|Hne].
    + by rewrite list_lookup_insert_eq by by eapply lookup_lt_Some.
    + by rewrite list_lookup_insert_ne by lia.
Qed.

(** The first free block, or no free block at all. *)
Lemma alloc_one agb : group_ok agb →
  (ag_bitmap_alloc agb 1 = (Err ENOSPC, agb) ∧
    ∀ i, 0 ≤ i < kernel_AETHERFS_BITMAP_BITS → bit agb i = true) ∨
  ∃ pos, 0 ≤ pos < kernel_AETHERFS_BITMAP_BITS ∧ bit agb pos = false ∧
    ag_bitmap_alloc agb 1 = (Ok pos, with_bit pos true agb).
Proof.
  intros Hok. pose proof (bit_lookup agb) as Hbit. destruct Hok as [H1 H2 H3].
  pose proof (count_free_range (ab_bitmap agb)) as Hr. unfold ag_bitmap_alloc. cbn [Z.eqb].
  assert (Forall (eq true) (ab_bitmap agb) →
    ∀ i, 0 ≤ i < kernel_AETHERFS_BITMAP_BITS → bit agb i = true) as Hfull.
  { intros Hall i Hi. pose proof (Hbit i ltac:(by split) Hi) as Hl.
    by apply (Forall_lookup_1 _ _ _ _ Hall) in Hl as <-. }
  destruct (Z.ltb_spec (ab_free agb) 1) as [Hlt|Hge].
  { left. split; [done|]. apply Hfull, count_free_pos. lia. }
  right. unfold find_next_zero_bit_wrap, find_next_zero_bit. rewrite H1.
  change (kernel_AETHERFS_BITMAP_BITS <=? 0) with false.
  rewrite Z.sub_0_r, (slice_all (ab_bitmap agb)) by done.
  destruct (first_zero_spec (ab_bitmap agb) 0) as (k & -> & Hk & Ht & [Hz|Hend]).
  2: { exfalso. subst k. rewrite take_ge in Ht by done. apply count_free_all in Ht. lia. }
  pose proof (lookup_lt_Some _ _ _ Hz) as Hkl. unfold len in H2.
  rewrite Z.add_0_l, !(proj2 (Z.leb_gt kernel_AETHERFS_BITMAP_BITS (Z.of_nat k))) by lia.
  exists (Z.of_nat k). split; [lia|]. split; [unfold bit; by rewrite Nat2Z.id, Hz|].
  unfold bitmap_fill. rewrite (proj2 (Z.leb_le _ _)) by (unfold len; lia).
  change (replicate (Z.to_nat 1) true) with [true]. rewrite splice_one by (unfold len; lia).
  unfold with_bit. rewrite H1, u32_small; [done|]. unfold is_u32, len in *.
  unfold kernel_AETHERFS_BITMAP_BITS in *. lia.
Qed.

Lemma free_one agb pos : group_ok agb → 0 < pos < kernel_AETHERFS_BITMAP_BITS → bit agb pos = true →
  ag_bitmap_free agb pos 1 = Some (with_bit pos false agb).
Proof.
  intros Hok Hpos Hb. destruct Hok as [H1 H2 H3].
  pose proof (count_free_range (ab_bitmap agb)) as Hr. unfold ag_bitmap_free, bitmap_fill.
  rewrite (proj2 (Z.eqb_neq _ _)) by lia. cbn [orb Z.eqb].
  rewrite (proj2 (Z.leb_le _ _)) by lia. change (replicate (Z.to_nat 1) false) with [false].
  rewrite splice_one by lia. cbn [mbind option_bind]. unfold with_bit. rewrite u32_small; [done|].
  unfold is_u32, kernel_AETHERFS_BITMAP_BITS in *. lia.
Qed.

(** ** The whole allocator *)

(** Fewer than 2048 groups: their block numbers fit the 32 bits the code computes in. *)
Record space_ok (fsi : aetherfs_free_space_info) : Prop := {
  so_count : 0 < fs_ag_count fsi < 2048;
  so_len : len (fs_ag_bitmaps fsi) = fs_ag_count fsi;
  so_groups : Forall group_ok (fs_ag_bitmaps fsi);
}.

Definition group_of (b : Z) : Z :=
  (b - kernel_AETHERFS_DATA_START_BLOCK) / kernel_AETHERFS_BLOCKS_PER_GROUP.
Definition index_of (b : Z) : Z :=
  (b - kernel_AETHERFS_DATA_START_BLOCK) mod kernel_AETHERFS_BLOCKS_PER_GROUP.

(** Block [b] is one the bitmaps describe and marked as taken. *)
Definition taken (fsi : aetherfs_free_space_info) (b : Z) : Prop :=
  kernel_AETHERFS_DATA_START_BLOCK ≤ b ∧ group_of b < fs_ag_count fsi ∧
  index_of b < kernel_AETHERFS_BITMAP_BITS ∧ bit (group_at fsi (group_of b)) (index_of b) = true.

Definition block_of (ag pos : Z) : Z :=
  kernel_AETHERFS_DATA_START_BLOCK + ag * kernel_AETHERFS_BLOCKS_PER_GROUP + pos.

Lemma block_of_split ag pos : 0 ≤ pos < kernel_AETHERFS_BITMAP_BITS →
  group_of (block_of ag pos) = ag ∧ index_of (block_of ag pos) = pos.
Proof.
  unfold group_of, index_of, block_of, kernel_AETHERFS_BITMAP_BITS,
    kernel_AETHERFS_BLOCKS_PER_GROUP, kernel_AETHERFS_DATA_START_BLOCK. intros Hp.
  replace (7 + ag * 2097152 + pos - 7) with (pos + ag * 2097152) by lia.
  rewrite Z.div_add, Z.mod_add, Z.div_small, Z.mod_small by lia. lia.
Qed.

Lemma group_at_ok fsi ag : space_ok fsi → 0 ≤ ag < fs_ag_count fsi → group_ok (group_at fsi ag).
Proof.
  intros [_ Hl Hg] Hag. unfold group_at, len in *.
  destruct (lookup_lt_is_Some_2 (fs_ag_bitmaps fsi) (Z.to_nat ag)) as [g E]; [lia|].
  rewrite E. by eapply Forall_lookup_1.
Qed.

Lemma set_group_at fsi ag agb ag' : space_ok fsi → 0 ≤ ag < fs_ag_count fsi → 0 ≤ ag' →
  group_at (set_group ag agb fsi) ag' = if decide (ag' = ag) then agb else group_at fsi ag'.
Proof.
  intros [_ Hl _] Hag Hag'. unfold group_at, set_group, len in *. cbn [fs_ag_bitmaps].
  destruct (decide (ag' = ag)) as [->|Hne].
  - by rewrite list_lookup_insert_eq by lia.
  - by rewrite list_lookup_insert_ne by lia.
Qed.

Lemma set_group_ok fsi ag agb : space_ok fsi → group_ok agb → space_ok (set_group ag agb fsi).
Proof.
  intros [H1 H2 H3] Hg. split; cbn [fs_ag_count fs_ag_bitmaps set_group]; [done| |].
  - unfold len in *. by rewrite length_insert.
  - by apply Forall_insert.
Qed.

(** Flipping one bit of one group. *)
Lemma flip_taken fsi ag pos v : space_ok fsi → 0 ≤ ag < fs_ag_count fsi →
  0 ≤ pos < kernel_AETHERFS_BITMAP_BITS → bit (group_at fsi ag) pos = negb v →
  let fsi' := set_group ag (with_bit pos v (group_at fsi ag)) fsi in
  space_ok fsi' ∧ fs_ag_count fsi' = fs_ag_count fsi ∧
  ∀ b, taken fsi' b ↔ if decide (b = block_of ag pos) then v = true else taken fsi b.
Proof.
  intros Hok Hag Hpos Hb fsi'. pose proof (group_at_ok _ _ Hok Hag) as Hg.
  destruct (with_bit_ok _ _ _ Hg Hpos Hb) as [Hg' Hbits].
  split; [by apply set_group_ok|]. split; [done|]. intros b. unfold taken.
  change (fs_ag_count fsi') with (fs_ag_count fsi).
  assert (kernel_AETHERFS_DATA_START_BLOCK ≤ b → 0 ≤ group_of b ∧ 0 ≤ index_of b ∧
    b = block_of (group_of b) (index_of b)) as Hb0.
  { unfold group_of, index_of, block_of, kernel_AETHERFS_BLOCKS_PER_GROUP.
    intros H7. split; [apply Z.div_pos; lia|]. split; [apply Z.mod_pos_bound; lia|].
    pose proof (Z.div_mod (b - kernel_AETHERFS_DATA_START_BLOCK) 2097152). lia. }
  unfold fsi'. destruct (decide (b = block_of ag pos)) as [->|Hne].
  - destruct (block_of_split ag pos Hpos) as [-> ->]. rewrite set_group_at by (done || lia).
    rewrite decide_True by done. rewrite Hbits, decide_True by (done || lia).
    split; [by intros (_ & _ & _ & ->)|]. intros ->. split; [|split; [lia|split; [lia|done]]].
    unfold block_of, kernel_AETHERFS_BLOCKS_PER_GROUP, kernel_AETHERFS_DATA_START_BLOCK. lia.
  - split; intros (H7 & H1 & H2 & H3); (split; [done|split; [done|split; [done|]]]);
      destruct (Hb0 H7) as (H4 & H5 & H6); revert H3;
      rewrite set_group_at by (done || lia);
      (destruct (decide (group_of b = ag)) as [Eg|]; [|done]);
      rewrite Hbits, decide_False, Eg by (done || congruence); done.
Qed.

(** The round: it takes a free block, or every group it visits is full. *)
Lemma alloc_round_one ags fsi hint : space_ok fsi → 0 ≤ hint < fs_ag_count fsi →
  Forall (λ ag, 0 ≤ ag < fs_ag_count fsi) ags →
  (alloc_round ags fsi hint 1 = (Ok None, fsi) ∧
    Forall (λ ag, ∀ i, 0 ≤ i < kernel_AETHERFS_BITMAP_BITS →
      bit (group_at fsi ((hint + ag) mod fs_ag_count fsi)) i = true) ags) ∨
  ∃ ag pos, 0 ≤ ag < fs_ag_count fsi ∧ 0 ≤ pos < kernel_AETHERFS_BITMAP_BITS ∧
    bit (group_at fsi ag) pos = false ∧
    alloc_round ags fsi hint 1 =
      (Ok (Some (block_of ag pos)), set_group ag (with_bit pos true (group_at fsi ag)) fsi).
Proof.
  intros Hok Hh. destruct (so_count _ Hok) as [Hc1 Hc2]. induction 1 as [|ag ags Hag _ IH].
  { left. by split. }
  cbn [alloc_round]. rewrite (u32_small (hint + ag)) by (unfold is_u32; lia).
  set (g := (hint + ag) mod fs_ag_count fsi).
  assert (0 ≤ g < fs_ag_count fsi) as Hg by (apply Z.mod_pos_bound; lia).
  destruct (alloc_one _ (group_at_ok _ _ Hok Hg)) as [[-> Hfull]|(pos & Hpos & Hb & ->)].
  - destruct IH as [[-> Hall]|Hex]; [left; split; [done|by constructor]|by right].
  - right. exists g, pos. split; [done|]. split; [done|]. split; [done|]. do 3 f_equal.
    unfold block_of, kernel_AETHERFS_BLOCKS_PER_GROUP, kernel_AETHERFS_DATA_START_BLOCK,
      kernel_AETHERFS_BITMAP_BITS in *.
    rewrite (u32_small (g * _)) by (unfold is_u32; lia).
    rewrite (u64_small (pos + _)) by (unfold is_u64; lia).
    rewrite u64_small by (unfold is_u64; lia). lia.
Qed.

(** Every group is visited. *)
Lemma round_covers c hint g : 0 < c → 0 ≤ g < c →
  (g - hint) mod c ∈ seqZ 0 c ∧ (hint + (g - hint) mod c) mod c = g.
Proof.
  intros Hc Hg. split; [apply elem_of_seqZ; apply Z.mod_pos_bound; lia|].
  rewrite Z.add_mod_idemp_r by lia. replace (hint + (g - hint)) with g by lia. by apply Z.mod_small.
Qed.

Lemma alloc_extended_one info fsi hint : s_private info = Some fsi → space_ok fsi → 0 ≤ hint →
  (aetherfs_alloc_blocks_extended info 1 hint = (Ok 0, info) ∧
    ∀ ag pos, 0 ≤ ag < fs_ag_count fsi → 0 ≤ pos < kernel_AETHERFS_BITMAP_BITS →
      taken fsi (block_of ag pos)) ∨
  ∃ b fsi', kernel_AETHERFS_DATA_START_BLOCK ≤ b ∧ ¬ taken fsi b ∧
    aetherfs_alloc_blocks_extended info 1 hint =
      (Ok b, set_free_space (Some fsi') (u64 (info_free_blocks info - 1)) info) ∧
    space_ok fsi' ∧ ∀ x, taken fsi' x ↔ x = b ∨ taken fsi x.
Proof.
  intros Hp Hok Hh. destruct (so_count _ Hok) as [Hc1 Hc2].
  unfold aetherfs_alloc_blocks_extended. rewrite Hp. cbn [Z.eqb].
  set (h := if fs_ag_count fsi <=? hint then 0 else hint).
  assert (0 ≤ h < fs_ag_count fsi) as Hhc by (unfold h; destruct (Z.leb_spec (fs_ag_count fsi) hint); lia).
  destruct (alloc_round_one (seqZ 0 (fs_ag_count fsi)) fsi h Hok Hhc)
    as [[-> Hall]|(ag & pos & Hag & Hpos & Hb & ->)].
  { apply Forall_forall. intros ag Hag%elem_of_seqZ. lia. }
  - left. split; [done|]. intros ag pos Hag Hpos. destruct (round_covers _ h ag Hc1 Hag) as [Hin He].
    rewrite Forall_forall in Hall. specialize (Hall _ Hin pos Hpos). rewrite He in Hall.
    unfold taken. destruct (block_of_split ag pos Hpos) as [-> ->].
    split; [|split; [lia|split; [lia|done]]].
    unfold block_of, kernel_AETHERFS_BLOCKS_PER_GROUP, kernel_AETHERFS_DATA_START_BLOCK. lia.
  - right. destruct (flip_taken fsi ag pos true Hok Hag Hpos Hb) as (Hok' & _ & Ht).
    exists (block_of ag pos). eexists. split; [|split; [|split; [reflexivity|split; [exact Hok'|]]]].
    + unfold block_of, kernel_AETHERFS_BLOCKS_PER_GROUP, kernel_AETHERFS_DATA_START_BLOCK. lia.
    + unfold taken. destruct (block_of_split ag pos Hpos) as [-> ->].
      intros (_ & _ & _ & Hx). by rewrite Hb in Hx.
    + intros x. rewrite Ht. destruct (decide (x = block_of ag pos)); naive_solver.
Qed.

Lemma free_extended_one info fsi b : s_private info = Some fsi → space_ok fsi → taken fsi b →
  ∃ fsi', aetherfs_free_blocks_extended info b 1 =
      Some (set_free_space (Some fsi') (u64 (info_free_blocks info + 1)) info) ∧
    space_ok fsi' ∧
    ∀ x, taken fsi' x ↔ taken fsi x ∧ (x = b → index_of b = 0).
Proof.
  intros Hp Hok (H7 & Hg & Hi & Hbit). destruct (so_count _ Hok) as [Hc1 Hc2].
  assert (0 ≤ group_of b ∧ 0 ≤ index_of b ∧ b = block_of (group_of b) (index_of b)) as (Hg0 & Hi0 & Eb).
  { unfold group_of, index_of, block_of, kernel_AETHERFS_BLOCKS_PER_GROUP.
    split; [apply Z.div_pos; lia|]. split; [apply Z.mod_pos_bound; lia|].
    pose proof (Z.div_mod (b - kernel_AETHERFS_DATA_START_BLOCK) 2097152). lia. }
  unfold aetherfs_free_blocks_extended. rewrite Hp.
  set (g := group_of b) in *. set (i := index_of b) in *.
  assert (b - kernel_AETHERFS_DATA_START_BLOCK = g * kernel_AETHERFS_BLOCKS_PER_GROUP + i) as Eo
    by (rewrite Eb; unfold block_of; lia).
  unfold kernel_AETHERFS_BITMAP_BITS in *.
  assert (is_u64 (b - kernel_AETHERFS_DATA_START_BLOCK)) as Hu
    by (rewrite Eo; unfold is_u64, kernel_AETHERFS_BLOCKS_PER_GROUP; lia).
  rewrite (proj2 (Z.eqb_neq b 0)) by (unfold kernel_AETHERFS_DATA_START_BLOCK in H7; lia).
  cbn [orb Z.eqb]. rewrite (u64_small _ Hu).
  rewrite (u32_small (fs_ag_count fsi * _)) by (unfold is_u32, kernel_AETHERFS_BLOCKS_PER_GROUP; lia).
  rewrite (proj2 (Z.leb_gt _ _)) by (rewrite Eo; unfold kernel_AETHERFS_BLOCKS_PER_GROUP in *; lia).
  fold (group_of b) (index_of b). fold g i. rewrite (u32_small g) by (unfold is_u32; lia).
  rewrite (proj2 (Z.ltb_lt _ _) Hg).
  destruct (decide (i = 0)) as [Ei|Ei].
  - unfold ag_bitmap_free. rewrite Ei. cbn [Z.eqb orb mbind option_bind].
    exists (set_group g (group_at fsi g) fsi). split; [done|].
    assert (set_group g (group_at fsi g) fsi = fsi) as ->.
    { unfold set_group, group_at. destruct Hok as [_ Hl _]. unfold len in Hl.
      destruct (lookup_lt_is_Some_2 (fs_ag_bitmaps fsi) (Z.to_nat g)) as [x Ex]; [lia|].
      rewrite Ex. cbn [default]. rewrite list_insert_id by done. by destruct fsi. }
    split; [done|]. naive_solver.
  - rewrite free_one; [|apply group_at_ok; [done|lia]|unfold kernel_AETHERFS_BITMAP_BITS; lia|done].
    cbn [mbind option_bind].
    destruct (flip_taken fsi g i false Hok ltac:(lia) ltac:(unfold kernel_AETHERFS_BITMAP_BITS; lia) Hbit)
      as (Hok' & _ & Ht).
    eexists. split; [reflexivity|]. split; [exact Hok'|]. intros x. rewrite Ht, <-Eb.
    destruct (decide (x = b)) as [->|Hne]; [|naive_solver]. split; [done|]. intros [_ H]. by destruct (Ei (H eq_refl)).
Qed.

(** ** Clients that take and return single blocks *)

(** The allocator and the blocks its clients hold. *)
Inductive client_step : aetherfs_sb_info * gset Z → aetherfs_sb_info * gset Z → Prop :=
| client_alloc info own hint b info' :
    0 ≤ hint → aetherfs_alloc_blocks_extended info 1 hint = (Ok b, info') → b ≠ 0 →
    client_step (info, own) (info', {[ b ]} ∪ own)
| client_free info own b info' :
    b ∈ own → aetherfs_free_blocks_extended info b 1 = Some info' →
    client_step (info, own) (info', own ∖ {[ b ]}).

Definition client_inv (st : aetherfs_sb_info * gset Z) : Prop :=
  ∃ fsi, s_private st.1 = Some fsi ∧ space_ok fsi ∧ ∀ b, b ∈ st.2 → taken fsi b.

Lemma client_step_inv st st' : client_step st st' → client_inv st → client_inv st'.
Proof.
  intros [info own hint b info' Hh Ha Hb|info own b info' Hin Hf] (fsi & Hp & Hok & Ht); simpl in *.
  - destruct (alloc_extended_one info fsi hint Hp Hok Hh)
      as [[E _]|(b' & fsi' & _ & _ & E & Hok' & Ht')]; rewrite E in Ha; simplify_eq.
    exists fsi'. split; [done|]. split; [done|]. intros x. rewrite Ht'. set_solver.
  - destruct (free_extended_one info fsi b Hp Hok (Ht b Hin)) as (fsi' & E & Hok' & Ht').
    rewrite E in Hf. simplify_eq. exists fsi'. split; [done|]. split; [done|]. intros x.
    rewrite Ht'. set_solver.
Qed.

Lemma init_group bits agb : 0 < bits → ag_bitmap_init bits = Ok agb →
  ab_bits agb = bits ∧ len (ab_bitmap agb) = bits ∧ ab_free agb = count_free (ab_bitmap agb).
Proof.
  intros Hb. unfold ag_bitmap_init. rewrite (proj2 (Z.eqb_neq _ _)) by lia.
  intros [= <-]. cbn [ab_bits ab_bitmap ab_free]. rewrite count_free_new. unfold len.
  rewrite length_replicate. lia.
Qed.

Lemma fresh_space info0 ag_count info : 0 < ag_count < 2048 →
  aetherfs_free_space_init info0 ag_count = Ok info →
  ∃ fsi, s_private info = Some fsi ∧ space_ok fsi.
Proof.
  intros Hc. unfold aetherfs_free_space_init. intros (agb & Ha & H)%bind_ok.
  apply init_group in Ha as (H1 & H2 & H3); [|done]. injection H as <-.
  eexists. split; [reflexivity|]. split; cbn [fs_ag_count fs_ag_bitmaps]; [done| |].
  - unfold len. rewrite length_replicate. lia.
  - apply Forall_replicate. by split.
Qed.

(** ** Runs on the first group *)

Lemma first_zero_at pre post pos : Forall (eq true) pre →
  first_zero (pre ++ false :: post) pos = pos + len pre.
Proof.
  intros Hp. revert pos. induction Hp as [|x pre <- _ IH]; intros pos; cbn [app first_zero].
  - unfold len. simpl. lia.
  - rewrite IH. unfold len. simpl. lia.
Qed.

Lemma ag_alloc_at pre post free r count : let bits := pre ++ false :: post in
  Forall (eq true) pre → 0 < count ≤ free → len pre + count ≤ len bits →
  ag_bitmap_alloc (AgBitmap bits (len bits) free r) count =
    (Ok (len pre), AgBitmap (splice (len pre) (replicate (Z.to_nat count) true) bits) (len bits)
      (u32 (free - count)) r).
Proof.
  intros bits Hp Hc Hl. unfold ag_bitmap_alloc. cbn [ab_free ab_bits ab_bitmap ab_reserved].
  rewrite (proj2 (Z.eqb_neq count 0)), (proj2 (Z.ltb_ge free count)) by lia.
  unfold find_next_zero_bit_wrap, find_next_zero_bit.
  pose proof (len_nonneg pre). rewrite (proj2 (Z.leb_gt (len bits) 0)) by lia.
  rewrite Z.sub_0_r, slice_all by done.
  assert (first_zero bits 0 = len pre) as -> by (unfold bits; rewrite first_zero_at by done; lia).
  rewrite !(proj2 (Z.leb_gt (len bits) (len pre))) by lia.
  unfold bitmap_fill. by rewrite (proj2 (Z.leb_le (len pre + count) (len bits))) by lia.
Qed.

(** A request that group 0 can serve. *)
Lemma alloc_first info agb rest n cl count pos agb' : 0 < n < 2048 → 0 < count → 0 ≤ pos < 2 ^ 32 →
  s_private info = Some (FreeSpaceInfo (agb :: rest) n cl) →
  ag_bitmap_alloc agb count = (Ok pos, agb') →
  aetherfs_alloc_blocks_extended info count 0 =
    (Ok (pos + kernel_AETHERFS_DATA_START_BLOCK),
     set_free_space (Some (FreeSpaceInfo (agb' :: rest) n cl)) (u64 (info_free_blocks info - count)) info).
Proof.
  intros Hn Hc Hp Hs Ha. unfold aetherfs_alloc_blocks_extended. rewrite Hs.
  rewrite (proj2 (Z.eqb_neq _ _)) by lia. cbn [fs_ag_count].
  rewrite (proj2 (Z.leb_gt n 0)) by lia. rewrite seqZ_cons by lia. cbn [alloc_round fs_ag_count].
  change (u32 (0 + 0)) with 0. rewrite Z.mod_0_l by lia.
  change (group_at _ 0) with agb. rewrite Ha. change (u32 (0 * _)) with 0.
  unfold kernel_AETHERFS_DATA_START_BLOCK.
  rewrite Z.add_0_r, !(u64_small pos), u64_small by (unfold is_u64; lia). reflexivity.
Qed.

Lemma trace_alloc info rest n cl pre post free count bits' : 0 < n < 2048 →
  s_private info = Some (FreeSpaceInfo (AgBitmap (pre ++ false :: post) 32768 free 0 :: rest) n cl) →
  Forall (eq true) pre → 0 < count ≤ free → free ≤ 32768 → len (pre ++ false :: post) = 32768 →
  len pre + count ≤ 32768 →
  splice (len pre) (replicate (Z.to_nat count) true) (pre ++ false :: post) = bits' →
  aetherfs_alloc_blocks_extended info count 0 =
    (Ok (len pre + kernel_AETHERFS_DATA_START_BLOCK),
     set_free_space (Some (FreeSpaceInfo (AgBitmap bits' 32768 (free - count) 0 :: rest) n cl))
       (u64 (info_free_blocks info - count)) info).
Proof.
  intros Hn Hs Hp Hc Hf Hl Hlc Hb. pose proof (len_nonneg pre).
  apply (alloc_first info (AgBitmap (pre ++ false :: post) 32768 free 0));
    [done|lia|lia|exact Hs|]. rewrite <-Hl at 1.
  rewrite (ag_alloc_at pre post free 0 count Hp Hc) by lia.
  by rewrite Hb, Hl, u32_small by (unfold is_u32; lia).
Qed.

(** The state after initialization, with the first four bits of group 0 apart. *)
Lemma fresh_first info0 ag_count info : 0 < ag_count < 2048 →
  aetherfs_free_space_init info0 ag_count = Ok info →
  ∃ rest cl post, len post = 32764 ∧ s_private info = Some (FreeSpaceInfo
    (AgBitmap (false :: false :: false :: false :: post) 32768 32768 0 :: rest) ag_count cl).
Proof.
  intros Hc. unfold aetherfs_free_space_init, ag_bitmap_init, kernel_AETHERFS_BITMAP_BITS.
  intros (agb & Ha & H)%bind_ok. apply reject_ok in Ha as [_ Ha].
  replace (Z.to_nat 32768) with (4 + Z.to_nat 32764)%nat in Ha by lia.
  generalize (Z.to_nat 32764) (Z2Nat.id 32764 ltac:(lia)) Ha. intros m Hm Ha'. clear Ha.
  injection Ha' as <-. injection H as <-. cbn [s_private set_free_space].
  replace (Z.to_nat ag_count) with (S (Z.to_nat (ag_count - 1))) by lia. cbn [replicate].
  do 2 eexists. exists (replicate m false). split; [unfold len; by rewrite length_replicate|].
  reflexivity.
Qed.

(** Three single blocks, the middle one returned, then two blocks at once: the last two
    allocations share block 9. *)
Definition overlap_trace (info : aetherfs_sb_info) : list (result Z) :=
  let '(a, info) := aetherfs_alloc_blocks_extended info 1 0 in
  let '(b, info) := aetherfs_alloc_blocks_extended info 1 0 in
  let '(c, info) := aetherfs_alloc_blocks_extended info 1 0 in
  let info := default info (aetherfs_free_blocks_extended info 8 1) in
  let '(e, info) := aetherfs_alloc_blocks_extended info 2 0 in
  [a; b; c; e].

(** ** Properties *)

(** C15: clients that take and return one block at a time never share a block, whatever the
    order of their requests and the groups they ask for: a block that is handed out is
    held by nobody, and the allocator returns 0 only when every bit of every group is set.
    (Fewer than 2048 groups.) *)
Theorem single_blocks_never_shared info0 ag_count info1 info own hint b info' :
  0 < ag_count < 2048 → aetherfs_free_space_init info0 ag_count = Ok info1 →
  rtc client_step (info1, (∅ : gset Z)) (info, own) → 0 ≤ hint →
  aetherfs_alloc_blocks_extended info 1 hint = (Ok b, info') →
  (b ∉ own) ∧
  (b = 0 → ∃ fsi, s_private info = Some fsi ∧ ∀ ag pos, 0 ≤ ag < fs_ag_count fsi →
    0 ≤ pos < kernel_AETHERFS_BITMAP_BITS → bit (group_at fsi ag) pos = true).
Proof.
  intros Hc Hi Hr Hh Ha. assert (client_inv (info, own)) as (fsi & Hp & Hok & Ht).
  { revert Hr. apply (rtc_ind_r (λ st, client_inv st)).
    - destruct (fresh_space _ _ _ Hc Hi) as (fsi & Hp & Hok). exists fsi. by split.
    - intros st st' _ Hs. by apply client_step_inv. }
  simpl in *. destruct (alloc_extended_one info fsi hint Hp Hok Hh)
    as [[E Hfull]|(b' & fsi' & H7 & Hn & E & _ & _)]; rewrite E in Ha; simplify_eq.
  - split.
    + intros Hin%Ht. destruct Hin as [H7 _]. unfold kernel_AETHERFS_DATA_START_BLOCK in H7. lia.
    + intros _. exists fsi. split; [done|]. intros ag pos Hag Hpos.
      destruct (Hfull ag pos Hag Hpos) as (_ & _ & _ & H).
      destruct (block_of_split ag pos Hpos) as [Eg Ei]. by rewrite Eg, Ei in H.
  - split; [by intros Hin%Ht|]. intros ->. unfold kernel_AETHERFS_DATA_START_BLOCK in H7. lia.
Qed.

(** Requests for several blocks are not checked for room behind the first free bit: after
    three single allocations and the return of the middle block, an allocation of two
    blocks returns block 8 although block 9, its second block, is still in use. *)
Theorem multi_block_alloc_overlaps info0 info ag_count : 0 < ag_count < 2048 →
  aetherfs_free_space_init info0 ag_count = Ok info →
  overlap_trace info = [Ok 7; Ok 8; Ok 9; Ok 8].
Proof.
  intros Hc Hi. destruct (fresh_first _ _ _ Hc Hi) as (rest & cl & post & Hl & Hs).
  assert (∀ a b c d : bool, len (a :: b :: c :: d :: post) = 32768) as Hlen.
  { intros. unfold len in *. cbn [length]. lia. }
  assert (∀ info' rest' bits free, s_private info' = Some (FreeSpaceInfo
      (AgBitmap bits 32768 free 0 :: rest') ag_count cl) → 0 ≤ free < 32768 → len bits = 32768 →
    aetherfs_free_blocks_extended info' 8 1 = Some (set_free_space (Some (FreeSpaceInfo
      (AgBitmap (splice 1 [false] bits) 32768 (free + 1) 0 :: rest') ag_count cl))
      (u64 (info_free_blocks info' + 1)) info')) as Hfree.
  { intros info' rest' bits free Hs' Hf Hb. unfold aetherfs_free_blocks_extended. rewrite Hs'.
    change ((8 =? 0) || (1 =? 0)) with false.
    change (u64 (8 - kernel_AETHERFS_DATA_START_BLOCK)) with 1. cbn [fs_ag_count].
    unfold kernel_AETHERFS_BLOCKS_PER_GROUP.
    rewrite (u32_small (ag_count * _)), (proj2 (Z.leb_gt _ 1)) by (unfold is_u32; lia).
    change (u32 (1 / 2097152)) with 0. change (1 mod 2097152) with 1.
    rewrite (proj2 (Z.ltb_lt 0 ag_count)) by lia. change (group_at _ 0) with (AgBitmap bits 32768 free 0).
    unfold ag_bitmap_free, bitmap_fill. cbn [ab_bitmap ab_free ab_bits ab_reserved].
    change ((1 =? 0) || (1 =? 0)) with false. rewrite Hb. change (1 + 1 <=? 32768) with true.
    cbn [mbind option_bind]. by rewrite u32_small by (unfold is_u32; lia). }
  unfold overlap_trace.
  rewrite (trace_alloc info rest ag_count cl [] (false :: false :: false :: post) 32768 1
    (true :: false :: false :: false :: post)) by (done || lia || apply Hlen || constructor).
  rewrite (trace_alloc _ rest ag_count cl [true] (false :: false :: post) (32768 - 1) 1
    (true :: true :: false :: false :: post))
    by (done || lia || apply Hlen || (repeat constructor)).
  rewrite (trace_alloc _ rest ag_count cl [true; true] (false :: post) (32768 - 1 - 1) 1
    (true :: true :: true :: false :: post))
    by (done || lia || apply Hlen || (repeat constructor)).
  erewrite Hfree by (reflexivity || lia || apply Hlen). cbn [default].
  rewrite (trace_alloc _ rest ag_count cl [true] (true :: false :: post) (32768 - 1 - 1 - 1 + 1) 2
    (true :: true :: true :: false :: post))
    by (done || lia || apply Hlen || (repeat constructor)).
  reflexivity.
Qed.

(** The first block a fresh allocator hands out is block 7, where the on-disk format keeps
    the checkpoint root: the kernel's header puts the start of the data region one block
    below the format's. *)
Theorem first_allocation_is_checkpoint_root info0 info ag_count : 0 < ag_count < 2048 →
  aetherfs_free_space_init info0 ag_count = Ok info →
  ∃ info', aetherfs_alloc_blocks_extended info 1 0 = (Ok AETHERFS_CHECKPOINT_ROOT_BLOCK, info').
Proof.
  intros Hc Hi. destruct (fresh_first _ _ _ Hc Hi) as (rest & cl & post & Hl & Hs).
  eexists. apply (trace_alloc info rest ag_count cl [] (false :: false :: false :: post) 32768 1
    (true :: false :: false :: false :: post)); try done.
  unfold len in *. cbn [app length]. lia.
Qed.

(** The first block of a group is never given back: its return only raises the counter. *)
Lemma first_block_stays_taken info fsi ag : s_private info = Some fsi → space_ok fsi →
  taken fsi (block_of ag 0) →
  ∃ fsi', aetherfs_free_blocks_extended info (block_of ag 0) 1 =
      Some (set_free_space (Some fsi') (u64 (info_free_blocks info + 1)) info) ∧
    ∀ b, taken fsi' b ↔ taken fsi b.
Proof.
  intros Hp Hok Ht. destruct (free_extended_one _ _ _ Hp Hok Ht) as (fsi' & E & _ & Hx).
  exists fsi'. split; [done|]. intros b. rewrite Hx.
  destruct (block_of_split ag 0) as [_ ->]; [done|]. naive_solver.
Qed.

(** With 2048 groups the size of the data region wraps to 0, and nothing is ever returned. *)
Lemma many_groups_never_free info fsi start count : s_private info = Some fsi →
  fs_ag_count fsi = 2048 → aetherfs_free_blocks_extended info start count = Some info.
Proof.
  intros Hp Hc. unfold aetherfs_free_blocks_extended. rewrite Hp, Hc. destruct (_ || _); [done|].
  change (u32 (2048 * kernel_AETHERFS_BLOCKS_PER_GROUP)) with 0.
  rewrite (proj2 (Z.leb_le 0 _)); [done|]. apply u64_range.
Qed.

(** The simple allocator repeats itself on an image smaller than its counter. *)
Lemma simple_allocator_repeats info len1 len2 : let n := s_next_ino info in
  0 ≤ n → n + 1 < kernel_AETHERFS_BLOCKS_PER_GROUP → es_blocks_count info ≤ n + 7 →
  info_free_blocks info ≠ 0 → u64 (info_free_blocks info - len1) ≠ 0 →
  let '(a, info') := aetherfs_alloc_blocks info len1 in
  (aetherfs_alloc_blocks info' len2).1 = a.
Proof.
  intros n Hn Hb Hsmall Hf Hf'. unfold aetherfs_alloc_blocks.
  rewrite (proj2 (Z.eqb_neq _ _) Hf). cbn [info_free_blocks s_next_ino es_blocks_count].
  rewrite (proj2 (Z.eqb_neq _ _) Hf'). cbn [fst]. fold n.
  unfold kernel_AETHERFS_DATA_START_BLOCK, kernel_AETHERFS_BLOCKS_PER_GROUP in *.
  rewrite (u64_small (n + 1)) by (unfold is_u64; lia).
  rewrite !Z.mod_small by lia.
  rewrite (u64_small (n + 7)), (u64_small (n + 1 + 7)) by (unfold is_u64; lia).
  by rewrite !(proj2 (Z.leb_le _ _)) by lia.
Qed.

(** ** The free extent tree finds nothing *)

Section free_tree_props.
Context {T : Type} `{ExtentIndex T}.

Inductive free_tree_step : T → T → Prop :=
| free_tree_ins tree start blocks :
    free_tree_step tree (free_tree_insert_extent tree start blocks).2
| free_tree_rem tree start : free_tree_step tree (free_tree_remove_extent tree start).2.

(** The search for contiguous free space never succeeds: it looks up offset 0, and an
    extent starting there is never inserted.  Whatever extents an empty tree is given,
    the answer is [-ENOENT]. *)
Theorem find_contiguous_never_succeeds tree0 tree wanted :
  xi_ok 0 tree0 → (∀ b, xi_extents tree0 b = []) → rtc free_tree_step tree0 tree →
  free_tree_find_contiguous tree wanted = Some (Err ENOENT).
Proof.
  intros Hok0 He0 Hr. assert (xi_ok 0 tree ∧ xi_extents tree 0 = []) as [Hok He].
  { revert Hr. apply (rtc_ind_r (λ t, xi_ok 0 t ∧ xi_extents t 0 = [])); [by split|].
    intros t t' _ [t1 start blocks|t1 start] [Hok He].
    - unfold free_tree_insert_extent. destruct (Z.eqb_spec start 0) as [|Hs]; [done|].
      destruct (blocks =? 0); [done|]. cbn [orb].
      destruct (xi_insert_spec 0 t1 start start blocks Hok) as (t2 & -> & Hok2 & [Hx| ->]); [|done].
      split; [done|]. cbn [snd]. by rewrite Hx, decide_False.
    - unfold free_tree_remove_extent. destruct (Z.eqb_spec start 0) as [|Hs]; [done|].
      destruct (xi_delete_spec 0 t1 start Hok) as (t2 & Hok2 & -> & Hx).
      split; [done|]. cbn [snd]. by rewrite Hx, decide_False. }
  unfold free_tree_find_contiguous. by rewrite (xi_lookup_spec _ _ _ Hok), He.
Qed.
End free_tree_props.

(** ** Witnesses *)

Definition sample_info : aetherfs_sb_info := SbInfo None 100 0 false 1000.

Lemma sample_init : ∃ info, aetherfs_free_space_init sample_info 1 = Ok info.
Proof. eexists. reflexivity. Qed.

Lemma single_blocks_never_shared_witness : ∃ info info' info'',
  aetherfs_alloc_blocks_extended info 1 0 = (Ok 7, info') ∧
  aetherfs_alloc_blocks_extended info' 1 0 = (Ok 8, info'') ∧ 8 ∉ ({[ 7 ]} ∪ ∅ : gset Z).
Proof.
  destruct sample_init as (info & Hi).
  destruct (fresh_first _ 1 _ ltac:(lia) Hi) as (rest & cl & post & Hl & Hs).
  assert (∀ a b c d : bool, len (a :: b :: c :: d :: post) = 32768) as Hlen.
  { intros. unfold len in *. cbn [length]. lia. }
  pose proof (trace_alloc info rest 1 cl [] (false :: false :: false :: post) 32768 1
    (true :: false :: false :: false :: post) ltac:(lia) Hs (Forall_nil_2 _) ltac:(lia) ltac:(lia)
    (Hlen _ _ _ _) ltac:(done) eq_refl) as E1.
  match type of E1 with _ = (_, ?i) => set (info1 := i) in E1 end.
  pose proof (trace_alloc info1 rest 1 cl [true] (false :: false :: post) (32768 - 1) 1
    (true :: true :: false :: false :: post) ltac:(lia) eq_refl (Forall_cons_2 _ _ _ eq_refl (Forall_nil_2 _))
    ltac:(lia) ltac:(lia) (Hlen _ _ _ _) ltac:(done) eq_refl) as E2.
  eexists info, _, _. split; [exact E1|]. split; [exact E2|].
  eapply (single_blocks_never_shared sample_info 1 info info1 ({[ 7 ]} ∪ ∅) 0 8);
    [lia|exact Hi| |lia|exact E2].
  apply rtc_once. apply (client_alloc info ∅ 0 7 info1); [lia|exact E1|done].
Defined.

Lemma multi_block_alloc_overlaps_witness : ∃ info,
  aetherfs_free_space_init sample_info 1 = Ok info ∧ overlap_trace info = [Ok 7; Ok 8; Ok 9; Ok 8].
Proof.
  destruct sample_init as (info & Hi). exists info. split; [exact Hi|].
  apply (multi_block_alloc_overlaps sample_info info 1); [lia|exact Hi].
Defined.

Lemma first_allocation_is_checkpoint_root_witness : ∃ info info',
  aetherfs_free_space_init sample_info 1 = Ok info ∧
  aetherfs_alloc_blocks_extended info 1 0 = (Ok AETHERFS_CHECKPOINT_ROOT_BLOCK, info').
Proof.
  destruct sample_init as (info & Hi). exists info.
  destruct (first_allocation_is_checkpoint_root sample_info info 1) as (info' & E); [lia|exact Hi|].
  exists info'. split; [exact Hi|exact E].
Defined.

Lemma find_contiguous_never_succeeds_witness :
  free_tree_find_contiguous
    (free_tree_insert_extent (Some btree_alloc_node) 100 50).2 10 = Some (Err ENOENT).
Proof.
  apply (find_contiguous_never_succeeds (Some btree_alloc_node)
    (free_tree_insert_extent (Some btree_alloc_node) 100 50).2 10).
  - exact (proj1 (create_ok 0 _ eq_refl)).
  - exact (proj2 (create_ok 0 _ eq_refl)).
  - apply rtc_once. apply (free_tree_ins (Some btree_alloc_node) 100 50).
Defined.
