(* ===== verification/Intent.v ===== *)
(** * The kernel's intent log

    [kernel/journal.c]: an array of [il_capacity] intents of which [il_count] are in use,
    transactions that append to it and mark their intents committed, and the removal of
    committed intents.  The clock is an argument. *)

From S2P Require Import Prelude Codec Crc Btree Balloc.

Definition AETHERFS_INTENT_MAGIC : Z := 0x494E5445.
Definition AETHERFS_INTENT_META : Z := 0x10.
Definition AETHERFS_INTENT_DATA : Z := 0x20.
Definition AETHERFS_INTENT_COW : Z := 0x40.
Definition AETHERFS_INTENT_OVERWRITE : Z := 0x80.

(** [enum aetherfs_intent_state] *)
Definition AETHERFS_INTENT_PENDING : Z := 0.
Definition AETHERFS_INTENT_APPLIED : Z := 1.
Definition AETHERFS_INTENT_COMMITTED : Z := 2.
Definition AETHERFS_INTENT_REPLAYED : Z := 3.

(** [struct aetherfs_intent_entry] *)
Record aetherfs_intent_entry := Intent {
  ie_magic : Z;
  ie_type : Z;
  ie_flags : Z;
  ie_state : Z;
  ie_txn_id : Z;
  ie_target_ino : Z;
  ie_target_block : Z;
  ie_new_block : Z;
  ie_size : Z;
  ie_checksum : Z;
  ie_padding : Z;
}.

Definition intent_codec : codec aetherfs_intent_entry :=
  c_iso (λ '(m, (t, (f, (s, (x, (i, (b, (n, (z, (c, p)))))))))), Intent m t f s x i b n z c p)
    (λ e, (ie_magic e, (ie_type e, (ie_flags e, (ie_state e, (ie_txn_id e, (ie_target_ino e,
      (ie_target_block e, (ie_new_block e, (ie_size e, (ie_checksum e, ie_padding e)))))))))))
    (c_le 4 ⊗ c_le 4 ⊗ c_le 4 ⊗ c_le 4 ⊗ c_le 8 ⊗ c_le 8 ⊗ c_le 8 ⊗ c_le 8 ⊗ c_le 8 ⊗
      c_le 4 ⊗ c_le 4)%codec.

Lemma intent_lawful : lawful intent_codec.
Proof. solve_lawful. Qed.

#[export] Instance intent_on_disk : OnDisk aetherfs_intent_entry :=
  {| layout := intent_codec; layout_lawful := intent_lawful |}.

Definition zero_intent : aetherfs_intent_entry := Intent 0 0 0 0 0 0 0 0 0 0 0.

Definition set_ie_flags (f : Z) (e : aetherfs_intent_entry) : aetherfs_intent_entry :=
  Intent (ie_magic e) (ie_type e) f (ie_state e) (ie_txn_id e) (ie_target_ino e)
    (ie_target_block e) (ie_new_block e) (ie_size e) (ie_checksum e) (ie_padding e).

(** [struct aetherfs_intent_runtime] and the static counter of
    [aetherfs_transaction_begin]. *)
Record aetherfs_intent_runtime := IntentLog {
  il_intents : list aetherfs_intent_entry;
  il_capacity : Z;
  il_count : Z;
  txn_counter : Z;
}.

Definition set_intents (intents : list aetherfs_intent_entry) (count : Z)
    (log : aetherfs_intent_runtime) : aetherfs_intent_runtime :=
  IntentLog intents (il_capacity log) count (txn_counter log).

(** ** Intents *)

Definition aetherfs_intent_init : aetherfs_intent_runtime :=
  IntentLog (replicate (Z.to_nat 1024) zero_intent) 1024 0 1.

(** The fields set by [aetherfs_intent_create]; [ie_state] and the padding stay. *)
Definition fill_intent (type target_ino old_block new_block size txn_id : Z)
    (old : aetherfs_intent_entry) : aetherfs_intent_entry :=
  let e := Intent AETHERFS_INTENT_MAGIC type AETHERFS_INTENT_PENDING (ie_state old) txn_id
    target_ino old_block new_block size (ie_checksum old) (ie_padding old) in
  Intent (ie_magic e) (ie_type e) (ie_flags e) (ie_state e) (ie_txn_id e) (ie_target_ino e)
    (ie_target_block e) (ie_new_block e) (ie_size e)
    (kernel_aetherfs_crc32 (slice 0 (sizeof aetherfs_intent_entry - 4) (encode e))) (ie_padding e).

Definition aetherfs_intent_create (log : aetherfs_intent_runtime)
    (type target_ino old_block new_block size txn_id : Z) : result unit * aetherfs_intent_runtime :=
  if (type =? 0) || (txn_id =? 0) then (Err EINVAL, log)
  else if il_capacity log <=? il_count log then (Err ENOSPC, log)
  else
    (Ok tt, set_intents
      (alter (fill_intent type target_ino old_block new_block size txn_id)
        (Z.to_nat (il_count log)) (il_intents log)) (il_count log + 1) log).

(** A loop over the intents in use that may change each of them, with its counter. *)
Fixpoint mark_loop (cond : aetherfs_intent_entry → bool) (state : Z)
    (intents : list aetherfs_intent_entry) : list aetherfs_intent_entry * Z :=
  match intents with
  | [] => ([], 0)
  | intent :: rest =>
      let '(rest, n) := mark_loop cond state rest in
      if cond intent then (set_ie_flags state intent :: rest, n + 1) else (intent :: rest, n)
  end.

Definition in_use (log : aetherfs_intent_runtime) : list aetherfs_intent_entry :=
  take (Z.to_nat (il_count log)) (il_intents log).

Definition mark (cond : aetherfs_intent_entry → bool) (state : Z) (log : aetherfs_intent_runtime)
    : Z * aetherfs_intent_runtime :=
  let '(intents, n) := mark_loop cond state (in_use log) in
  (n, set_intents (intents ++ drop (Z.to_nat (il_count log)) (il_intents log)) (il_count log) log).

(** The number of intents applied. *)
Definition aetherfs_intent_apply (log : aetherfs_intent_runtime) (txn_id : Z)
    : Z * aetherfs_intent_runtime :=
  mark (λ e, (ie_txn_id e =? txn_id) && (ie_flags e =? AETHERFS_INTENT_PENDING))
    AETHERFS_INTENT_APPLIED log.

Definition aetherfs_intent_commit (log : aetherfs_intent_runtime) (txn_id : Z)
    : aetherfs_intent_runtime :=
  (mark (λ e, ie_txn_id e =? txn_id) AETHERFS_INTENT_COMMITTED log).2.

(** The number of intents replayed; the log is empty afterwards. *)
Definition aetherfs_intent_replay (log : aetherfs_intent_runtime) : Z * aetherfs_intent_runtime :=
  let '(n, log) := mark (λ e, negb (ie_flags e =? AETHERFS_INTENT_COMMITTED))
    AETHERFS_INTENT_REPLAYED log in
  (n, set_intents (il_intents log) 0 log).

(** [for (i = 0; i < il_count; i++)] with its removals in place, [None] when the fuel runs
    out.  [i--] wraps at 0 and [i++] brings it back. *)
Fixpoint clear_loop (fuel : nat) (txn_id : Z) (i count removed : Z)
    (intents : list aetherfs_intent_entry) : option (list aetherfs_intent_entry * Z * Z) :=
  if i <? count then
    match fuel with
    | O => None
    | S fuel =>
        let intent := default zero_intent (intents !! Z.to_nat i) in
        if negb (ie_txn_id intent =? txn_id) then clear_loop fuel txn_id (i + 1) count removed intents
        else if ie_flags intent =? AETHERFS_INTENT_COMMITTED then
          clear_loop fuel txn_id (u64 (u64 (i - 1) + 1)) (count - 1) (removed + 1)
            (memmove i (i + 1) (count - i - 1) intents)
        else clear_loop fuel txn_id (i + 1) count removed intents
    end
  else Some (intents, count, removed).

(** The number of intents removed. *)
Definition aetherfs_intent_clear (log : aetherfs_intent_runtime) (txn_id : Z)
    : option (Z * aetherfs_intent_runtime) :=
  '(intents, count, removed) ← clear_loop (Z.to_nat (il_count log)) txn_id 0 (il_count log) 0
    (il_intents log);
  Some (removed, set_intents intents count log).

Definition aetherfs_journal_get_intent_count (log : aetherfs_intent_runtime) : Z := il_count log.

(** ** Transactions *)

(** [struct aetherfs_transaction] *)
Record aetherfs_transaction := Transaction {
  xt_id : Z;
  xt_sequence : Z;
  xt_state : Z;
  xt_intent_count : Z;
  xt_data_mode : Z;
  xt_start_time : Z;
  xt_commit_time : Z;
  xt_flags : Z;
}.

(** A 64-bit value returned as [int]. *)
Definition as_int (x : Z) : Z := let y := u32 x in if y <? 2 ^ 31 then y else y - 2 ^ 32.

(** The return value, the transaction and the log with the counter advanced. *)
Definition aetherfs_transaction_begin (log : aetherfs_intent_runtime) (now data_mode : Z)
    : Z * aetherfs_transaction * aetherfs_intent_runtime :=
  let id := txn_counter log in
  (as_int id, Transaction id id 0 0 data_mode now 0 0,
   IntentLog (il_intents log) (il_capacity log) (il_count log) (u64 (id + 1))).

(** The outcome of [aetherfs_intent_create] is ignored. *)
Definition aetherfs_transaction_add_intent (log : aetherfs_intent_runtime)
    (txn : aetherfs_transaction) (type ino old_block new_block : Z)
    : aetherfs_transaction * aetherfs_intent_runtime :=
  let log := (aetherfs_intent_create log type ino old_block new_block 0 (xt_id txn)).2 in
  (Transaction (xt_id txn) (xt_sequence txn) (xt_state txn) (u32 (xt_intent_count txn + 1))
     (xt_data_mode txn) (xt_start_time txn) (xt_commit_time txn) (xt_flags txn), log).

Definition aetherfs_transaction_commit (log : aetherfs_intent_runtime) (now : Z)
    (txn : aetherfs_transaction) : aetherfs_transaction * aetherfs_intent_runtime :=
  (Transaction (xt_id txn) (xt_sequence txn) 1 (xt_intent_count txn) (xt_data_mode txn)
     (xt_start_time txn) now (xt_flags txn),
   aetherfs_intent_commit log (xt_id txn)).

(** One transaction with one intent, as [aetherfs_metadata_cow_commit] and
    [aetherfs_data_write_with_intent] run it: the return value. *)
Definition single_intent_transaction (log : aetherfs_intent_runtime)
    (now mode type ino old_block new_block : Z) : Z * aetherfs_intent_runtime :=
  let '(ret, txn, log) := aetherfs_transaction_begin log now mode in
  if ret <? 0 then (ret, log)
  else
    let '(txn, log) := aetherfs_transaction_add_intent log txn type ino old_block new_block in
    (0, (aetherfs_transaction_commit log now txn).2).

Section modes.
(** Constants the sources use and do not define. *)
Context (AETHERFS_MODE_DEFAULT AETHERFS_MODE_COW AETHERFS_MODE_OVERWRITE : Z).

Definition aetherfs_metadata_cow_commit (log : aetherfs_intent_runtime) (now old_root new_root : Z)
    : Z * aetherfs_intent_runtime :=
  single_intent_transaction log now AETHERFS_MODE_COW
    (Z.lor AETHERFS_INTENT_META AETHERFS_INTENT_COW) 0 old_root new_root.

(** [aetherfs_bmap] finds no extent, so that the old block is 0.  A block taken for the
    new data is given back when the transaction cannot start. *)
Definition aetherfs_data_write_with_intent (info : aetherfs_sb_info)
    (log : aetherfs_intent_runtime) (now ino blocksize len mode : Z)
    : result Z * aetherfs_sb_info * aetherfs_intent_runtime :=
  if len =? 0 then (Err EINVAL, info, log)
  else
    let old_block := 0 in
    if (mode =? AETHERFS_MODE_COW) ||
       ((mode =? AETHERFS_MODE_DEFAULT) && (len <=? 4 * blocksize)) then
      let '(new_block, info) := aetherfs_alloc_blocks info 1 in
      if new_block =? 0 then (Err ENOSPC, info, log)
      else
        let '(ret, log) := single_intent_transaction log now AETHERFS_MODE_COW
          (Z.lor AETHERFS_INTENT_DATA AETHERFS_INTENT_COW) ino old_block new_block in
        (Ok ret, if ret <? 0 then aetherfs_free_blocks info new_block 1 else info, log)
    else if mode =? AETHERFS_MODE_OVERWRITE then
      let '(ret, log) := single_intent_transaction log now AETHERFS_MODE_OVERWRITE
        (Z.lor AETHERFS_INTENT_DATA AETHERFS_INTENT_OVERWRITE) ino old_block old_block in
      (Ok ret, info, log)
    else (Err EINVAL, info, log).
End modes.

(** [aetherfs_recovery_scan_intents]: up to 100 intents from consecutive blocks; the number
    found, and the last committed and pending transactions. *)
Fixpoint scan_loop (fuel : nat) (read : Z → option bytes) (pos found committed pending : Z)
    : Z * Z * Z :=
  match fuel with
  | O => (found, committed, pending)
  | S fuel =>
      match read pos with
      | None => (found, committed, pending)
      | Some block =>
          let intent := decode block : aetherfs_intent_entry in
          if negb (ie_magic intent =? AETHERFS_INTENT_MAGIC) then (found, committed, pending)
          else
            scan_loop fuel read (u64 (pos + 1)) (found + 1)
              (if ie_flags intent =? AETHERFS_INTENT_COMMITTED then ie_txn_id intent else committed)
              (if ie_flags intent =? AETHERFS_INTENT_PENDING then ie_txn_id intent else pending)
      end
  end.

Definition aetherfs_recovery_scan_intents (read : Z → option bytes) (log_start : Z) : Z * Z * Z :=
  scan_loop 100 read log_start 0 0 0.

(** ** The loops *)

Lemma mark_loop_spec cond state l :
  mark_loop cond state l =
    (map (λ e, if cond e then set_ie_flags state e else e) l, len (filter (λ e, cond e = true) l)).
Proof.
  induction l as [|e l IH]; [done|]. cbn [mark_loop map]. rewrite IH, filter_cons.
  destruct (cond e) eqn:E.
  - rewrite decide_True by done. f_equal. unfold len. cbn [length]. lia.
  - by rewrite decide_False.
Qed.

Definition cleared (txn_id : Z) (e : aetherfs_intent_entry) : Prop :=
  ie_txn_id e = txn_id ∧ ie_flags e = AETHERFS_INTENT_COMMITTED.

#[export] Instance cleared_dec txn_id e : Decision (cleared txn_id e).
Proof. unfold cleared. apply _. Defined.

Lemma clear_loop_end fuel txn_id i removed l : clear_loop fuel txn_id i i removed l = Some (l, i, removed).
Proof. destruct fuel; cbn [clear_loop]; by rewrite Z.ltb_irrefl. Qed.

(** One round: a committed intent of the transaction is taken out, and the position stays. *)
Lemma clear_loop_step fuel txn_id (i count : nat) removed l e :
  (i < count)%nat → Z.of_nat count < 2 ^ 64 → l !! i = Some e →
  clear_loop (S fuel) txn_id (Z.of_nat i) (Z.of_nat count) removed l =
    if decide (cleared txn_id e) then
      clear_loop fuel txn_id (Z.of_nat i) (Z.of_nat (count - 1)) (removed + 1)
        (memmove (Z.of_nat i) (Z.of_nat i + 1) (Z.of_nat count - Z.of_nat i - 1) l)
    else clear_loop fuel txn_id (Z.of_nat (S i)) (Z.of_nat count) removed l.
Proof.
  intros Hlt Hbig He. cbn [clear_loop]. rewrite (proj2 (Z.ltb_lt _ _)), Nat2Z.id, He by lia.
  change (default zero_intent (Some e)) with e.
  assert (u64 (u64 (Z.of_nat i - 1) + 1) = Z.of_nat i) as ->.
  { unfold u64. rewrite Zplus_mod_idemp_l, Z.mod_small; lia. }
  replace (Z.of_nat i + 1) with (Z.of_nat (S i)) by lia.
  replace (Z.of_nat count - 1) with (Z.of_nat (count - 1)) by lia.
  destruct (decide (cleared txn_id e)) as [[-> ->]|Hk]; [by rewrite !Z.eqb_refl|].
  destruct (Z.eqb_spec (ie_txn_id e) txn_id); [|done]. cbn [negb].
  destruct (Z.eqb_spec (ie_flags e) AETHERFS_INTENT_COMMITTED); [|done]. by destruct Hk.
Qed.

(** The rest of the log moved over its entry [i]. *)
Lemma memmove_removes (i count : nat) (l : list aetherfs_intent_entry) :
  (i < count)%nat → (count ≤ length l)%nat →
  let l1 := memmove (Z.of_nat i) (Z.of_nat i + 1) (Z.of_nat count - Z.of_nat i - 1) l in
  length l1 = length l ∧ take i l1 = take i l ∧ drop i (take (count - 1) l1) = drop (S i) (take count l).
Proof.
  intros Hi Hc l1. assert (length (take i l) = i) as El by (rewrite length_take; lia).
  assert (take (count - 1) l1 = take i l ++ drop (S i) (take count l)) as Hl1.
  { unfold l1, memmove, splice, slice. rewrite Nat2Z.id.
    replace (Z.to_nat (Z.of_nat i + 1)) with (S i) by lia.
    replace (Z.to_nat (Z.of_nat count - Z.of_nat i - 1)) with (count - S i)%nat by lia.
    rewrite take_app_ge, El by lia. f_equal.
    rewrite take_app_le by (rewrite length_take, length_drop; lia).
    rewrite take_ge by (rewrite length_take, length_drop; lia).
    rewrite take_drop_commute. do 2 f_equal. lia. }
  split; [|split].
  - apply (Nat2Z.inj_iff (length _) (length l)).
    change (len (splice (Z.of_nat i) (slice (Z.of_nat i + 1) (Z.of_nat count - Z.of_nat i - 1) l) l) = len l).
    apply len_splice; [lia|]. rewrite len_slice; unfold len; lia.
  - rewrite <-(take_app_length' (take i l) (drop (S i) (take count l)) i), <-Hl1 by done.
    rewrite take_take. f_equal. lia.
  - rewrite Hl1. by apply drop_app_length'.
Qed.

(** The kept intents of what the loop has not visited yet go behind those it has. *)
Lemma clear_loop_spec fuel txn_id l : ∀ (i count : nat) removed,
  (i ≤ count)%nat → (count ≤ length l)%nat → (count - i ≤ fuel)%nat → Z.of_nat count < 2 ^ 64 →
  ∃ l', clear_loop fuel txn_id (Z.of_nat i) (Z.of_nat count) removed l =
      Some (l', len (take i l ++ filter (λ e, ¬ cleared txn_id e) (drop i (take count l))),
        removed + len (filter (cleared txn_id) (drop i (take count l)))) ∧
    length l' = length l ∧
    take (length (take i l ++ filter (λ e, ¬ cleared txn_id e) (drop i (take count l)))) l' =
      take i l ++ filter (λ e, ¬ cleared txn_id e) (drop i (take count l)).
Proof.
  revert l. induction fuel as [|fuel IH]; intros l i count removed Hi Hc Hf Hbig;
    (destruct (decide (i = count)) as [->|Hlt];
     [rewrite clear_loop_end; exists l;
      rewrite (drop_ge (take count l)), !filter_nil, app_nil_r by (rewrite length_take; lia);
      unfold len; rewrite length_take, Nat.min_l by lia; split; [f_equal; f_equal; simpl; lia|done]|]);
    [lia|].
  destruct (lookup_lt_is_Some_2 l i) as [e He]; [lia|].
  rewrite (clear_loop_step fuel txn_id i count removed l e) by (done || lia).
  assert (drop i (take count l) = e :: drop (S i) (take count l)) as Hd.
  { apply drop_S. by rewrite lookup_take_lt by lia. }
  rewrite Hd, !filter_cons. destruct (decide (cleared txn_id e)) as [Hx|Hx].
  - destruct (memmove_removes i count l) as (Hlen & Ht & Hdr); [lia..|].
    destruct (IH (memmove (Z.of_nat i) (Z.of_nat i + 1) (Z.of_nat count - Z.of_nat i - 1) l)
      i (count - 1)%nat (removed + 1)) as (l' & -> & Hl' & Ht'); [lia..|].
    exists l'. rewrite decide_False by (intros Hn; by apply Hn).
    rewrite Hdr, Ht in Ht' |- *. split; [|split; [by rewrite Hl'|done]].
    do 2 f_equal. unfold len. cbn [length]. lia.
  - destruct (IH l (S i) count removed) as (l' & -> & Hl' & Ht'); [lia..|].
    exists l'. rewrite (decide_True _ _ Hx).
    rewrite (take_S_r l i e He), <-app_assoc in Ht' |- *. cbn [app] in *. done.
Qed.

(** ** The removal of committed intents *)

(** The counters fit the array. *)
Definition log_shape (log : aetherfs_intent_runtime) : Prop :=
  len (il_intents log) = il_capacity log ∧ 0 ≤ il_count log ≤ il_capacity log ∧
  il_capacity log < 2 ^ 64.

(** C20: [aetherfs_intent_clear] ends, although its loop moves the index back below 0 and
    shortens the array it walks over: it removes exactly the committed intents of the
    transaction, keeps the others in their order and returns the number removed. *)
Theorem clear_is_filter log txn_id :
  log_shape log →
  ∃ log', aetherfs_intent_clear log txn_id =
      Some (len (filter (cleared txn_id) (in_use log)), log') ∧
    in_use log' = filter (λ e, ¬ cleared txn_id e) (in_use log) ∧
    log_shape log' ∧ il_capacity log' = il_capacity log ∧ txn_counter log' = txn_counter log.
Proof.
  intros (Hl & Hc & Hcap). unfold aetherfs_intent_clear, len in *.
  destruct (clear_loop_spec (Z.to_nat (il_count log)) txn_id (il_intents log) 0
    (Z.to_nat (il_count log)) 0) as (l' & Hrun & Hlen & Htake); [lia..|].
  rewrite Z2Nat.id in Hrun by lia. rewrite drop_0 in Hrun, Htake. rewrite take_0 in *.
  change (Z.of_nat 0) with 0 in Hrun. cbn [app] in *. unfold len in Hrun. rewrite Hrun. cbn [mbind option_bind].
  eexists. split; [f_equal; f_equal; unfold len, in_use; lia|].
  unfold in_use, log_shape, len. cbn [il_intents il_count il_capacity txn_counter set_intents].
  rewrite Nat2Z.id, Htake. split; [done|]. split; [|done].
  assert (length (filter (λ e, ¬ cleared txn_id e) (take (Z.to_nat (il_count log)) (il_intents log)))
    ≤ length (take (Z.to_nat (il_count log)) (il_intents log)))%nat as Hle by apply length_filter.
  rewrite length_take in Hle. lia.
Qed.

(** ** Transactions *)

(** The intents in use belong to transactions begun earlier. *)
Definition log_ok (log : aetherfs_intent_runtime) : Prop :=
  log_shape log ∧ 0 < txn_counter log ∧
  Forall (λ e, 0 < ie_txn_id e < txn_counter log) (in_use log).

(** The intent a committed transaction leaves in the log. *)
Definition commits (id type ino old_block new_block : Z) (e : aetherfs_intent_entry) : Prop :=
  ie_magic e = AETHERFS_INTENT_MAGIC ∧ ie_type e = type ∧ ie_flags e = AETHERFS_INTENT_COMMITTED ∧
  ie_txn_id e = id ∧ ie_target_ino e = ino ∧ ie_target_block e = old_block ∧
  ie_new_block e = new_block.

Lemma as_int_small x : 0 ≤ x < 2 ^ 31 → as_int x = x.
Proof. intros H. unfold as_int, u32. rewrite Z.mod_small by lia. destruct (Z.ltb_spec x (2 ^ 31)); lia. Qed.

Lemma commit_others id l :
  Forall (λ e, ie_txn_id e < id) l →
  (mark_loop (λ e, ie_txn_id e =? id) AETHERFS_INTENT_COMMITTED l).1 = l.
Proof.
  intros H. rewrite mark_loop_spec. cbn [fst].
  induction H as [|e l He H IH]; [done|]. cbn [map]. rewrite IH.
  destruct (Z.eqb_spec (ie_txn_id e) id); [lia|done].
Qed.

Lemma commit_app id l1 l2 :
  (mark_loop (λ e, ie_txn_id e =? id) AETHERFS_INTENT_COMMITTED (l1 ++ l2)).1 =
  (mark_loop (λ e, ie_txn_id e =? id) AETHERFS_INTENT_COMMITTED l1).1 ++
  (mark_loop (λ e, ie_txn_id e =? id) AETHERFS_INTENT_COMMITTED l2).1.
Proof. rewrite !mark_loop_spec. cbn [fst]. apply map_app. Qed.

Lemma mark_in_use cond state log :
  log_shape log →
  in_use (mark cond state log).2 = (mark_loop cond state (in_use log)).1 ∧
  log_shape (mark cond state log).2 ∧
  il_count (mark cond state log).2 = il_count log ∧
  il_capacity (mark cond state log).2 = il_capacity log ∧
  txn_counter (mark cond state log).2 = txn_counter log.
Proof.
  intros (Hl & Hc & Hcap). unfold mark. rewrite mark_loop_spec. cbn [fst snd].
  assert (length (map (λ e, if cond e then set_ie_flags state e else e) (in_use log)) =
    Z.to_nat (il_count log)) as E.
  { rewrite length_map. unfold in_use. rewrite length_take. unfold len in Hl. lia. }
  unfold in_use at 1. unfold log_shape, len in *.
  cbn [il_intents il_count il_capacity txn_counter set_intents].
  rewrite take_app_length' by done. repeat split; try lia.
  rewrite length_app, E, length_drop. lia.
Qed.

Lemma fill_txn_id type ino old_block new_block size id old :
  ie_txn_id (fill_intent type ino old_block new_block size id old) = id.
Proof. reflexivity. Qed.

Lemma fill_commits type ino old_block new_block size id old :
  commits id type ino old_block new_block
    (set_ie_flags AETHERFS_INTENT_COMMITTED (fill_intent type ino old_block new_block size id old)).
Proof.
  unfold commits, set_ie_flags, fill_intent.
  cbn [ie_magic ie_type ie_flags ie_txn_id ie_target_ino ie_target_block ie_new_block].
  exact (conj eq_refl (conj eq_refl (conj eq_refl (conj eq_refl (conj eq_refl (conj eq_refl eq_refl)))))).
Qed.

(** Room for one more intent and a counter that still fits [int]. *)
Lemma transaction_with_room log now mode type ino old_block new_block :
  log_ok log → il_count log < il_capacity log → txn_counter log < 2 ^ 31 → type ≠ 0 →
  ∃ log' e, single_intent_transaction log now mode type ino old_block new_block = (0, log') ∧
    in_use log' = in_use log ++ [e] ∧ commits (txn_counter log) type ino old_block new_block e ∧
    il_count log' = il_count log + 1 ∧ il_capacity log' = il_capacity log ∧
    txn_counter log' = txn_counter log + 1 ∧ log_ok log'.
Proof.
  intros ((Hl & Hc & Hcap) & Hpos & Hids) Hroom Hint Htype.
  unfold single_intent_transaction, aetherfs_transaction_begin. rewrite as_int_small by lia.
  rewrite (proj2 (Z.ltb_ge _ 0)) by lia.
  unfold aetherfs_transaction_add_intent, aetherfs_intent_create. cbn [xt_id il_capacity il_count il_intents].
  rewrite (proj2 (Z.eqb_neq type 0)), (proj2 (Z.eqb_neq (txn_counter log) 0)) by lia. cbn [orb].
  rewrite (proj2 (Z.leb_gt _ _) Hroom). cbn [snd].
  unfold set_intents, aetherfs_transaction_commit, aetherfs_intent_commit. cbn [snd xt_id txn_counter il_capacity].
  rewrite (u64_small (txn_counter log + 1)) by (unfold is_u64; lia).
  set (f := fill_intent _ _ _ _ _ _). set (log1 := IntentLog _ _ _ _).
  assert (log_shape log1) as Hs1.
  { unfold log_shape, log1, len in *. cbn. rewrite length_alter. lia. }
  destruct (lookup_lt_is_Some_2 (il_intents log) (Z.to_nat (il_count log))) as [old Hold].
  { unfold len in Hl. lia. }
  assert (in_use log1 = in_use log ++ [f old]) as Hu.
  { unfold in_use, log1. cbn [il_count il_intents].
    replace (Z.to_nat (il_count log + 1)) with (S (Z.to_nat (il_count log))) by lia.
    erewrite take_S_r by (rewrite list_lookup_alter_eq, Hold; done). f_equal.
    by rewrite take_alter_ge by lia. }
  pose proof (fill_txn_id type ino old_block new_block 0 (txn_counter log) old : ie_txn_id (f old) = _) as Hid.
  pose proof (fill_commits type ino old_block new_block 0 (txn_counter log) old :
    commits _ _ _ _ _ (set_ie_flags _ (f old))) as Hcom.
  assert (txn_counter log1 = txn_counter log + 1 ∧ il_count log1 = il_count log + 1 ∧
    il_capacity log1 = il_capacity log) as (Hc1 & Hn1 & Hp1) by done.
  generalize dependent (f old). intros new Hu Hid Hcom. clearbody log1. clear f.
  destruct (mark_in_use (λ e, ie_txn_id e =? txn_counter log) AETHERFS_INTENT_COMMITTED log1 Hs1)
    as (Hin & Hs & Hct & Hcp & Hctr).
  rewrite Hu, commit_app, commit_others in Hin by (eapply Forall_impl; [done|cbn; lia]).
  cbn [mark_loop] in Hin. rewrite Hid, Z.eqb_refl in Hin. cbn [fst] in Hin.
  eexists _, (set_ie_flags AETHERFS_INTENT_COMMITTED new). split; [reflexivity|].
  unfold log_ok. rewrite Hin, Hct, Hcp, Hctr, Hc1. split_and!; try done; [lia|].
  apply Forall_app. split; [eapply Forall_impl; [done|cbn; lia]|].
  apply Forall_singleton. destruct Hcom as (_ & _ & _ & -> & _). lia.
Qed.

(** No room: the transaction runs as if nothing had happened and leaves the intents as
    they are. *)
Lemma transaction_without_room log now mode type ino old_block new_block :
  log_ok log → il_count log = il_capacity log → txn_counter log < 2 ^ 31 →
  ∃ log', single_intent_transaction log now mode type ino old_block new_block = (0, log') ∧
    in_use log' = in_use log ∧ il_count log' = il_count log ∧
    il_capacity log' = il_capacity log ∧ txn_counter log' = txn_counter log + 1 ∧ log_ok log'.
Proof.
  intros ((Hl & Hc & Hcap) & Hpos & Hids) Hfull Hint.
  unfold single_intent_transaction, aetherfs_transaction_begin. rewrite as_int_small by lia.
  rewrite (proj2 (Z.ltb_ge _ 0)) by lia. rewrite (u64_small (txn_counter log + 1)) by (unfold is_u64; lia).
  unfold aetherfs_transaction_add_intent, aetherfs_transaction_commit, aetherfs_intent_commit.
  set (log1 := IntentLog _ _ _ _). cbn [xt_id fst snd].
  assert ((aetherfs_intent_create log1 type ino old_block new_block 0 (txn_counter log)).2 = log1) as ->.
  { unfold aetherfs_intent_create. destruct (_ || _); [done|].
    change (il_count log1) with (il_count log). change (il_capacity log1) with (il_capacity log).
    by rewrite (proj2 (Z.leb_le _ _)) by lia. }
  assert (log_shape log1) as Hs1 by done.
  destruct (mark_in_use (λ e, ie_txn_id e =? txn_counter log) AETHERFS_INTENT_COMMITTED log1 Hs1)
    as (Hin & Hs & Hct & Hcp & Hctr).
  change (in_use log1) with (in_use log) in Hin.
  rewrite commit_others in Hin by (eapply Forall_impl; [done|cbn; lia]).
  eexists. split; [reflexivity|]. rewrite Hin. split; [done|]. split; [done|]. split; [done|].
  split; [done|]. split; [done|]. rewrite Hctr, Hin. cbn. split; [lia|].
  eapply Forall_impl; [done|cbn; lia].
Qed.

(** Committing a list of metadata roots, one after the other: the return values and the
    log. *)
Fixpoint commit_roots (AETHERFS_MODE_COW now : Z) (log : aetherfs_intent_runtime)
    (roots : list (Z * Z)) : list Z * aetherfs_intent_runtime :=
  match roots with
  | [] => ([], log)
  | (old_root, new_root) :: roots =>
      let '(ret, log) := aetherfs_metadata_cow_commit AETHERFS_MODE_COW log now old_root new_root in
      let '(rets, log) := commit_roots AETHERFS_MODE_COW now log roots in
      (ret :: rets, log)
  end.

Definition intent_roots (e : aetherfs_intent_entry) : Z * Z := (ie_target_block e, ie_new_block e).

Lemma commit_roots_spec cow now roots : ∀ log,
  log_ok log → txn_counter log + len roots ≤ 2 ^ 31 →
  ∃ log', commit_roots cow now log roots = (map (λ _, 0) roots, log') ∧ log_ok log' ∧
    map intent_roots (in_use log') = map intent_roots (in_use log) ++
      take (Z.to_nat (il_capacity log - il_count log)) roots ∧
    txn_counter log' = txn_counter log + len roots.
Proof.
  induction roots as [|[old new] roots IH]; intros log Hok Hctr; unfold len in *; cbn [length] in Hctr.
  { exists log. cbn. rewrite take_nil, app_nil_r. split_and!; try done. lia. }
  cbn [commit_roots]. unfold aetherfs_metadata_cow_commit.
  destruct (decide (il_count log < il_capacity log)) as [Hroom|Hfull].
  - destruct (transaction_with_room log now cow (Z.lor AETHERFS_INTENT_META AETHERFS_INTENT_COW) 0 old new)
      as (log1 & e & -> & Hu & He & Hn & Hp & Hc & Hok1); [done|done|lia|done|].
    destruct (IH log1) as (log' & -> & Hok' & Hm & Hc'); [done|lia|].
    exists log'. split; [done|]. split; [done|]. split; [|cbn [length]; lia].
    rewrite Hm, Hu, map_app, <- app_assoc. f_equal. rewrite Hn, Hp.
    replace (Z.to_nat (il_capacity log - il_count log))
      with (S (Z.to_nat (il_capacity log - (il_count log + 1)))) by lia.
    cbn [take map app]. f_equal. unfold intent_roots.
    by destruct He as (_ & _ & _ & _ & _ & -> & ->).
  - assert (il_count log = il_capacity log) as Heq by (destruct Hok as [[_ [? _]] _]; lia).
    destruct (transaction_without_room log now cow (Z.lor AETHERFS_INTENT_META AETHERFS_INTENT_COW) 0 old new)
      as (log1 & -> & Hu & Hn & Hp & Hc & Hok1); [done|done|lia|].
    destruct (IH log1) as (log' & -> & Hok' & Hm & Hc'); [done|lia|].
    exists log'. split; [done|]. split; [done|]. split; [|cbn [length]; lia].
    rewrite Hm, Hu, Hn, Hp, Heq, Z.sub_diag. done.
Qed.

Lemma init_ok : log_ok aetherfs_intent_init.
Proof.
  unfold log_ok, log_shape, in_use, len. cbn [il_intents il_capacity il_count txn_counter aetherfs_intent_init].
  rewrite length_replicate, take_0. split; [lia|]. split; [lia|constructor].
Qed.

(** While the log has room and the counter fits an [int], a committed metadata root is
    in the log: the commit returns 0 and appends one intent of a new transaction, with the
    old and the new root and marked committed, and no other intent changes. *)
Theorem committed_transaction_is_logged cow log now old_root new_root :
  log_ok log → il_count log < il_capacity log → txn_counter log < 2 ^ 31 →
  ∃ log' e, aetherfs_metadata_cow_commit cow log now old_root new_root = (0, log') ∧
    in_use log' = in_use log ++ [e] ∧
    commits (txn_counter log) (Z.lor AETHERFS_INTENT_META AETHERFS_INTENT_COW) 0 old_root new_root e ∧
    log_ok log'.
Proof.
  intros Hok Hroom Hctr.
  destruct (transaction_with_room log now cow (Z.lor AETHERFS_INTENT_META AETHERFS_INTENT_COW) 0
    old_root new_root) as (log' & e & Hrun & Hu & He & _ & _ & _ & Hok'); [done..|].
  by exists log', e.
Qed.

(** The log keeps the first 1024 metadata roots and no more: from the empty log every
    commit reports success, but only the first 1024 are in it and the later ones are lost,
    since the failure of [aetherfs_intent_create] is ignored and no commit removes
    intents. *)
Theorem log_keeps_first_roots cow now roots :
  len roots < 2 ^ 31 →
  ∃ log', commit_roots cow now aetherfs_intent_init roots = (map (λ _, 0) roots, log') ∧
    map intent_roots (in_use log') = take (Z.to_nat 1024) roots.
Proof.
  intros Hlen. destruct (commit_roots_spec cow now roots aetherfs_intent_init init_ok)
    as (log' & Hrun & _ & Hu & _).
  { change (txn_counter aetherfs_intent_init) with 1. lia. }
  exists log'. split; [exact Hrun|]. rewrite Hu. reflexivity.
Qed.

(** ** The theorems at concrete inputs *)

Definition sample_log : aetherfs_intent_runtime :=
  IntentLog [set_ie_flags AETHERFS_INTENT_COMMITTED (fill_intent 0x50 0 8 9 0 1 zero_intent);
    fill_intent 0xa0 2 11 11 0 2 zero_intent; zero_intent; zero_intent] 4 2 3.

Lemma sample_log_ok : log_ok sample_log.
Proof.
  split; [split; [reflexivity|cbn; lia]|]. split; [reflexivity|].
  repeat constructor; reflexivity.
Qed.

(** The committed transaction 1 is removed, the pending one stays. *)
Lemma clear_is_filter_witness :
  log_shape sample_log ∧ ∃ log', aetherfs_intent_clear sample_log 1 = Some (1, log') ∧
    map ie_txn_id (in_use log') = [2].
Proof.
  split; [apply sample_log_ok|].
  destruct (clear_is_filter sample_log 1 (proj1 sample_log_ok)) as (log' & Hrun & Hin & _).
  exists log'. split; [exact Hrun|]. rewrite Hin. reflexivity.
Defined.

Lemma committed_transaction_is_logged_witness :
  il_count sample_log < il_capacity sample_log ∧ ∃ log' e,
  aetherfs_metadata_cow_commit 1 sample_log 0 8 9 = (0, log') ∧ in_use log' = in_use sample_log ++ [e].
Proof.
  split; [reflexivity|].
  destruct (committed_transaction_is_logged 1 sample_log 0 8 9 sample_log_ok eq_refl eq_refl)
    as (log' & e & Hrun & Hin & _). by exists log', e.
Defined.

Lemma log_keeps_first_roots_witness :
  ∃ log', (commit_roots 1 0 aetherfs_intent_init (replicate 1025 (8, 9))).2 = log' ∧
    length (in_use log') = 1024%nat.
Proof.
  destruct (log_keeps_first_roots 1 0 (replicate 1025 (8, 9))) as (log' & Hrun & Hin).
  { reflexivity. }
  exists log'. split; [by rewrite Hrun|].
  rewrite <- (length_map intent_roots), Hin. reflexivity.
Defined.
