(* ===== verification/Lanes.v ===== *)
(** * Journal lanes and block caches of the CPUs

    [kernel/percpu.c].  The first part is the lane protocol as a step relation: tasks start,
    end and commit operations on the lanes, and every access to a shared field is a step of
    its own, so that tasks interleave between any two of them; the calls are functions of
    the state, and a schedule can be run.  The second part is the cache of free blocks of a
    CPU, where [None] is the access through a null pointer. *)

From S2P Require Import Prelude Codec Crc Btree Balloc Intent.

(** ** The lane protocol *)

Definition AETHERFS_MAX_LANES : Z := 64.

Inductive aetherfs_lane_state := LANE_IDLE | LANE_ACTIVE | LANE_COMMITTING | LANE_WAITING.

#[export] Instance lane_state_eq_dec : EqDecision aetherfs_lane_state.
Proof. solve_decision. Defined.

(** The fields of [struct aetherfs_percpu_lane] the protocol uses. *)
Record aetherfs_percpu_lane := Lane {
  ll_state : aetherfs_lane_state;
  ll_sequence : Z;
  ll_committed_seq : Z;
  ll_pending_ops : Z;
}.

Definition set_ll_state (s : aetherfs_lane_state) (l : aetherfs_percpu_lane) : aetherfs_percpu_lane :=
  Lane s (ll_sequence l) (ll_committed_seq l) (ll_pending_ops l).
Definition set_ll_sequence (q : Z) (l : aetherfs_percpu_lane) : aetherfs_percpu_lane :=
  Lane (ll_state l) q (ll_committed_seq l) (ll_pending_ops l).
Definition set_ll_committed_seq (q : Z) (l : aetherfs_percpu_lane) : aetherfs_percpu_lane :=
  Lane (ll_state l) (ll_sequence l) q (ll_pending_ops l).
Definition add_ll_pending_ops (n : Z) (l : aetherfs_percpu_lane) : aetherfs_percpu_lane :=
  Lane (ll_state l) (ll_sequence l) (ll_committed_seq l) (as_int (ll_pending_ops l + n)).

(** Where a task is: outside, in [aetherfs_journal_percpu_start] up to the sequence number it
    has read, between start and end, in [aetherfs_journal_percpu_end], or in
    [aetherfs_journal_percpu_commit]. *)
Inductive task :=
| Outside
| SpinStart (lane : nat)
| ReadSequence (lane : nat)
| WriteSequence (lane : nat) (seq : Z)
| SetActive (lane : nat) (seq : Z)
| IncPending (lane : nat) (seq : Z)
| Running (lane : nat) (seq : Z)
| DecPending (lane : nat)
| TestPending (lane : nat)
| SetCommitting (lane : nat)
| SpinCommit (lane : nat) (retries : Z)
| ReadCommitted (lane : nat)
| WriteCommitted (lane : nat) (seq : Z)
| SetIdle (lane : nat).

#[export] Instance task_eq_dec : EqDecision task.
Proof. solve_decision. Defined.

(** What a task that is not inside the protocol calls next. *)
Inductive call := CallStart | CallEnd | CallCommit (lane : Z).

Record percpu := Percpu {
  lanes : list aetherfs_percpu_lane;
  tasks : list task;
}.

Definition aetherfs_nr_lanes (online_cpus : Z) : Z := Z.max 1 (Z.min online_cpus AETHERFS_MAX_LANES).

Definition aetherfs_percpu_init (online_cpus : Z) (tasks : nat) : percpu :=
  Percpu (replicate (Z.to_nat (aetherfs_nr_lanes online_cpus)) (Lane LANE_IDLE 0 0 0))
    (replicate tasks Outside).

Definition aetherfs_get_lane_for_cpu (st : percpu) (cpu : Z) : Z := cpu mod len (lanes st).

(** [lane < 0 || lane >= aetherfs_nr_lanes] *)
Definition lane_in_range (st : percpu) (lane : Z) : bool := (0 <=? lane) && (lane <? len (lanes st)).

(** One step of a task at a lane it holds the number of: the lane and the task after it. *)
Definition lane_access (t : task) (l : aetherfs_percpu_lane) : aetherfs_percpu_lane * task :=
  match t with
  | SpinStart k => (l, if decide (ll_state l = LANE_COMMITTING) then SpinStart k else ReadSequence k)
  | ReadSequence k => (l, WriteSequence k (ll_sequence l))
  | WriteSequence k seq => (set_ll_sequence (u64 (seq + 1)) l, SetActive k seq)
  | SetActive k seq => (set_ll_state LANE_ACTIVE l, IncPending k seq)
  | IncPending k seq => (add_ll_pending_ops 1 l, Running k seq)
  | DecPending k => (add_ll_pending_ops (-1) l, TestPending k)
  | TestPending k => (l, if ll_pending_ops l =? 0 then SetCommitting k else Outside)
  | SetCommitting k => (set_ll_state LANE_COMMITTING l, Outside)
  | SpinCommit k retries =>
      (l, if 0 <? ll_pending_ops l
          then if 100000 <? retries + 1 then Outside else SpinCommit k (retries + 1)
          else ReadCommitted k)
  | ReadCommitted k => (l, WriteCommitted k (ll_sequence l))
  | WriteCommitted k seq => (set_ll_committed_seq seq l, SetIdle k)
  | SetIdle k => (set_ll_state LANE_IDLE l, Outside)
  | Outside | Running _ _ => (l, t)
  end.

Definition lane_of (t : task) : option nat :=
  match t with
  | Outside => None
  | SpinStart k | ReadSequence k | WriteSequence k _ | SetActive k _ | IncPending k _ | Running k _
  | DecPending k | TestPending k | SetCommitting k | SpinCommit k _ | ReadCommitted k
  | WriteCommitted k _ | SetIdle k => Some k
  end.

Section protocol.
(** The CPU each task runs on, which does not change. *)
Context (cpu : nat → Z).

(** The next step of task [i], with its next call when it is free to make one.  An end is
    called with the lane the start returned. *)
Definition task_step (st : percpu) (i : nat) (c : call) : option percpu :=
  t ← tasks st !! i;
  match t with
  | Outside =>
      match c with
      | CallStart =>
          Some (Percpu (lanes st) (<[i := SpinStart (Z.to_nat (aetherfs_get_lane_for_cpu st (cpu i)))]> (tasks st)))
      | CallCommit lane =>
          if lane_in_range st lane
          then Some (Percpu (lanes st) (<[i := SpinCommit (Z.to_nat lane) 0]> (tasks st)))
          else Some st
      | CallEnd => None
      end
  | Running k _ =>
      match c with
      | CallEnd => Some (Percpu (lanes st) (<[i := DecPending k]> (tasks st)))
      | _ => None
      end
  | _ =>
      k ← lane_of t;
      l ← lanes st !! k;
      let '(l, t) := lane_access t l in
      Some (Percpu (<[k := l]> (lanes st)) (<[i := t]> (tasks st)))
  end.

Definition step (st st' : percpu) : Prop := ∃ i c, task_step st i c = Some st'.

(** Running a schedule. *)
Fixpoint run (schedule : list (nat * call)) (st : percpu) : option percpu :=
  match schedule with
  | [] => Some st
  | (i, c) :: schedule => st ← task_step st i c; run schedule st
  end.

Lemma run_steps schedule : ∀ st st', run schedule st = Some st' → rtc step st st'.
Proof.
  induction schedule as [|[i c] schedule IH]; intros st st' H; cbn [run] in H.
  - injection H as ->. apply rtc_refl.
  - destruct (task_step st i c) as [st1|] eqn:E; [|done].
    eapply rtc_l; [by exists i, c|by apply IH].
Qed.
End protocol.

(** ** What the pending counter counts *)

(** Between the increment and the decrement of the counter of lane [k]. *)
Definition inside (k : nat) (t : task) : bool :=
  match t with Running k' _ | DecPending k' => bool_decide (k' = k) | _ => false end.

Definition count_inside (k : nat) (ts : list task) : Z :=
  foldr (λ t n, Z.b2z (inside k t) + n) 0 ts.

Lemma count_inside_range k ts : 0 ≤ count_inside k ts ≤ len ts.
Proof.
  unfold len. induction ts as [|t ts IH]; [cbn; lia|].
  cbn [count_inside foldr length]. fold (count_inside k ts). destruct (inside k t); cbn [Z.b2z]; lia.
Qed.

Lemma count_inside_insert k ts : ∀ i t t', ts !! i = Some t →
  count_inside k (<[i := t']> ts) = count_inside k ts - Z.b2z (inside k t) + Z.b2z (inside k t').
Proof.
  induction ts as [|x ts IH]; intros [|i] t t' H; try done.
  - injection H as ->. cbn. lia.
  - change (Z.b2z (inside k x) + count_inside k (<[i := t']> ts) =
      Z.b2z (inside k x) + count_inside k ts - Z.b2z (inside k t) + Z.b2z (inside k t')).
    rewrite (IH i t t' H). lia.
Qed.

Definition counts_ok (st : percpu) : Prop :=
  len (tasks st) < 2 ^ 31 ∧
  ∀ k l, lanes st !! k = Some l → ll_pending_ops l = count_inside k (tasks st).

(** A step at a lane changes the counter and the position of the task together. *)
Lemma lane_access_counts t l k : lane_of t = Some k → (∀ q, t ≠ Running k q) →
  let '(l', t') := lane_access t l in
  (∀ j, j ≠ k → inside j t' = inside j t) ∧
  ll_pending_ops l' =
    (if bool_decide (inside k t' = inside k t) then ll_pending_ops l
     else as_int (ll_pending_ops l + Z.b2z (inside k t') - Z.b2z (inside k t))).
Proof.
  intros Hk Hr. destruct t as [|a|a|a q|a q|a q|a q|a|a|a|a r|a|a q|a]; cbn in Hk; try done;
    injection Hk as ->; cbn [lane_access].
  all: try (by destruct (Hr q)).
  all: split; [intros j Hj; repeat case_match; cbn; rewrite ?bool_decide_eq_false_2 by done; done|].
  2, 3: cbn [inside add_ll_pending_ops ll_pending_ops];
    rewrite (bool_decide_eq_true_2 (k = k)), bool_decide_eq_false_2 by done; f_equal; cbn [Z.b2z]; lia.
  all: repeat case_match; cbn in *; rewrite ?bool_decide_eq_true_2 in * by done; done.
Qed.

Lemma step_counts cpu st st' : step cpu st st' → counts_ok st → counts_ok st'.
Proof.
  intros (i & c & H) [Hn Hc]. unfold task_step in H.
  destruct (tasks st !! i) as [t|] eqn:Ht; [|done]. cbn [mbind option_bind] in H.
  assert (∀ t', (∀ k, inside k t' = inside k t) →
    counts_ok (Percpu (lanes st) (<[i := t']> (tasks st)))) as Hmove.
  { intros t' Hs. unfold counts_ok, len in *. cbn [lanes tasks]. rewrite length_insert.
    split; [done|]. intros k l Hl. rewrite (count_inside_insert _ _ _ _ _ Ht), Hs, (Hc k l Hl). lia. }
  destruct (decide (lane_of t = None)) as [Hl|Hl].
  { destruct t; try done. destruct c as [| |lane]; [|done|].
    - injection H as <-. by apply Hmove.
    - destruct (lane_in_range st lane); injection H as <-; [by apply Hmove|by split]. }
  destruct (lane_of t) as [k|] eqn:Ek; [|done].
  assert ((∃ q, t = Running k q) ∨ ∀ q, t ≠ Running k q) as [[q ->]|Hr].
  { destruct t; try (by right). cbn in Ek. injection Ek as ->. left. by eexists. }
  { destruct c; try done. injection H as <-. apply Hmove. intros j. done. }
  assert ((l ← lanes st !! k; let '(l, t) := lane_access t l in
    Some (Percpu (<[k := l]> (lanes st)) (<[i := t]> (tasks st)))) = Some st') as H'.
  { destruct t; try done; try (cbn in Ek; injection Ek as ->; exact H).
    cbn in Ek. injection Ek as ->. by destruct (Hr seq). }
  clear H. destruct (lanes st !! k) as [l|] eqn:El; [|done]. cbn [mbind option_bind] in H'.
  pose proof (lane_access_counts t l k Ek) as Ha. destruct (lane_access t l) as [l' t'].
  destruct Ha as [Hother Hpend]; [done|]. injection H' as <-.
  unfold counts_ok, len in *. cbn [lanes tasks]. rewrite length_insert. split; [done|].
  intros j x Hx. rewrite (count_inside_insert _ _ _ _ _ Ht).
  pose proof (count_inside_range k (<[i := t']> (tasks st))) as Hrange.
  rewrite (count_inside_insert _ _ _ _ _ Ht) in Hrange. unfold len in Hrange. rewrite length_insert in Hrange.
  destruct (decide (j = k)) as [->|Hj].
  - rewrite list_lookup_insert_eq in Hx by (by eapply lookup_lt_Some). injection Hx as <-.
    rewrite Hpend, (Hc k l El). case_bool_decide as Hb; [rewrite Hb; lia|].
    rewrite as_int_small by lia. lia.
  - rewrite list_lookup_insert_ne in Hx by done. rewrite (Hc j x Hx), Hother by done. lia.
Qed.

Lemma count_outside k n : count_inside k (replicate n Outside) = 0.
Proof. by induction n. Qed.

(** C24: whatever the interleaving, the pending counter of a lane is the number of tasks that
    have entered an operation on it and not yet left: no increment or decrement is lost, and
    [aetherfs_journal_percpu_commit] waits exactly for them. *)
Theorem pending_counts_operations cpu online n st k l :
  Z.of_nat n < 2 ^ 31 → rtc (step cpu) (aetherfs_percpu_init online n) st →
  lanes st !! k = Some l → ll_pending_ops l = count_inside k (tasks st).
Proof.
  intros Hn Hr Hl. assert (counts_ok st) as [_ Hc]; [|by apply Hc].
  revert Hr. apply (rtc_ind_r (λ st, counts_ok st)).
  - split; [by unfold len; cbn; rewrite length_replicate|]. intros j x Hx.
    cbn [lanes aetherfs_percpu_init] in Hx. apply lookup_replicate in Hx as [-> _].
    cbn [tasks aetherfs_percpu_init]. by rewrite count_outside.
  - intros s s' _ Hs. by eapply step_counts.
Qed.

(** ** A lane that waits for its commit *)

(** A task inside [aetherfs_journal_percpu_commit]. *)
Definition committing (t : task) : bool :=
  match t with SpinCommit _ _ | ReadCommitted _ | WriteCommitted _ _ | SetIdle _ => true | _ => false end.

(** Outside the protocol or waiting at the entry, where lane [k] is concerned. *)
Definition shut_out (k : nat) (t : task) : Prop := lane_of t = Some k → t = SpinStart k.

(** An operation that ends and finds no other one leaves the lane closed: from then on,
    as long as no task calls commit, every task that wants to start on the lane waits, and
    none gets in.  The lane is closed until someone commits it. *)
Theorem closed_lane_needs_commit cpu k st st' l :
  lanes st !! k = Some l → ll_state l = LANE_COMMITTING → Forall (shut_out k) (tasks st) →
  Forall (λ t, committing t = false) (tasks st) →
  rtc (λ s s', step cpu s s' ∧ Forall (λ t, committing t = false) (tasks s')) st st' →
  lanes st' !! k = Some l ∧ Forall (shut_out k) (tasks st').
Proof.
  intros Hl Hs Hout Hnc Hr.
  assert (lanes st' !! k = Some l ∧ Forall (shut_out k) (tasks st') ∧
    Forall (λ t, committing t = false) (tasks st')) as (? & ? & _); [|done].
  revert Hr. apply (rtc_ind_r (λ s, lanes s !! k = Some l ∧ Forall (shut_out k) (tasks s) ∧
    Forall (λ t, committing t = false) (tasks s))); [done|].
  clear Hl Hout Hnc. intros s s' _ [(i & c & H) Hnc'] (Hl & Hout & Hnc). unfold task_step in H.
  destruct (tasks s !! i) as [t|] eqn:Ht; [|done]. cbn [mbind option_bind] in H.
  pose proof (proj1 (Forall_lookup _ _) Hout i t Ht) as Hti.
  pose proof (proj1 (Forall_lookup _ _) Hnc i t Ht) as Hci.
  destruct t as [|a|a|a q|a q|a q|a q|a|a|a|a r|a|a q|a]; try done.
  { destruct c as [| |lane]; [|done|].
    - injection H as <-. split; [done|]. split; [|done]. apply Forall_insert; [done|].
      intros E. cbn in E. by injection E as ->.
    - destruct (lane_in_range s lane); injection H as <-; [|done].
      apply Forall_lookup_1 with (i := i) (x := SpinCommit (Z.to_nat lane) 0) in Hnc'; [done|].
      cbn [tasks]. apply list_lookup_insert_eq. by eapply lookup_lt_Some. }
  all: try (destruct c; try done; injection H as <-; split; [done|]; split; [|done];
    apply Forall_insert; [done|]; intros E; cbn in E; injection E as ->; by specialize (Hti eq_refl)).
  all: cbn [lane_of mbind option_bind] in H; destruct (lanes s !! a) as [la|] eqn:Ela; [|done];
    cbn [mbind option_bind lane_access] in H; injection H as <-; cbn [lanes tasks] in *.
  all: destruct (decide (a = k)) as [->|Hak]; [try (by specialize (Hti eq_refl))|
    rewrite list_lookup_insert_ne by done; split; [done|]; split; [|done];
    apply Forall_insert; [done|]; repeat case_match; intros E; cbn in E; by simplify_eq].
  rewrite Hl in Ela. injection Ela as <-. rewrite decide_True in Hnc' |- * by done.
  rewrite list_lookup_insert_eq by (by eapply lookup_lt_Some). split; [done|]. split; [|done].
  by apply Forall_insert.
Qed.

(** ** Interleavings *)

Definition times (n : nat) (i : nat) : list (nat * call) := replicate n (i, CallStart).

(** Task 0 has seen no pending operation and is about to read the sequence number when
    task 1 starts one. *)
Definition overtaken : list (nat * call) :=
  [(0%nat, CallCommit 0)] ++ times 1 0 ++ times 6 1 ++ times 3 0.

(** Two tasks read the sequence number before either writes it. *)
Definition lost_update : list (nat * call) := times 3 0 ++ times 3 1 ++ times 3 0 ++ times 3 1.

(** The lane protocol is not atomic.  With two tasks on one lane there is an interleaving
    after which a commit has recorded the sequence number of an operation that is still
    running and marked the lane idle, and one after which two operations run with the same
    sequence number. *)
Theorem lane_races :
  (∃ st l, rtc (step (λ _, 0)) (aetherfs_percpu_init 1 2) st ∧ lanes st = [l] ∧
    tasks st = [Outside; Running 0 0] ∧ 0 < ll_committed_seq l ∧ ll_state l = LANE_IDLE) ∧
  (∃ st, rtc (step (λ _, 0)) (aetherfs_percpu_init 1 2) st ∧ tasks st = [Running 0 0; Running 0 0]).
Proof.
  split.
  - destruct (run (λ _, 0) overtaken (aetherfs_percpu_init 1 2)) as [st|] eqn:E; [|done].
    pose proof E as E'. vm_compute in E'. injection E' as <-.
    eexists _, _. split; [exact (run_steps _ _ _ _ E)|]. done.
  - destruct (run (λ _, 0) lost_update (aetherfs_percpu_init 1 2)) as [st|] eqn:E; [|done].
    pose proof E as E'. vm_compute in E'. injection E' as <-.
    eexists _. split; [exact (run_steps _ _ _ _ E)|]. done.
Qed.

(** ** The block cache of a CPU *)

(** [struct aetherfs_percpu_data], without the fields no function reads. *)
Record aetherfs_percpu_data := PercpuData {
  pd_active : Z;
  pd_free_count : Z;
  pd_free_list : list Z;
  pd_allocation_count : Z;
  pd_lock_contention : Z;
}.

(** As [aetherfs_percpu_init] leaves it; the list is static and zero. *)
Definition percpu_data_init : aetherfs_percpu_data := PercpuData 0 0 (replicate 64 0) 0 0.

Definition aetherfs_get_percpu (p : aetherfs_percpu_data) : aetherfs_percpu_data :=
  PercpuData (as_int (pd_active p + 1)) (pd_free_count p) (pd_free_list p) (pd_allocation_count p)
    (pd_lock_contention p).

Definition aetherfs_put_percpu (p : aetherfs_percpu_data) : aetherfs_percpu_data :=
  PercpuData (as_int (pd_active p - 1)) (pd_free_count p) (pd_free_list p) (pd_allocation_count p)
    (pd_lock_contention p).

(** [contended]: the lock was held.  An empty cache is to be filled by
    [aetherfs_alloc_blocks(NULL, 0, 64)], whose first access is through the inode. *)
Definition aetherfs_percpu_alloc_block (p : aetherfs_percpu_data) (contended : bool)
    : option (Z * aetherfs_percpu_data) :=
  let contention := if contended then as_int (pd_lock_contention p + 1) else pd_lock_contention p in
  if 0 <? pd_free_count p then
    let count := pd_free_count p - 1 in
    block ← pd_free_list p !! Z.to_nat count;
    Some (block, PercpuData (pd_active p) count (pd_free_list p)
      (as_int (pd_allocation_count p - 1)) contention)
  else None.

(** A full cache passes the block to [aetherfs_free_blocks(NULL, block, 1)], whose first
    access is through the super block. *)
Definition aetherfs_percpu_free_block (p : aetherfs_percpu_data) (block : Z)
    : option aetherfs_percpu_data :=
  if pd_free_count p <? 64 then
    Some (PercpuData (pd_active p) (pd_free_count p + 1)
      (<[Z.to_nat (pd_free_count p) := block]> (pd_free_list p)) (pd_allocation_count p)
      (pd_lock_contention p))
  else None.

(** The first cached block of any CPU is given back in the same way. *)
Fixpoint aetherfs_percpu_flush (cpus : list aetherfs_percpu_data) : option (list aetherfs_percpu_data) :=
  match cpus with
  | [] => Some []
  | p :: cpus => if 0 <? pd_free_count p then None
                 else rest ← aetherfs_percpu_flush cpus; Some (p :: rest)
  end.

Definition aetherfs_get_alloc_contention (cpus : list aetherfs_percpu_data) : Z :=
  foldl (λ total p, as_int (total + pd_lock_contention p)) 0 cpus.

Definition aetherfs_get_active_operations (cpus : list aetherfs_percpu_data) : Z :=
  foldl (λ total p, as_int (total + pd_active p)) 0 cpus.

Definition cache_ok (p : aetherfs_percpu_data) : Prop :=
  len (pd_free_list p) = 64 ∧ 0 ≤ pd_free_count p ≤ 64.

Definition cached (p : aetherfs_percpu_data) : list Z :=
  take (Z.to_nat (pd_free_count p)) (pd_free_list p).

(** The cache is a stack of at most 64 blocks that can neither be filled when it is empty nor
    emptied when it is full. *)
Lemma percpu_cache_is_stack p : cache_ok p →
  (∀ contended, match aetherfs_percpu_alloc_block p contended with
   | None => cached p = []
   | Some (b, p') => cache_ok p' ∧ cached p = cached p' ++ [b]
   end) ∧
  (∀ b, match aetherfs_percpu_free_block p b with
   | None => len (cached p) = 64
   | Some p' => cache_ok p' ∧ cached p' = cached p ++ [b]
   end).
Proof.
  intros [Hl Hc]. unfold len in *. split.
  - intros contended. unfold aetherfs_percpu_alloc_block.
    destruct (Z.ltb_spec 0 (pd_free_count p)) as [Hlt|Hge].
    2: { unfold cached. by replace (Z.to_nat (pd_free_count p)) with 0%nat by lia. }
    destruct (lookup_lt_is_Some_2 (pd_free_list p) (Z.to_nat (pd_free_count p - 1))) as [b Hb]; [lia|].
    rewrite Hb. cbn [mbind option_bind]. split; [unfold cache_ok, len; cbn; lia|].
    unfold cached. cbn [pd_free_count pd_free_list]. rewrite <- take_S_r by done. f_equal. lia.
  - intros b. unfold aetherfs_percpu_free_block.
    destruct (Z.ltb_spec (pd_free_count p) 64) as [Hlt|Hge].
    2: { unfold cached, len. rewrite length_take. lia. }
    split; [unfold cache_ok, len; cbn; rewrite length_insert; lia|].
    unfold cached. cbn [pd_free_count pd_free_list].
    replace (Z.to_nat (pd_free_count p + 1)) with (S (Z.to_nat (pd_free_count p))) by lia.
    erewrite take_S_r by (apply list_lookup_insert_eq; lia). by rewrite take_insert_ge by lia.
Qed.

(** The first allocation on any CPU faults. *)
Lemma fresh_cache_faults contended : aetherfs_percpu_alloc_block percpu_data_init contended = None.
Proof. done. Qed.

(** ** The theorems at concrete inputs *)

Lemma pending_counts_operations_witness :
  ∃ st l, run (λ _, 0) (times 6 1) (aetherfs_percpu_init 4 3) = Some st ∧ lanes st !! 0%nat = Some l ∧
    ll_pending_ops l = 1.
Proof.
  destruct (run (λ _, 0) (times 6 1) (aetherfs_percpu_init 4 3)) as [st|] eqn:E; [|done].
  pose proof E as E'. vm_compute in E'. injection E' as E'.
  destruct (lanes st !! 0%nat) as [l|] eqn:El; [|by subst st].
  exists st, l. split; [done|]. split; [done|].
  rewrite (pending_counts_operations (λ _, 0) 4 3 st 0 l eq_refl (run_steps _ _ _ _ E) El).
  by subst st.
Defined.

(** One operation has run and ended; another task waits. *)
Definition closed_schedule : list (nat * call) := times 6 0 ++ [(0%nat, CallEnd)] ++ times 3 0.

Lemma closed_lane_needs_commit_witness :
  ∃ st st' l, run (λ _, 0) closed_schedule (aetherfs_percpu_init 1 2) = Some st ∧
    run (λ _, 0) (times 2 1) st = Some st' ∧ lanes st' !! 0%nat = Some l ∧
    tasks st' = [Outside; SpinStart 0].
Proof.
  set (l := Lane LANE_COMMITTING 1 0 0).
  exists (Percpu [l] [Outside; Outside]), (Percpu [l] [Outside; SpinStart 0]), l.
  split; [reflexivity|]. split; [reflexivity|]. split; [|reflexivity].
  apply (closed_lane_needs_commit (λ _, 0) 0 (Percpu [l] [Outside; Outside])
    (Percpu [l] [Outside; SpinStart 0]) l); try reflexivity.
  - repeat constructor; intros E; discriminate E.
  - repeat constructor.
  - apply rtc_once. split; [by exists 1%nat, CallStart|]. repeat constructor.
Defined.
