(* ===== verification/Recovery.v ===== *)
(** * Recovery, allocation policy and discard in the kernel

    [kernel/recovery.c] with the data checksums of [kernel/invariants.c] it uses.  Several
    components keep their state behind the one pointer [s_private] of the super block: it is
    a sum of what it can point to, and [None] is the use of one object as another.  What the
    block layer decides (the kind of a device, whether a buffer is found and up to date) is
    an argument. *)

From S2P Require Import Prelude Codec Crc Format Btree Balloc Intent.

(** ** Data checksums *)

(** [struct aetherfs_checksummed_block]: checksum, block number, level, two bytes, four bytes
    of padding, [cb_llog], and the data at byte 24. *)
Definition checksummed_header : Z := 24.

Definition data_checksum (block : bytes) : Z :=
  kernel_aetherfs_crc32c 0xFFFFFFFF (slice checksummed_header (len block - checksummed_header) block).

Definition aetherfs_verify_data_checksum (block : bytes) : result unit :=
  let stored := le_val (slice 0 4 block) in
  if stored =? 0 then Ok tt
  else if stored =? data_checksum block then Ok tt else Err EUCLEAN.

(** The 64-bit block number is stored in 32 bits. *)
Definition aetherfs_compute_data_checksum (block : bytes) (blocknr : Z) : bytes :=
  let block := splice 4 (le_bytes 4 (u32 blocknr)) block in
  let block := splice 8 (le_bytes 2 0) block in
  splice 0 (le_bytes 4 (data_checksum block)) block.

(** ** State *)

Inductive aetherfs_self_heal_mode :=
| SELF_HEAL_DISABLED | SELF_HEAL_REPAIR | SELF_HEAL_QUARANTINE | SELF_HEAL_SCRUB.

#[export] Instance self_heal_mode_eq_dec : EqDecision aetherfs_self_heal_mode.
Proof. solve_decision. Defined.

Inductive aetherfs_device_type :=
| DEVICE_TYPE_UNKNOWN | DEVICE_TYPE_HDD | DEVICE_TYPE_SATA_SSD | DEVICE_TYPE_NVME
| DEVICE_TYPE_ZNS | DEVICE_TYPE_SMR.

Inductive aetherfs_allocation_policy :=
| ALLOC_POLICY_DEFAULT | ALLOC_POLICY_SEQ_HDD | ALLOC_POLICY_SEQ_SSD | ALLOC_POLICY_STREAM_NVME
| ALLOC_POLICY_ZONE_AWARE | ALLOC_POLICY_LOCALITY.

(** [struct aetherfs_self_heal_info], without its work item. *)
Record aetherfs_self_heal_info := SelfHealInfo {
  sh_mode : aetherfs_self_heal_mode;
  sh_last_scrub : Z;
  sh_scrub_interval : Z;
  sh_repair_count : Z;
  sh_corruption_count : Z;
}.

(** [struct aetherfs_device_info] *)
Record aetherfs_device_info := DeviceInfo {
  dev_type : aetherfs_device_type;
  dev_physical_sector : Z;
  dev_logical_sector : Z;
  dev_erase_block : Z;
  dev_capacity : Z;
  dev_queue_depth : Z;
  dev_zoned : bool;
  dev_rotational : bool;
}.

(** [struct aetherfs_allocation_context] *)
Record aetherfs_allocation_context := AllocationContext {
  policy : aetherfs_allocation_policy;
  preferred_ag : Z;
  preferred_device : Z;
  min_extent_size : Z;
  max_extent_size : Z;
  hotness : Z;
  snapshot_pressure : Z;
}.

(** What [s_private] points to. *)
Inductive private :=
| PrivateNull
| PrivateFreeSpace (fsi : aetherfs_free_space_info)
| PrivateSelfHeal (sh : aetherfs_self_heal_info)
| PrivateDevice (dev : aetherfs_device_info).

(** The fields of [struct aetherfs_sb_info] this file uses. *)
Record recovery_info := RecoveryInfo {
  ri_private : private;
  ri_groups : Z;
  ri_dev_count : Z;
  ri_mount_opt : Z;
}.

Definition set_private (p : private) (info : recovery_info) : recovery_info :=
  RecoveryInfo p (ri_groups info) (ri_dev_count info) (ri_mount_opt info).

(** The answers of the request queue of a device. *)
Record request_queue := RequestQueue {
  q_zoned : bool;
  q_nonrot : bool;
  q_nvme : bool;
  q_smr : bool;
  q_discard : bool;
  q_physical_sector : Z;
  q_logical_sector : Z;
  q_nr_requests : Z;
  q_capacity : Z;
}.

(** ** Self healing *)

(** Whatever [s_private] pointed to before is lost. *)
Definition aetherfs_self_heal_init (info : recovery_info) : recovery_info :=
  set_private (PrivateSelfHeal (SelfHealInfo SELF_HEAL_REPAIR 0 86400 0 0)) info.

(** A buffer of the block, and the blocks of the device.  [getblk]: [sb_getblk] succeeds. *)
Definition aetherfs_self_heal_repair_on_read (info : recovery_info) (disk : gmap Z bytes)
    (b_data : bytes) (uptodate getblk : bool) (blocknr : Z)
    : option (result unit * recovery_info * gmap Z bytes) :=
  match ri_private info with
  | PrivateNull => Some (Ok tt, info, disk)
  | PrivateSelfHeal sh =>
      if decide (sh_mode sh = SELF_HEAL_DISABLED) then Some (Ok tt, info, disk)
      else match aetherfs_verify_data_checksum b_data with
      | Ok _ => Some (Ok tt, info, disk)
      | Err _ =>
          let seen := SelfHealInfo (sh_mode sh) (sh_last_scrub sh) (sh_scrub_interval sh)
            (sh_repair_count sh) (as_int (sh_corruption_count sh + 1)) in
          let info1 := set_private (PrivateSelfHeal seen) info in
          if decide (sh_mode sh = SELF_HEAL_QUARANTINE) then Some (Err EUCLEAN, info1, disk)
          else if negb getblk then Some (Err EIO, info1, disk)
          else if uptodate then
            Some (Ok tt, set_private (PrivateSelfHeal (SelfHealInfo (sh_mode sh) (sh_last_scrub sh)
              (sh_scrub_interval sh) (as_int (sh_repair_count sh + 1))
              (as_int (sh_corruption_count sh + 1)))) info, <[blocknr := b_data]> disk)
          else Some (Err EIO, info1, disk)
      end
  | _ => None
  end.

Definition aetherfs_extent_quarantine (disk : gmap Z bytes) (blocksize : Z) (getblk : bool)
    (extent_start extent_len : Z) : result unit * gmap Z bytes :=
  if (extent_start =? 0) || (extent_len =? 0) then (Err EINVAL, disk)
  else if negb getblk then (Err EIO, disk)
  else
    let data := zeros blocksize in
    let data := splice 0 (le_bytes 8 extent_start) data in
    let data := splice 8 (le_bytes 4 extent_len) data in
    let data := splice 12 (le_bytes 4 0x51434152) data in
    (Ok tt, <[extent_start := data]> disk).

Definition aetherfs_scrub_start (info : recovery_info) (now : Z) : option (result recovery_info) :=
  match ri_private info with
  | PrivateNull => Some (Err EINVAL)
  | PrivateSelfHeal sh => Some (Ok (set_private (PrivateSelfHeal (SelfHealInfo (sh_mode sh) now
      (sh_scrub_interval sh) (sh_repair_count sh) (sh_corruption_count sh))) info))
  | _ => None
  end.

(** The last scrub, corruptions and repairs. *)
Definition aetherfs_scrub_status (info : recovery_info) : option (result (Z * Z * Z)) :=
  match ri_private info with
  | PrivateNull => Some (Err EINVAL)
  | PrivateSelfHeal sh =>
      Some (Ok (sh_last_scrub sh, u32 (sh_corruption_count sh), u32 (sh_repair_count sh)))
  | _ => None
  end.

(** ** Devices and allocation contexts *)

Definition detect_device_type (q : request_queue) : aetherfs_device_type :=
  if q_zoned q then DEVICE_TYPE_ZNS
  else if q_nonrot q then if q_nvme q then DEVICE_TYPE_NVME else DEVICE_TYPE_SATA_SSD
  else if q_smr q then DEVICE_TYPE_SMR
  else DEVICE_TYPE_HDD.

(** A device without a queue keeps the zeroed structure. *)
Definition aetherfs_device_info_init (info : recovery_info) (q : option request_queue)
    : recovery_info :=
  set_private (PrivateDevice
    match q with
    | None => DeviceInfo DEVICE_TYPE_UNKNOWN 0 0 0 0 0 false false
    | Some q => DeviceInfo (detect_device_type q) (u32 (q_physical_sector q))
        (u32 (q_logical_sector q)) 0 (q_capacity q) (u8 (q_nr_requests q)) (q_zoned q)
        (negb (q_nonrot q))
    end) info.

Definition aetherfs_device_info_exit (info : recovery_info) : recovery_info :=
  set_private PrivateNull info.

Definition aetherfs_get_device_stats (info : recovery_info) : option (result aetherfs_device_info) :=
  match ri_private info with
  | PrivateNull => Some (Err EINVAL)
  | PrivateDevice dev => Some (Ok dev)
  | _ => None
  end.

(** [None]: [s_private] is another object, or the number of devices is 0 for an NVMe
    device. *)
Definition aetherfs_alloc_init_context (info : recovery_info) (cpu requested_size : Z)
    : option aetherfs_allocation_context :=
  type ← match ri_private info with
         | PrivateNull => Some DEVICE_TYPE_HDD
         | PrivateDevice dev => Some (dev_type dev)
         | _ => None
         end;
  let context policy device max := AllocationContext policy 0 device 1 max 0 0 in
  match type with
  | DEVICE_TYPE_HDD => Some (context ALLOC_POLICY_SEQ_HDD 0 256)
  | DEVICE_TYPE_SATA_SSD => Some (context ALLOC_POLICY_SEQ_SSD 0 128)
  | DEVICE_TYPE_NVME =>
      if ri_dev_count info =? 0 then None
      else Some (context ALLOC_POLICY_STREAM_NVME (cpu mod ri_dev_count info) 64)
  | DEVICE_TYPE_ZNS => Some (context ALLOC_POLICY_ZONE_AWARE 0 32)
  | DEVICE_TYPE_SMR => Some (context ALLOC_POLICY_SEQ_HDD 0 512)
  | DEVICE_TYPE_UNKNOWN => Some (context ALLOC_POLICY_DEFAULT 0 requested_size)
  end.

(** [None]: division by a number of groups of 0. *)
Definition aetherfs_select_ag_for_allocation (info : recovery_info) (cpu : Z)
    (ctx : aetherfs_allocation_context) : option Z :=
  if (0 <? preferred_ag ctx) && (preferred_ag ctx <? ri_groups info) then Some (preferred_ag ctx)
  else if ri_groups info =? 0 then None
  else Some (u32 (u32 (cpu + hotness ctx) mod ri_groups info)).

(** The super block of the allocator, whose [s_private] is this one. *)
Definition aetherfs_alloc_with_policy (info : recovery_info) (sb : aetherfs_sb_info) (cpu : Z)
    (ctx : aetherfs_allocation_context) (size : Z) : option (result Z * aetherfs_sb_info) :=
  ag ← aetherfs_select_ag_for_allocation info cpu ctx;
  Some (aetherfs_alloc_blocks_extended sb size ag).

Definition aetherfs_set_allocation_policy (info : recovery_info) (policy : Z) : recovery_info :=
  RecoveryInfo (ri_private info) (ri_groups info) (ri_dev_count info)
    (Z.lor (Z.land (ri_mount_opt info) (Z.lxor 0xFFFFFFFF (Z.shiftl 7 16)))
      (u32 (Z.shiftl policy 16))).

Definition aetherfs_locality_group_init (info : recovery_info) (num_groups : Z) : recovery_info :=
  RecoveryInfo (ri_private info) num_groups (ri_dev_count info) (ri_mount_opt info).

(** ** Discard *)

(** The flag is not declared in the sources. *)
Definition aetherfs_trim_init (AETHERFS_MOUNT_NODISCARD : Z) (info : recovery_info) : recovery_info :=
  RecoveryInfo (ri_private info) (ri_groups info) (ri_dev_count info)
    (Z.land (ri_mount_opt info) (Z.lnot AETHERFS_MOUNT_NODISCARD)).

(** The start and the number of sectors of the [blkdev_issue_discard] call, if any. *)
Definition aetherfs_trim_device (q : request_queue) (start len : Z) : result (list (Z * Z)) :=
  return_if len =? 0 with EINVAL ;;
  Ok (if negb (q_discard q) then [] else [(start, len)]).

(** The calls for all groups, whose results are ignored. *)
Definition aetherfs_trim_all_free (info : recovery_info) (q : request_queue)
    : option (list (Z * Z)) :=
  match ri_private info with
  | PrivateNull => Some []
  | PrivateFreeSpace fsi =>
      Some (flat_map (λ ag,
        match aetherfs_trim_device q
          (u32 (kernel_AETHERFS_DATA_START_BLOCK + u32 (ag * kernel_AETHERFS_BLOCKS_PER_GROUP)))
          kernel_AETHERFS_BLOCKS_PER_GROUP with
        | Ok calls => calls
        | Err _ => []
        end) (seqZ 0 (fs_ag_count fsi)))
  | _ => None
  end.

Definition aetherfs_stream_hint (q : option request_queue) : result unit :=
  match q with
  | None => Err EINVAL
  | Some q => if q_nonrot q then Ok tt else Err EINVAL
  end.

(** ** Data checksums *)

Lemma data_checksum_header off new block : 0 ≤ off → off + len new ≤ checksummed_header →
  checksummed_header ≤ len block → data_checksum (splice off new block) = data_checksum block.
Proof.
  intros H0 Hn Hl. unfold data_checksum. rewrite len_splice by lia.
  by rewrite slice_splice_after by (unfold checksummed_header in *; lia).
Qed.

(** A block that was given its checksum passes. *)
Lemma data_checksum_roundtrip block blocknr : is_bytes block → checksummed_header ≤ len block →
  aetherfs_verify_data_checksum (aetherfs_compute_data_checksum block blocknr) = Ok tt.
Proof.
  intros Hb Hl. unfold aetherfs_compute_data_checksum, aetherfs_verify_data_checksum.
  set (block1 := splice 8 (le_bytes 2 0) (splice 4 (le_bytes 4 (u32 blocknr)) block)).
  assert (∀ n z, len (le_bytes n z) = Z.of_nat n) as Hle by (intros; unfold len; by rewrite length_le_bytes).
  unfold checksummed_header in Hl.
  assert (len block1 = len block) as Hl1.
  { assert (len (splice 4 (le_bytes 4 (u32 blocknr)) block) = len block) as E by (apply len_splice; rewrite ?Hle; lia).
    unfold block1. rewrite len_splice, E; rewrite ?E, ?Hle; lia. }
  assert (is_bytes block1) as Hb1.
  { unfold block1. repeat apply is_bytes_splice; try apply is_bytes_le_bytes; done. }
  assert (0 ≤ data_checksum block1 < 2 ^ 32) as Hc.
  { apply kernel_crc_range; [lia|by apply is_bytes_slice]. }
  rewrite data_checksum_header by (rewrite ?Hle; unfold checksummed_header; lia).
  assert (slice 0 4 (splice 0 (le_bytes 4 (data_checksum block1)) block1) =
    le_bytes 4 (data_checksum block1)) as ->.
  { change 4 with (Z.of_nat 4) at 1. rewrite <- (Hle 4%nat (data_checksum block1)) at 1.
    apply slice_splice_eq; rewrite ?Hle; lia. }
  rewrite le_val_bytes by (unfold le_range; lia). rewrite Z.eqb_refl.
  by destruct (data_checksum block1 =? 0).
Qed.

(** Reading a block again and again, with the repair on every read: the return codes. *)
Fixpoint reread (n : nat) (info : recovery_info) (disk : gmap Z bytes) (blocknr : Z)
    : option (list (result unit) * recovery_info * gmap Z bytes) :=
  match n with
  | O => Some ([], info, disk)
  | S n =>
      b_data ← disk !! blocknr;
      '(rc, info, disk) ← aetherfs_self_heal_repair_on_read info disk b_data true true blocknr;
      '(rcs, info, disk) ← reread n info disk blocknr;
      Some (rc :: rcs, info, disk)
  end.

(** Repair on read repairs nothing.  A block that fails its checksum can be read any number
    of times: every read reports success and counts one corruption and one repair, but what
    is written back is the corrupted block, which stays as it is and fails the next check. *)
Theorem repair_writes_corruption_back n info sh disk b_data blocknr :
  ri_private info = PrivateSelfHeal sh → sh_mode sh = SELF_HEAL_REPAIR →
  sh_repair_count sh = 0 → sh_corruption_count sh = 0 → Z.of_nat n < 2 ^ 31 →
  disk !! blocknr = Some b_data → aetherfs_verify_data_checksum b_data = Err EUCLEAN →
  ∃ info', reread n info disk blocknr = Some (replicate n (Ok tt), info', disk) ∧
    aetherfs_scrub_status info' = Some (Ok (sh_last_scrub sh, Z.of_nat n, Z.of_nat n)).
Proof.
  intros Hp Hm Hr Hc Hn Hd Hv.
  assert (∀ k info sh, ri_private info = PrivateSelfHeal sh → sh_mode sh = SELF_HEAL_REPAIR →
    sh_repair_count sh = sh_corruption_count sh → 0 ≤ sh_repair_count sh →
    sh_repair_count sh + Z.of_nat k < 2 ^ 31 →
    ∃ info', reread k info disk blocknr = Some (replicate k (Ok tt), info', disk) ∧
      aetherfs_scrub_status info' = Some (Ok (sh_last_scrub sh, sh_repair_count sh + Z.of_nat k,
        sh_repair_count sh + Z.of_nat k))) as Hk.
  { clear -Hd Hv. induction k as [|k IH]; intros info sh Hp Hm He H0 Hlt; cbn [reread].
    - exists info. split; [done|]. unfold aetherfs_scrub_status. rewrite Hp, <- He.
      rewrite !u32_small by (unfold is_u32; lia). by rewrite !Z.add_0_r.
    - rewrite Hd. cbn [mbind option_bind]. unfold aetherfs_self_heal_repair_on_read.
      rewrite Hp, Hm, Hv, decide_False, decide_False by done. cbn [negb mbind option_bind].
      rewrite !as_int_small by lia. rewrite (insert_id disk) by done.
      set (sh' := SelfHealInfo _ _ _ _ _).
      destruct (IH (set_private (PrivateSelfHeal sh') info) sh') as (info' & -> & Hs);
        [done|done|cbn; lia|cbn; lia|cbn; lia|].
      exists info'. split; [done|]. rewrite Hs. cbn. do 3 f_equal; [f_equal|]; lia. }
  destruct (Hk n info sh Hp Hm) as (info' & Hrun & Hs); [lia..|].
  exists info'. split; [exact Hrun|]. by rewrite Hs, Hr.
Qed.

(** ** What is discarded *)

(** A sector is in one of the ranges given to the block layer, which counts sectors of 512
    bytes; a block has eight of them. *)
Definition discarded (calls : list (Z * Z)) (sector : Z) : Prop :=
  ∃ start n, (start, n) ∈ calls ∧ start ≤ sector < start + n.

Definition block_discarded (calls : list (Z * Z)) (b : Z) : Prop :=
  ∀ i, 0 ≤ i < 8 → discarded calls (8 * b + i).

Lemma trim_range info q fsi sector : ri_private info = PrivateFreeSpace fsi → q_discard q = true →
  0 < fs_ag_count fsi < 2048 →
  kernel_AETHERFS_DATA_START_BLOCK ≤ sector <
    kernel_AETHERFS_DATA_START_BLOCK + fs_ag_count fsi * kernel_AETHERFS_BLOCKS_PER_GROUP →
  ∃ calls, aetherfs_trim_all_free info q = Some calls ∧ discarded calls sector.
Proof.
  unfold kernel_AETHERFS_DATA_START_BLOCK, kernel_AETHERFS_BLOCKS_PER_GROUP. intros Hp Hq Hn Hs.
  unfold aetherfs_trim_all_free. rewrite Hp. eexists. split; [reflexivity|].
  set (ag := (sector - 7) / 2097152). assert (0 ≤ ag < fs_ag_count fsi) as Hag.
  { split; [apply Z.div_pos; lia|apply Z.div_lt_upper_bound; lia]. }
  pose proof (Z.div_mod (sector - 7) 2097152) as Hd. fold ag in Hd.
  pose proof (Z.mod_pos_bound (sector - 7) 2097152) as Hm.
  exists (7 + ag * 2097152), 2097152. split; [|lia].
  apply list_elem_of_In, in_flat_map. exists ag. split; [apply list_elem_of_In, elem_of_seqZ; lia|].
  apply list_elem_of_In. unfold aetherfs_trim_device. cbn [reject Z.eqb mbind result_bind].
  rewrite Hq. cbn [negb]. unfold kernel_AETHERFS_DATA_START_BLOCK, kernel_AETHERFS_BLOCKS_PER_GROUP.
  rewrite (u32_small (ag * 2097152)) by (unfold is_u32; lia).
  rewrite u32_small by (unfold is_u32; lia). by apply list_elem_of_singleton.
Qed.

(** C34: [aetherfs_trim_all_free] discards what is in use.  It does not look at the bitmaps and
    passes block numbers where the block layer takes sectors: on any volume, whatever its
    clients hold, it discards the superblock and all metadata blocks behind it, and every
    block held in the first group. *)
Theorem trim_discards_live_blocks info0 ag_count info1 sb own fsi info q :
  0 < ag_count < 2048 → aetherfs_free_space_init info0 ag_count = Ok info1 →
  rtc client_step (info1, (∅ : gset Z)) (sb, own) →
  s_private sb = Some fsi → ri_private info = PrivateFreeSpace fsi → q_discard q = true →
  ∃ calls, aetherfs_trim_all_free info q = Some calls ∧
    (∀ b, AETHERFS_SUPERBLOCK_BLOCK ≤ b ≤ AETHERFS_CHECKPOINT_ROOT_BLOCK → block_discarded calls b) ∧
    (∀ b, b ∈ own → group_of b = 0 → block_discarded calls b).
Proof.
  intros Hc Hi Hr Hp Hpriv Hq.
  assert (client_inv (sb, own)) as (fsi' & Hp' & Hok & Ht).
  { revert Hr. apply (rtc_ind_r (λ st, client_inv st)).
    - destruct (fresh_space _ _ _ Hc Hi) as (f & Hf & Hok). exists f. by split.
    - intros st st' _ Hs. by apply client_step_inv. }
  cbn [fst] in Hp'. rewrite Hp in Hp'. injection Hp' as <-. pose proof (so_count _ Hok) as Hn.
  assert (∃ calls, aetherfs_trim_all_free info q = Some calls) as [calls Hcalls].
  { unfold aetherfs_trim_all_free. rewrite Hpriv. by eexists. }
  assert (∀ b, 1 ≤ b < 40000 → block_discarded calls b) as Hd.
  { intros b Hb i Hi8. destruct (trim_range info q fsi (8 * b + i) Hpriv Hq Hn) as (c & Hc' & Hdis).
    { unfold kernel_AETHERFS_DATA_START_BLOCK, kernel_AETHERFS_BLOCKS_PER_GROUP. lia. }
    rewrite Hcalls in Hc'. by injection Hc' as <-. }
  exists calls. split; [done|]. split.
  - intros b Hb. apply Hd. unfold AETHERFS_SUPERBLOCK_BLOCK, AETHERFS_CHECKPOINT_ROOT_BLOCK in Hb. lia.
  - intros b Hb Hg. destruct (Ht b Hb) as (H7 & _ & Hidx & _). apply Hd.
    unfold group_of, index_of, kernel_AETHERFS_DATA_START_BLOCK, kernel_AETHERFS_BLOCKS_PER_GROUP,
      kernel_AETHERFS_BITMAP_BITS in *.
    pose proof (Z.div_mod (b - 7) 2097152). lia.
Qed.

(** ** The theorems at concrete inputs *)

Definition bad_block : bytes := [1; 0; 0; 0] ++ zeros 28.

Lemma repair_writes_corruption_back_witness :
  let info := aetherfs_self_heal_init (RecoveryInfo PrivateNull 1 1 0) in
  ∃ info', reread 3 info {[ 9 := bad_block ]} 9 = Some (replicate 3 (Ok tt), info', {[ 9 := bad_block ]}) ∧
    aetherfs_scrub_status info' = Some (Ok (0, 3, 3)).
Proof.
  exact (repair_writes_corruption_back 3 (aetherfs_self_heal_init (RecoveryInfo PrivateNull 1 1 0))
    (SelfHealInfo SELF_HEAL_REPAIR 0 86400 0 0) {[ 9 := bad_block ]} bad_block 9
    eq_refl eq_refl eq_refl eq_refl eq_refl (lookup_singleton_eq 9 bad_block) eq_refl).
Defined.

Lemma trim_discards_live_blocks_witness : ∃ info sb fsi calls,
  aetherfs_alloc_blocks_extended info 1 0 = (Ok 7, sb) ∧ s_private sb = Some fsi ∧
  aetherfs_trim_all_free (RecoveryInfo (PrivateFreeSpace fsi) 1 1 0)
    (RequestQueue false true true false true 512 512 64 1000000) = Some calls ∧
  block_discarded calls 1 ∧ block_discarded calls 7.
Proof.
  destruct sample_init as (info & Hi).
  destruct (fresh_first _ 1 _ ltac:(lia) Hi) as (rest & cl & post & Hl & Hs).
  assert (∀ a b c d : bool, len (a :: b :: c :: d :: post) = 32768) as Hlen.
  { intros. unfold len in *. cbn [length]. lia. }
  pose proof (trace_alloc info rest 1 cl [] (false :: false :: false :: post) 32768 1
    (true :: false :: false :: false :: post) ltac:(lia) Hs (Forall_nil_2 _) ltac:(lia) ltac:(lia)
    (Hlen _ _ _ _) ltac:(done) eq_refl) as E1.
  match type of E1 with _ = (_, ?i) => set (sb := i) in E1 end.
  destruct (s_private sb) as [fsi|] eqn:Ep; [|discriminate Ep].
  destruct (trim_discards_live_blocks sample_info 1 info sb ({[ 7 ]} ∪ ∅) fsi
    (RecoveryInfo (PrivateFreeSpace fsi) 1 1 0)
    (RequestQueue false true true false true 512 512 64 1000000)) as (calls & Hc & Hm & Ho);
    [lia|exact Hi| |exact Ep|reflexivity|reflexivity|].
  { apply rtc_once. apply (client_alloc info ∅ 0 7 sb); [lia|exact E1|done]. }
  exists info, sb, fsi, calls. split; [exact E1|]. split; [exact Ep|]. split; [exact Hc|].
  split; [apply Hm; unfold AETHERFS_SUPERBLOCK_BLOCK, AETHERFS_CHECKPOINT_ROOT_BLOCK; lia|].
  apply Ho; [set_solver|reflexivity].
Defined.
