(* ===== verification/DirIndex.v ===== *)
(** * The kernel's directory index

    [kernel/dir_idx.c]: a directory keeps the header of its index in the block that has its
    inode number, and the entries in one leaf block.  The buffers are a map from block
    numbers to contents; [sb_getblk] does not read, so that a block that is not in the map
    has the contents [stale] gives.  [None] is an access outside a block. *)

From S2P Require Import Prelude Codec Crc Format Btree Balloc.

Definition AETHERFS_DIR_LEAF_ENTRIES : Z := 128.
Definition kernel_AETHERFS_MAX_NAMELEN : Z := 255.
Definition DIR_INDEX_HASH : Z := 0.
Definition DIR_INDEX_ORDERED : Z := 1.
Definition dir_hash_seed : Z := 0x12345678.

(** [struct aetherfs_dir_htree] *)
Record aetherfs_dir_htree := Htree {
  h_root_block : Z;
  h_depth : Z;
  h_entries : Z;
  h_hash_seed : Z;
  h_type : Z;
  h_ordered_root : Z;
  h_split_threshold : Z;
  h_reserved : Z;
}.

Definition htree_codec : codec aetherfs_dir_htree :=
  c_iso (λ '(r, (d, (e, (s, (t, (o, (p, x))))))), Htree r d e s t o p x)
    (λ h, (h_root_block h, (h_depth h, (h_entries h, (h_hash_seed h, (h_type h,
      (h_ordered_root h, (h_split_threshold h, h_reserved h))))))))
    (c_le 8 ⊗ c_le 4 ⊗ c_le 4 ⊗ c_le 4 ⊗ c_le 4 ⊗ c_le 8 ⊗ c_le 4 ⊗ c_le 4)%codec.

Lemma htree_lawful : lawful htree_codec.
Proof. solve_lawful. Qed.

#[export] Instance htree_on_disk : OnDisk aetherfs_dir_htree :=
  {| layout := htree_codec; layout_lawful := htree_lawful |}.

(** [struct aetherfs_dir_hash_entry], up to its name. *)
Record aetherfs_dir_hash_entry := HashEntry {
  dhe_hash : Z;
  dhe_next : Z;
  dhe_ino : Z;
  dhe_namelen : Z;
  dhe_flags : Z;
  dhe_checksum : Z;
}.

Definition hash_entry_codec : codec aetherfs_dir_hash_entry :=
  c_iso (λ '(h, (n, (i, (l, (f, c))))), HashEntry h n i l f c)
    (λ e, (dhe_hash e, (dhe_next e, (dhe_ino e, (dhe_namelen e, (dhe_flags e, dhe_checksum e))))))
    (c_le 4 ⊗ c_le 4 ⊗ c_le 8 ⊗ c_le 2 ⊗ c_le 2 ⊗ c_le 4)%codec.

Lemma hash_entry_lawful : lawful hash_entry_codec.
Proof. solve_lawful. Qed.

#[export] Instance hash_entry_on_disk : OnDisk aetherfs_dir_hash_entry :=
  {| layout := hash_entry_codec; layout_lawful := hash_entry_lawful |}.

(** [struct aetherfs_dir_leaf], up to its entries. *)
Record aetherfs_dir_leaf := Leaf {
  dl_type : Z;
  dl_count : Z;
  dl_flags : Z;
  dl_checksum : Z;
  dl_next_leaf : Z;
}.

Definition leaf_codec : codec aetherfs_dir_leaf :=
  c_iso (λ '(t, (c, (f, (s, n)))), Leaf t c f s n)
    (λ l, (dl_type l, (dl_count l, (dl_flags l, (dl_checksum l, dl_next_leaf l)))))
    (c_le 4 ⊗ c_le 4 ⊗ c_le 4 ⊗ c_le 4 ⊗ c_le 8)%codec.

Lemma leaf_lawful : lawful leaf_codec.
Proof. solve_lawful. Qed.

#[export] Instance leaf_on_disk : OnDisk aetherfs_dir_leaf :=
  {| layout := leaf_codec; layout_lawful := leaf_lawful |}.

(** ** Names *)

(** [(uint32_t)name[i]] of a signed [char]. *)
Definition char_u32 (b : Z) : Z := u32 (if b <? 128 then b else b - 256).

Definition aetherfs_hash_name (name : bytes) : Z :=
  let hash := foldl (λ hash c,
    let hash := u32 (u32 (Z.shiftl hash 5) + hash + char_u32 c) in
    Z.lxor hash (Z.shiftr hash 16)) dir_hash_seed name in
  Z.land (Z.lxor (Z.shiftr hash 11) (u32 (Z.shiftl hash 5))) 0xFFFF.

(** ** Buffers *)

(** Buffers, and the super block of the allocator. *)
Record index_state := IndexState {
  d_buffers : gmap Z bytes;
  d_sb : aetherfs_sb_info;
}.

Definition put_buffer (b : Z) (data : bytes) (st : index_state) : index_state :=
  IndexState (<[b := data]> (d_buffers st)) (d_sb st).

(** The fields at the start of a buffer are replaced in place. *)
Definition set_header {A} `{OnDisk A} (a : A) (data : bytes) : bytes := splice 0 (encode a) data.

Section index.
(** The contents of a buffer that was not read. *)
Context (stale : Z → bytes).

Definition sb_getblk (st : index_state) (b : Z) : bytes := default (stale b) (d_buffers st !! b).

Definition aetherfs_dir_index_init (st : index_state) (i_ino : Z) : result index_state :=
  match d_buffers st !! i_ino with
  | None => Err EIO
  | Some data =>
      let h := decode data : aetherfs_dir_htree in
      Ok (put_buffer i_ino (set_header (Htree 0 0 0 dir_hash_seed DIR_INDEX_HASH 0
        AETHERFS_DIR_LEAF_ENTRIES (h_reserved h)) data)
        (IndexState (d_buffers st) (SbInfo (s_private (d_sb st)) (info_free_blocks (d_sb st))
          (s_next_ino (d_sb st)) true (es_blocks_count (d_sb st)))))
  end.

(** [sizeof(struct aetherfs_dir_leaf)], where the entries start. *)
Definition entries_offset : Z := 24.

(** The write of one entry at its place behind [dl_count] entries of its own size, with the
    counter and both checksums. *)
Definition put_entry (name : bytes) (hash ino type : Z) (data : bytes) : option bytes :=
  let leaf := decode data : aetherfs_dir_leaf in
  let entry_size := sizeof aetherfs_dir_hash_entry + len name in
  let off := entries_offset + dl_count leaf * entry_size in
  if len data <? off + entry_size then None
  else
    let old := decode (slice off (sizeof aetherfs_dir_hash_entry) data) : aetherfs_dir_hash_entry in
    let put e data := splice off (encode e) data in
    let e := HashEntry hash (dhe_next old) ino (u16 (len name)) (u16 type) (dhe_checksum old) in
    let data := put e data in
    let e := HashEntry hash (dhe_next old) ino (u16 (len name)) (u16 type)
      (kernel_aetherfs_crc32 (slice off (entry_size - 4) data)) in
    let data := put e data in
    let data := splice (off + sizeof aetherfs_dir_hash_entry) name data in
    let leaf := Leaf (dl_type leaf) (u32 (dl_count leaf + 1)) (dl_flags leaf) (dl_checksum leaf)
      (dl_next_leaf leaf) in
    let data := set_header leaf data in
    Some (set_header (Leaf (dl_type leaf) (dl_count leaf) (dl_flags leaf)
      (kernel_aetherfs_crc32 (slice 0 (len data - 4) data)) (dl_next_leaf leaf)) data).

(** The result and the state: what was changed before an error stays. *)
Definition aetherfs_dir_htree_insert (st : index_state) (i_ino : Z) (name : bytes) (ino type : Z)
    : option (result unit * index_state) :=
  if ino =? 0 then Some (Err EINVAL, st)
  else if kernel_AETHERFS_MAX_NAMELEN <? len name then Some (Err ENAMETOOLONG, st)
  else match d_buffers st !! i_ino with
  | None => Some (Err EIO, st)
  | Some dir_data =>
      let h := decode dir_data : aetherfs_dir_htree in
      let '(leaf_block, st) :=
        if h_root_block h =? 0 then
          let '(b, sb) := aetherfs_alloc_blocks (d_sb st) 1 in
          let st := IndexState (d_buffers st) sb in
          (b, if b =? 0 then st
              else put_buffer i_ino (set_header (Htree b 0 (h_entries h) (h_hash_seed h) (h_type h)
                (h_ordered_root h) (h_split_threshold h) (h_reserved h)) dir_data) st)
        else (h_root_block h, st) in
      if leaf_block =? 0 then Some (Err ENOSPC, st)
      else
        let data := sb_getblk st leaf_block in
        let leaf := decode data : aetherfs_dir_leaf in
        let leaf := if dl_type leaf =? 0
          then Leaf DIR_INDEX_HASH 0 (dl_flags leaf) (dl_checksum leaf) 0 else leaf in
        let '(room, leaf, st) :=
          if AETHERFS_DIR_LEAF_ENTRIES <=? dl_count leaf then
            let '(new_leaf, sb) := aetherfs_alloc_blocks (d_sb st) 1 in
            let st := IndexState (d_buffers st) sb in
            if new_leaf =? 0 then (false, leaf, st)
            else (true, Leaf DIR_INDEX_HASH 0 (dl_flags leaf) (dl_checksum leaf) new_leaf, st)
          else (true, leaf, st) in
        let data := set_header leaf data in
        if negb room then Some (Err ENOSPC, put_buffer leaf_block data st)
        else
          data ← put_entry name (aetherfs_hash_name name) ino type data;
          let st := put_buffer leaf_block data st in
          Some (Ok tt,
            match d_buffers st !! i_ino with
            | None => st
            | Some dir_data =>
                let h := decode dir_data : aetherfs_dir_htree in
                put_buffer i_ino (set_header (Htree (h_root_block h) (h_depth h)
                  (u32 (h_entries h + 1)) (h_hash_seed h) (h_type h) (h_ordered_root h)
                  (h_split_threshold h) (h_reserved h)) dir_data) st
            end)
  end.

(** The loop looks for entry [i] at 32 bytes each; the name is only compared when the hash
    and the length fit. *)
Fixpoint lookup_loop (data name : bytes) (hash : Z) (indices : list Z) : option (result Z) :=
  match indices with
  | [] => Some (Err ENOENT)
  | i :: indices =>
      let off := entries_offset + i * 32 in
      if len data <? off + sizeof aetherfs_dir_hash_entry then None
      else
        let e := decode (slice off (sizeof aetherfs_dir_hash_entry) data) : aetherfs_dir_hash_entry in
        if (dhe_hash e =? hash) && (dhe_namelen e =? len name) then
          if len data <? off + sizeof aetherfs_dir_hash_entry + len name then None
          else if bool_decide (slice (off + sizeof aetherfs_dir_hash_entry) (len name) data = name)
          then Some (Ok (dhe_ino e))
          else lookup_loop data name hash indices
        else lookup_loop data name hash indices
  end.

Definition aetherfs_dir_htree_lookup (st : index_state) (i_ino : Z) (name : bytes) : option (result Z) :=
  match d_buffers st !! i_ino with
  | None => Some (Err EIO)
  | Some dir_data =>
      let leaf_block := h_root_block (decode dir_data : aetherfs_dir_htree) in
      if leaf_block =? 0 then Some (Err ENOENT)
      else
        let data := sb_getblk st leaf_block in
        lookup_loop data name (aetherfs_hash_name name)
          (seqZ 0 (dl_count (decode data : aetherfs_dir_leaf)))
  end.

(** Only the number of entries changes. *)
Definition aetherfs_dir_htree_delete (st : index_state) (i_ino : Z) (name : bytes)
    : option (result unit * index_state) :=
  rc ← aetherfs_dir_htree_lookup st i_ino name;
  match rc with
  | Err e => Some (Err e, st)
  | Ok _ =>
      match d_buffers st !! i_ino with
      | None => Some (Err EIO, st)
      | Some dir_data =>
          let h := decode dir_data : aetherfs_dir_htree in
          Some (Ok tt, put_buffer i_ino (set_header (Htree (h_root_block h) (h_depth h)
            (u32 (h_entries h - 1)) (h_hash_seed h) (h_type h) (h_ordered_root h)
            (h_split_threshold h) (h_reserved h)) dir_data) st)
      end
  end.

(** The number of groups is [s_groups]; [None] is a division by 0. *)
Definition aetherfs_dir_split_if_needed (st : index_state) (i_ino s_groups : Z)
    : option (result unit * index_state) :=
  match d_buffers st !! i_ino with
  | None => Some (Err EIO, st)
  | Some dir_data =>
      let h := decode dir_data : aetherfs_dir_htree in
      if AETHERFS_DIR_LEAF_ENTRIES * 4 <=? h_entries h then
        if s_groups =? 0 then None
        else
          let '(new_block, sb) := aetherfs_alloc_blocks (d_sb st) 1 in
          let st := IndexState (d_buffers st) sb in
          Some (Ok tt, if new_block =? 0 then st
            else put_buffer i_ino (set_header (Htree (h_root_block h) 1 (h_entries h)
              (h_hash_seed h) (h_type h) (h_ordered_root h) (h_split_threshold h)
              (h_reserved h)) dir_data) st)
      else Some (Ok tt, st)
  end.
End index.

(** ** Headers *)

Lemma sizeof_htree : sizeof aetherfs_dir_htree = 40.
Proof. reflexivity. Qed.
Lemma sizeof_hash_entry : sizeof aetherfs_dir_hash_entry = 24.
Proof. reflexivity. Qed.
Lemma sizeof_leaf : sizeof aetherfs_dir_leaf = 24.
Proof. reflexivity. Qed.

Section headers.
Context {A : Type} `{OnDisk A}.

Lemma decode_set_header (a : A) data : wf a → decode (set_header a data) = a.
Proof. intros Ha. unfold set_header, splice. by apply decode_app. Qed.

Lemma len_set_header (a : A) data : wf a → sizeof A ≤ len data → len (set_header a data) = len data.
Proof. intros Ha Hl. unfold set_header. apply len_splice; [lia|]. by rewrite len_encode. Qed.

Lemma is_bytes_set_header (a : A) data : wf a → is_bytes data → is_bytes (set_header a data).
Proof. intros Ha Hb. apply is_bytes_splice; [by apply is_bytes_encode|done]. Qed.

Lemma slice_set_header (a : A) data off n : wf a → sizeof A ≤ off → 0 ≤ n → sizeof A ≤ len data →
  slice off n (set_header a data) = slice off n data.
Proof. intros Ha Ho Hn Hl. unfold set_header. apply slice_splice_after; rewrite ?len_encode by done; lia. Qed.
End headers.

Lemma leaf_wf t c f s n : is_u32 t → is_u32 c → is_u32 f → is_u32 s → is_u64 n → wf (Leaf t c f s n).
Proof. by intros. Qed.

Lemma leaf_fields (l : aetherfs_dir_leaf) : wf l →
  is_u32 (dl_type l) ∧ is_u32 (dl_count l) ∧ is_u32 (dl_flags l) ∧ is_u32 (dl_checksum l) ∧ is_u64 (dl_next_leaf l).
Proof. by intros. Qed.

Lemma hash_entry_wf h n i l f c : is_u32 h → is_u32 n → is_u64 i → is_u16 l → is_u16 f → is_u32 c →
  wf (HashEntry h n i l f c).
Proof. by intros. Qed.

Lemma hash_name_range name : 0 ≤ aetherfs_hash_name name < 2 ^ 16.
Proof.
  unfold aetherfs_hash_name. change 0xFFFF with (Z.ones 16). rewrite Z.land_ones by lia.
  apply Z.mod_pos_bound. lia.
Qed.

Lemma kernel_crc_u32 buf : is_bytes buf → is_u32 (kernel_aetherfs_crc32 buf).
Proof. intros Hb. apply kernel_crc_range; [lia|done]. Qed.

(** ** The entry that is found *)

(** A leaf as the index leaves it: its type is [DIR_INDEX_HASH], which is 0. *)
Definition leaf_block_ok (data : bytes) : Prop :=
  is_bytes data ∧ len data = 4096 ∧ dl_type (decode data : aetherfs_dir_leaf) = DIR_INDEX_HASH.

Definition name_ok (name : bytes) : Prop := is_bytes name ∧ len name ≤ kernel_AETHERFS_MAX_NAMELEN.

(** A leaf whose first entry is the one for [name], with the name behind it. *)
Record first_entry (name : bytes) (ino : Z) (data : bytes) : Prop := {
  fe_size : len data = 4096;
  fe_entry : ∃ next flags sum,
    let e := HashEntry (aetherfs_hash_name name) next ino (len name) flags sum in
    wf e ∧ slice 24 24 data = encode e;
  fe_name : slice 48 (len name) data = name;
}.

(** The only entry is found under its name and under no other. *)
Lemma first_entry_lookup name ino data name' : len name ≤ 255 → first_entry name ino data →
  lookup_loop data name' (aetherfs_hash_name name') [0] =
    Some (if decide (name' = name) then Ok ino else Err ENOENT).
Proof.
  intros Hl [Hd (next & flags & sum & Hw & He) Hn]. pose proof (len_nonneg name). pose proof (len_nonneg name').
  cbn [lookup_loop]. unfold entries_offset. rewrite sizeof_hash_entry, Hd.
  change (24 + 0 * 32) with 24. change (4096 <? 24 + 24) with false. cbn iota.
  rewrite He, decode_encode by exact Hw. cbn [dhe_hash dhe_namelen dhe_ino]. change (24 + 24) with 48.
  destruct (decide (name' = name)) as [->|Hne].
  - rewrite !Z.eqb_refl. cbn [andb]. rewrite (proj2 (Z.ltb_ge _ _)) by lia.
    rewrite Hn. by rewrite bool_decide_eq_true_2.
  - destruct (Z.eqb_spec (aetherfs_hash_name name) (aetherfs_hash_name name')); [|done].
    destruct (Z.eqb_spec (len name) (len name')) as [Eq|]; [|done]. cbn [andb].
    rewrite (proj2 (Z.ltb_ge _ _)) by lia. rewrite <-Eq, Hn. by rewrite bool_decide_eq_false_2.
Qed.

Definition is_block (data : bytes) : Prop := is_bytes data ∧ len data = 4096.

Lemma entry_written (e : aetherfs_dir_hash_entry) data : wf e → is_block data →
  is_block (splice 24 (encode e) data) ∧ slice 24 24 (splice 24 (encode e) data) = encode e.
Proof.
  intros He [Hb Hl]. pose proof (len_encode e He) as El. rewrite sizeof_hash_entry in El.
  split; [split; [apply is_bytes_splice; [by apply is_bytes_encode|done]|rewrite len_splice; lia]|].
  pose proof (slice_splice_eq 24 (encode e) data) as E. rewrite El in E. apply E; lia.
Qed.

(** The entry and its name, before the header is renewed. *)
Lemma name_written name ino (e : aetherfs_dir_hash_entry) data next flags sum : is_bytes name → len name ≤ 255 →
  e = HashEntry (aetherfs_hash_name name) next ino (len name) flags sum → wf e → is_block data →
  is_block (splice 48 name (splice 24 (encode e) data)) ∧
  first_entry name ino (splice 48 name (splice 24 (encode e) data)).
Proof.
  intros Hn Hl -> He Hd. destruct (entry_written _ data He Hd) as [[Hb Hd2] Hs]. pose proof (len_nonneg name).
  set (d2 := splice 24 _ data) in *. assert (len (splice 48 name d2) = 4096) as Hd3 by (rewrite len_splice; lia).
  split; [split; [by apply is_bytes_splice|done]|]. split; [done| |apply slice_splice_eq; lia].
  exists next, flags, sum. split; [done|]. by rewrite slice_splice_before by lia.
Qed.

Lemma header_renewed (l : aetherfs_dir_leaf) name ino data : wf l → is_block data → first_entry name ino data →
  is_block (set_header l data) ∧ first_entry name ino (set_header l data).
Proof.
  intros Hw [Hb Hd] [_ (next & flags & sum & He & Hs) Hn]. pose proof (len_nonneg name).
  assert (len (set_header l data) = 4096) as Hd' by (rewrite len_set_header; rewrite ?sizeof_leaf; done || lia).
  split; [split; [by apply is_bytes_set_header|done]|]. split; [done| |].
  - exists next, flags, sum. split; [done|]. by rewrite slice_set_header by (rewrite ?sizeof_leaf; done || lia).
  - by rewrite slice_set_header by (rewrite ?sizeof_leaf; done || lia).
Qed.

(** An entry written into an empty leaf is the only one found in it. *)
Lemma put_entry_first name ino type data : name_ok name → 0 < ino < 2 ^ 64 → leaf_block_ok data →
  dl_count (decode data : aetherfs_dir_leaf) = 0 →
  ∃ data', put_entry name (aetherfs_hash_name name) ino type data = Some data' ∧
    leaf_block_ok data' ∧ dl_count (decode data' : aetherfs_dir_leaf) = 1 ∧
    ∀ name', lookup_loop data' name' (aetherfs_hash_name name') [0] =
      Some (if decide (name' = name) then Ok ino else Err ENOENT).
Proof.
  intros [Hn Hl] Hino (Hb & Hd & Ht) Hc. unfold kernel_AETHERFS_MAX_NAMELEN in Hl.
  pose proof (len_nonneg name) as H0. pose proof (hash_name_range name) as Hh.
  assert (wf (decode data : aetherfs_dir_leaf)) as Hwf by (apply wf_decode; [done|rewrite sizeof_leaf; lia]).
  destruct (leaf_fields _ Hwf) as (Ht32 & _ & Hf & Hs & Hnx).
  unfold put_entry. rewrite Hc, sizeof_hash_entry, Z.mul_0_l, Z.add_0_r. unfold entries_offset.
  rewrite (proj2 (Z.ltb_ge _ _)) by lia. change (24 + 24) with 48. change (u32 (0 + 1)) with 1.
  replace (u16 (len name)) with (len name) by (symmetry; apply Z.mod_small; lia).
  set (old := decode (slice 24 24 data) : aetherfs_dir_hash_entry).
  assert (wf old) as (_ & Hnext & _ & _ & _ & Hck).
  { apply wf_decode; [by apply is_bytes_slice|rewrite len_slice, sizeof_hash_entry; lia]. }
  assert (∀ c, is_u32 c → wf (HashEntry (aetherfs_hash_name name) (dhe_next old) ino (len name) (u16 type) c)) as Hwe.
  { intros c Hcr. apply hash_entry_wf; try apply u16_range; try done; unfold is_u32, is_u64, is_u16; lia. }
  destruct (entry_written _ data (Hwe _ Hck) (conj Hb Hd)) as [Hb1 _].
  set (d1 := splice 24 _ data) in *. set (crc := kernel_aetherfs_crc32 (slice 24 _ d1)).
  assert (is_u32 crc) as Hcrc by (apply kernel_crc_u32, is_bytes_slice, Hb1).
  destruct (name_written name ino _ d1 (dhe_next old) (u16 type) crc Hn Hl eq_refl (Hwe crc Hcrc) Hb1) as [Hb3 Hf3].
  set (d3 := splice 48 name _) in *. set (l4 := Leaf _ 1 _ _ _) in *.
  assert (wf l4) as Hw4 by by apply leaf_wf.
  destruct (header_renewed l4 name ino d3 Hw4 Hb3 Hf3) as [Hb4 Hf4].
  set (d4 := set_header l4 d3) in *. cbn [dl_type dl_count dl_flags dl_next_leaf l4]. set (l5 := Leaf _ 1 _ _ _).
  assert (wf l5) as Hw5 by (apply leaf_wf; try done; apply kernel_crc_u32, is_bytes_slice, Hb4).
  destruct (header_renewed l5 name ino d4 Hw5 Hb4 Hf4) as [[Hb5 Hd5] Hf5].
  exists (set_header l5 d4). split; [done|].
  split; [split; [done|split; [done|by rewrite decode_set_header]]|].
  split; [by rewrite decode_set_header|]. intros name'. by apply first_entry_lookup.
Qed.

(** ** Directories *)

Lemma htree_wf r d e s t o p x : is_u64 r → is_u32 d → is_u32 e → is_u32 s → is_u32 t → is_u64 o →
  is_u32 p → is_u32 x → wf (Htree r d e s t o p x).
Proof. by intros. Qed.

Lemma htree_fields (h : aetherfs_dir_htree) : wf h →
  is_u64 (h_root_block h) ∧ is_u32 (h_depth h) ∧ is_u32 (h_entries h) ∧ is_u32 (h_hash_seed h) ∧
  is_u32 (h_type h) ∧ is_u64 (h_ordered_root h) ∧ is_u32 (h_split_threshold h) ∧ is_u32 (h_reserved h).
Proof. by intros. Qed.

Section directory.
Context (stale : Z → bytes).

(** The directory block is there, and [b] is its leaf block or the one it will be given. *)
Definition index_ok (st : index_state) (i_ino b : Z) : Prop :=
  0 < b < 2 ^ 64 ∧ b ≠ i_ino ∧ leaf_block_ok (sb_getblk stale st b) ∧
  ∃ dir_data, d_buffers st !! i_ino = Some dir_data ∧ is_bytes dir_data ∧ len dir_data = 4096 ∧
    (h_root_block (decode dir_data : aetherfs_dir_htree) = b ∨
     h_root_block (decode dir_data : aetherfs_dir_htree) = 0 ∧
       (aetherfs_alloc_blocks (d_sb st) 1).1 = b).

Lemma getblk_put st b b' data : sb_getblk stale (put_buffer b data st) b' =
  if decide (b' = b) then data else sb_getblk stale st b'.
Proof.
  unfold sb_getblk, put_buffer. cbn [d_buffers]. destruct (decide (b' = b)) as [->|Hne].
  - by rewrite lookup_insert_eq.
  - by rewrite lookup_insert_ne.
Qed.

(** The leaf block as the insertion finds it, in a directory that points to it. *)
Lemma insert_reset st i_ino b : index_ok st i_ino b →
  ∃ st1 dir_data, leaf_block_ok (sb_getblk stale st1 b) ∧
    d_buffers st1 !! i_ino = Some dir_data ∧ is_bytes dir_data ∧ len dir_data = 4096 ∧
    h_root_block (decode dir_data : aetherfs_dir_htree) = b ∧
    ∀ name ino type, ino ≠ 0 → len name ≤ kernel_AETHERFS_MAX_NAMELEN →
      aetherfs_dir_htree_insert stale st i_ino name ino type =
      let leaf := decode (sb_getblk stale st1 b) : aetherfs_dir_leaf in
      data ← put_entry name (aetherfs_hash_name name) ino type
        (set_header (Leaf DIR_INDEX_HASH 0 (dl_flags leaf) (dl_checksum leaf) 0) (sb_getblk stale st1 b));
      let h := decode dir_data : aetherfs_dir_htree in
      Some (Ok tt, put_buffer i_ino (set_header (Htree (h_root_block h) (h_depth h)
        (u32 (h_entries h + 1)) (h_hash_seed h) (h_type h) (h_ordered_root h)
        (h_split_threshold h) (h_reserved h)) dir_data) (put_buffer b data st1)).
Proof.
  intros (Hb & Hne & Hleaf & dir_data & Hd & Hdb & Hdl & Hroot).
  assert (wf (decode dir_data : aetherfs_dir_htree)) as Hwf.
  { apply wf_decode; [done|rewrite sizeof_htree; lia]. }
  destruct (htree_fields _ Hwf) as (H1 & H2 & H3 & H4 & H5 & H6 & H7 & H8).
  destruct Hroot as [Hroot|[Hroot Halloc]].
  - exists st, dir_data. split; [done|]. split; [done|]. split; [done|]. split; [done|]. split; [done|].
    intros name ino type Hi Hn. unfold aetherfs_dir_htree_insert.
    rewrite (proj2 (Z.eqb_neq _ _) Hi), (proj2 (Z.ltb_ge _ _) Hn), Hd, Hroot.
    rewrite (proj2 (Z.eqb_neq b 0)) by lia. cbn zeta iota. rewrite ?(proj2 (Z.eqb_neq b 0)) by lia.
    destruct Hleaf as (_ & _ & ->). cbn [Z.eqb DIR_INDEX_HASH dl_count].
    change (AETHERFS_DIR_LEAF_ENTRIES <=? 0) with false. cbn [negb].
    destruct (put_entry _ _ _ _ _) as [data|]; [|done]. cbn [mbind option_bind].
    unfold put_buffer at 1. cbn [d_buffers]. rewrite lookup_insert_ne by done. rewrite Hd.
    by rewrite Hroot.
  - set (h := decode dir_data : aetherfs_dir_htree) in *.
    set (h1 := Htree b 0 (h_entries h) (h_hash_seed h) (h_type h) (h_ordered_root h)
      (h_split_threshold h) (h_reserved h)).
    assert (wf h1) as Hw1 by (apply htree_wf; (done || unfold is_u64, is_u32; lia)).
    exists (put_buffer i_ino (set_header h1 dir_data) (IndexState (d_buffers st) (aetherfs_alloc_blocks (d_sb st) 1).2)),
      (set_header h1 dir_data).
    split; [rewrite getblk_put, decide_False by done; exact Hleaf|].
    split; [apply lookup_insert_eq|]. split; [by apply is_bytes_set_header|].
    split; [rewrite len_set_header; rewrite ?sizeof_htree; done || lia|].
    split; [by rewrite decode_set_header|].
    intros name ino type Hi Hn. unfold aetherfs_dir_htree_insert.
    rewrite (proj2 (Z.eqb_neq _ _) Hi), (proj2 (Z.ltb_ge _ _) Hn), Hd. fold h. rewrite Hroot.
    cbn [Z.eqb]. destruct (aetherfs_alloc_blocks (d_sb st) 1) as [b' sb]. cbn [fst snd] in *. subst b'.
    rewrite (proj2 (Z.eqb_neq b 0)) by lia. fold h1. cbn zeta iota. rewrite ?(proj2 (Z.eqb_neq b 0)) by lia.
    rewrite getblk_put, decide_False by done.
    change (sb_getblk stale (IndexState (d_buffers st) sb) b) with (sb_getblk stale st b).
    destruct Hleaf as (_ & _ & ->). cbn [Z.eqb DIR_INDEX_HASH dl_count].
    change (AETHERFS_DIR_LEAF_ENTRIES <=? 0) with false. cbn [negb].
    destruct (put_entry _ _ _ _ _) as [data|]; [|done]. cbn [mbind option_bind].
    unfold put_buffer at 1. cbn [d_buffers]. rewrite lookup_insert_ne by done.
    unfold put_buffer at 1. cbn [d_buffers]. by rewrite lookup_insert_eq.
Qed.

(** A directory with a leaf that holds one entry. *)
Definition one_entry (st : index_state) (i_ino b : Z) : Prop :=
  ∃ dir_data, d_buffers st !! i_ino = Some dir_data ∧
    h_root_block (decode dir_data : aetherfs_dir_htree) = b ∧
    dl_count (decode (sb_getblk stale st b) : aetherfs_dir_leaf) = 1.

(** One insertion, and everything that can be looked up after it. *)
Lemma insert_then_lookup st i_ino b name ino type : index_ok st i_ino b → name_ok name → 0 < ino < 2 ^ 64 →
  ∃ st', aetherfs_dir_htree_insert stale st i_ino name ino type = Some (Ok tt, st') ∧
    index_ok st' i_ino b ∧ one_entry st' i_ino b ∧
    ∀ name', aetherfs_dir_htree_lookup stale st' i_ino name' =
      Some (if decide (name' = name) then Ok ino else Err ENOENT).
Proof.
  intros Hok Hn Hino. pose proof Hok as (Hb & Hne & _).
  destruct (insert_reset st i_ino b Hok) as (st1 & dir_data & Hleaf & Hd & Hdb & Hdl & Hroot & Hins).
  rewrite Hins by (apply Hn || lia). clear Hins Hok.
  set (data := sb_getblk stale st1 b) in *. pose proof Hleaf as (Hlb & Hll & _).
  assert (wf (decode data : aetherfs_dir_leaf)) as Hwf by (apply wf_decode; [done|rewrite sizeof_leaf; lia]).
  destruct (leaf_fields _ Hwf) as (_ & _ & Hf & Hs & _).
  cbn zeta. set (l := Leaf _ 0 _ _ _). assert (wf l) as Hwl by (by apply leaf_wf).
  destruct (put_entry_first name ino type (set_header l data) Hn Hino) as (data' & -> & Hok' & Hc & Hlook).
  { split; [by apply is_bytes_set_header|]. split; [rewrite len_set_header; rewrite ?sizeof_leaf; done || lia|].
    by rewrite decode_set_header. }
  { by rewrite decode_set_header. }
  cbn [mbind option_bind]. eexists. split; [reflexivity|].
  assert (wf (decode dir_data : aetherfs_dir_htree)) as Hwh.
  { apply wf_decode; [done|rewrite sizeof_htree; lia]. }
  destruct (htree_fields _ Hwh) as (H1 & H2 & H3 & H4 & H5 & H6 & H7 & H8).
  set (h := Htree _ _ _ _ _ _ _ _).
  assert (wf h) as Hw by (apply htree_wf; try done; apply u32_range).
  split.
  - split; [done|]. split; [done|].
    split; [rewrite getblk_put, decide_False, getblk_put, decide_True by done; exact Hok'|].
    exists (set_header h dir_data). split; [apply lookup_insert_eq|].
    split; [by apply is_bytes_set_header|]. split; [rewrite len_set_header; rewrite ?sizeof_htree; done || lia|].
    left. by rewrite decode_set_header.
  - split.
    { exists (set_header h dir_data). split; [apply lookup_insert_eq|]. split; [by rewrite decode_set_header|].
      by rewrite getblk_put, decide_False, getblk_put, decide_True by done. }
    intros name'. unfold aetherfs_dir_htree_lookup. unfold put_buffer at 1. cbn [d_buffers].
    rewrite lookup_insert_eq, decode_set_header by done. cbn [h_root_block h]. rewrite Hroot.
    rewrite (proj2 (Z.eqb_neq b 0)) by lia.
    rewrite getblk_put, decide_False, getblk_put, decide_True by done. rewrite Hc. apply Hlook.
Qed.

(** Insertions one after the other: the results and the state. *)
Fixpoint insert_all (st : index_state) (i_ino : Z) (entries : list (bytes * Z * Z))
    : option (list (result unit) * index_state) :=
  match entries with
  | [] => Some ([], st)
  | (name, ino, type) :: entries =>
      '(rc, st) ← aetherfs_dir_htree_insert stale st i_ino name ino type;
      '(rcs, st) ← insert_all st i_ino entries;
      Some (rc :: rcs, st)
  end.

Definition entry_ok (x : bytes * Z * Z) : Prop := name_ok x.1.1 ∧ 0 < x.1.2 < 2 ^ 64.

(** The directory index remembers one entry.  Every insertion succeeds, but each finds the
    type of the leaf to be 0, which is also the code of a hash leaf, and starts the leaf
    afresh: after any sequence of insertions the last name is found with its inode and no
    other name is. *)
Theorem index_remembers_last st i_ino b entries name ino type :
  index_ok st i_ino b → Forall entry_ok (entries ++ [(name, ino, type)]) →
  ∃ st', insert_all st i_ino (entries ++ [(name, ino, type)]) =
      Some (replicate (S (length entries)) (Ok tt), st') ∧
    ∀ name', aetherfs_dir_htree_lookup stale st' i_ino name' =
      Some (if decide (name' = name) then Ok ino else Err ENOENT).
Proof.
  intros Hok Hall. revert st Hok. induction entries as [|[[n i] t] entries IH]; intros st Hok.
  - apply Forall_singleton in Hall as [Hn Hi]. cbn [fst snd] in *.
    destruct (insert_then_lookup st i_ino b name ino type Hok Hn Hi) as (st' & Hins & _ & _ & Hl).
    exists st'. cbn [app insert_all]. rewrite Hins. by split.
  - apply Forall_cons in Hall as [[Hn Hi] Hall]. cbn [fst snd] in *.
    destruct (insert_then_lookup st i_ino b n i t Hok Hn Hi) as (st1 & Hins & Hok1 & _).
    destruct (IH Hall st1 Hok1) as (st' & Hrest & Hl).
    exists st'. cbn [app insert_all]. rewrite Hins. cbn [mbind option_bind]. rewrite Hrest. by split.
Qed.
End directory.

(** ** The theorem at a concrete input *)

Definition blank_block (_ : Z) : bytes := zeros 4096.

(** An empty directory in block 20; block 10 is the next one the allocator gives. *)
Definition sample_dir : index_state :=
  IndexState {[ 20 := zeros 4096 ]} (SbInfo None 100 3 false 1000000).

Lemma blank_leaf_ok : leaf_block_ok (zeros 4096).
Proof.
  split; [apply is_bytes_zeros|]. split; [rewrite len_zeros; lia|].
  assert (bool_decide (dl_type (decode (zeros 4096) : aetherfs_dir_leaf) = DIR_INDEX_HASH) = true) as H
    by (vm_compute; reflexivity).
  exact (bool_decide_eq_true_1 _ H).
Qed.

Lemma sample_dir_ok : index_ok blank_block sample_dir 20 10.
Proof.
  split; [lia|]. split; [done|]. split; [exact blank_leaf_ok|].
  exists (zeros 4096). split; [apply lookup_singleton_eq|]. split; [apply is_bytes_zeros|].
  split; [rewrite len_zeros; lia|]. right. split; vm_compute; reflexivity.
Qed.

Lemma index_remembers_last_witness : ∃ st',
  insert_all blank_block sample_dir 20 [([97], 30, 1); ([98], 31, 1)] = Some ([Ok tt; Ok tt], st') ∧
  aetherfs_dir_htree_lookup blank_block st' 20 [97] = Some (Err ENOENT) ∧
  aetherfs_dir_htree_lookup blank_block st' 20 [98] = Some (Ok 31).
Proof.
  destruct (index_remembers_last blank_block sample_dir 20 10 [([97], 30, 1)] [98] 31 1 sample_dir_ok)
    as (st' & Hrun & Hl).
  - repeat constructor; unfold is_byte; cbn; try lia; discriminate.
  - exists st'. split; [exact Hrun|].
    split; rewrite Hl; [rewrite decide_False by discriminate|rewrite decide_True by reflexivity]; reflexivity.
Defined.
