(* ===== verification/Numa.v ===== *)
(** * The caches of the NUMA nodes, and work on directories

    The rest of [kernel/percpu.c].  The array of nodes and the memory the buffers live in are
    the state; which node and CPU a call runs on, whether memory is left, and what counters
    other CPUs show are arguments. *)

From S2P Require Import Prelude Codec Crc Btree Balloc Intent Lanes.

Definition AETHERFS_NUMA_MAX_NODES : Z := 8.

(** [struct aetherfs_numa_info].  The list of buffers is [None] where its head is not
    initialized: its pointers are null. *)
Record aetherfs_numa_info := NumaInfo {
  ni_node : Z;
  ni_ncpus : Z;
  ni_cache_size : Z;
  ni_cache_list : option (list Z);
  ni_refs : Z;
}.

#[export] Instance numa_info_eq_dec : EqDecision aetherfs_numa_info.
Proof. solve_decision. Defined.

(** The static array, and the buffers by their address. *)
Record numa_state := NumaState {
  numa_info : list aetherfs_numa_info;
  numa_heap : gmap Z bytes;
}.

Definition numa_zero : list aetherfs_numa_info :=
  replicate (Z.to_nat AETHERFS_NUMA_MAX_NODES) (NumaInfo 0 0 0 None 0).

(** The last loop of [aetherfs_percpu_init], over the nodes that are online. *)
Definition percpu_init_nodes (online : list Z) (num_possible_cpus : Z)
    (infos : list aetherfs_numa_info) : list aetherfs_numa_info :=
  foldl (λ infos node,
    if node <? AETHERFS_NUMA_MAX_NODES
    then alter (λ ni, NumaInfo node num_possible_cpus (ni_cache_size ni) (Some []) 0) (Z.to_nat node) infos
    else infos) infos online.

Definition aetherfs_numa_get_node (numa_node_id : Z) : Z :=
  if AETHERFS_NUMA_MAX_NODES <=? numa_node_id then 0 else numa_node_id.

(** The counters of a node. *)
Definition numa_count (node refs size : Z) (st : numa_state) : numa_state :=
  NumaState (alter (λ ni, NumaInfo (ni_node ni) (ni_ncpus ni) (u64 (ni_cache_size ni + size))
    (ni_cache_list ni) (as_int (ni_refs ni + refs))) (Z.to_nat node) (numa_info st)) (numa_heap st).

(** [kmalloc]: the address and what the memory holds, or nothing. *)
Definition aetherfs_numa_alloc_cache (numa_node_id size : Z) (kmalloc : option (Z * bytes))
    (st : numa_state) : option Z * numa_state :=
  match kmalloc with
  | None => (None, st)
  | Some (cache, contents) =>
      (Some cache, numa_count (aetherfs_numa_get_node numa_node_id) 1 size
        (NumaState (numa_info st) (<[cache := contents]> (numa_heap st))))
  end.

(** The node is that of the CPU that frees. *)
Definition aetherfs_numa_free_cache (numa_node_id : Z) (cache : option Z) (size : Z)
    (st : numa_state) : numa_state :=
  match cache with
  | None => st
  | Some cache =>
      let st := numa_count (aetherfs_numa_get_node numa_node_id) (-1) (- size) st in
      NumaState (numa_info st) (delete cache (numa_heap st))
  end.

Section meta.
(** The [struct list_head] that the element [cache] of a list has at its start, which depends
    on the whole list. *)
Context (list_head_bytes : list Z → Z → bytes).

(** [list_add] writes to the new element and to the one that was first; [None] is a buffer that
    is gone or too short for the pointers. *)
Definition relink (caches : list Z) (heap : gmap Z bytes) : option (gmap Z bytes) :=
  foldl (λ heap cache,
    heap ← heap; contents ← heap !! cache;
    if len contents <? 16 then None
    else Some (<[cache := splice 0 (list_head_bytes caches cache) contents]> heap))
    (Some heap) (take 2 caches).

(** The first node is read before the allocation, which reads it again. *)
Definition aetherfs_numa_cached_meta (numa_node_id numa_node_id' : Z) (data : bytes) (size : Z)
    (kmalloc : option (Z * bytes)) (st : numa_state) : option (result unit * numa_state) :=
  let node := aetherfs_numa_get_node numa_node_id in
  let '(buf, st) := aetherfs_numa_alloc_cache numa_node_id' size kmalloc st in
  match buf with
  | None => Some (Err ENOMEM, st)
  | Some buf =>
      contents ← numa_heap st !! buf;
      if (len data <? size) || (len contents <? size) then None
      else
        let heap := <[buf := splice 0 (slice 0 size data) contents]> (numa_heap st) in
        ni ← numa_info st !! Z.to_nat node;
        caches ← ni_cache_list ni;
        heap ← relink (buf :: caches) heap;
        Some (Ok tt, NumaState (<[Z.to_nat node := NumaInfo (ni_node ni) (ni_ncpus ni) (ni_cache_size ni)
          (Some (buf :: caches)) (ni_refs ni)]> (numa_info st)) heap)
  end.
End meta.

(** [node < 0 || node >= nr_online_nodes()], and what the scheduler answers. *)
Definition aetherfs_bind_to_node (node nr_online_nodes : Z) (set_cpus_allowed_ptr : result unit)
    : result unit :=
  return_if (node <? 0) || (nr_online_nodes <=? node) with EINVAL ;;
  set_cpus_allowed_ptr.

Definition aetherfs_get_cpu_locality (raw_smp_processor_id : Z) : Z := raw_smp_processor_id.

(** [AETHERFS_MAX_AG] is not declared in the sources; [None] is a division by 0. *)
Definition aetherfs_alloc_local (AETHERFS_MAX_AG : Z) (info : aetherfs_sb_info) (cpu count : Z)
    : option (result Z * aetherfs_sb_info) :=
  let cpu := aetherfs_get_cpu_locality cpu in
  if AETHERFS_MAX_AG =? 0 then None
  else Some (aetherfs_alloc_blocks_extended info count (u32 (Z.rem cpu AETHERFS_MAX_AG))).

(** ** Work on directories *)

Section parallel.
(** Inodes and functions of works. *)
Context {I W : Type}.

Record aetherfs_parallel_dir := ParallelDir {
  pd_inode : I;
  pd_cpu : Z;
  pd_work : option W;
  pd_in_progress : Z;
}.

Definition aetherfs_parallel_dir_init (dir : option I) (pdir : option aetherfs_parallel_dir) (cpu : Z)
    : result aetherfs_parallel_dir :=
  match dir, pdir with
  | Some dir, Some pdir => Ok (ParallelDir dir cpu (pd_work pdir) 0)
  | _, _ => Err EINVAL
  end.

(** The structure, and the CPU and function that are queued. *)
Definition aetherfs_parallel_dir_schedule (pdir : option aetherfs_parallel_dir) (work_fn : option W)
    : option (aetherfs_parallel_dir * (Z * W)) :=
  pdir ← pdir; work_fn ← work_fn;
  Some (ParallelDir (pd_inode pdir) (pd_cpu pdir) (Some work_fn) (pd_in_progress pdir),
    (pd_cpu pdir, work_fn)).

(** The values [pd_in_progress] is seen with, round by round, and the work that is flushed. *)
Fixpoint parallel_dir_spin (reads : list Z) : outcome unit :=
  match reads with
  | [] => OutOfFuel
  | v :: reads => if 0 <? v then parallel_dir_spin reads else Done tt
  end.

Definition aetherfs_parallel_dir_wait (pdir : option aetherfs_parallel_dir) (reads : list Z)
    : outcome (result (option W)) :=
  match pdir with
  | None => Done (Err EINVAL)
  | Some pdir => parallel_dir_spin reads ≫= λ _, Done (Ok (pd_work pdir))
  end.
End parallel.
Arguments aetherfs_parallel_dir : clear implicits.

(** At module exit the blocks of the CPUs are given back, and the counters of the nodes are
    printed. *)
Definition aetherfs_percpu_exit (cpus : list aetherfs_percpu_data) (online : list Z)
    (infos : list aetherfs_numa_info) : option (list aetherfs_percpu_data * list (Z * Z * Z)) :=
  cpus ← aetherfs_percpu_flush cpus;
  Some (cpus, omap (λ node, if node <? AETHERFS_NUMA_MAX_NODES
    then ni ← infos !! Z.to_nat node; Some (node, ni_cache_size ni, ni_refs ni) else None) online).

(** ** The counters *)

Lemma u32_as_int x : u32 (as_int x) = u32 x.
Proof.
  unfold as_int. destruct (_ <? _); unfold u32; [apply Z.mod_mod; lia|].
  rewrite <- (Z.mod_add (x mod 2 ^ 32 - 2 ^ 32) 1) by lia.
  replace (x mod 2 ^ 32 - 2 ^ 32 + 1 * 2 ^ 32) with (x mod 2 ^ 32) by lia. apply Z.mod_mod. lia.
Qed.

Lemma as_int_add x y : as_int (as_int x + y) = as_int (x + y).
Proof.
  assert (u32 (as_int x + y) = u32 (x + y)) as E; [|by unfold as_int at 1 3; rewrite E].
  pose proof (u32_as_int x) as H. unfold u32 in *. by rewrite Z.add_mod, H, <- Z.add_mod by lia.
Qed.

Lemma u64_add x y : u64 (u64 x + y) = u64 (x + y).
Proof. unfold u64. apply Z.add_mod_idemp_l. lia. Qed.

(** Calls in the order they happen, with the node each runs on. *)
Inductive numa_event :=
| NumaAlloc (numa_node_id size : Z) (cache : Z) (contents : bytes)
| NumaFree (numa_node_id : Z) (cache size : Z).

Definition numa_step (st : numa_state) (e : numa_event) : numa_state :=
  match e with
  | NumaAlloc node size cache contents => (aetherfs_numa_alloc_cache node size (Some (cache, contents)) st).2
  | NumaFree node cache size => aetherfs_numa_free_cache node (Some cache) size st
  end.

Definition event_node (e : numa_event) : Z :=
  match e with NumaAlloc node _ _ _ | NumaFree node _ _ => aetherfs_numa_get_node node end.

(** What an event adds to the references and to the bytes of a node. *)
Definition event_refs (n : nat) (e : numa_event) : Z :=
  if decide (Z.to_nat (event_node e) = n) then match e with NumaAlloc _ _ _ _ => 1 | NumaFree _ _ _ => -1 end
  else 0.
Definition event_bytes (n : nat) (e : numa_event) : Z :=
  if decide (Z.to_nat (event_node e) = n)
  then match e with NumaAlloc _ size _ _ => size | NumaFree _ _ size => - size end else 0.

Definition total (f : numa_event → Z) (events : list numa_event) : Z := foldr Z.add 0 (map f events).

Lemma numa_count_lookup node refs size st n ni : numa_info st !! n = Some ni →
  numa_info (numa_count node refs size st) !! n =
  Some (if decide (Z.to_nat node = n)
    then NumaInfo (ni_node ni) (ni_ncpus ni) (u64 (ni_cache_size ni + size)) (ni_cache_list ni)
      (as_int (ni_refs ni + refs)) else ni).
Proof.
  intros Hn. unfold numa_count. cbn [numa_info]. destruct (decide (Z.to_nat node = n)) as [<-|Hne].
  - by rewrite list_lookup_alter_eq, Hn.
  - by rewrite list_lookup_alter_ne, Hn.
Qed.

Lemma numa_step_lookup st e n r b ni : numa_info st !! n = Some ni →
  ni_refs ni = as_int r → ni_cache_size ni = u64 b →
  ∃ ni', numa_info (numa_step st e) !! n = Some ni' ∧
    ni_refs ni' = as_int (r + event_refs n e) ∧ ni_cache_size ni' = u64 (b + event_bytes n e).
Proof.
  intros Hn Hr Hb. destruct e as [node size cache contents|node cache size];
    unfold numa_step, aetherfs_numa_alloc_cache, aetherfs_numa_free_cache, event_refs, event_bytes, event_node;
    cbn [snd numa_info]; (erewrite numa_count_lookup by exact Hn); (eexists; split; [reflexivity|]);
    destruct (decide _); cbn [ni_refs ni_cache_size];
    rewrite ?Hr, ?Hb, ?as_int_add, ?u64_add, ?Z.add_0_r; done.
Qed.

(** A node counts the allocations minus the releases of the calls that ran on it, whatever
    node a buffer is from. *)
Theorem numa_counters events st n r b ni : numa_info st !! n = Some ni →
  ni_refs ni = as_int r → ni_cache_size ni = u64 b →
  ∃ ni', numa_info (foldl numa_step st events) !! n = Some ni' ∧
    ni_refs ni' = as_int (r + total (event_refs n) events) ∧
    ni_cache_size ni' = u64 (b + total (event_bytes n) events).
Proof.
  revert st r b ni. induction events as [|e events IH]; intros st r b ni Hn Hr Hb.
  - exists ni. rewrite !Z.add_0_r. by split.
  - destruct (numa_step_lookup st e n r b ni Hn Hr Hb) as (ni1 & Hn1 & Hr1 & Hb1).
    destruct (IH (numa_step st e) _ _ ni1 Hn1 Hr1 Hb1) as (ni' & Hn' & Hr' & Hb').
    exists ni'. unfold total. cbn [map foldr]. rewrite !Z.add_assoc. by split.
Qed.

Definition two_nodes : numa_state := NumaState (percpu_init_nodes [0; 1] 4 numa_zero) ∅.

(** A buffer that is allocated on node 0 and freed on node 1. *)
Lemma numa_counters_witness : ∃ ni0 ni1,
  let st := foldl numa_step two_nodes [NumaAlloc 0 64 1000 (zeros 64); NumaFree 1 1000 64] in
  numa_heap st = ∅ ∧ numa_info st !! 0%nat = Some ni0 ∧ ni_refs ni0 = 1 ∧ ni_cache_size ni0 = 64 ∧
  numa_info st !! 1%nat = Some ni1 ∧ ni_refs ni1 = -1 ∧ ni_cache_size ni1 = 2 ^ 64 - 64.
Proof.
  destruct (numa_counters [NumaAlloc 0 64 1000 (zeros 64); NumaFree 1 1000 64] two_nodes 0 0 0
    (NumaInfo 0 4 0 (Some []) 0) eq_refl eq_refl eq_refl) as (ni0 & H0 & Hr0 & Hb0).
  destruct (numa_counters [NumaAlloc 0 64 1000 (zeros 64); NumaFree 1 1000 64] two_nodes 1 0 0
    (NumaInfo 1 4 0 (Some []) 0) eq_refl eq_refl eq_refl) as (ni1 & H1 & Hr1 & Hb1).
  exists ni0, ni1. cbv zeta. split; [reflexivity|]. split; [exact H0|]. split; [exact Hr0|].
  split; [exact Hb0|]. split; [exact H1|]. split; [exact Hr1|exact Hb1].
Defined.

(** ** What is cached *)

Section cached.
Context (list_head_bytes : list Z → Z → bytes).
Hypothesis list_head_size : ∀ caches cache, len (list_head_bytes caches cache) = 16.

(** Metadata that is cached loses its first 16 bytes to the pointers of the list. *)
Theorem cached_meta_loses_start st node data contents buf ni caches :
  let n := aetherfs_numa_get_node node in
  0 ≤ n → numa_info st !! Z.to_nat n = Some ni → ni_cache_list ni = Some caches → buf ∉ caches →
  Forall (λ c, ∃ d, numa_heap st !! c = Some d ∧ 16 ≤ len d) caches →
  16 ≤ len data → len contents = len data →
  ∃ st' ni', aetherfs_numa_cached_meta list_head_bytes node node data (len data) (Some (buf, contents)) st =
      Some (Ok tt, st') ∧
    numa_info st' !! Z.to_nat n = Some ni' ∧ ni_cache_list ni' = Some (buf :: caches) ∧
    numa_heap st' !! buf =
      Some (list_head_bytes (buf :: caches) buf ++ slice 16 (len data - 16) data).
Proof.
  cbv zeta. intros Hn Hni Hcl Hfresh Hall Hd Hc. unfold aetherfs_numa_cached_meta, aetherfs_numa_alloc_cache.
  set (n := aetherfs_numa_get_node node) in *. set (st1 := numa_count _ _ _ _).
  pose proof (numa_count_lookup n 1 (len data)
    (NumaState (numa_info st) (<[buf := contents]> (numa_heap st))) (Z.to_nat n) ni Hni) as Hlk.
  fold st1 in Hlk. rewrite decide_True in Hlk by done.
  assert (numa_heap st1 = <[buf := contents]> (numa_heap st)) as -> by reflexivity.
  rewrite lookup_insert_eq. cbn [mbind option_bind].
  rewrite Hc, Z.ltb_irrefl. cbn [orb]. rewrite Hlk. cbn [mbind option_bind ni_cache_list]. rewrite Hcl.
  assert (slice 0 (len data) data = data) as Hall_data.
  { unfold slice. rewrite drop_0. apply take_ge. unfold len. lia. }
  assert (splice 0 (slice 0 (len data) data) contents = data) as ->.
  { rewrite Hall_data. unfold splice. cbn [Z.to_nat take app]. unfold len in Hc.
    rewrite drop_ge by lia. apply app_nil_r. }
  cbn [mbind option_bind]. rewrite insert_insert_eq.
  unfold relink. cbn [take foldl mbind option_bind]. rewrite lookup_insert_eq. cbn [mbind option_bind].
  rewrite (proj2 (Z.ltb_ge _ _)) by lia.
  assert (splice 0 (list_head_bytes (buf :: caches) buf) data =
    list_head_bytes (buf :: caches) buf ++ slice 16 (len data - 16) data) as Hnew.
  { pose proof (list_head_size (buf :: caches) buf) as Hs. unfold splice, slice, len in *.
    set (l := list_head_bytes _ _) in *. change (Z.to_nat 0) with 0%nat. rewrite take_0.
    replace (0 + length l)%nat with 16%nat by lia. change (Z.to_nat 16) with 16%nat.
    rewrite (take_ge (drop 16 data)); [reflexivity|]. rewrite length_drop. lia. }
  rewrite Hnew. rewrite insert_insert_eq. destruct caches as [|c caches].
  - cbn [take foldl]. eexists _, _. split; [reflexivity|]. cbn [numa_info numa_heap].
    split; [apply list_lookup_insert_eq|split; [reflexivity|apply lookup_insert_eq]].
    by eapply lookup_lt_Some.
  - apply Forall_cons in Hall as [(d & Hlkc & Hdl) _]. apply not_elem_of_cons in Hfresh as [Hne _].
    cbn [take foldl mbind option_bind]. rewrite lookup_insert_ne, Hlkc by done. cbn [mbind option_bind].
    rewrite (proj2 (Z.ltb_ge _ _)) by lia. eexists _, _. split; [reflexivity|]. cbn [numa_info numa_heap].
    split; [apply list_lookup_insert_eq|split; [reflexivity|]].
    + by eapply lookup_lt_Some.
    + rewrite lookup_insert_ne by done. apply lookup_insert_eq.
Qed.
End cached.

(** The pointers of the only element of a list whose head is at address 5000. *)
Definition sample_pointers (_ : list Z) (_ : Z) : bytes := le_bytes 8 5000 ++ le_bytes 8 5000.

Lemma cached_meta_loses_start_witness : ∃ st',
  aetherfs_numa_cached_meta sample_pointers 0 0 (replicate 24 7) 24 (Some (1000, zeros 24)) two_nodes =
    Some (Ok tt, st') ∧
  numa_heap st' !! 1000 = Some (le_bytes 8 5000 ++ le_bytes 8 5000 ++ replicate 8 7).
Proof.
  destruct (cached_meta_loses_start sample_pointers (λ _ _, eq_refl) two_nodes 0 (replicate 24 7) (zeros 24)
    1000 (NumaInfo 0 4 0 (Some []) 0) []) as (st' & ni' & Hrun & _ & _ & Hheap).
  - vm_compute. discriminate.
  - reflexivity.
  - reflexivity.
  - apply not_elem_of_nil.
  - constructor.
  - vm_compute. discriminate.
  - reflexivity.
  - exists st'. split; [exact Hrun|exact Hheap].
Defined.

(** A buffer that was freed is still in the list: the next one is linked to it. *)
Example freed_cache_is_linked :
  match aetherfs_numa_cached_meta sample_pointers 0 0 (replicate 24 7) 24 (Some (1000, zeros 24)) two_nodes with
  | Some (Ok _, st) =>
      let st := aetherfs_numa_free_cache 0 (Some 1000) 24 st in
      bool_decide (aetherfs_numa_cached_meta sample_pointers 0 0 (replicate 24 7) 24
        (Some (2000, zeros 24)) st = None)
  | _ => false
  end = true.
Proof. vm_compute. reflexivity. Qed.

(** On a node that was not online when the module started, the list has no head. *)
Example offline_node_faults :
  aetherfs_numa_cached_meta sample_pointers 3 3 (replicate 24 7) 24 (Some (1000, zeros 24)) two_nodes = None.
Proof. vm_compute. reflexivity. Qed.

(** Nothing counts [pd_in_progress] up: the wait ends at once, whatever the work does. *)
Lemma parallel_dir_wait_ends {I W} (dir : I) (pdir pdir' pdir'' : aetherfs_parallel_dir I W) cpu work_fn queued reads :
  aetherfs_parallel_dir_init (Some dir) (Some pdir) cpu = Ok pdir' →
  aetherfs_parallel_dir_schedule (Some pdir') (Some work_fn) = Some (pdir'', queued) →
  queued = (cpu, work_fn) ∧
  aetherfs_parallel_dir_wait (Some pdir'') (pd_in_progress pdir'' :: reads) = Done (Ok (Some work_fn)).
Proof. intros [= <-] [= <- <-]. split; reflexivity. Qed.
