(* ===== verification/RefCount.v ===== *)
(** * Reference-counting stores

    The kernel module counts references to shared content twice, in a radix tree of block
    checksums ([kernel/reflink.c]) and in hash chains of small metadata ([kernel/dense.c]).
    This file is the contract of both: a class of stores with an operation that adds a
    reference to a key and one that drops it, the laws an implementation must obey, and the
    theorem a client gets from them, that any sequence of calls behaves as on a multiset. *)

From S2P Require Import Prelude.
From stdpp Require Import gmultiset.
Local Open Scope Z_scope.

(** A call on a store of keys [K]; [mem] says whether its memory allocations succeed. *)
Inductive ref_call (K : Type) :=
| AddRef (mem : bool) (k : K)
| DropRef (k : K).
Arguments AddRef {K} mem k.
Arguments DropRef {K} k.

Definition call_key {K} (c : ref_call K) : K :=
  match c with AddRef _ k => k | DropRef k => k end.

(** What an implementation provides: how many references a state holds of a key, and the
    effect of a call. *)
Class RefStore (S K : Type) := {
  ref_count : S → K → Z;
  ref_step : S → ref_call K → result unit * S;
}.

(** The laws, for the states with [ok] and the keys with [key]; [refused] gives the error with
    which a store turns down releases of a key without looking.  Counters are 32 bits wide. *)
Class RefLaws (S K : Type) `{EqDecision K, !RefStore S K} (ok : S → Prop) (key : K → Prop)
    (refused : K → option errno) : Prop := {
  ref_count_nonneg s k : ok s → key k → 0 ≤ ref_count s k;
  ref_add s mem k : ok s → key k → ref_count s k < UINT32_MAX →
    if bool_decide (ref_count s k = 0) && negb mem then ref_step s (AddRef mem k) = (Err ENOMEM, s)
    else ∃ s', ref_step s (AddRef mem k) = (Ok tt, s') ∧ ok s' ∧
      ∀ k', key k' → ref_count s' k' = if decide (k' = k) then ref_count s k + 1 else ref_count s k';
  ref_refuse s k e : ok s → key k → refused k = Some e → ref_step s (DropRef k) = (Err e, s);
  ref_drop s k : ok s → key k → refused k = None → ref_count s k ≤ UINT32_MAX →
    if bool_decide (ref_count s k = 0) then ref_step s (DropRef k) = (Err ENOENT, s)
    else ∃ s', ref_step s (DropRef k) = (Ok tt, s') ∧ ok s' ∧
      ∀ k', key k' → ref_count s' k' = if decide (k' = k) then ref_count s k - 1 else ref_count s k';
}.

(** The reference machine: a multiset of references. *)
Definition multiset_step {K} `{Countable K} (m : gmultiset K) (c : ref_call K)
    : result unit * gmultiset K :=
  match c with
  | AddRef mem k =>
      if bool_decide (multiplicity k m = 0%nat) && negb mem then (Err ENOMEM, m)
      else (Ok tt, {[+ k +]} ⊎ m)
  | DropRef k =>
      if bool_decide (multiplicity k m = 0%nat) then (Err ENOENT, m) else (Ok tt, m ∖ {[+ k +]})
  end.

(** The same with the releases a store turns down. *)
Definition guarded_step {K} `{Countable K} (refused : K → option errno) (m : gmultiset K)
    (c : ref_call K) : result unit * gmultiset K :=
  match c with
  | AddRef _ _ => multiset_step m c
  | DropRef k => match refused k with Some e => (Err e, m) | None => multiset_step m c end
  end.

(** Calls one after the other, with their results. *)
Fixpoint run_calls {S C} (step : S → C → result unit * S) (s : S) (calls : list C)
    : list (result unit) * S :=
  match calls with
  | [] => ([], s)
  | c :: calls =>
      let '(r, s) := step s c in
      let '(rs, s) := run_calls step s calls in (r :: rs, s)
  end.

(** Without such releases it is the multiset. *)
Lemma guarded_none {K} `{Countable K} (m : gmultiset K) calls :
  run_calls (guarded_step (λ _, None)) m calls = run_calls multiset_step m calls.
Proof.
  revert m. induction calls as [|c calls IH]; intros m; [done|]. cbn [run_calls].
  replace (guarded_step (λ _, None) m c) with (multiset_step m c) by by destruct c.
  destruct (multiset_step m c) as [r m']. by rewrite IH.
Qed.

Section refinement.
Context {S K : Type} `{Countable K, !RefStore S K} (ok : S → Prop) (key : K → Prop).
Context (refused : K → option errno) `{!RefLaws S K ok key refused}.

(** A state holds the references of a multiset. *)
Definition holds (s : S) (m : gmultiset K) : Prop :=
  ok s ∧ ∀ k, key k → ref_count s k = Z.of_nat (multiplicity k m).

Lemma multiplicity_add k k' (m : gmultiset K) :
  Z.of_nat (multiplicity k' ({[+ k +]} ⊎ m)) =
    if decide (k' = k) then Z.of_nat (multiplicity k m) + 1 else Z.of_nat (multiplicity k' m).
Proof.
  rewrite multiplicity_disj_union. destruct (decide (k' = k)) as [->|Hne].
  - rewrite multiplicity_singleton_eq. lia.
  - rewrite multiplicity_singleton_ne by done. lia.
Qed.

Lemma multiplicity_drop k k' (m : gmultiset K) : multiplicity k m ≠ 0%nat →
  Z.of_nat (multiplicity k' (m ∖ {[+ k +]})) =
    if decide (k' = k) then Z.of_nat (multiplicity k m) - 1 else Z.of_nat (multiplicity k' m).
Proof.
  intros Hm. rewrite multiplicity_difference. destruct (decide (k' = k)) as [->|Hne].
  - rewrite multiplicity_singleton_eq. lia.
  - rewrite multiplicity_singleton_ne by done. lia.
Qed.

(** One call: the same result, and the states stay related. *)
Lemma step_refines s m c : holds s m → key (call_key c) →
  Z.of_nat (multiplicity (call_key c) m) < UINT32_MAX →
  ∃ s', ref_step s c = ((guarded_step refused m c).1, s') ∧ holds s' (guarded_step refused m c).2.
Proof.
  intros [Hok Hc] Hk Hlt. destruct c as [mem k|k]; cbn [call_key guarded_step] in *.
  - cbn [multiset_step]. pose proof (ref_add s mem k Hok Hk) as L. rewrite (Hc k Hk) in L. specialize (L Hlt).
    replace (bool_decide (Z.of_nat (multiplicity k m) = 0)) with
      (bool_decide (multiplicity k m = 0%nat)) in L by (apply bool_decide_ext; lia).
    destruct (bool_decide _ && negb mem).
    + exists s. by split.
    + destruct L as (s' & Hs & Hok' & Hn). exists s'. split; [done|]. split; [done|].
      intros k' Hk'. rewrite Hn by done. cbn [snd]. rewrite multiplicity_add.
      destruct (decide (k' = k)); [done|by apply Hc].
  - destruct (refused k) as [e|] eqn:Er.
    { exists s. split; [exact (ref_refuse s k e Hok Hk Er)|done]. }
    cbn [multiset_step]. pose proof (ref_drop s k Hok Hk Er) as L. rewrite (Hc k Hk) in L.
    specialize (L ltac:(lia)).
    replace (bool_decide (Z.of_nat (multiplicity k m) = 0)) with
      (bool_decide (multiplicity k m = 0%nat)) in L by (apply bool_decide_ext; lia).
    case_bool_decide as Hz.
    + exists s. by split.
    + destruct L as (s' & Hs & Hok' & Hn). exists s'. split; [done|]. split; [done|].
      intros k' Hk'. rewrite Hn by done. cbn [snd]. rewrite multiplicity_drop by done.
      destruct (decide (k' = k)); [done|by apply Hc].
Qed.

Lemma step_size (m : gmultiset K) c : (size (guarded_step refused m c).2 ≤ 1 + size m)%nat.
Proof.
  assert (∀ k, (size (m ∖ {[+ k +]}) ≤ size m)%nat) as Hd
    by (intros k; apply gmultiset_subseteq_size; multiset_solver).
  destruct c as [mem k|k]; cbn [guarded_step]; [|destruct (refused k); [cbn [snd]; lia|]];
    cbn [multiset_step].
  - destruct (bool_decide _ && negb mem); cbn [snd]; [lia|].
    rewrite gmultiset_size_disj_union, gmultiset_size_singleton. lia.
  - destruct (bool_decide _); cbn [snd]; [lia|]. specialize (Hd k). lia.
Qed.

Lemma multiplicity_le_size k (m : gmultiset K) : (multiplicity k m ≤ size m)%nat.
Proof.
  induction m as [|x m IH] using gmultiset_ind.
  - rewrite multiplicity_empty. lia.
  - rewrite multiplicity_disj_union, gmultiset_size_disj_union, gmultiset_size_singleton.
    destruct (decide (k = x)) as [->|]; rewrite ?multiplicity_singleton_eq, ?multiplicity_singleton_ne by done; lia.
Qed.

(** Any sequence of calls gives the results a multiset gives, refused releases apart, as long
    as no counter can reach its width. *)
Lemma calls_refine s m calls : holds s m → Forall (λ c, key (call_key c)) calls →
  Z.of_nat (size m) + len calls ≤ UINT32_MAX →
  ∃ s', run_calls ref_step s calls = ((run_calls (guarded_step refused) m calls).1, s') ∧
    holds s' (run_calls (guarded_step refused) m calls).2.
Proof.
  revert s m. induction calls as [|c calls IH]; intros s m Hh Hk Hn.
  - by exists s.
  - apply Forall_cons_1 in Hk as [Hk Hks]. unfold len in Hn. cbn [length] in Hn.
    destruct (step_refines s m c Hh Hk) as (s1 & E & Hh1).
    { pose proof (multiplicity_le_size (call_key c) m). lia. }
    pose proof (step_size m c) as Hs.
    cbn [run_calls]. rewrite E. destruct (guarded_step refused m c) as [r m1] eqn:Em. cbn [fst snd] in *.
    destruct (IH s1 m1 Hh1 Hks) as (s2 & E2 & Hh2); [unfold len; lia|].
    rewrite E2. destruct (run_calls (guarded_step refused) m1 calls) as [rs m2]. cbn [fst snd] in *.
    by exists s2.
Qed.
End refinement.
