(* ===== verification/Struct.v ===== *)
(** * Structures in memory

    The kernel module works on buffers through pointers to C structures that are not packed:
    [kernel/aetherfs.h] declares them without [AETHERFS_PACKED], so the compiler places each
    field at the next multiple of its alignment.  This file computes those places, and reads
    and writes a field of a structure at the start of a buffer. *)

From S2P Require Import Prelude Codec.
From stdpp Require Import strings.
Local Open Scope Z_scope.

(** ** Layout *)

(** A field's type: an integer of so many bytes, which is also its alignment, or an array of
    [n] elements of a type given by its size and alignment. *)
Inductive ctype :=
| CInt (bytes : Z)
| CArray (n size align : Z).

Definition ctype_size (t : ctype) : Z :=
  match t with CInt n => n | CArray n size _ => n * size end.
Definition ctype_align (t : ctype) : Z :=
  match t with CInt n => n | CArray _ _ align => align end.

Definition __u8 : ctype := CInt 1.
Definition __le16 : ctype := CInt 2.
Definition __le32 : ctype := CInt 4.
Definition __le64 : ctype := CInt 8.

(** A structure: its fields in order, and whether it is packed. *)
Record cstruct := CStruct {
  cs_packed : bool;
  cs_fields : list (string * ctype);
}.

(** A field: the offset of its first byte and its length. *)
Record field := Field { f_off : Z; f_len : Z }.

#[export] Instance field_eq_dec : EqDecision field.
Proof. solve_decision. Defined.

Definition round_up (a x : Z) : Z := (x + a - 1) / a * a.

Fixpoint place (packed : bool) (off : Z) (fields : list (string * ctype)) : list (string * field) :=
  match fields with
  | [] => []
  | (name, t) :: fields =>
      let off := if packed then off else round_up (ctype_align t) off in
      (name, Field off (ctype_size t)) :: place packed (off + ctype_size t) fields
  end.

Definition placed (s : cstruct) : list (string * field) := place (cs_packed s) 0 (cs_fields s).

Definition struct_align (s : cstruct) : Z :=
  if cs_packed s then 1 else foldr Z.max 1 (ctype_align ∘ snd <$> cs_fields s).

(** [sizeof(struct s)] *)
Definition struct_size (s : cstruct) : Z :=
  round_up (struct_align s) (foldl (λ _ p, f_off p.2 + f_len p.2) 0 (placed s)).

(** An array of structures as a field. *)
Definition CStructs (n : Z) (s : cstruct) : ctype := CArray n (struct_size s) (struct_align s).

(** The place of a field; a name that is not one has no bytes. *)
Definition field_of (s : cstruct) (name : string) : field :=
  default (Field 0 0) (snd <$> list_find (λ p, p.1 = name) (placed s) ≫= λ p, Some p.2).

(** ** Access *)

Definition get (f : field) (data : bytes) : Z := le_val (slice (f_off f) (f_len f) data).

Definition put (f : field) (v : Z) (data : bytes) : bytes :=
  splice (f_off f) (le_bytes (Z.to_nat (f_len f)) v) data.

(** The field lies in a buffer. *)
Definition inside (f : field) (data : bytes) : Prop :=
  0 ≤ f_off f ∧ 0 ≤ f_len f ∧ f_off f + f_len f ≤ len data.

(** Two fields share no byte. *)
Definition apart (f g : field) : Prop :=
  f_off f + f_len f ≤ f_off g ∨ f_off g + f_len g ≤ f_off f.

#[export] Instance apart_dec f g : Decision (apart f g) := _.

Lemma len_put f v data : inside f data → len (put f v data) = len data.
Proof.
  intros (? & ? & ?). unfold put. apply len_splice; [done|].
  unfold len at 1. rewrite length_le_bytes. lia.
Qed.

Lemma inside_put f g v data : inside f data → inside g data → inside g (put f v data).
Proof. intros Hf (? & ? & ?). unfold inside. rewrite len_put; done. Qed.

Lemma is_bytes_put f v data : inside f data → is_bytes data → is_bytes (put f v data).
Proof. intros _ Hb. apply is_bytes_splice; [apply is_bytes_le_bytes|done]. Qed.

Lemma get_put f v data : inside f data → le_range (Z.to_nat (f_len f)) v → get f (put f v data) = v.
Proof.
  intros (? & ? & ?) Hv. unfold get, put.
  assert (len (le_bytes (Z.to_nat (f_len f)) v) = f_len f) as E
    by (unfold len; rewrite length_le_bytes; lia).
  rewrite <-E at 1. rewrite slice_splice_eq; [by apply le_val_bytes|done|lia].
Qed.

Lemma slice_put_apart f o n v data : inside f data → 0 ≤ o → 0 ≤ n →
  o + n ≤ f_off f ∨ f_off f + f_len f ≤ o → slice o n (put f v data) = slice o n data.
Proof.
  intros (? & ? & ?) Ho Hn Hd. unfold put.
  assert (len (le_bytes (Z.to_nat (f_len f)) v) = f_len f) as E
    by (unfold len; rewrite length_le_bytes; lia).
  destruct Hd; [apply slice_splice_before|apply slice_splice_after]; lia.
Qed.

Lemma get_put_apart f g v data : inside f data → 0 ≤ f_off g → 0 ≤ f_len g → apart f g →
  get g (put f v data) = get g data.
Proof.
  intros Hf Hg Hl Ha. unfold get. f_equal. apply slice_put_apart; [done..|].
  destruct Ha; [right|left]; lia.
Qed.

Lemma put_put f v w data : inside f data → put f w (put f v data) = put f w data.
Proof.
  intros (? & ? & ?). unfold put. apply splice_splice_eq; [done| |].
  - unfold len at 1. rewrite length_le_bytes. lia.
  - unfold len. by rewrite !length_le_bytes.
Qed.

(** Writing back what a field holds changes nothing. *)
Lemma put_get f data : inside f data → is_bytes data → put f (get f data) data = data.
Proof.
  intros (? & ? & ?) Hb. unfold put, get.
  replace (Z.to_nat (f_len f)) with (length (slice (f_off f) (f_len f) data)).
  2: { assert (len (slice (f_off f) (f_len f) data) = f_len f) as E by (apply len_slice; lia).
       unfold len in E. lia. }
  rewrite le_bytes_val by by apply is_bytes_slice.
  by apply splice_slice.
Qed.

Lemma get_range f data : 0 ≤ f_len f → is_bytes data → 0 ≤ get f data < 2 ^ (8 * f_len f).
Proof.
  intros Hf Hb. unfold get.
  pose proof (le_val_range _ (is_bytes_slice (f_off f) (f_len f) _ Hb)) as [H1 H2].
  split; [done|]. eapply Z.lt_le_trans; [exact H2|]. apply Z.pow_le_mono_r; [lia|].
  unfold slice. rewrite length_take. lia.
Qed.

(** Every field of a zeroed buffer is 0. *)
Lemma get_zeros f n : get f (zeros n) = 0.
Proof.
  unfold get, slice, zeros. rewrite drop_replicate, take_replicate.
  induction (Z.to_nat (f_len f) `min` _)%nat as [|m IH]; [done|].
  change (0 + 256 * le_val (replicate m 0) = 0). lia.
Qed.

(** ** Fields of a structure do not overlap *)

Lemma round_up_ge a x : 0 < a → x ≤ round_up a x.
Proof. intros Ha. unfold round_up. pose proof (Z.mul_div_le (x + a - 1) a Ha).
  pose proof (Z.mod_pos_bound (x + a - 1) a Ha). pose proof (Z.div_mod (x + a - 1) a). lia. Qed.

Definition ctype_ok (t : ctype) : Prop := 0 ≤ ctype_size t ∧ 0 < ctype_align t.

#[export] Instance ctype_ok_dec t : Decision (ctype_ok t) := _.

Lemma place_after packed off fields : Forall (λ p, ctype_ok p.2) fields →
  Forall (λ p, off ≤ f_off p.2 ∧ 0 ≤ f_len p.2) (place packed off fields).
Proof.
  revert off. induction fields as [|[name t] fields IH]; intros off Hok; [constructor|].
  apply Forall_cons_1 in Hok as [[Hs Ha] Hok]. cbn [place snd] in *.
  set (o := if packed then off else round_up (ctype_align t) off).
  assert (off ≤ o) as Ho by (subst o; destruct packed; [lia|by apply round_up_ge]).
  constructor; [cbn; lia|].
  eapply Forall_impl; [apply (IH (o + ctype_size t) Hok)|]. cbn. intros p Hp. lia.
Qed.

(** In a layout, packed or not, a field ends before every later one starts. *)
Theorem fields_disjoint s i j p q : Forall (λ p, ctype_ok p.2) (cs_fields s) →
  placed s !! i = Some p → placed s !! j = Some q → (i < j)%nat →
  f_off p.2 + f_len p.2 ≤ f_off q.2.
Proof.
  unfold placed. generalize 0. revert i j. induction (cs_fields s) as [|[name t] fields IH];
    intros i j off Hok Hi Hj Hij; [done|].
  apply Forall_cons_1 in Hok as [[Hs Ha] Hok]. cbn [place snd] in *.
  destruct j as [|j]; [lia|]. destruct i as [|i]; cbn in Hi, Hj.
  - injection Hi as <-. cbn.
    pose proof (place_after (cs_packed s) ((if cs_packed s then off else round_up (ctype_align t) off)
      + ctype_size t) fields Hok) as HF.
    rewrite Forall_lookup in HF. by apply HF in Hj as [? _].
  - eapply IH; [done|exact Hi|exact Hj|lia].
Qed.
