(* ===== verification/KernelHeader.v ===== *)
(** * The structures of the kernel module

    [kernel/aetherfs.h] declares the structures without packing them; [kernel/on_disk.h], which
    nothing includes, declares most of them again, packed.  Each structure is given by its fields
    in order; the places of the fields are computed ([Struct.placed]).  The last section
    compares the two headers and names the fields the rest of the development uses. *)

From S2P Require Import Prelude Codec Struct.
From stdpp Require Import strings.
Local Open Scope Z_scope.
Local Open Scope string_scope.

(** ** [kernel/aetherfs.h]

    [struct list_head] is two pointers of eight bytes; an array without a length takes no
    space. *)

Definition struct_aetherfs_super : cstruct := CStruct false [
  ("s_magic", __le32); ("s_version", __le32); ("s_blocksize", __le32);
  ("s_blocks_count", __le64); ("s_free_blocks", __le64); ("s_blocks_per_ag", __le32);
  ("s_ag_count", __le32); ("s_device_count", __le32); ("s_first_data_block", __le32);
  ("s_mode", __le16); ("s_features", __le16); ("s_checksum", __le32);
  ("s_uuid", CArray 16 1 1); ("s_checkpoint_num", __le32); ("s_checkpoint_mask", __le32);
  ("s_checkpoint", CArray 8 8 8); ("s_journal_addr", __le64); ("s_root_inode", __le64);
  ("s_generation", __le32); ("s_inodes_count", __le32); ("s_meta_tree", __le64);
  ("s_extent_tree", __le64); ("s_free_tree", __le64); ("s_snap_tree", __le64);
  ("s_scrub_journal", __le64); ("s_health_journal", __le64); ("s_reserved2", CArray 6 8 8)].

Definition struct_aetherfs_inode : cstruct := CStruct false [
  ("i_mode", __le16); ("i_links_count", __le16); ("i_uid", __le32); ("i_gid", __le32);
  ("i_size", __le64); ("i_blocks", __le64); ("i_atime", __le64); ("i_ctime", __le64);
  ("i_mtime", __le64); ("i_extent_root", __le64); ("i_nlink", __le32); ("i_flags", __le32);
  ("i_xattr", __le64); ("i_reflink", __le64); ("i_parent", __le64); ("i_snapshot_id", __le64);
  ("i_checksum", __le32); ("i_inline_len", __le32); ("i_data_gen", __le64);
  ("i_data", CArray 24 1 1); ("i_inline", CArray 3996 1 1)].

Definition struct_aetherfs_inode_extent_embedded : cstruct := CStruct false [
  ("ee_pstart", __le64); ("ee_lstart", __le64); ("ee_len", __le32); ("ee_flags", __le32)].

Definition struct_aetherfs_inode_with_extents : cstruct := CStruct false [
  ("base", CStructs 1 struct_aetherfs_inode);
  ("ee_extents", CStructs 4 struct_aetherfs_inode_extent_embedded); ("ee_count", __le32);
  ("ee_checksum", __le32)].

Definition struct_aetherfs_extent : cstruct := CStruct false [
  ("e_pstart", __le64); ("e_lstart", __le64); ("e_len", __le32); ("e_flags", __le32)].

Definition struct_aetherfs_extent_node : cstruct := CStruct false [
  ("en_next", __le64); ("en_count", __le32); ("en_reserved", __le32);
  ("en_extents", CStructs 128 struct_aetherfs_extent)].

Definition struct_aetherfs_cow_header : cstruct := CStruct false [
  ("ch_root", __le64); ("ch_old_root", __le64); ("ch_generation", __le32);
  ("ch_checksum", __le32); ("ch_snapshot_id", __le64)].

Definition struct_aetherfs_snapshot_ref : cstruct := CStruct false [
  ("sr_id", __le64); ("sr_gen_time", __le64); ("sr_root_inode", __le64);
  ("sr_extent_tree", __le64); ("sr_meta_tree", __le64); ("sr_refcount", __le32);
  ("sr_flags", __le32); ("sr_reserved", CArray 4 4 4)].

Definition struct_aetherfs_scrub_record : cstruct := CStruct false [
  ("sc_lblk", __le64); ("sc_pblk", __le64); ("sc_length", __le32); ("sc_gen", __le32);
  ("sc_next", __le64)].

Definition struct_aetherfs_health_entry : cstruct := CStruct false [
  ("he_blocknr", __le64); ("he_gen", __le32); ("he_error", __le32); ("he_timestamp", __le64);
  ("he_reserved", CArray 4 4 4)].

Definition struct_aetherfs_intent_log : cstruct := CStruct false [
  ("il_start", __le64); ("il_end", __le64); ("il_head", __le64); ("il_commit", __le64);
  ("il_total", __le32); ("il_outstanding", __le32); ("il_checksum", __le32);
  ("il_reserved", __le32)].

Definition struct_aetherfs_btree_node : cstruct := CStruct false [
  ("bn_next", __le64); ("bn_level", __le32); ("bn_count", __le32); ("bn_checksum", __le32);
  ("bn_reserved", __le32); ("bn_data", CArray 0 1 1)].

Definition struct_aetherfs_btree_key : cstruct := CStruct false [
  ("k_ino", __le64); ("k_offset", __le64); ("k_value", __le64); ("k_len", __le32);
  ("k_flags", __le32); ("k_checksum", __le32)].

Definition struct_aetherfs_checksummed_block : cstruct := CStruct false [
  ("cb_checksum", __le32); ("cb_blocknr", __le32); ("cb_level", __le16);
  ("cb_reserved", __le16); ("cb_llog", __le64); ("cb_data", CArray 0 1 1)].

Definition struct_aetherfs_dir_entry : cstruct := CStruct false [
  ("ino", __le64); ("rec_len", __le16); ("name_len", __le16); ("file_type", __u8);
  ("checksum", __u8); ("name", CArray 0 1 1)].

Definition struct_aetherfs_ag_free : cstruct := CStruct false [
  ("ag_free_addr", __le64); ("ag_free_len", __le32); ("ag_reserved", __le32);
  ("ag_bitmap_addr", __le64)].

Definition struct_aetherfs_device : cstruct := CStruct false [
  ("d_devnr", __le32); ("d_flags", __le32); ("d_total_blocks", __le64);
  ("d_free_blocks", __le64); ("d_start_block", __le64); ("d_bad_blocks", __le64)].

Definition struct_aetherfs_region : cstruct := CStruct false [
  ("r_start", __le64); ("r_end", __le64); ("r_devnr", __le32); ("r_type", __le32);
  ("r_reserved", __le32); ("r_tree_root", __le64); ("r_bitmap", __le64); ("r_free_head", __le64)].

Definition struct_aetherfs_alloc_group : cstruct := CStruct false [
  ("ag_start", __le64); ("ag_end", __le64); ("ag_id", __le32); ("ag_type", __le32);
  ("ag_inode_tree", __le64); ("ag_extent_tree", __le64); ("ag_free_tree", __le64);
  ("ag_inode_bitmap", __le64); ("ag_data_bitmap", __le64); ("ag_free_inodes", __le32);
  ("ag_free_blocks", __le32); ("ag_checksum", __le32); ("ag_reserved", CArray 3 4 4)].

Definition struct_aetherfs_device_group : cstruct := CStruct false [
  ("dg_count", __le32); ("dg_mode", __le32); ("dg_stripe_size", __le32);
  ("dg_total_blocks", __le64); ("dg_devs", CStructs 8 struct_aetherfs_device)].

Definition struct_aetherfs_allocator : cstruct := CStruct false [
  ("a_free_lists", __le64); ("a_preferred_dev", __le32); ("a_max_segments", __le32);
  ("a_queue_depth", __le32); ("a_async_prealloc", __le64)].

Definition struct_aetherfs_journal_log : cstruct := CStruct false [
  ("j_start", __le64); ("j_end", __le64); ("j_head", __le64); ("j_commit", __le64);
  ("j_checksum", __le32); ("j_txn_max", __le32); ("j_flags", __le32)].

Definition struct_aetherfs_journal_entry : cstruct := CStruct false [
  ("je_txn_id", __le64); ("je_op", __le32); ("je_flags", __le32); ("je_blocknr", __le64);
  ("je_checksum", __le32); ("je_reserved", __le32); ("je_data", CArray 0 1 1)].

Definition struct_aetherfs_journal_header : cstruct := CStruct false [
  ("j_blocknr", __le64); ("j_fs_gen", __le32); ("j_entries", __le32); ("j_checkpoint", __le32);
  ("j_tail", __le32); ("j_checksum", __le32)].

Definition struct_aetherfs_journal_entry_legacy : cstruct := CStruct false [
  ("je_ino", __le64); ("je_block", __le64); ("je_len", __le32); ("je_op", __le32);
  ("je_checksum", __le32)].

Definition struct_aetherfs_group_desc : cstruct := CStruct false [
  ("bg_inode_table", __le32); ("bg_inode_bitmap", __le32); ("bg_data_bitmap", __le32);
  ("bg_free_inodes", __le32); ("bg_free_blocks", __le32); ("bg_used_dirs", __le32);
  ("bg_checksum", __le32); ("bg_data_addr", __le64); ("bg_reserved", CArray 4 4 4)].

Definition struct_aetherfs_extent_tree_node : cstruct := CStruct false [
  ("et_pstart", __le64); ("et_lstart", __le64); ("et_len", __le32); ("et_flags", __le32)].

Definition struct_aetherfs_extent_tree_internal : cstruct := CStruct false [
  ("ei_child", CArray 2 8 8); ("ei_lstart", __le64); ("ei_checksum", __le32);
  ("ei_reserved", __le32)].

Definition struct_aetherfs_extent_tree_leaf : cstruct := CStruct false [
  ("el_lstart", __le64); ("el_pstart", __le64); ("el_len", __le32); ("el_flags", __le32);
  ("el_checksum", __le32); ("el_reserved", __le32)].

Definition struct_aetherfs_free_extent : cstruct := CStruct false [
  ("fe_pstart", __le64); ("fe_len", __le64); ("fe_next", __le64); ("fe_checksum", __le32);
  ("fe_reserved", __le32)].

Definition struct_aetherfs_free_extent_tree : cstruct := CStruct false [
  ("ft_root", __le64); ("ft_count", __le32); ("ft_checksum", __le32);
  ("ft_reserved", CArray 4 8 8)].

Definition struct_aetherfs_authenticated_snapshot : cstruct := CStruct false [
  ("as_id", __le64); ("as_timestamp", __le64); ("as_root_inode", __le64);
  ("as_meta_tree", __le64); ("as_extent_tree", __le64); ("as_flags", __le32);
  ("as_hmac_algo", __le32); ("as_hmac", CArray 64 1 1); ("as_parent_id", __le64);
  ("as_refcount", __le32); ("as_reserved", CArray 3 4 4); ("as_list", CArray 2 8 8)].

Definition struct_aetherfs_verity_descriptor : cstruct := CStruct false [
  ("vd_magic", __le32); ("vd_version", __le32); ("vd_hash_algo", __le32);
  ("vd_log_blocksize", __le32); ("vd_data_size", __le64); ("vd_merkle_root", __le64);
  ("vd_salt_size", __le64); ("vd_salt", CArray 0 1 1)].

Definition struct_aetherfs_verity_metadata : cstruct := CStruct false [
  ("vm_ino", __le64); ("vm_size", __le64); ("vm_algo", __le32); ("vm_block_size", __le32);
  ("vm_merkle_root", __le64); ("vm_salt_size", __le64); ("vm_signature_size", __le32);
  ("vm_reserved", __le32); ("vm_data", CArray 0 1 1)].

Definition struct_aetherfs_xattr_header : cstruct := CStruct false [
  ("xh_name_len", __le16); ("xh_value_len", __le16); ("xh_hash", __le16); ("xh_type", __le16);
  ("xh_checksum", __le32); ("xh_name", CArray 0 1 1)].

Definition struct_aetherfs_policy_entry : cstruct := CStruct false [
  ("pe_type", __le32); ("pe_flags", __le32); ("pe_max_size", __le64);
  ("pe_max_extent_size", __le64); ("pe_compression_algo", __le32); ("pe_dedup_mode", __le32);
  ("pe_tier", __le32); ("pe_reserved", CArray 3 4 4)].

Definition struct_aetherfs_encryption_key : cstruct := CStruct false [
  ("ek_id", __le64); ("ek_creation_time", __le64); ("ek_expiry_time", __le64);
  ("ek_algo", __le32); ("ek_keylen", __le32); ("ek_flags", __le32); ("ek_refcount", __le32);
  ("ek_list", CArray 2 8 8); ("ek_key", CArray 0 1 1)].

Definition struct_aetherfs_encryption_context : cstruct := CStruct false [
  ("ec_key_id", __le64); ("ec_ino", __le64); ("ec_algo", __le32); ("ec_flags", __le32);
  ("ec_nonce", __le64); ("ec_reserved", __le64)].

Definition struct_aetherfs_audit_event : cstruct := CStruct false [
  ("ae_timestamp", __le64); ("ae_ino", __le64); ("ae_parent_ino", __le64);
  ("ae_operation", __le32); ("ae_result", __le32); ("ae_uid", __le32); ("ae_pid", __le32);
  ("ae_path", CArray 256 1 1); ("ae_checksum", __le32); ("ae_reserved", CArray 3 4 4)].

Definition struct_aetherfs_audit_log : cstruct := CStruct false [
  ("al_start", __le64); ("al_end", __le64); ("al_head", __le64); ("al_tail", __le64);
  ("al_count", __le32); ("al_checksum", __le32); ("al_flags", __le32);
  ("al_reserved", CArray 3 4 4)].

Definition struct_aetherfs_secure_delete_hint : cstruct := CStruct false [
  ("sd_ino", __le64); ("sd_size", __le64); ("sd_method", __le32); ("sd_passes", __le32);
  ("sd_flags", __le32); ("sd_reserved", __le32)].

Definition struct_aetherfs_subtree : cstruct := CStruct false [
  ("st_root_ino", __le64); ("st_parent_ino", __le64); ("st_flags", __le32);
  ("st_refcount", __le32); ("st_creation_time", __le64); ("st_modification_time", __le64);
  ("st_reserved", CArray 4 4 4)].

(** ** [kernel/on_disk.h] *)

Definition packed_aetherfs_super : cstruct := CStruct true [
  ("s_magic", __le32); ("s_version", __le32); ("s_blocksize", __le32);
  ("s_blocks_count", __le64); ("s_free_blocks", __le64); ("s_blocks_per_ag", __le32);
  ("s_ag_count", __le32); ("s_device_count", __le32); ("s_mode", __le16);
  ("s_features", __le16); ("s_checksum", __le32); ("s_uuid", CArray 16 1 1);
  ("s_checkpoint_num", __le32); ("s_checkpoint_mask", __le32); ("s_checkpoint", CArray 8 8 8);
  ("s_journal_addr", __le64); ("s_root_inode", __le64); ("s_generation", __le32);
  ("s_inodes_count", __le32); ("s_meta_tree", __le64); ("s_extent_tree", __le64);
  ("s_free_tree", __le64); ("s_snap_tree", __le64); ("s_scrub_journal", __le64);
  ("s_health_journal", __le64); ("s_reserved2", CArray 6 8 8)].

Definition packed_aetherfs_inode : cstruct := CStruct true [
  ("i_mode", __le16); ("i_links_count", __le16); ("i_uid", __le32); ("i_gid", __le32);
  ("i_size", __le64); ("i_blocks", __le64); ("i_atime", __le64); ("i_ctime", __le64);
  ("i_mtime", __le64); ("i_extent_root", __le64); ("i_nlink", __le32); ("i_flags", __le32);
  ("i_xattr", __le64); ("i_reflink", __le64); ("i_parent", __le64); ("i_snapshot_id", __le64);
  ("i_checksum", __le32); ("i_inline_len", __le32); ("i_data_gen", __le64);
  ("i_data", CArray 24 1 1); ("i_inline", CArray 3996 1 1)].

Definition packed_aetherfs_extent : cstruct := CStruct true [
  ("e_pstart", __le64); ("e_lstart", __le64); ("e_len", __le32); ("e_flags", __le32)].

Definition packed_aetherfs_extent_node : cstruct := CStruct true [
  ("en_next", __le64); ("en_count", __le32); ("en_reserved", __le32);
  ("en_extents", CStructs 128 packed_aetherfs_extent)].

Definition packed_aetherfs_dir_entry : cstruct := CStruct true [
  ("ino", __le64); ("rec_len", __le16); ("name_len", __le16); ("file_type", __u8);
  ("checksum", __u8); ("name", CArray 0 1 1)].

Definition packed_aetherfs_cow_header : cstruct := CStruct true [
  ("ch_root", __le64); ("ch_old_root", __le64); ("ch_generation", __le32);
  ("ch_checksum", __le32); ("ch_snapshot_id", __le64)].

Definition packed_aetherfs_snapshot_ref : cstruct := CStruct true [
  ("sr_id", __le64); ("sr_gen_time", __le64); ("sr_root_inode", __le64);
  ("sr_extent_tree", __le64); ("sr_meta_tree", __le64); ("sr_refcount", __le32);
  ("sr_flags", __le32); ("sr_reserved", CArray 4 4 4)].

Definition packed_aetherfs_scrub_record : cstruct := CStruct true [
  ("sc_lblk", __le64); ("sc_pblk", __le64); ("sc_length", __le32); ("sc_gen", __le32);
  ("sc_next", __le64)].

Definition packed_aetherfs_health_entry : cstruct := CStruct true [
  ("he_blocknr", __le64); ("he_gen", __le32); ("he_error", __le32); ("he_timestamp", __le64);
  ("he_reserved", CArray 4 4 4)].

Definition packed_aetherfs_intent_log : cstruct := CStruct true [
  ("il_start", __le64); ("il_end", __le64); ("il_head", __le64); ("il_commit", __le64);
  ("il_total", __le32); ("il_outstanding", __le32); ("il_checksum", __le32);
  ("il_reserved", __le32)].

Definition packed_aetherfs_btree_key : cstruct := CStruct true [
  ("k_ino", __le64); ("k_offset", __le64); ("k_value", __le64); ("k_len", __le32);
  ("k_flags", __le32); ("k_checksum", __le32)].

Definition packed_aetherfs_btree_node : cstruct := CStruct true [
  ("bn_next", __le64); ("bn_level", __le32); ("bn_count", __le32); ("bn_checksum", __le32);
  ("bn_reserved", __le32); ("bn_data", CArray 1 1 1)].

Definition packed_aetherfs_device : cstruct := CStruct true [
  ("d_devnr", __le32); ("d_flags", __le32); ("d_total_blocks", __le64);
  ("d_free_blocks", __le64); ("d_start_block", __le64); ("d_bad_blocks", __le64)].

Definition packed_aetherfs_device_group : cstruct := CStruct true [
  ("dg_count", __le32); ("dg_mode", __le32); ("dg_stripe_size", __le32);
  ("dg_total_blocks", __le64); ("dg_devs", CStructs 8 packed_aetherfs_device)].

Definition packed_aetherfs_region : cstruct := CStruct true [
  ("r_start", __le64); ("r_end", __le64); ("r_devnr", __le32); ("r_type", __le32);
  ("r_reserved", __le32); ("r_tree_root", __le64); ("r_bitmap", __le64); ("r_free_head", __le64)].

Definition packed_aetherfs_alloc_group : cstruct := CStruct true [
  ("ag_start", __le64); ("ag_end", __le64); ("ag_id", __le32); ("ag_type", __le32);
  ("ag_inode_tree", __le64); ("ag_extent_tree", __le64); ("ag_free_tree", __le64);
  ("ag_inode_bitmap", __le64); ("ag_data_bitmap", __le64); ("ag_free_inodes", __le32);
  ("ag_free_blocks", __le32); ("ag_checksum", __le32); ("ag_reserved", CArray 3 4 4)].

Definition packed_aetherfs_journal_header : cstruct := CStruct true [
  ("j_blocknr", __le64); ("j_fs_gen", __le32); ("j_entries", __le32); ("j_checkpoint", __le32);
  ("j_tail", __le32); ("j_checksum", __le32)].

Definition packed_aetherfs_journal_entry : cstruct := CStruct true [
  ("je_txn_id", __le64); ("je_op", __le32); ("je_flags", __le32); ("je_blocknr", __le64);
  ("je_checksum", __le32); ("je_reserved", __le32); ("je_data", CArray 1 1 1)].

Definition packed_aetherfs_group_desc : cstruct := CStruct true [
  ("gd_inode_table", __le32); ("gd_inode_bitmap", __le32); ("gd_data_bitmap", __le32);
  ("gd_free_inodes", __le32); ("gd_free_blocks", __le32); ("gd_checksum", __le32);
  ("gd_data_addr", __le64); ("gd_reserved", CArray 4 4 4)].

Definition packed_aetherfs_fs_identity : cstruct := CStruct true [
  ("magic", __le32); ("version", __le32); ("gen", __le32); ("created", __le64);
  ("last_mount", __le64); ("mount_count", __le32); ("flags", __le32); ("uuid", CArray 16 1 1);
  ("checksum", __le32)].

(** ** The two headers compared *)

(** The structures both declare. *)
Definition shared_structs : list (string * (cstruct * cstruct)) := [
  ("super", (struct_aetherfs_super, packed_aetherfs_super));
  ("inode", (struct_aetherfs_inode, packed_aetherfs_inode));
  ("extent", (struct_aetherfs_extent, packed_aetherfs_extent));
  ("extent_node", (struct_aetherfs_extent_node, packed_aetherfs_extent_node));
  ("dir_entry", (struct_aetherfs_dir_entry, packed_aetherfs_dir_entry));
  ("cow_header", (struct_aetherfs_cow_header, packed_aetherfs_cow_header));
  ("snapshot_ref", (struct_aetherfs_snapshot_ref, packed_aetherfs_snapshot_ref));
  ("scrub_record", (struct_aetherfs_scrub_record, packed_aetherfs_scrub_record));
  ("health_entry", (struct_aetherfs_health_entry, packed_aetherfs_health_entry));
  ("intent_log", (struct_aetherfs_intent_log, packed_aetherfs_intent_log));
  ("btree_key", (struct_aetherfs_btree_key, packed_aetherfs_btree_key));
  ("btree_node", (struct_aetherfs_btree_node, packed_aetherfs_btree_node));
  ("device", (struct_aetherfs_device, packed_aetherfs_device));
  ("device_group", (struct_aetherfs_device_group, packed_aetherfs_device_group));
  ("region", (struct_aetherfs_region, packed_aetherfs_region));
  ("alloc_group", (struct_aetherfs_alloc_group, packed_aetherfs_alloc_group));
  ("journal_header", (struct_aetherfs_journal_header, packed_aetherfs_journal_header));
  ("journal_entry", (struct_aetherfs_journal_entry, packed_aetherfs_journal_entry));
  ("group_desc", (struct_aetherfs_group_desc, packed_aetherfs_group_desc))].

(** The same size, and every field the two share in the same place. *)
Definition same_layout (a b : cstruct) : bool :=
  bool_decide (struct_size a = struct_size b) &&
  forallb (λ p, forallb (λ q, negb (String.eqb p.1 q.1) || bool_decide (p.2 = q.2)) (placed b))
    (placed a).

(** Every field of every structure has a sensible type, so that [fields_disjoint] applies. *)
Lemma shared_structs_ok :
  Forall (λ s, Forall (λ p, ctype_ok p.2) (cs_fields s.2.1) ∧
               Forall (λ p, ctype_ok p.2) (cs_fields s.2.2)) shared_structs.
Proof. apply (bool_decide_unpack _). vm_compute. exact I. Qed.

(** A field both structures have, of some bytes, with its place in each. *)
Definition common_field (a b : cstruct) (f g : field) : Prop :=
  (0 < f_len f ∧ 0 < f_len g)%Z ∧ ∃ name, (name, f) ∈ placed a ∧ (name, g) ∈ placed b.

(** Whatever is written to a common field through one declaration is read through the other. *)
Definition interchangeable (a b : cstruct) : Prop :=
  ∀ f g v data, common_field a b f g → len data = struct_size a ∨ len data = struct_size b →
    le_range (Z.to_nat (f_len f)) v → get g (put f v data) = v ∧ get f (put g v data) = v.

(** Some value of a common field, written through [a] to a buffer that can hold either
    structure, is not what is read through [b]. *)
Definition misread (a b : cstruct) : Prop :=
  ∃ f g v data, common_field a b f g ∧ len data = Z.max (struct_size a) (struct_size b) ∧
    is_bytes data ∧ le_range (Z.to_nat (f_len f)) v ∧ get g (put f v data) ≠ v.

(** All fields lie in the structure. *)
Definition fields_inside (a : cstruct) : bool :=
  forallb (λ p, ((0 <=? f_off p.2) && (0 <=? f_len p.2) && (f_off p.2 + f_len p.2 <=? struct_size a))%Z)
    (placed a).

Lemma fields_inside_spec a name f data : fields_inside a = true → (name, f) ∈ placed a →
  len data = struct_size a → inside f data.
Proof.
  unfold fields_inside. rewrite forallb_forall. intros H Hf Hl.
  specialize (H _ (proj1 (list_elem_of_In _ _) Hf)). cbn [snd] in H. bool_to_prop. unfold inside. lia.
Qed.

(** The common fields of some bytes are in the same places. *)
Definition fields_agree (a b : cstruct) : bool :=
  forallb (λ p, forallb (λ q,
    negb (String.eqb p.1 q.1) || (f_len p.2 <=? 0)%Z || (f_len q.2 <=? 0)%Z || bool_decide (p.2 = q.2))
    (placed b)) (placed a).

Lemma fields_agree_interchangeable a b : fields_inside a = true → fields_inside b = true →
  fields_agree a b = true → interchangeable a b.
Proof.
  intros Ha Hb H f g v data [[Lf Lg] (name & Hf & Hg)] Hl Hv. unfold fields_agree in H.
  rewrite forallb_forall in H. specialize (H _ (proj1 (list_elem_of_In _ _) Hf)).
  rewrite forallb_forall in H. specialize (H _ (proj1 (list_elem_of_In _ _) Hg)). cbn [fst snd] in H.
  rewrite String.eqb_refl, (proj2 (Z.leb_gt _ _) Lf), (proj2 (Z.leb_gt _ _) Lg) in H. cbn [negb orb] in H.
  rewrite bool_decide_eq_true in H. subst g.
  assert (inside f data) as Hi by
    (destruct Hl; [by apply (fields_inside_spec a name)|by apply (fields_inside_spec b name)]).
  by rewrite get_put.
Qed.

(** Values and buffers that tell two different places apart: 1 among zeros, the greatest value
    among zeros, and 0 among ones. *)
Definition probes (f : field) (n : Z) : list (Z * bytes) :=
  [(1, zeros n); (2 ^ (8 * f_len f) - 1, zeros n); (0, replicate (Z.to_nat n) 255)].

Definition misread_on (f g : field) (n : Z) (p : Z * bytes) : bool :=
  ((0 <=? p.1) && (p.1 <? 2 ^ (8 * Z.of_nat (Z.to_nat (f_len f)))) && negb (get g (put f p.1 p.2) =? p.1))%Z.

(** The first common field that the two place differently. *)
Definition displaced (a b : cstruct) : option (field * field) :=
  head (p ← placed a; q ← placed b;
    if String.eqb p.1 q.1 && (0 <? f_len p.2)%Z && (0 <? f_len q.2)%Z
    then (if decide (p.2 = q.2) then [] else [(p.2, q.2)]) else []).

Definition has_misread (a b : cstruct) : bool :=
  let n := Z.max (struct_size a) (struct_size b) in
  match displaced a b with
  | Some (f, g) => (0 <=? n)%Z && existsb (misread_on f g n) (probes f n)
  | None => false
  end.

Lemma displaced_common a b f g : displaced a b = Some (f, g) → common_field a b f g.
Proof.
  unfold displaced. intros H%head_Some_elem_of. apply list_elem_of_bind in H as ([name f'] & H & Hf).
  apply list_elem_of_bind in H as ([name' g'] & H & Hg). cbn [fst snd] in H.
  destruct (_ && _ && _) eqn:E; [|by apply elem_of_nil in H].
  rewrite !andb_true_iff, String.eqb_eq, !Z.ltb_lt in E. destruct E as [[<- Lf] Lg].
  destruct (decide (f' = g')); [by apply elem_of_nil in H|].
  apply list_elem_of_singleton in H as [= <- <-]. split; [done|]. by exists name.
Qed.

Lemma has_misread_spec a b : has_misread a b = true → misread a b.
Proof.
  unfold has_misread. cbv zeta. destruct (displaced a b) as [[f g]|] eqn:Ed; [|done].
  rewrite andb_true_iff, existsb_exists. intros [Hn ([v data] & Hp & H)].
  unfold misread_on in H. cbn [fst snd] in H. bool_to_prop.
  exists f, g, v, data. split; [by apply displaced_common|].
  assert (len data = Z.max (struct_size a) (struct_size b) ∧ is_bytes data) as [Hl Hb].
  { repeat destruct Hp as [[= <- <-]|Hp]; [..|done]; unfold zeros, len; rewrite length_replicate;
      (split; [lia|by apply Forall_replicate]). }
  split; [done|]. split; [done|]. split; [unfold le_range; lia|done].
Qed.

(** The outcome of the comparison. *)
Inductive agreement := SameLayout | OtherSize | OtherPlaces.

#[export] Instance agreement_eq_dec : EqDecision agreement.
Proof. solve_decision. Defined.

Definition agreement_of (name : string) : agreement :=
  if bool_decide (name ∈ ["extent"; "extent_node"; "cow_header"; "snapshot_ref"; "scrub_record";
      "health_entry"; "intent_log"; "device"; "alloc_group"]) then SameLayout
  else if bool_decide (name ∈ ["dir_entry"; "btree_key"; "btree_node"; "journal_header";
      "journal_entry"; "group_desc"]) then OtherSize
  else OtherPlaces.

Definition agreement_holds (name : string) (a b : cstruct) : bool :=
  match agreement_of name with
  | SameLayout => bool_decide (struct_size a = struct_size b) && fields_agree a b
  | OtherSize => negb (bool_decide (struct_size a = struct_size b)) && fields_agree a b
  | OtherPlaces => has_misread a b && has_misread b a
  end.

(** C21: how far the two headers agree on the nineteen structures both declare.  Nine may be
    exchanged: they have the same size, and whatever is written to a common field of any buffer
    through one header is read through the other.  Of six more, the directory entry and the
    keys and nodes of the b-tree among them, that holds of the fields, but the sizes differ.
    On the other four, the superblock, the inode, the device group and the region, in either
    direction there is a common field and a value that is misread. *)
Theorem headers_agree_on name a b : (name, (a, b)) ∈ shared_structs →
  match agreement_of name with
  | SameLayout => struct_size a = struct_size b ∧ interchangeable a b
  | OtherSize => struct_size a ≠ struct_size b ∧ interchangeable a b
  | OtherPlaces => name ∈ ["super"; "inode"; "device_group"; "region"] ∧ misread a b ∧ misread b a
  end.
Proof.
  intros Hin.
  assert (Forall (λ s, fields_inside s.2.1 && fields_inside s.2.2 = true ∧
    agreement_holds s.1 s.2.1 s.2.2 = true ∧
    (agreement_of s.1 = OtherPlaces → s.1 ∈ ["super"; "inode"; "device_group"; "region"])) shared_structs) as H
    by (apply (bool_decide_unpack _); vm_compute; exact I).
  rewrite Forall_forall in H. destruct (H _ Hin) as (Hi & Ha & Hn). cbn [fst snd] in Hi, Ha, Hn.
  apply andb_true_iff in Hi as [Hia Hib]. unfold agreement_holds in Ha.
  destruct (agreement_of name); apply andb_true_iff in Ha as [H1 H2].
  - apply bool_decide_eq_true in H1. split; [done|]. by apply fields_agree_interchangeable.
  - apply negb_true_iff, bool_decide_eq_false in H1. split; [done|]. by apply fields_agree_interchangeable.
  - split; [by apply Hn|]. split; by apply has_misread_spec.
Qed.

(** Extents may be exchanged between the headers; a directory entry has another size, and an
    inode is misread. *)
Lemma headers_agree_on_witness :
  interchangeable struct_aetherfs_extent packed_aetherfs_extent ∧
  struct_size struct_aetherfs_dir_entry ≠ struct_size packed_aetherfs_dir_entry ∧
  misread struct_aetherfs_inode packed_aetherfs_inode.
Proof.
  split; [|split].
  - refine (proj2 (headers_agree_on "extent" _ _ _)). right. right. left.
  - refine (proj1 (headers_agree_on "dir_entry" _ _ _)). do 4 right. left.
  - refine (proj1 (proj2 (headers_agree_on "inode" _ _ _))). right. left.
Defined.

(** Neither inode fits the smallest block. *)
Lemma kernel_inode_exceeds_block :
  struct_size struct_aetherfs_inode = 4144 ∧ struct_size packed_aetherfs_inode = 4136.
Proof. by vm_compute. Qed.

(** ** Fields

    The places of the fields the kernel's functions use. *)

Definition f_s_magic : field := Eval vm_compute in field_of struct_aetherfs_super "s_magic".
Definition f_s_blocks_count : field := Eval vm_compute in field_of struct_aetherfs_super "s_blocks_count".
Definition f_s_free_blocks : field := Eval vm_compute in field_of struct_aetherfs_super "s_free_blocks".
Definition f_s_checksum : field := Eval vm_compute in field_of struct_aetherfs_super "s_checksum".
Definition f_s_uuid : field := Eval vm_compute in field_of struct_aetherfs_super "s_uuid".
Definition f_s_root_inode : field := Eval vm_compute in field_of struct_aetherfs_super "s_root_inode".
Definition f_s_inodes_count : field := Eval vm_compute in field_of struct_aetherfs_super "s_inodes_count".
Definition f_s_meta_tree : field := Eval vm_compute in field_of struct_aetherfs_super "s_meta_tree".
Definition f_s_extent_tree : field := Eval vm_compute in field_of struct_aetherfs_super "s_extent_tree".
Definition f_s_snap_tree : field := Eval vm_compute in field_of struct_aetherfs_super "s_snap_tree".
Definition f_i_mode : field := Eval vm_compute in field_of struct_aetherfs_inode "i_mode".
Definition f_i_links_count : field := Eval vm_compute in field_of struct_aetherfs_inode "i_links_count".
Definition f_i_uid : field := Eval vm_compute in field_of struct_aetherfs_inode "i_uid".
Definition f_i_gid : field := Eval vm_compute in field_of struct_aetherfs_inode "i_gid".
Definition f_i_size : field := Eval vm_compute in field_of struct_aetherfs_inode "i_size".
Definition f_i_blocks : field := Eval vm_compute in field_of struct_aetherfs_inode "i_blocks".
Definition f_i_atime : field := Eval vm_compute in field_of struct_aetherfs_inode "i_atime".
Definition f_i_ctime : field := Eval vm_compute in field_of struct_aetherfs_inode "i_ctime".
Definition f_i_mtime : field := Eval vm_compute in field_of struct_aetherfs_inode "i_mtime".
Definition f_i_extent_root : field := Eval vm_compute in field_of struct_aetherfs_inode "i_extent_root".
Definition f_i_flags : field := Eval vm_compute in field_of struct_aetherfs_inode "i_flags".
Definition f_i_checksum : field := Eval vm_compute in field_of struct_aetherfs_inode "i_checksum".
Definition f_i_inline_len : field := Eval vm_compute in field_of struct_aetherfs_inode "i_inline_len".
Definition f_i_inline : field := Eval vm_compute in field_of struct_aetherfs_inode "i_inline".
Definition f_en_reserved : field := Eval vm_compute in field_of struct_aetherfs_extent_node "en_reserved".
Definition f_sr_id : field := Eval vm_compute in field_of struct_aetherfs_snapshot_ref "sr_id".
Definition f_sr_gen_time : field := Eval vm_compute in field_of struct_aetherfs_snapshot_ref "sr_gen_time".
Definition f_sr_root_inode : field := Eval vm_compute in field_of struct_aetherfs_snapshot_ref "sr_root_inode".
Definition f_sr_extent_tree : field := Eval vm_compute in field_of struct_aetherfs_snapshot_ref "sr_extent_tree".
Definition f_sr_meta_tree : field := Eval vm_compute in field_of struct_aetherfs_snapshot_ref "sr_meta_tree".
Definition f_sr_refcount : field := Eval vm_compute in field_of struct_aetherfs_snapshot_ref "sr_refcount".
Definition f_sr_flags : field := Eval vm_compute in field_of struct_aetherfs_snapshot_ref "sr_flags".
Definition f_de_ino : field := Eval vm_compute in field_of struct_aetherfs_dir_entry "ino".
Definition f_de_rec_len : field := Eval vm_compute in field_of struct_aetherfs_dir_entry "rec_len".
Definition f_de_name_len : field := Eval vm_compute in field_of struct_aetherfs_dir_entry "name_len".
Definition f_de_file_type : field := Eval vm_compute in field_of struct_aetherfs_dir_entry "file_type".
Definition f_de_checksum : field := Eval vm_compute in field_of struct_aetherfs_dir_entry "checksum".
Definition f_de_name : field := Eval vm_compute in field_of struct_aetherfs_dir_entry "name".
Definition f_jh_checksum : field := Eval vm_compute in field_of struct_aetherfs_journal_header "j_checksum".
Definition f_bn_checksum : field := Eval vm_compute in field_of struct_aetherfs_btree_node "bn_checksum".

(** [sr_reserved[3]], the last of four. *)
Definition f_sr_checksum : field :=
  Eval vm_compute in Field (f_off (field_of struct_aetherfs_snapshot_ref "sr_reserved") + 12) 4.
