(* ===== verification/HeaderCode.v ===== *)
(** * The headers' constants and inline code

    Three headers define the constants of the file system: [aetherfs_format.h], which the tools
    use, [kernel/aetherfs.h], which the kernel module uses, and [kernel/on_disk.h], which
    nothing includes.  Each is a table of names and values here (without the prefix
    [AETHERFS_]), compared with the others.  Then the packed structures of the format header
    that the tools never touch, and the functions the headers define inline: the checksum in
    the branch of [aetherfs.h] for user space, the checks of flags and sizes, and the type of
    a directory entry from a mode.  Last the constants and structures single files declare and
    hardly use. *)

From S2P Require Import Prelude Codec Crc Format Struct KernelHeader.
From stdpp Require Import strings.
Local Open Scope string_scope.
Local Open Scope Z_scope.

(** ** Constants *)

Definition format_constants : list (string * Z) := [
  ("MAGIC", 0x41455448); ("VERSION", 5); ("MIN_BLOCK_SIZE", 4096); ("DEF_BLOCK_SIZE", 4096);
  ("DEF_BLOCK_SIZE_SSD", 16384); ("MAX_BLOCK_SIZE", 65536); ("INODE_SIZE", 512);
  ("INODE_INLINE_SIZE", 372); ("MAX_NAMELEN", 255); ("MAX_SYMLINK", 256);
  ("EXTENT_LOG_MAX", 102); ("BTREE_MAX", 128); ("BITMAP_HEADER_SIZE", 16);
  ("BITMAP_BYTES", 4080); ("BITMAP_BITS", 32640); ("BLOCKS_PER_AG", 2097152);
  ("BLOCKS_PER_GROUP", 2097152); ("INODES_PER_GROUP", 256); ("MAX_INODES", 32640);
  ("CRC_SEED", 0xFFFFFFFF); ("MAX_DEVICES", 8); ("MAX_SNAPSHOTS", 256);
  ("SSD_MAX_HOLE_PUNCH_LEN", 65536); ("SSD_DISCARD_GRANULARITY", 4096);
  ("SSD_MAX_DISCARD_CHUNK", 134217728); ("COW_MODE", 0); ("OVERWRITE_MODE", 1);
  ("APPEND_MODE", 2); ("F_COW", 0x1); ("F_COMPRESSED", 0x2); ("F_ENCRYPTED", 0x4);
  ("F_REFLINKED", 0x8); ("F_VERITY", 0x10); ("F_APPEND", 0x20); ("F_IMMUTABLE", 0x40);
  ("F_INLINE", 0x80); ("F_SMALL", 0x100); ("EXT_COW", 1); ("EXT_SHARED", 2);
  ("EXT_UNWRITTEN", 4); ("SNAP_READONLY", 1); ("SNAP_MERGING", 2); ("DEV_ONLINE", 1);
  ("DEV_FAILED", 2); ("DEV_READONLY", 4); ("DEV_CLASS_NONE", 0x0); ("DEV_CLASS_FAST", 0x1);
  ("DEV_CLASS_CAPACITY", 0x2); ("DEV_CLASS_ARCHIVAL", 0x4); ("DEV_CLASS_METADATA", 0x8);
  ("DEV_CLASS_LOG", 0x10); ("DEV_CLASS_CACHE", 0x20); ("REGION_META", 1); ("REGION_DATA", 2);
  ("REGION_LOG", 3); ("REGION_SCRUB", 4); ("DG_LINEAR", 0); ("DG_RAID0", 1); ("DG_RAID5", 2);
  ("POOL_MAGIC", 0x504F4F4C); ("POOL_VERSION", 1); ("CHECKPOINT_ROOT_MAGIC", 0x43505254);
  ("CHECKPOINT_ROOT_VERSION", 1); ("POOL_PROFILE_SINGLE", 0); ("POOL_PROFILE_MIRROR", 1);
  ("POOL_PROFILE_STRIPE", 2); ("POOL_PROFILE_PARITY", 3); ("POOL_PROFILE_TIERED", 4);
  ("POOL_MEMBER_DATA", 1); ("POOL_MEMBER_METADATA", 2); ("POOL_MEMBER_LOG", 4);
  ("POOL_MEMBER_CACHE", 8); ("JOURNAL_RECOVERING", 1); ("JOURNAL_FAST_COMMIT", 2);
  ("JOURNAL_META", 1); ("JOURNAL_DATA", 2); ("JOURNAL_ALLOC", 3); ("JOURNAL_FREE", 4);
  ("POOL_LABEL_BLOCK", 0); ("SUPERBLOCK_BLOCK", 1); ("ROOT_INODE_BLOCK", 2);
  ("ROOT_DIR_BLOCK", 3); ("JOURNAL_BLOCK", 4); ("INODE_BITMAP_BLOCK", 5);
  ("FREE_EXTENT_BLOCK", 6); ("CHECKPOINT_ROOT_BLOCK", 7); ("DATA_START_BLOCK", 8);
  ("BOOTSTRAP_BLOCKS", 8); ("ROOT_INO", 16); ("DIR_ENTRY_BASE_SIZE", 14); ("FT_UNKNOWN", 0);
  ("FT_REG_FILE", 1); ("FT_DIR", 2); ("JOURNAL_DIRTY", 1); ("CHECKSUM_BLOCK_HEADER_SIZE", 16)].

Definition kernel_limits : list (string * Z) := [
  ("MAGIC", 0x41455448); ("VERSION", 2); ("MAX_BLOCK_SIZE", 65536); ("MIN_BLOCK_SIZE", 4096);
  ("DEF_BLOCK_SIZE", 4096); ("DEF_BLOCK_SIZE_SSD", 16384); ("MAX_NAMELEN", 255);
  ("MAX_SYMLINK", 256); ("INODE_SIZE", 512); ("EXTENT_LOG_MAX", 128); ("BTREE_MAX", 128);
  ("BLOCKS_PER_AG", 2097152); ("BLOCKS_PER_GROUP", 2097152); ("INODES_PER_GROUP", 8192);
  ("MAX_INODES", 67108864); ("CRC_SEED", 0xFFFFFFFF); ("COW_MODE", 0); ("OVERWRITE_MODE", 1);
  ("APPEND_MODE", 2); ("ROOT_INO", 16); ("SUPERBLOCK_BLOCK", 1); ("ROOT_INODE_BLOCK", 2);
  ("ROOT_DIR_BLOCK", 3); ("JOURNAL_BLOCK", 4); ("INODE_BITMAP_BLOCK", 5);
  ("FREE_EXTENT_BLOCK", 6); ("DATA_START_BLOCK", 7); ("SSD_MAX_HOLE_PUNCH_LEN", 65536);
  ("SSD_DISCARD_GRANULARITY", 4096); ("SSD_MAX_DISCARD_CHUNK", 134217728); ("COW_THRESHOLD", 4);
  ("MAX_DEVICES", 8); ("MAX_INLINE", 4096); ("F_COW", 0x1); ("F_COMPRESSED", 0x2);
  ("F_ENCRYPTED", 0x4); ("F_REFLINKED", 0x8); ("F_VERITY", 0x10); ("F_APPEND", 0x20);
  ("F_IMMUTABLE", 0x40); ("F_INLINE", 0x80); ("F_SMALL", 0x100)].

Definition kernel_extent_flags : list (string * Z) := [
  ("EXT_COW", 1); ("EXT_SHARED", 2); ("EXT_UNWRITTEN", 4)].

Definition kernel_snapshot_flags : list (string * Z) := [
  ("SNAP_READONLY", 1); ("SNAP_MERGING", 2)].

Definition kernel_device_flags : list (string * Z) := [
  ("DEV_ONLINE", 1); ("DEV_FAILED", 2); ("DEV_READONLY", 4)].

Definition kernel_region_types : list (string * Z) := [
  ("REGION_META", 1); ("REGION_DATA", 2); ("REGION_LOG", 3); ("REGION_SCRUB", 4)].

Definition kernel_group_types : list (string * Z) := [
  ("DG_LINEAR", 0); ("DG_RAID0", 1); ("DG_RAID5", 2)].

Definition kernel_journal_flags : list (string * Z) := [
  ("JOURNAL_RECOVERING", 1); ("JOURNAL_FAST_COMMIT", 2)].

Definition kernel_journal_types : list (string * Z) := [
  ("JOURNAL_META", 1); ("JOURNAL_DATA", 2); ("JOURNAL_ALLOC", 3); ("JOURNAL_FREE", 4)].

Definition extent_tree_limits : list (string * Z) := [
  ("MAX_EXTENT_TREE_DEPTH", 8); ("EXTENT_NODE_MAX_EXTENTS", 64); ("FREE_EXTENT_TREE_ORDER", 32);
  ("MAX_FREE_EXTENTS_PER_TREE", 4096)].

Definition xattr_constants : list (string * Z) := [
  ("XATTR_MAX_SIZE", 65536); ("XATTR_NAME_MAX", 255); ("XATTR_TYPE_USER", 1);
  ("XATTR_TYPE_TRUSTED", 2); ("XATTR_TYPE_SECURITY", 3); ("XATTR_TYPE_POLICY", 4)].

Definition audit_constants : list (string * Z) := [
  ("AUDIT_MAX_EVENTS", 1024); ("AUDIT_EVENT_SIZE", 256); ("AUDIT_OP_CREATE", 1);
  ("AUDIT_OP_DELETE", 2); ("AUDIT_OP_MODIFY", 3); ("AUDIT_OP_SETATTR", 4);
  ("AUDIT_OP_SETXATTR", 5); ("AUDIT_OP_SNAPSHOT", 6); ("AUDIT_OP_CLONE", 7)].

Definition on_disk_constants : list (string * Z) := [
  ("MAGIC", 0x41455448); ("VERSION", 2); ("MIN_BLOCK_SIZE", 4096); ("DEF_BLOCK_SIZE", 4096);
  ("DEF_BLOCK_SIZE_SSD", 16384); ("MAX_BLOCK_SIZE", 65536); ("MAX_NAMELEN", 255);
  ("MAX_SYMLINK", 256); ("MAX_INLINE", 4096); ("EXTENT_LOG_MAX", 128); ("BTREE_MAX", 128);
  ("BLOCKS_PER_AG", 2097152); ("BLOCKS_PER_GROUP", 2097152); ("INODES_PER_GROUP", 8192);
  ("MAX_INODES", 67108864); ("CRC_SEED", 0xFFFFFFFF); ("MAX_DEVICES", 8); ("MAX_SNAPSHOTS", 256);
  ("SSD_MAX_HOLE_PUNCH_LEN", 65536); ("SSD_DISCARD_GRANULARITY", 4096);
  ("SSD_MAX_DISCARD_CHUNK", 134217728); ("COW_MODE", 0); ("OVERWRITE_MODE", 1);
  ("APPEND_MODE", 2); ("F_COW", 0x1); ("F_COMPRESSED", 0x2); ("F_ENCRYPTED", 0x4);
  ("F_REFLINKED", 0x8); ("F_VERITY", 0x10); ("F_APPEND", 0x20); ("F_IMMUTABLE", 0x40);
  ("F_INLINE", 0x80); ("F_SMALL", 0x100); ("EXT_COW", 1); ("EXT_SHARED", 2);
  ("EXT_UNWRITTEN", 4); ("SNAP_READONLY", 1); ("SNAP_MERGING", 2); ("DEV_ONLINE", 1);
  ("DEV_FAILED", 2); ("DEV_READONLY", 4); ("REGION_META", 1); ("REGION_DATA", 2);
  ("REGION_LOG", 3); ("REGION_SCRUB", 4); ("DG_LINEAR", 0); ("DG_RAID0", 1); ("DG_RAID5", 2);
  ("JOURNAL_RECOVERING", 1); ("JOURNAL_FAST_COMMIT", 2); ("JOURNAL_META", 1);
  ("JOURNAL_DATA", 2); ("JOURNAL_ALLOC", 3); ("JOURNAL_FREE", 4)].

Definition dirent_types : list (string * Z) := [
  ("DT_UNKNOWN", 0); ("DT_FIFO", 1); ("DT_CHR", 2); ("DT_DIR", 4); ("DT_BLK", 6); ("DT_REG", 8);
  ("DT_LNK", 10); ("DT_SOCK", 12)].

Definition mode_types : list (string * Z) := [
  ("S_IFMT", 0xF000); ("S_IFLNK", 0xA000); ("S_IFREG", 0x8000); ("S_IFDIR", 0x4000);
  ("S_IFCHR", 0x2000); ("S_IFBLK", 0x6000); ("S_IFIFO", 0x1000); ("S_IFSOCK", 0xC000)].

Definition kernel_constants : list (string * Z) :=
  (kernel_limits ++ kernel_extent_flags ++ kernel_snapshot_flags ++ kernel_device_flags ++
   kernel_region_types ++ kernel_group_types ++ kernel_journal_flags ++ kernel_journal_types ++
   extent_tree_limits ++ xattr_constants ++ audit_constants)%list.

Definition value_of (table : list (string * Z)) (name : string) : option Z :=
  snd <$> (list_find (λ p, p.1 = name) table ≫= λ p, Some p.2).

(** The names two tables give different values, with the values. *)
Definition disagreements (a b : list (string * Z)) : list (string * Z * Z) :=
  omap (λ p, v ← value_of b p.1; if p.2 =? v then None else Some (p.1, p.2, v)) a.

(** The kinds of metadata [aetherfs_cow_metadata_update] is told of. *)
Inductive aetherfs_meta_type :=
| AETHERFS_META_INODE | AETHERFS_META_EXTENT_TREE | AETHERFS_META_DIR_BLOCK
| AETHERFS_META_ALLOC_MAP | AETHERFS_META_SUPERBLOCK.

(** ** Structures *)

Definition format_cow_header : cstruct := CStruct true [
  ("ch_root", __le64); ("ch_old_root", __le64); ("ch_generation", __le32);
  ("ch_checksum", __le32); ("ch_snapshot_id", __le64)].

Definition format_snapshot_ref : cstruct := CStruct true [
  ("sr_id", __le64); ("sr_gen_time", __le64); ("sr_root_inode", __le64);
  ("sr_extent_tree", __le64); ("sr_meta_tree", __le64); ("sr_refcount", __le32);
  ("sr_flags", __le32); ("sr_reserved", CArray 4 4 4)].

Definition format_scrub_record : cstruct := CStruct true [
  ("sc_lblk", __le64); ("sc_pblk", __le64); ("sc_length", __le32); ("sc_gen", __le32);
  ("sc_next", __le64)].

Definition format_health_entry : cstruct := CStruct true [
  ("he_blocknr", __le64); ("he_gen", __le32); ("he_error", __le32); ("he_timestamp", __le64);
  ("he_reserved", CArray 4 4 4)].

Definition format_btree_key : cstruct := CStruct true [
  ("k_ino", __le64); ("k_offset", __le64); ("k_value", __le64); ("k_len", __le32);
  ("k_flags", __le32); ("k_checksum", __le32)].

Definition format_btree_node : cstruct := CStruct true [
  ("bn_next", __le64); ("bn_level", __le32); ("bn_count", __le32); ("bn_checksum", __le32);
  ("bn_reserved", __le32); ("bn_data", CArray 0 1 1)].

(** [struct aetherfs_inode_info] outside the kernel: the inode with the small inline area. *)
Definition user_aetherfs_inode_info : cstruct := CStruct false [
  ("i_mode", __le16); ("i_links_count", __le16); ("i_uid", __le32); ("i_gid", __le32);
  ("i_size", __le64); ("i_blocks", __le64); ("i_atime", __le64); ("i_ctime", __le64);
  ("i_mtime", __le64); ("i_extent_root", __le64); ("i_nlink", __le32); ("i_flags", __le32);
  ("i_xattr", __le64); ("i_reflink", __le64); ("i_parent", __le64); ("i_snapshot_id", __le64);
  ("i_checksum", __le32); ("i_inline_len", __le32); ("i_data_gen", __le64);
  ("i_data", CArray 24 1 1); ("i_inline", CArray 372 1 1)].

(** The assertions at the end of the format header. *)
Definition static_asserts : bool :=
  (sizeof aetherfs_inode =? AETHERFS_INODE_SIZE) &&
  (sizeof aetherfs_super <? AETHERFS_DEF_BLOCK_SIZE) &&
  (sizeof aetherfs_bitmap_block =? AETHERFS_DEF_BLOCK_SIZE) &&
  (sizeof aetherfs_extent_node =? AETHERFS_DEF_BLOCK_SIZE) &&
  (sizeof aetherfs_checksum_block =? AETHERFS_DEF_BLOCK_SIZE) &&
  (sizeof aetherfs_pool_label <=? AETHERFS_DEF_BLOCK_SIZE) &&
  (sizeof aetherfs_checkpoint_root =? AETHERFS_DEF_BLOCK_SIZE).

(** ** Checksums *)

(** [c ^= (c >> k);] *)
Definition xorshift (k c : Z) : Z := Z.lxor c (Z.shiftr c k).

(** One byte of [aetherfs_crc32c] of [aetherfs.h], outside the kernel. *)
Definition user_crc_byte (c b : Z) : Z :=
  let c := Z.lxor c b in
  let c := xorshift 16 c in
  let c := xorshift 8 c in
  let c := xorshift 4 c in
  let c := xorshift 2 c in
  let c := xorshift 1 c in
  Z.lxor c (if Z.odd c then 0xEDB88320 else 0).

Definition user_aetherfs_crc32c (crc : Z) (buf : bytes) : Z :=
  Z.lxor (foldl user_crc_byte crc buf) 0xFFFFFFFF.

(** [aetherfs_crc32c] of [on_disk.h], byte by byte and bit by bit. *)
Fixpoint on_disk_bits (n : nat) (c : Z) : Z :=
  match n with
  | O => c
  | S n => on_disk_bits n (Z.lxor (Z.shiftr c 1) (if Z.odd c then 0xEDB88320 else 0))
  end.

Fixpoint on_disk_loop (p : bytes) (c : Z) : Z :=
  match p with
  | [] => c
  | b :: p => on_disk_loop p (on_disk_bits 8 (Z.lxor c b))
  end.

Definition on_disk_aetherfs_crc32c (crc : Z) (buf : bytes) : Z :=
  Z.lxor (on_disk_loop buf (Z.lxor crc 0xFFFFFFFF)) 0xFFFFFFFF.

Definition on_disk_aetherfs_crc32c_data (data : bytes) : Z :=
  on_disk_aetherfs_crc32c AETHERFS_CRC_SEED data.

(** ** Small functions of [aetherfs.h]

    The checksum is the branch for user space or the one for the kernel. *)

Section header.
Context (crc32c : Z → bytes → Z).

Definition header_aetherfs_crc32 (buf : bytes) : Z := crc32c 0xFFFFFFFF buf.

(** The first [size] bytes behind the pointer. *)
Definition header_aetherfs_checksum_block (block : bytes) (size : Z) : Z :=
  header_aetherfs_crc32 (slice 0 size block).

Definition aetherfs_verify_checksum (block : bytes) (size expected : Z) : bool :=
  header_aetherfs_crc32 (slice 0 size block) =? expected.

Definition aetherfs_checksum_super (super : bytes) : Z := header_aetherfs_crc32 (slice 0 72 super).
End header.

Definition AETHERFS_MAX_INLINE : Z := 4096.

Definition aetherfs_is_cow_mode (flags : Z) : Z := Z.land flags 0x0001.
Definition aetherfs_is_append_mode (flags : Z) : Z := Z.land flags 0x0020.
Definition aetherfs_is_small_file (size : Z) : bool := size <=? AETHERFS_MAX_INLINE.

(** ** Modes *)

Definition mode_value (name : string) : Z := default 0 (value_of mode_types name).
Definition dirent_value (name : string) : Z := default 0 (value_of dirent_types name).

(** [((m) & S_IFMT) == S_IFxxx] *)
Definition mode_is (kind : string) (m : Z) : bool := Z.land m (mode_value "S_IFMT") =? mode_value kind.

Definition on_disk_S_ISLNK := mode_is "S_IFLNK".
Definition on_disk_S_ISREG := mode_is "S_IFREG".
Definition on_disk_S_ISDIR := mode_is "S_IFDIR".
Definition on_disk_S_ISCHR := mode_is "S_IFCHR".
Definition on_disk_S_ISBLK := mode_is "S_IFBLK".

(** The cases of the [switch], in order. *)
Definition dtype_cases : list (string * string) := [
  ("S_IFLNK", "DT_LNK"); ("S_IFREG", "DT_REG"); ("S_IFDIR", "DT_DIR"); ("S_IFCHR", "DT_CHR");
  ("S_IFBLK", "DT_BLK"); ("S_IFIFO", "DT_FIFO"); ("S_IFSOCK", "DT_SOCK")].

Definition fs_mode_to_dtype (mode : Z) : Z :=
  match list_find (λ c, mode_is c.1 mode = true) dtype_cases with
  | Some (_, (_, dt)) => dirent_value dt
  | None => dirent_value "DT_UNKNOWN"
  end.

(** ** Tables of single files

    Constants and structures a file of the module declares for itself and hardly uses. *)

Definition layers_extent_flags : list (string * Z) := [
  ("EXT_SHARED", 0x1); ("EXT_PINNED", 0x2); ("EXT_EXCLUSIVE", 0x4); ("EXT_COW_PENDING", 0x8)].

Definition layers_write_intent : cstruct := CStruct false [
  ("wi_txid", __le64); ("wi_inode", __le64); ("wi_extent_id", __le64); ("wi_mode", __le32);
  ("wi_flags", __le32); ("wi_old_checksum", __le32); ("wi_new_checksum", __le32);
  ("wi_generation", __le64); ("wi_next", __le64)].

Definition layers_transaction : cstruct := CStruct false [
  ("tx_id", __le64); ("tx_inode", __le64); ("tx_root_before", __le64); ("tx_root_after", __le64);
  ("tx_mode", __le32); ("tx_flags", __le32); ("tx_checksum", __le32); ("tx_extent_count", __le32);
  ("tx_extents", CArray 16 8 8)].

Definition journal_transaction : cstruct := CStruct false [
  ("xt_id", __le64); ("xt_sequence", __le64); ("xt_state", __le32); ("xt_intent_count", __le32);
  ("xt_data_mode", __le32); ("xt_start_time", __le64); ("xt_commit_time", __le64);
  ("xt_flags", __le32); ("xt_checksum", __le32)].

Definition btree_constants : list (string * Z) := [
  ("BTREE_MIN_ORDER", 8); ("BTREE_MAX_ORDER", 128); ("BTREE_DEF_ORDER", 32);
  ("EXTENT_PER_LEAF", 16); ("METADATA_PER_LEAF", 32); ("BTREE_DEF_NODE_SIZE", 4096)].

Definition aetherfs_btree_extent_leaf : cstruct := CStruct false [
  ("el_start", __le64); ("el_blocks", __le64); ("el_flags", __le32); ("el_checksum", __le32)].

Definition aetherfs_btree_metadata_leaf : cstruct := CStruct false [
  ("ml_ino", __le64); ("ml_block", __le64); ("ml_size", __le32); ("ml_flags", __le32);
  ("ml_checksum", __le32)].

Definition aetherfs_btree_internal_entry : cstruct := CStruct false [
  ("ie_child", __le64); ("ie_max_key", __le64)].

(** The comparisons are of 32 bits. *)
Definition btree_node_size_for_block (PAGE_SIZE block_size : Z) : Z :=
  let size := block_size in
  let size := if PAGE_SIZE <? size then PAGE_SIZE else size in
  let size := Z.max size 4096 in
  Z.min size 65536.

Definition dir_internal_entry : cstruct := CStruct false [("di_hash", __le32); ("di_child", __le64)].

Definition aetherfs_dir_internal : cstruct := CStruct false [
  ("di_type", __le32); ("di_count", __le32); ("di_flags", __le32); ("di_checksum", __le32);
  ("di_entries", CStructs 0 dir_internal_entry)].

Definition aetherfs_cdc_chunk : cstruct := CStruct false [
  ("cc_checksum", __le32); ("cc_length", __le32); ("cc_ref_block", __le64);
  ("cc_ref_count", __le32); ("cc_reserved", __le32)].

Definition aetherfs_compress_config : cstruct := CStruct false [
  ("c_algorithm", __le32); ("c_level", __le32); ("c_min_blocks", __le32); ("c_reserved", __le32)].

(** ** The tables *)

(** The kernel's header and the format header define 61 constants both, and differ on
    five: the version, the extents of a node, the inodes of a group and of the file system,
    and the first block of data, 7 in the kernel where the tools keep the checkpoint
    root. *)
Theorem kernel_constants_agree :
  disagreements format_constants kernel_constants =
    [("VERSION", 5, 2); ("EXTENT_LOG_MAX", 102, 128); ("INODES_PER_GROUP", 256, 8192);
     ("MAX_INODES", 32640, 67108864); ("DATA_START_BLOCK", 8, 7)] ∧
  disagreements format_constants on_disk_constants =
    [("VERSION", 5, 2); ("EXTENT_LOG_MAX", 102, 128); ("INODES_PER_GROUP", 256, 8192);
     ("MAX_INODES", 32640, 67108864)] ∧
  disagreements kernel_constants on_disk_constants = [].
Proof. vm_compute. auto. Qed.

(** [layers.c] gives the flag of a shared extent another value than the headers, and
    [journal.c] and [layers.c] give the name [aetherfs_transaction] to structures of 56 and
    176 bytes. *)
Lemma layers_differ :
  disagreements layers_extent_flags kernel_constants = [("EXT_SHARED", 1, 2)] ∧
  struct_size journal_transaction = 56 ∧ struct_size layers_transaction = 176.
Proof. vm_compute. auto. Qed.

(** A node has a page, within 4096 and 65536 bytes, or a smaller block of at least 4096. *)
Lemma btree_node_size_bounds PAGE_SIZE block_size :
  4096 ≤ btree_node_size_for_block PAGE_SIZE block_size ≤ 65536 ∧
  (4096 ≤ block_size ≤ 65536 → block_size ≤ PAGE_SIZE → btree_node_size_for_block PAGE_SIZE block_size = block_size) ∧
  (PAGE_SIZE = 4096 → btree_node_size_for_block PAGE_SIZE block_size = 4096).
Proof. unfold btree_node_size_for_block. destruct (Z.ltb_spec PAGE_SIZE block_size); lia. Qed.

(** The constants the tools' model uses are those of the table. *)
Lemma format_constants_used :
  Forall (λ p, value_of format_constants p.1 = Some p.2) [
    ("MAGIC", AETHERFS_MAGIC); ("VERSION", AETHERFS_VERSION);
    ("DEF_BLOCK_SIZE", AETHERFS_DEF_BLOCK_SIZE); ("INODE_SIZE", AETHERFS_INODE_SIZE);
    ("EXTENT_LOG_MAX", AETHERFS_EXTENT_LOG_MAX); ("MAX_INODES", AETHERFS_MAX_INODES);
    ("CRC_SEED", AETHERFS_CRC_SEED); ("POOL_MAGIC", AETHERFS_POOL_MAGIC);
    ("DATA_START_BLOCK", AETHERFS_DATA_START_BLOCK);
    ("CHECKPOINT_ROOT_BLOCK", AETHERFS_CHECKPOINT_ROOT_BLOCK);
    ("BOOTSTRAP_BLOCKS", AETHERFS_BOOTSTRAP_BLOCKS); ("ROOT_INO", AETHERFS_ROOT_INO)].
Proof. apply (bool_decide_unpack _). vm_compute. exact I. Qed.

(** Five structures of the format header are laid out in [on_disk.h] as there; the b-tree
    node has one byte of data there and none here, and the kernel's key is padded. *)
Lemma format_structs_agree :
  Forall (λ p, same_layout p.1 p.2 = true) [
    (format_cow_header, packed_aetherfs_cow_header); (format_snapshot_ref, packed_aetherfs_snapshot_ref);
    (format_scrub_record, packed_aetherfs_scrub_record); (format_health_entry, packed_aetherfs_health_entry);
    (format_btree_key, packed_aetherfs_btree_key)] ∧
  same_layout format_btree_node packed_aetherfs_btree_node = false ∧
  same_layout format_btree_key struct_aetherfs_btree_key = false.
Proof. split; [apply (bool_decide_unpack _); vm_compute; exact I|vm_compute; auto]. Qed.

(** What the header asserts of its sizes holds. *)
Lemma static_asserts_hold : static_asserts = true.
Proof. reflexivity. Qed.

(** Outside the kernel the inode takes 520 bytes, eight more than [AETHERFS_INODE_SIZE], the
    distance at which inodes lie in their block. *)
Lemma user_inode_exceeds_slot :
  struct_size user_aetherfs_inode_info = 520 ∧ value_of kernel_constants "INODE_SIZE" = Some 512.
Proof. vm_compute. auto. Qed.

(** ** The checksums *)

Lemma xorshift_range n k c : 0 ≤ n → 0 ≤ k → 0 ≤ c < 2 ^ n → 0 ≤ xorshift k c < 2 ^ n.
Proof.
  intros Hn Hk Hc. apply lxor_range; [lia|lia|]. rewrite Z.shiftr_div_pow2 by lia.
  pose proof (Z.pow_pos_nonneg 2 k). split; [apply Z.div_pos; lia|].
  apply Z.le_lt_trans with c; [|lia]. apply Z.div_le_upper_bound; nia.
Qed.

Lemma xorshift_nonneg k c : 0 ≤ c → 0 ≤ xorshift k c.
Proof. intros Hc. apply Z.lxor_nonneg. pose proof (proj2 (Z.shiftr_nonneg c k) Hc). lia. Qed.

(** A shift to the right leaves nothing fixed but zero, so that the step loses nothing. *)
Lemma xorshift_inj k c d : 0 < k → 0 ≤ c → 0 ≤ d → xorshift k c = xorshift k d → c = d.
Proof.
  intros Hk Hc Hd E. apply Z.lxor_eq. set (x := Z.lxor c d).
  assert (0 ≤ x) as Hx by (apply Z.lxor_nonneg; lia).
  assert (x = Z.shiftr x k) as Hs.
  { unfold x. rewrite Z.shiftr_lxor. apply Z.bits_inj'. intros i _.
    apply (f_equal (λ z, Z.testbit z i)) in E. unfold xorshift in E. rewrite !Z.lxor_spec in *.
    by destruct (Z.testbit c i), (Z.testbit d i), (Z.testbit (Z.shiftr c k) i), (Z.testbit (Z.shiftr d k) i). }
  rewrite Z.shiftr_div_pow2 in Hs by lia. destruct (decide (x = 0)) as [|Hn]; [done|].
  assert (2 ≤ 2 ^ k) by (change 2 with (2 ^ 1) at 1; apply Z.pow_le_mono_r; lia).
  assert (x / 2 ^ k < x) by (apply Z.div_lt; lia). lia.
Qed.

(** The polynomial is even: adding it keeps the bit it is added for. *)
Lemma poly_step_inj c d :
  Z.lxor c (if Z.odd c then 0xEDB88320 else 0) = Z.lxor d (if Z.odd d then 0xEDB88320 else 0) → c = d.
Proof.
  assert (∀ x, Z.odd (Z.lxor x (if Z.odd x then 0xEDB88320 else 0)) = Z.odd x) as Ho.
  { intros x. rewrite <-!Z.bit0_odd, Z.lxor_spec. destruct (Z.testbit x 0); reflexivity. }
  intros E. pose proof (f_equal Z.odd E) as Eo. rewrite !Ho in Eo. rewrite Eo in E.
  by apply lxor_cancel_r in E.
Qed.

Lemma user_crc_byte_range c b : is_u32 c → is_byte b → is_u32 (user_crc_byte c b).
Proof.
  unfold is_u32, is_byte. intros Hc Hb. unfold user_crc_byte. cbv zeta.
  apply (lxor_range 32); [lia| |case_match; lia].
  do 5 (apply (xorshift_range 32); [lia|lia|]). apply (lxor_range 32); lia.
Qed.

Lemma user_crc_byte_inj c d b b' : is_u32 c → is_u32 d → is_byte b → is_byte b' →
  user_crc_byte c b = user_crc_byte d b' → Z.lxor c b = Z.lxor d b'.
Proof.
  unfold is_u32, is_byte. intros Hc Hd Hb Hb' E%poly_step_inj.
  assert (0 ≤ Z.lxor c b < 2 ^ 32) as H1 by (apply lxor_range; lia).
  assert (0 ≤ Z.lxor d b' < 2 ^ 32) as H2 by (apply lxor_range; lia).
  do 5 (apply xorshift_inj in E; [|lia|repeat apply xorshift_nonneg; lia|repeat apply xorshift_nonneg; lia]).
  exact E.
Qed.

Lemma user_crc_range l : ∀ c, is_u32 c → is_bytes l → is_u32 (foldl user_crc_byte c l).
Proof.
  induction l as [|b l IH]; intros c Hc Hl; [done|]. apply Forall_cons in Hl as [Hb Hl].
  apply IH; [by apply user_crc_byte_range|done].
Qed.

Lemma user_crc_inj l : ∀ c d, is_u32 c → is_u32 d → is_bytes l →
  foldl user_crc_byte c l = foldl user_crc_byte d l → c = d.
Proof.
  induction l as [|b l IH]; intros c d Hc Hd Hl E; [done|]. apply Forall_cons in Hl as [Hb Hl].
  cbn [foldl] in E. apply IH in E; [|by apply user_crc_byte_range..|done].
  apply user_crc_byte_inj in E; [|done..]. by apply lxor_cancel_r in E.
Qed.

(** The checksum [aetherfs.h] computes outside the kernel tells any two buffers apart
    that differ in one byte, wherever it lies and whatever the seed. *)
Theorem user_crc_detects_byte seed pre b b' post :
  is_u32 seed → is_bytes pre → is_byte b → is_byte b' → is_bytes post → b ≠ b' →
  user_aetherfs_crc32c seed (pre ++ b :: post) ≠ user_aetherfs_crc32c seed (pre ++ b' :: post).
Proof.
  intros Hs Hpre Hb Hb' Hpost Hne E. unfold user_aetherfs_crc32c in E.
  apply lxor_cancel_r in E. rewrite !foldl_app in E. cbn [foldl] in E.
  pose proof (user_crc_range pre seed Hs Hpre) as Hr.
  apply user_crc_inj in E; [|by apply user_crc_byte_range..|done].
  apply user_crc_byte_inj in E; [|done..]. by apply lxor_cancel_l in E.
Qed.

Lemma on_disk_bits_iter n : ∀ x, on_disk_bits n x = Nat.iter n crc_bit x.
Proof.
  induction n as [|n IH]; intros x; [done|]. cbn [on_disk_bits]. rewrite IH, Nat.iter_succ_r.
  reflexivity.
Qed.

Lemma crc_byte_bits c b : crc_byte c b = on_disk_bits 8 (Z.lxor c b).
Proof. rewrite on_disk_bits_iter. unfold crc_byte. exact eq_refl. Qed.

(** Stated for any step, whose cases the comparison then leaves alone. *)
Lemma foldl_step {A B} (f : A → B → A) a b l : foldl f a (b :: l) = foldl f (f a b) l.
Proof. reflexivity. Qed.

Lemma on_disk_loop_eq buf : ∀ c, on_disk_loop buf c = crc_loop c buf.
Proof.
  unfold crc_loop. induction buf as [|b buf IH]; intros c; [exact eq_refl|]. cbn [on_disk_loop].
  rewrite IH, foldl_step, crc_byte_bits. exact eq_refl.
Qed.

(** Four functions have the name [aetherfs_crc32c]: that of [on_disk.h] is that of the format
    header, and on the single byte of an [a] it and the two branches of [aetherfs.h] give three
    different sums. *)
Theorem crc_functions_compared :
  (∀ crc buf, on_disk_aetherfs_crc32c crc buf = aetherfs_crc32c crc buf) ∧
  NoDup [aetherfs_crc32c 0xFFFFFFFF [97]; kernel_aetherfs_crc32c 0xFFFFFFFF [97];
         user_aetherfs_crc32c 0xFFFFFFFF [97]].
Proof.
  split.
  - intros crc buf. unfold on_disk_aetherfs_crc32c. rewrite on_disk_loop_eq. reflexivity.
  - apply (bool_decide_unpack _). vm_compute. exact I.
Qed.

(** Nor does a stored superblock checksum verify: [aetherfs_checksum_super] sums the first 72
    bytes, and the field the sum is stored in is among them. *)
Lemma super_checksum_sums_itself :
  f_off f_s_checksum + f_len f_s_checksum ≤ 72 ∧ 0 ≤ f_off f_s_checksum.
Proof. vm_compute. split; discriminate. Qed.

(** ** The small functions *)

(** A block verifies exactly if its checksum is the expected one. *)
Lemma verify_is_checksum crc block size expected :
  aetherfs_verify_checksum crc block size expected = true ↔
    header_aetherfs_checksum_block crc block size = expected.
Proof. apply Z.eqb_eq. Qed.

(** The answers are zero, or the flag itself. *)
Lemma mode_checks flags :
  (aetherfs_is_cow_mode flags = if Z.testbit flags 0 then 1 else 0) ∧
  (aetherfs_is_append_mode flags = if Z.testbit flags 5 then 32 else 0).
Proof.
  assert (∀ n, 0 ≤ n → Z.land flags (2 ^ n) = if Z.testbit flags n then 2 ^ n else 0) as H.
  { intros n Hn. apply Z.bits_inj'. intros i Hi. rewrite Z.land_spec.
    destruct (decide (i = n)) as [->|Hne].
    - rewrite Z.pow2_bits_true by done.
      destruct (Z.testbit flags n); [by rewrite Z.pow2_bits_true|by rewrite Z.testbit_0_l].
    - rewrite Z.pow2_bits_false by done. rewrite andb_false_r.
      destruct (Z.testbit flags n); [by rewrite Z.pow2_bits_false|by rewrite Z.testbit_0_l]. }
  split; [apply (H 0)|apply (H 5)]; lia.
Qed.

(** ** Modes *)

Lemma mode_nibble mode : Z.land mode 0xF000 = 4096 * (mode / 4096 mod 16).
Proof.
  change 0xF000 with (Z.shiftl (Z.ones 4) 12).
  replace (4096 * (mode / 4096 mod 16)) with (Z.shiftl (Z.land (Z.shiftr mode 12) (Z.ones 4)) 12).
  - apply Z.bits_inj'. intros i Hi. rewrite Z.land_spec, !Z.shiftl_spec, Z.land_spec by lia.
    destruct (Z.ltb_spec i 12) as [Hlt|Hge].
    + rewrite !(Z.testbit_neg_r _ (i - 12)) by lia. by rewrite andb_false_r.
    + rewrite Z.shiftr_spec by lia. by replace (i - 12 + 12) with i by lia.
  - rewrite Z.shiftl_mul_pow2, Z.land_ones, Z.shiftr_div_pow2 by lia. change (2 ^ 4) with 16.
    change (2 ^ 12) with 4096. lia.
Qed.

(** The type of a directory entry is the upper four bits of the mode, for the seven modes
    the header knows: it is the type of regular files, directories, links and devices exactly
    when the corresponding macro recognises the mode, and nothing else of the mode counts. *)
Theorem mode_to_dtype_spec mode :
  let nibble := mode / 4096 mod 16 in
  fs_mode_to_dtype mode = (if bool_decide (nibble ∈ [10; 8; 4; 2; 6; 1; 12]) then nibble else 0) ∧
  (on_disk_S_ISREG mode = true ↔ fs_mode_to_dtype mode = dirent_value "DT_REG") ∧
  (on_disk_S_ISDIR mode = true ↔ fs_mode_to_dtype mode = dirent_value "DT_DIR") ∧
  (on_disk_S_ISLNK mode = true ↔ fs_mode_to_dtype mode = dirent_value "DT_LNK") ∧
  (on_disk_S_ISCHR mode = true ↔ fs_mode_to_dtype mode = dirent_value "DT_CHR") ∧
  (on_disk_S_ISBLK mode = true ↔ fs_mode_to_dtype mode = dirent_value "DT_BLK").
Proof.
  cbv zeta. pose proof (Z.mod_pos_bound (mode / 4096) 16 ltac:(lia)) as Hn.
  pose proof (mode_nibble mode) as Em. revert Hn Em. generalize (mode / 4096 mod 16). intros n Hn Em.
  unfold on_disk_S_ISREG, on_disk_S_ISDIR, on_disk_S_ISLNK, on_disk_S_ISCHR, on_disk_S_ISBLK.
  assert (∀ k, mode_is k mode = (4096 * n =? mode_value k)) as E by (intros k; unfold mode_is; by rewrite <-Em).
  unfold fs_mode_to_dtype, dtype_cases. cbn [list_find]. cbn [fst]. rewrite !E. clear E Em.
  assert (n ∈ seqZ 0 16) as Hin by (apply elem_of_seqZ; lia). clear Hn. revert n Hin.
  apply Forall_forall. apply (bool_decide_unpack _). vm_compute. exact I.
Qed.
