(* ===== verification/DirOrder.v ===== *)
(** * The ordered index and the listing of a directory

    The other half of [kernel/dir_idx.c].  [aetherfs_dir_ordered_index_insert] appends entries
    to a block of its own, which nothing reads; [aetherfs_dir_iterate] lists the leaf of the
    hash index.  [dir_emit_dots] and [dir_emit] are the VFS's: they are given the position and
    the entry, and say whether the reader takes more. *)

From S2P Require Import Prelude Codec Crc Format Btree Balloc Struct DirIndex.
From stdpp Require Import strings.
Local Open Scope Z_scope.

(** [struct aetherfs_dir_ordered_index]; the padding before [oi_next] is the compiler's. *)
Definition struct_aetherfs_dir_ordered_index : cstruct := CStruct false
  [("oi_type", __le32); ("oi_count", __le32); ("oi_checksum", __le32); ("oi_next", __le64)].

Definition f_oi_type : field := Eval cbv in field_of struct_aetherfs_dir_ordered_index "oi_type".
Definition f_oi_count : field := Eval cbv in field_of struct_aetherfs_dir_ordered_index "oi_count".
Definition f_oi_checksum : field := Eval cbv in field_of struct_aetherfs_dir_ordered_index "oi_checksum".
Definition f_oi_next : field := Eval cbv in field_of struct_aetherfs_dir_ordered_index "oi_next".

(** [oi_entries] starts at the end of the structure. *)
Definition ordered_entries : Z := Eval cbv in struct_size struct_aetherfs_dir_ordered_index.

(** The fields of the [struct aetherfs_dir_hash_entry] at [off] that are written. *)
Definition f_dhe_ino (off : Z) : field := Field (off + 8) 8.
Definition f_dhe_namelen (off : Z) : field := Field (off + 16) 2.
Definition f_dhe_flags (off : Z) : field := Field (off + 18) 2.

(** The part of the insertion that works on the index block; [None] is a write behind it. *)
Definition put_ordered (name : bytes) (ino : Z) (data : bytes) : option bytes :=
  let data := if get f_oi_type data =? 0
    then put f_oi_next 0 (put f_oi_count 0 (put f_oi_type DIR_INDEX_ORDERED data)) else data in
  let entry_size := sizeof aetherfs_dir_hash_entry + len name in
  let off := ordered_entries + get f_oi_count data * entry_size in
  if len data <? off + entry_size then None
  else
    let data := put (f_dhe_ino off) ino data in
    let data := put (f_dhe_namelen off) (u16 (len name)) data in
    let data := put (f_dhe_flags off) 0 data in
    let data := splice (off + sizeof aetherfs_dir_hash_entry) name data in
    let data := put f_oi_count (u32 (get f_oi_count data + 1)) data in
    Some (put f_oi_checksum (kernel_aetherfs_crc32 (slice 0 (len data - 4) data)) data).

Section ordered.
Context (stale : Z → bytes).

(** The block of the index is allocated by the first insertion, and found again. *)
Definition aetherfs_dir_ordered_index_insert (st : index_state) (i_ino : Z) (name : bytes) (ino : Z)
    : option (result unit * index_state) :=
  match d_buffers st !! i_ino with
  | None => Some (Err EIO, st)
  | Some dir_data =>
      let h := decode dir_data : aetherfs_dir_htree in
      let '(idx_block, st) :=
        if h_ordered_root h =? 0 then
          let '(b, sb) := aetherfs_alloc_blocks (d_sb st) 1 in
          let st := IndexState (d_buffers st) sb in
          (b, if b =? 0 then st
              else put_buffer i_ino (set_header (Htree (h_root_block h) (h_depth h) (h_entries h)
                (h_hash_seed h) (h_type h) b (h_split_threshold h) (h_reserved h)) dir_data) st)
        else (h_ordered_root h, st) in
      if idx_block =? 0 then Some (Err ENOSPC, st)
      else
        data ← put_ordered name ino (sb_getblk stale st idx_block);
        Some (Ok tt, put_buffer idx_block data st)
  end.

Section iterate.
(** [dir_emit_dots] may move the position, [dir_emit] gets a name and an inode number. *)
Context (dir_emit_dots : Z → bool * Z) (dir_emit : bytes → Z → bool).

(** The entries the reader has taken, and the position.  The loop takes the entries to be
    [sizeof(struct aetherfs_dir_hash_entry)] apart. *)
Fixpoint iterate_loop (data : bytes) (count pos : Z) (indices : list Z)
    : option (list (bytes * Z) * Z) :=
  match indices with
  | [] => Some ([], pos)
  | i :: indices =>
      if pos <? count then
        let off := entries_offset + i * sizeof aetherfs_dir_hash_entry in
        if len data <? off + sizeof aetherfs_dir_hash_entry then None
        else
          let e := decode (slice off (sizeof aetherfs_dir_hash_entry) data) : aetherfs_dir_hash_entry in
          let name_off := off + sizeof aetherfs_dir_hash_entry in
          if len data <? name_off + dhe_namelen e then None
          else
            let name := slice name_off (dhe_namelen e) data in
            if dir_emit name (dhe_ino e) then
              '(entries, pos) ← iterate_loop data count (pos + 1) indices;
              Some ((name, dhe_ino e) :: entries, pos)
            else Some ([], pos)
      else Some ([], pos)
  end.

Definition aetherfs_dir_iterate (st : index_state) (i_ino pos : Z)
    : option (result (list (bytes * Z)) * Z) :=
  let '(more, pos) := dir_emit_dots pos in
  if negb more then Some (Ok [], pos)
  else match d_buffers st !! i_ino with
  | None => Some (Err EIO, pos)
  | Some dir_data =>
      let leaf_block := h_root_block (decode dir_data : aetherfs_dir_htree) in
      if leaf_block =? 0 then Some (Ok [], pos)
      else
        let data := sb_getblk stale st leaf_block in
        let count := dl_count (decode data : aetherfs_dir_leaf) in
        '(entries, pos) ← iterate_loop data count pos (seqZ 0 count);
        Some (Ok entries, pos)
  end.
End iterate.
End ordered.

(** ** The listing *)

Section listing.
Context (stale : Z → bytes) (dir_emit_dots : Z → bool * Z) (dir_emit : bytes → Z → bool).

(** Once the dots are out, at positions 0 and 1, the position is at least 2. *)
Hypothesis dots_take_positions : ∀ pos, (dir_emit_dots pos).1 = true → 2 ≤ (dir_emit_dots pos).2.

Lemma insert_all_one_entry st i_ino b entries : index_ok stale st i_ino b → entries ≠ [] →
  Forall entry_ok entries →
  ∃ rcs st', insert_all stale st i_ino entries = Some (rcs, st') ∧
    Forall (.= Ok tt) rcs ∧ one_entry stale st' i_ino b.
Proof.
  intros Hok Hne Hall. revert st Hok. induction Hall as [|[[n i] t] entries [Hn Hi] Hall IH]; [done|].
  intros st Hok. cbn [fst snd] in *.
  destruct (insert_then_lookup stale st i_ino b n i t Hok Hn Hi) as (st1 & Hins & Hok1 & Hone & _).
  cbn [insert_all]. rewrite Hins. cbn [mbind option_bind]. destruct entries as [|x entries].
  - exists [Ok tt], st1. split; [reflexivity|]. split; [by repeat constructor|done].
  - destruct (IH ltac:(done) st1 Hok1) as (rcs & st' & Hrest & Hrcs & Hone').
    exists (Ok tt :: rcs), st'. rewrite Hrest. split; [reflexivity|]. split; [by constructor|done].
Qed.

(** A directory with names lists none: the loop compares the position, which counts the dots,
    with the number of entries in the leaf, and the leaf holds one. *)
Theorem listing_is_empty st i_ino b entries pos : index_ok stale st i_ino b → entries ≠ [] →
  Forall entry_ok entries →
  ∃ rcs st', insert_all stale st i_ino entries = Some (rcs, st') ∧ Forall (.= Ok tt) rcs ∧
    aetherfs_dir_iterate stale dir_emit_dots dir_emit st' i_ino pos = Some (Ok [], (dir_emit_dots pos).2).
Proof.
  intros Hok Hne Hall. pose proof Hok as (Hb & _).
  destruct (insert_all_one_entry st i_ino b entries Hok Hne Hall) as (rcs & st' & Hins & Hrcs & Hone).
  exists rcs, st'. split; [exact Hins|]. split; [exact Hrcs|].
  destruct Hone as (dir_data & Hd & Hroot & Hcount).
  unfold aetherfs_dir_iterate. pose proof (dots_take_positions pos) as Hp.
  destruct (dir_emit_dots pos) as [more pos']. cbn [fst snd] in *. destruct more; [|reflexivity].
  specialize (Hp eq_refl). cbn [negb]. rewrite Hd, Hroot, (proj2 (Z.eqb_neq b 0)) by lia.
  rewrite Hcount. change (seqZ 0 1) with [0]. cbn [iterate_loop].
  by rewrite (proj2 (Z.ltb_ge pos' 1)) by lia.
Qed.
End listing.

(** The reader of [getdents], which takes everything. *)
Definition take_dots (pos : Z) : bool * Z := (true, Z.max pos 2).

Lemma listing_is_empty_witness : ∃ rcs st',
  insert_all blank_block sample_dir 20 [([97], 30, 1); ([98], 31, 1)] = Some (rcs, st') ∧
  aetherfs_dir_htree_lookup blank_block st' 20 [98] = Some (Ok 31) ∧
  aetherfs_dir_iterate blank_block take_dots (λ _ _, true) st' 20 0 = Some (Ok [], 2).
Proof.
  destruct (listing_is_empty blank_block take_dots (λ _ _, true)
    ltac:(intros p _; cbn; lia) sample_dir 20 10 [([97], 30, 1); ([98], 31, 1)] 0 sample_dir_ok)
    as (rcs & st' & Hins & _ & Hit).
  - discriminate.
  - repeat constructor; unfold is_byte; cbn; try lia; discriminate.
  - exists rcs, st'. split; [exact Hins|]. split; [|exact Hit].
    assert (match insert_all blank_block sample_dir 20 [([97], 30, 1); ([98], 31, 1)] with
      | Some (_, st') => bool_decide (aetherfs_dir_htree_lookup blank_block st' 20 [98] = Some (Ok 31))
      | None => false end = true) as H by (vm_compute; reflexivity).
    rewrite Hins in H. exact (bool_decide_eq_true_1 _ H).
Defined.

(** ** The ordered index *)

(** The entry at [off] as it can be read back. *)
Definition ordered_entry (off : Z) (data : bytes) : bytes * Z :=
  (slice (off + sizeof aetherfs_dir_hash_entry) (get (f_dhe_namelen off) data) data,
   get (f_dhe_ino off) data).

(** Where entry [i] is put by the insertion of a name of [n] bytes. *)
Definition ordered_offset (n i : Z) : Z := ordered_entries + i * (sizeof aetherfs_dir_hash_entry + n).

(** The block as an array of entries with names of [n] bytes. *)
Record ordered_holds (n : Z) (entries : list (bytes * Z)) (data : bytes) : Prop := {
  oh_bytes : is_bytes data;
  oh_len : len data = 4096;
  oh_type : get f_oi_type data = DIR_INDEX_ORDERED;
  oh_count : get f_oi_count data = len entries;
  oh_entries : ∀ i e, entries !! i = Some e → len e.1 = n ∧
    ordered_entry (ordered_offset n (Z.of_nat i)) data = e ∧
    get (f_dhe_namelen (ordered_offset n (Z.of_nat i))) data = n;
}.

Section put_fields.
Context (data : bytes) (f : field) (v : Z).
Hypotheses (Hb : is_bytes data) (Hl : len data = 4096).
Hypotheses (Hf : 0 ≤ f_off f) (Hn : 0 ≤ f_len f) (Hin : f_off f + f_len f ≤ 4096).

Lemma block_inside : inside f data.
Proof. unfold inside. lia. Qed.

(** What stays true of a block when a field is written. *)
Lemma block_put : is_bytes (put f v data) ∧ len (put f v data) = 4096.
Proof.
  split; [apply is_bytes_put; [exact block_inside|done]|]. by rewrite len_put by exact block_inside.
Qed.
End put_fields.

(** Two blocks have the same bytes in an area. *)
Definition same_area (o n : Z) (data data' : bytes) : Prop :=
  ∀ o' n', o ≤ o' → 0 ≤ n' → o' + n' ≤ n → slice o' n' data' = slice o' n' data.

Lemma same_area_get o n data data' f : same_area o n data data' → o ≤ f_off f → 0 ≤ f_len f →
  f_off f + f_len f ≤ n → get f data' = get f data.
Proof. intros H ? ? ?. unfold get. f_equal. by apply H. Qed.

Lemma same_area_put o n data f v : inside f data → 0 ≤ o → n ≤ f_off f ∨ f_off f + f_len f ≤ o →
  same_area o n data (put f v data).
Proof. intros Hf Ho Ha o' n' ? ? ?. apply slice_put_apart; [done|lia|done|lia]. Qed.

Lemma same_area_trans o n a b c : same_area o n a b → same_area o n b c → same_area o n a c.
Proof. intros H1 H2 o' n' ? ? ?. by rewrite H2, H1. Qed.

(** The fields of an entry, and its name behind them. *)
Definition put_ordered_entry (off : Z) (name : bytes) (ino : Z) (data : bytes) : bytes :=
  splice (off + 24) name
    (put (f_dhe_flags off) 0 (put (f_dhe_namelen off) (u16 (len name)) (put (f_dhe_ino off) ino data))).

Lemma put_ordered_entry_spec off name ino data : name_ok name → is_u64 ino → is_bytes data →
  len data = 4096 → 24 ≤ off → off + 24 + len name ≤ 4096 →
  let data' := put_ordered_entry off name ino data in
  is_bytes data' ∧ len data' = 4096 ∧ same_area 0 off data data' ∧
  get (f_dhe_ino off) data' = ino ∧ get (f_dhe_namelen off) data' = len name ∧
  slice (off + 24) (len name) data' = name.
Proof.
  intros [Hn Hmax] Hi Hb Hl Ho Hroom. unfold kernel_AETHERFS_MAX_NAMELEN in Hmax.
  pose proof (len_nonneg name). cbv zeta. unfold put_ordered_entry.
  assert (u16 (len name) = len name) as -> by (apply Z.mod_small; lia).
  set (d1 := put (f_dhe_ino off) ino data).
  destruct (block_put data (f_dhe_ino off) ino) as [Hb1 Hl1]; [cbn; try done; lia..|]. fold d1 in Hb1, Hl1.
  set (d2 := put (f_dhe_namelen off) (len name) d1).
  destruct (block_put d1 (f_dhe_namelen off) (len name)) as [Hb2 Hl2]; [cbn; try done; lia..|].
  fold d2 in Hb2, Hl2.
  set (d3 := put (f_dhe_flags off) 0 d2).
  destruct (block_put d2 (f_dhe_flags off) 0) as [Hb3 Hl3]; [cbn; try done; lia..|]. fold d3 in Hb3, Hl3.
  assert (same_area 0 (off + 24) d3 (splice (off + 24) name d3)) as Hs.
  { intros o' n' ? ? ?. apply slice_splice_before; lia. }
  split; [by apply is_bytes_splice|]. split; [rewrite len_splice; lia|]. split.
  { apply same_area_trans with d3; [|intros o' n' ? ? ?; apply Hs; lia].
    apply same_area_trans with d2; [|apply same_area_put; [apply block_inside|..]; cbn; lia].
    apply same_area_trans with d1; apply same_area_put; try apply block_inside; cbn; lia. }
  split; [|split].
  - rewrite (same_area_get _ _ _ _ _ Hs) by (cbn; lia).
    unfold d3. rewrite get_put_apart; [|apply block_inside; cbn; lia|cbn; lia..|unfold apart; cbn; lia].
    unfold d2. rewrite get_put_apart; [|apply block_inside; cbn; lia|cbn; lia..|unfold apart; cbn; lia].
    apply get_put; [apply block_inside; cbn; lia|exact Hi].
  - rewrite (same_area_get _ _ _ _ _ Hs) by (cbn; lia).
    unfold d3. rewrite get_put_apart; [|apply block_inside; cbn; lia|cbn; lia..|unfold apart; cbn; lia].
    apply get_put; [apply block_inside; cbn; lia|]. change (0 ≤ len name < 2 ^ 16). lia.
  - apply slice_splice_eq; lia.
Qed.

(** What the counter and the checksum leave of the entries. *)
Lemma put_counter_spec data c : is_bytes data → len data = 4096 → is_u32 c →
  let data1 := put f_oi_count c data in
  let data' := put f_oi_checksum (kernel_aetherfs_crc32 (slice 0 (len data1 - 4) data1)) data1 in
  is_bytes data' ∧ len data' = 4096 ∧ get f_oi_count data' = c ∧
  get f_oi_type data' = get f_oi_type data ∧ same_area 24 4096 data data'.
Proof.
  intros Hb Hl Hc. cbv zeta. set (data1 := put f_oi_count c data). set (crc := kernel_aetherfs_crc32 _).
  destruct (block_put data f_oi_count c) as [Hb1 Hl1]; [cbn; try done; lia..|]. fold data1 in Hb1, Hl1.
  destruct (block_put data1 f_oi_checksum crc) as [Hb2 Hl2]; [cbn; try done; lia..|].
  split; [done|]. split; [done|].
  assert (inside f_oi_count data) as Hi1 by (apply block_inside; cbn; lia).
  assert (inside f_oi_checksum data1) as Hi2 by (apply block_inside; cbn; lia).
  split; [|split].
  - rewrite get_put_apart; [|exact Hi2|cbn; lia..|unfold apart; cbn; lia]. by apply get_put.
  - rewrite get_put_apart; [|exact Hi2|cbn; lia..|unfold apart; cbn; lia].
    apply get_put_apart; [exact Hi1|cbn; lia..|unfold apart; cbn; lia].
  - apply same_area_trans with data1; apply same_area_put; try done; cbn; lia.
Qed.

Lemma ordered_offset_before n i k : 0 ≤ n → (i < k)%nat →
  ordered_offset n (Z.of_nat i) + 24 + n ≤ 24 + Z.of_nat k * (24 + n).
Proof. intros ? ?. unfold ordered_offset, ordered_entries. rewrite sizeof_hash_entry. nia. Qed.

(** The ordered index is an array of entries as long as all names have one length and the
    block has room: an insertion appends, and every entry before it stays. *)
Theorem ordered_insert_appends n entries data name ino : ordered_holds n entries data →
  name_ok name → len name = n → is_u64 ino → ordered_offset n (len entries + 1) ≤ 4096 →
  ∃ data', put_ordered name ino data = Some data' ∧ ordered_holds n (entries ++ [(name, ino)]) data'.
Proof.
  intros [Hb Hl Ht Hc He] Hname <- Hino Hroom. pose proof (len_nonneg name). pose proof (len_nonneg entries).
  unfold put_ordered. rewrite Ht. cbn [Z.eqb DIR_INDEX_ORDERED]. rewrite Hc.
  unfold ordered_offset, ordered_entries in Hroom |- *. rewrite sizeof_hash_entry in Hroom |- *.
  set (off := 24 + len entries * (24 + len name)) in *.
  assert (24 ≤ off) as Ho24 by (unfold off; nia).
  assert (off + 24 + len name ≤ 4096) as Hroom' by (unfold off; lia).
  rewrite (proj2 (Z.ltb_ge _ _)) by lia. cbn zeta.
  fold (put_ordered_entry off name ino data).
  destruct (put_ordered_entry_spec off name ino data Hname Hino Hb Hl Ho24 Hroom')
    as (Hb1 & Hl1 & Hsame & Hino1 & Hlen1 & Hname1).
  set (data1 := put_ordered_entry off name ino data) in *.
  rewrite (same_area_get 0 off data data1 f_oi_count Hsame) by (cbn; lia). rewrite Hc.
  rewrite (u32_small (len entries + 1)) by (unfold is_u32; unfold off in Hroom'; nia).
  destruct (put_counter_spec data1 (len entries + 1) Hb1 Hl1) as (Hb2 & Hl2 & Hc2 & Ht2 & Hsame2).
  { unfold is_u32. unfold off in Hroom'. nia. }
  set (data2 := put f_oi_checksum _ _) in *.
  exists data2. split; [reflexivity|]. split; [exact Hb2|exact Hl2| | |].
  - rewrite Ht2. rewrite (same_area_get 0 off data data1 f_oi_type Hsame) by (cbn; lia). exact Ht.
  - rewrite Hc2, len_app. reflexivity.
  - intros i e Hlk. unfold ordered_entry. rewrite sizeof_hash_entry.
    assert (24 ≤ ordered_offset (len name) (Z.of_nat i)) as Hlow
      by (unfold ordered_offset, ordered_entries; rewrite sizeof_hash_entry; nia).
    apply lookup_snoc_Some in Hlk as [[Hlt Hlk]|[-> <-]].
    + destruct (He i e Hlk) as (Hle & Heq & Hnl). unfold ordered_entry in Heq.
      rewrite sizeof_hash_entry in Heq.
      assert (ordered_offset (len name) (Z.of_nat i) + 24 + len name ≤ off) as Hoff
        by (by apply ordered_offset_before).
      set (o := ordered_offset (len name) (Z.of_nat i)) in *.
      assert (same_area 24 off data data2) as Hs.
      { apply same_area_trans with data1; intros o' n' ? ? ?; [apply Hsame|apply Hsame2]; lia. }
      rewrite !(same_area_get _ _ _ _ _ Hs), (Hs (o + 24)) by (rewrite ?Hnl; cbn; lia). done.
    + change (ordered_offset (len name) (Z.of_nat (length entries))) with off.
      rewrite !(same_area_get _ _ _ _ _ Hsame2), Hlen1, Hino1 by (cbn; lia).
      rewrite (Hsame2 (off + 24)), Hname1 by lia. done.
Qed.

(** A block that was never used is taken for an empty index. *)
Lemma ordered_fresh n data : is_bytes data → len data = 4096 → get f_oi_type data = 0 →
  ∃ data0, ordered_holds n [] data0 ∧ ∀ name ino, put_ordered name ino data = put_ordered name ino data0.
Proof.
  intros Hb Hl Ht. set (d1 := put f_oi_type DIR_INDEX_ORDERED data).
  destruct (block_put data f_oi_type DIR_INDEX_ORDERED) as [Hb1 Hl1]; [cbn; try done; lia..|]. fold d1 in Hb1, Hl1.
  set (d2 := put f_oi_count 0 d1).
  destruct (block_put d1 f_oi_count 0) as [Hb2 Hl2]; [cbn; try done; lia..|]. fold d2 in Hb2, Hl2.
  set (d3 := put f_oi_next 0 d2).
  destruct (block_put d2 f_oi_next 0) as [Hb3 Hl3]; [cbn; try done; lia..|]. fold d3 in Hb3, Hl3.
  assert (inside f_oi_next d2) as Hi3 by (apply block_inside; cbn; lia).
  assert (inside f_oi_count d1) as Hi2 by (apply block_inside; cbn; lia).
  assert (get f_oi_type d3 = DIR_INDEX_ORDERED) as Ht3.
  { unfold d3. rewrite get_put_apart; [|exact Hi3|cbn; lia..|unfold apart; cbn; lia].
    unfold d2. rewrite get_put_apart; [|exact Hi2|cbn; lia..|unfold apart; cbn; lia].
    apply get_put; [apply block_inside; cbn; lia|]. split; reflexivity || discriminate. }
  exists d3. split.
  - split; [done|done|exact Ht3| |intros i e Hlk; by rewrite lookup_nil in Hlk].
    unfold d3. rewrite get_put_apart; [|exact Hi3|cbn; lia..|unfold apart; cbn; lia].
    apply get_put; [exact Hi2|]. split; reflexivity || discriminate.
  - intros name ino. unfold put_ordered. by rewrite Ht, Ht3.
Qed.

(** Without room the entry is written behind the block; nothing checks for it. *)
Lemma ordered_insert_overflows n entries data name ino : ordered_holds n entries data →
  len name = n → 4096 < ordered_offset n (len entries + 1) → put_ordered name ino data = None.
Proof.
  intros [Hb Hl Ht Hc _] <- Hroom. unfold put_ordered. rewrite Ht. cbn [Z.eqb DIR_INDEX_ORDERED].
  rewrite Hc. unfold ordered_offset in Hroom. rewrite (proj2 (Z.ltb_lt _ _)) by lia. reflexivity.
Qed.

Fixpoint put_all_ordered (entries : list (bytes * Z)) (data : bytes) : option bytes :=
  match entries with
  | [] => Some data
  | (name, ino) :: entries => data ← put_ordered name ino data; put_all_ordered entries data
  end.

Definition ordered_entry_ok (n : Z) (e : bytes * Z) : Prop := name_ok e.1 ∧ len e.1 = n ∧ is_u64 e.2.

Lemma put_all_ordered_from n before entries data : Forall (ordered_entry_ok n) entries →
  ordered_holds n before data →
  if decide (ordered_offset n (len (before ++ entries)) ≤ 4096)
  then ∃ data', put_all_ordered entries data = Some data' ∧ ordered_holds n (before ++ entries) data'
  else ordered_offset n (len before) ≤ 4096 → put_all_ordered entries data = None.
Proof.
  intros Hall. revert before data. induction Hall as [|[name ino] entries (Hn & Hl & Hi) Hall IH];
    intros before data Hholds.
  { rewrite app_nil_r. destruct (decide _); [by exists data|lia]. }
  specialize (IH (before ++ [(name, ino)])). rewrite <- app_assoc in IH. cbn [app fst snd] in *.
  pose proof (len_nonneg name). pose proof (len_nonneg entries). pose proof (len_nonneg before).
  assert (len (before ++ (name, ino) :: entries) = len before + 1 + len entries) as El.
  { rewrite len_app. unfold len at 2. cbn [length]. unfold len. lia. }
  assert (len (before ++ [(name, ino)]) = len before + 1) as El1 by (rewrite len_app; reflexivity).
  cbn [put_all_ordered].
  destruct (decide (ordered_offset n (len before + 1) ≤ 4096)) as [Hroom|Hroom].
  - destruct (ordered_insert_appends n before data name ino Hholds Hn Hl Hi Hroom) as (data1 & -> & Hholds1).
    cbn [mbind option_bind]. specialize (IH data1 Hholds1). rewrite El1 in IH.
    destruct (decide (ordered_offset n (len (before ++ (name, ino) :: entries)) ≤ 4096)); [exact IH|].
    intros _. by apply IH.
  - rewrite (ordered_insert_overflows n before data name ino Hholds Hl) by lia.
    rewrite decide_False; [done|]. unfold ordered_offset in *. rewrite El, sizeof_hash_entry in *. nia.
Qed.

(** Entries with names of one length, put into a block that was not used: up to the room in
    the block it holds them in the order of their insertion, and one more is written behind
    its end. *)
Theorem ordered_index_outcomes n entries data : is_bytes data → len data = 4096 →
  get f_oi_type data = 0 → entries ≠ [] → Forall (ordered_entry_ok n) entries →
  if decide (ordered_offset n (len entries) ≤ 4096)
  then ∃ data', put_all_ordered entries data = Some data' ∧ ordered_holds n entries data'
  else put_all_ordered entries data = None.
Proof.
  intros Hb Hl Ht Hne Hall. destruct (ordered_fresh n data Hb Hl Ht) as (data0 & Hholds & Heq).
  assert (put_all_ordered entries data = put_all_ordered entries data0) as ->.
  { destruct entries as [|[name ino] entries]; [done|]. cbn [put_all_ordered]. by rewrite Heq. }
  pose proof (put_all_ordered_from n [] entries data0 Hall Hholds) as H. cbn [app] in H.
  destruct (decide (ordered_offset n (len entries) ≤ 4096)) as [|Hroom]; [exact H|].
  apply H. vm_compute. discriminate.
Qed.

Lemma ordered_index_outcomes_witness : ∃ data',
  put_all_ordered [([97; 98], 30); ([99; 100], 31)] (zeros 4096) = Some data' ∧
  ordered_entry 24 data' = ([97; 98], 30) ∧ ordered_entry 50 data' = ([99; 100], 31).
Proof.
  pose proof (ordered_index_outcomes 2 [([97; 98], 30); ([99; 100], 31)] (zeros 4096)) as H.
  rewrite decide_True in H by (vm_compute; discriminate).
  destruct H as (data' & Hput & Hholds).
  - apply is_bytes_zeros.
  - vm_compute. reflexivity.
  - vm_compute. reflexivity.
  - discriminate.
  - repeat constructor; unfold is_byte; cbn; try lia; discriminate.
  - exists data'. split; [exact Hput|]. destruct Hholds as [_ _ _ _ He].
    split; [apply (He 0%nat)|apply (He 1%nat)]; reflexivity.
Defined.

(** The offset is computed from the length of the new name, so that a short name is written
    over the end of a long one. *)
Example shorter_name_overwrites :
  match put_all_ordered [(replicate 40 97, 30); ([98], 31)] (zeros 4096) with
  | Some data => bool_decide (ordered_entry 24 data = (replicate 9 97 ++ [31; 0; 0; 0; 0; 0; 0; 0] ++
      [1; 0; 0; 0] ++ replicate 4 97 ++ [98] ++ replicate 14 97, 30))
  | None => false
  end = true.
Proof. vm_compute. reflexivity. Qed.
