(* ===== verification/Invariants.v ===== *)
(** * Checksums of the kernel's structures

    [kernel/invariants.c]: each structure has a routine that computes its checksum in place and
    one that verifies it.  A buffer is the bytes from the structure's start; the routines read
    and write it through the fields of [KernelHeader].  The checksums of data blocks are in
    [Recovery]. *)

From S2P Require Import Prelude Codec Crc Btree Struct KernelHeader.

Inductive aetherfs_checksum_type :=
| AETHERFS_CHECKSUM_NONE | AETHERFS_CHECKSUM_CRC32C | AETHERFS_CHECKSUM_XXH3
| AETHERFS_CHECKSUM_BLAKE3.

(** The static [checksum_default]; no other routine looks at it. *)
Definition aetherfs_set_checksum_type (type _ : aetherfs_checksum_type) : aetherfs_checksum_type := type.
Definition aetherfs_get_checksum_type (checksum_default : aetherfs_checksum_type)
    : aetherfs_checksum_type := checksum_default.

Definition kernel_sum (n : Z) (data : bytes) : Z :=
  kernel_aetherfs_crc32c AETHERFS_CRC_SEED (slice 0 n data).

(** The pattern most pairs follow: the field is cleared, [n] bytes from the start are summed,
    and the sum is stored, or compared with what the field held. *)
Definition compute_checksum (f : field) (n : Z) (data : bytes) : bytes :=
  let data := put f 0 data in put f (kernel_sum n data) data.

(** The verification restores the field, so it leaves the buffer as it was. *)
Definition verify_checksum (f : field) (n : Z) (e : errno) (data : bytes) : result unit :=
  if get f data =? kernel_sum n (put f 0 data) then Ok tt else Err e.

(** [info->s_es], or nothing where the pointer to it or to its buffer is null. *)
Definition aetherfs_verify_superblock_checksum (s_es : option bytes) : result unit :=
  match s_es with
  | None => Err EINVAL
  | Some es => verify_checksum f_s_checksum 72 EINVAL es
  end.

Definition aetherfs_compute_superblock_checksum (s_es : option bytes) : result bytes :=
  match s_es with
  | None => Err EINVAL
  | Some es => Ok (compute_checksum f_s_checksum 72 es)
  end.

(** The module's [AETHERFS_INODE_SIZE] is 512, of an inode of 4144 bytes. *)
Definition aetherfs_verify_inode_checksum (bh : bytes) : result unit :=
  verify_checksum f_i_checksum (512 - 4) EUCLEAN bh.
Definition aetherfs_compute_inode_checksum (bh : bytes) : bytes :=
  compute_checksum f_i_checksum (512 - 4) bh.

Definition aetherfs_verify_journal_checksum (bh : bytes) : result unit :=
  verify_checksum f_jh_checksum (struct_size struct_aetherfs_journal_header - 4) EUCLEAN bh.
Definition aetherfs_compute_journal_checksum (bh : bytes) : bytes :=
  compute_checksum f_jh_checksum (struct_size struct_aetherfs_journal_header - 4) bh.

(** [size - sizeof(__le32)] is computed in 64 bits. *)
Definition aetherfs_verify_btree_node_checksum (node : bytes) (size : Z) : result unit :=
  verify_checksum f_bn_checksum (u64 (size - 4)) EUCLEAN node.
Definition aetherfs_compute_btree_node_checksum (node : bytes) (size : Z) : bytes :=
  compute_checksum f_bn_checksum (u64 (size - 4)) node.

(** The field of a snapshot lies behind the bytes summed and is not cleared to verify. *)
Definition aetherfs_verify_snapshot_checksum (snap : bytes) : result unit :=
  if get f_sr_checksum snap =? kernel_sum (struct_size struct_aetherfs_snapshot_ref - 4) snap
  then Ok tt else Err EUCLEAN.
Definition aetherfs_compute_snapshot_checksum (snap : bytes) : bytes :=
  compute_checksum f_sr_checksum (struct_size struct_aetherfs_snapshot_ref - 4) snap.

(** The field of an extent node lies among the bytes summed, and is not cleared either. *)
Definition aetherfs_verify_extent_checksum (node : bytes) : result unit :=
  if get f_en_reserved node =? kernel_sum (struct_size struct_aetherfs_extent_node - 4) node
  then Ok tt else Err EUCLEAN.
Definition aetherfs_compute_extent_checksum (node : bytes) : bytes :=
  compute_checksum f_en_reserved (struct_size struct_aetherfs_extent_node - 4) node.

(** The checksum of a directory entry has one byte; the sum it is compared with has four. *)
Definition aetherfs_verify_directory_entry_checksum (de : bytes) : result unit :=
  let de_copy := put f_de_checksum 0 (slice 0 (struct_size struct_aetherfs_dir_entry) de) in
  if get f_de_checksum de =? kernel_sum (struct_size struct_aetherfs_dir_entry - 4) de_copy
  then Ok tt else Err EUCLEAN.

Definition aetherfs_compute_directory_entry_checksum (de : bytes) : bytes :=
  let de := put f_de_checksum 0 de in
  put f_de_checksum (u8 (kernel_sum (struct_size struct_aetherfs_dir_entry - 4) de)) de.

(** ** Computing and verifying *)

Lemma kernel_sum_range n data : is_bytes data → is_u32 (kernel_sum n data).
Proof. intros Hb. apply kernel_crc_range; [unfold AETHERFS_CRC_SEED; lia|by apply is_bytes_slice]. Qed.

(** What was summed is what is stored. *)
Lemma get_compute f n data : f_len f = 4 → inside f data → is_bytes data →
  get f (compute_checksum f n data) = kernel_sum n (put f 0 data).
Proof.
  intros Hl Hf Hb. unfold compute_checksum. apply get_put; [by apply inside_put|].
  rewrite Hl. apply kernel_sum_range. by apply is_bytes_put.
Qed.

Lemma clear_compute f n data : inside f data → put f 0 (compute_checksum f n data) = put f 0 data.
Proof.
  intros Hf. unfold compute_checksum. rewrite !put_put; auto using inside_put.
Qed.

Lemma verify_compute f n e data : f_len f = 4 → inside f data → is_bytes data →
  verify_checksum f n e (compute_checksum f n data) = Ok tt.
Proof.
  intros Hl Hf Hb. unfold verify_checksum. by rewrite get_compute, clear_compute, Z.eqb_refl.
Qed.

Lemma kernel_loop_range s l : is_u32 s → is_bytes l → is_u32 (foldl kernel_crc_byte s l).
Proof.
  intros Hs Hb. revert s Hs. induction Hb as [|b l Hb _ IH]; intros s Hs; [done|]. cbn [foldl].
  apply IH. unfold kernel_crc_byte. apply crc_bit_range, (lxor_range 32); [lia|done|].
  unfold is_byte in Hb. lia.
Qed.

Lemma kernel_byte_inj s t b c : is_u32 s → is_u32 t → is_byte b → is_byte c →
  kernel_crc_byte s b = kernel_crc_byte t c → Z.lxor s b = Z.lxor t c.
Proof.
  intros Hs Ht Hb Hc H. unfold kernel_crc_byte, is_byte in *.
  apply (iter_crc_inj 1); [apply (lxor_range 32); unfold is_u32 in *; lia..|done].
Qed.

Lemma kernel_loop_inj s t l : is_u32 s → is_u32 t → is_bytes l →
  foldl kernel_crc_byte s l = foldl kernel_crc_byte t l → s = t.
Proof.
  intros Hs Ht Hb. revert s t Hs Ht. induction Hb as [|b l Hb _ IH]; intros s t Hs Ht H; [done|].
  cbn [foldl] in H. apply IH in H; [|apply (kernel_loop_range _ [b]); [done|by constructor]..].
  apply kernel_byte_inj in H; [|done..]. by apply lxor_cancel_r in H.
Qed.

(** One byte more or less in the sum shows. *)
Lemma kernel_crc_byte_change pre b c post : is_bytes (pre ++ b :: post) → is_byte c → b ≠ c →
  kernel_aetherfs_crc32c AETHERFS_CRC_SEED (pre ++ b :: post) ≠
  kernel_aetherfs_crc32c AETHERFS_CRC_SEED (pre ++ c :: post).
Proof.
  intros Hb Hc Hne H. unfold kernel_aetherfs_crc32c in H. apply lxor_cancel_r in H.
  apply Forall_app in Hb as [Hpre [Hbb Hpost]%Forall_cons_1].
  rewrite !foldl_app in H. cbn [foldl] in H.
  assert (is_u32 (foldl kernel_crc_byte AETHERFS_CRC_SEED pre)) as Hs.
  { apply kernel_loop_range; [unfold is_u32, AETHERFS_CRC_SEED; lia|done]. }
  apply kernel_loop_inj in H;
    [|apply (kernel_loop_range _ [_]); [done|by constructor]..|done].
  apply kernel_byte_inj in H; [|done..]. by apply lxor_cancel_l in H.
Qed.

(** A byte outside a field is replaced. *)
Lemma slice_insert {A} off n i (x : A) l : 0 ≤ off ≤ Z.of_nat i → Z.of_nat i < off + n →
  slice off n (<[i := x]> l) = <[(i - Z.to_nat off)%nat := x]> (slice off n l).
Proof.
  intros Ho Hn. unfold slice. rewrite drop_insert_ge by lia. by rewrite take_insert_lt by lia.
Qed.

Lemma slice_put_within f v n data : inside f data → f_off f + f_len f ≤ n →
  slice 0 n (put f v data) = put f v (slice 0 n data).
Proof.
  intros (? & ? & ?) Hn. unfold put, slice, splice, len in *.
  rewrite !drop_0, length_le_bytes, take_app, take_take, length_take.
  rewrite take_app, length_le_bytes.
  rewrite (take_ge (le_bytes _ _)) by (rewrite length_le_bytes; lia).
  rewrite take_take, Nat.min_comm, skipn_firstn_comm.
  f_equal. f_equal. f_equal. lia.
Qed.

Lemma get_insert_apart f i b data : 0 ≤ f_off f → 0 ≤ f_len f →
  Z.of_nat i < f_off f ∨ f_off f + f_len f ≤ Z.of_nat i → get f (<[i := b]> data) = get f data.
Proof. intros. unfold get. by rewrite slice_insert_outside. Qed.

Lemma put_insert_apart f v i b data : inside f data →
  Z.of_nat i < f_off f ∨ f_off f + f_len f ≤ Z.of_nat i →
  put f v (<[i := b]> data) = <[i := b]> (put f v data).
Proof.
  intros (? & ? & ?) Hi. unfold put.
  apply splice_insert_outside; unfold len in *; rewrite ?length_le_bytes; lia.
Qed.

Lemma lookup_put_apart f v i data : inside f data →
  Z.of_nat i < f_off f ∨ f_off f + f_len f ≤ Z.of_nat i → put f v data !! i = data !! i.
Proof.
  intros (? & ? & ?) Hi. unfold put.
  apply lookup_splice_outside; unfold len in *; rewrite ?length_le_bytes; lia.
Qed.

Lemma put_insert_inside f v i b data : inside f data →
  f_off f ≤ Z.of_nat i < f_off f + f_len f → put f v (<[i := b]> data) = put f v data.
Proof.
  intros (? & ? & ?) Hi. unfold put.
  apply splice_insert_inside; unfold len in *; rewrite ?length_le_bytes; lia.
Qed.

Lemma le_val_insert_ne l i b : is_bytes l → is_byte b → (i < length l)%nat → l !! i ≠ Some b →
  le_val (<[i := b]> l) ≠ le_val l.
Proof.
  intros Hl Hb Hi Hne E. apply Hne.
  assert (<[i := b]> l = l) as El.
  { rewrite <-(le_bytes_val l Hl) at 2. rewrite <-E.
    rewrite <-(length_insert l i b). symmetry. apply le_bytes_val. by apply Forall_insert. }
  rewrite <-El. apply list_lookup_insert_eq. done.
Qed.

(** A verified buffer stops verifying when one byte that the sum covers, or one byte of the
    checksum itself, is changed. *)
Lemma verify_detects_byte f n e data i b : f_len f = 4 → inside f data → 0 ≤ n ≤ len data →
  is_bytes data → verify_checksum f n e data = Ok tt →
  Z.of_nat i < n ∨ f_off f ≤ Z.of_nat i < f_off f + f_len f → is_byte b → data !! i ≠ Some b →
  verify_checksum f n e (<[i := b]> data) = Err e.
Proof.
  intros Hl4 Hf Hn Hd Hv Hi Hb Hne. unfold verify_checksum in *.
  destruct (get f data =? _) eqn:E in Hv; [|discriminate]. clear Hv. apply Z.eqb_eq in E.
  rewrite (proj2 (Z.eqb_neq _ _)); [done|].
  pose proof Hf as (Ho & Hl & Hin). unfold len in *.
  destruct (decide (f_off f ≤ Z.of_nat i < f_off f + f_len f)) as [Hfi|Hfi].
  - rewrite put_insert_inside, <-E by done. unfold get.
    rewrite slice_insert by lia. apply le_val_insert_ne; [by apply is_bytes_slice|done| |].
    + unfold slice. rewrite length_take, length_drop. lia.
    + unfold slice. rewrite lookup_take_lt, lookup_drop by lia.
      by replace (Z.to_nat (f_off f) + (i - Z.to_nat (f_off f)))%nat with i by lia.
  - rewrite get_insert_apart, put_insert_apart, E by (done || lia).
    set (D := put f 0 data). assert (is_bytes D) as HD by by apply is_bytes_put.
    assert (length D = length data) as HlD.
    { pose proof (len_put f 0 data Hf) as HL. unfold len in HL. subst D. lia. }
    assert (D !! i = data !! i) as Hlook.
    { apply lookup_put_apart; [done|lia]. }
    unfold kernel_sum. replace (slice 0 n (<[i := b]> D)) with (<[i := b]> (slice 0 n D)).
    2: { rewrite slice_insert by lia. by rewrite Nat.sub_0_r. }
    destruct (lookup_lt_is_Some_2 (slice 0 n D) i) as [c Hc].
    { unfold slice. rewrite length_take, length_drop. lia. }
    rewrite <-(take_drop_middle _ _ _ Hc) at 1.
    rewrite insert_take_drop by (apply lookup_lt_Some in Hc; exact Hc).
    assert (is_bytes (slice 0 n D)) as HsD by by apply is_bytes_slice.
    apply kernel_crc_byte_change; [|done|].
    + by rewrite take_drop_middle.
    + intros ->. apply Hne. rewrite <-Hlook. unfold slice in Hc.
      rewrite lookup_take_lt, lookup_drop in Hc by lia. exact Hc.
Qed.

(** ** The properties *)

(** What each routine computes the routine beside it accepts: superblock, inode, journal
    header, b-tree node of any size and snapshot. *)
Theorem checksums_round_trip es inode jh node size snap :
  is_bytes es → 72 ≤ len es → is_bytes inode → 512 ≤ len inode → is_bytes jh → 32 ≤ len jh →
  is_bytes node → 24 ≤ len node → is_bytes snap → 64 ≤ len snap →
  (aetherfs_compute_superblock_checksum (Some es) ≫=
     λ es, aetherfs_verify_superblock_checksum (Some es)) = Ok tt ∧
  aetherfs_verify_inode_checksum (aetherfs_compute_inode_checksum inode) = Ok tt ∧
  aetherfs_verify_journal_checksum (aetherfs_compute_journal_checksum jh) = Ok tt ∧
  aetherfs_verify_btree_node_checksum (aetherfs_compute_btree_node_checksum node size) size = Ok tt ∧
  aetherfs_verify_snapshot_checksum (aetherfs_compute_snapshot_checksum snap) = Ok tt.
Proof.
  intros. split_and!.
  - cbn [mbind result_bind aetherfs_compute_superblock_checksum].
    apply verify_compute; [done|unfold inside; cbn; lia|done].
  - apply verify_compute; [done|unfold inside; cbn; lia|done].
  - apply verify_compute; [done|unfold inside; cbn; lia|done].
  - apply verify_compute; [done|unfold inside; cbn; lia|done].
  - unfold aetherfs_verify_snapshot_checksum, aetherfs_compute_snapshot_checksum.
    assert (inside f_sr_checksum snap) as Hi by (unfold inside; cbn; lia).
    rewrite get_compute by done. unfold compute_checksum, kernel_sum.
    rewrite (slice_put_apart f_sr_checksum 0 _ (kernel_aetherfs_crc32c _ _));
      [by rewrite Z.eqb_refl|by apply inside_put|done|done|left; vm_compute; discriminate].
Qed.

(** C19: what the kernel's routines verify stops verifying when one byte is changed, whatever
    the change: a byte among the first 72 of a superblock, the first 508 of an inode, the first
    28 of a journal header, or all but the last four of a b-tree node of any size.  The
    checksum's own field is among these bytes.  Each routine gives its own error. *)
Theorem changed_byte_is_detected data i b size :
  is_bytes data → len data = 4096 → is_byte b → data !! i ≠ Some b → 24 ≤ size ≤ 4096 →
  let data' := <[i := b]> data in
  (aetherfs_verify_superblock_checksum (Some data) = Ok tt → Z.of_nat i < 72 →
    aetherfs_verify_superblock_checksum (Some data') = Err EINVAL) ∧
  (aetherfs_verify_inode_checksum data = Ok tt → Z.of_nat i < 508 →
    aetherfs_verify_inode_checksum data' = Err EUCLEAN) ∧
  (aetherfs_verify_journal_checksum data = Ok tt → Z.of_nat i < 28 →
    aetherfs_verify_journal_checksum data' = Err EUCLEAN) ∧
  (aetherfs_verify_btree_node_checksum data size = Ok tt → Z.of_nat i < size - 4 →
    aetherfs_verify_btree_node_checksum data' size = Err EUCLEAN).
Proof.
  intros Hd Hl Hb Hne Hs data'.
  assert (∀ f n e, f_len f = 4 → 0 ≤ f_off f → f_off f + 4 ≤ 4096 → 0 ≤ n ≤ 4096 →
    verify_checksum f n e data = Ok tt → Z.of_nat i < n → verify_checksum f n e data' = Err e) as H.
  { intros f n e Hf Ho Hi Hn Hv Hin.
    apply verify_detects_byte; try done; [unfold inside; lia|lia|by left]. }
  assert (u64 (size - 4) = size - 4) as Hsize by (apply u64_small; unfold is_u64; lia).
  unfold aetherfs_verify_superblock_checksum, aetherfs_verify_inode_checksum,
    aetherfs_verify_journal_checksum, aetherfs_verify_btree_node_checksum. rewrite Hsize.
  change (struct_size struct_aetherfs_journal_header - 4) with 28. change (512 - 4) with 508.
  repeat split; intros Hv Hi; apply H; try done; (split; [done|]) || idtac; cbn; lia.
Qed.

(** The superblock's checksum ends where the roots of the trees begin: changing any of them, or
    anything else from byte 72 on, goes unnoticed. *)
Lemma superblock_checksum_misses_roots g v es : f_off g = 72 ∨ 72 < f_off g →
  inside g es → inside f_s_checksum es →
  aetherfs_verify_superblock_checksum (Some (put g v es)) =
  aetherfs_verify_superblock_checksum (Some es).
Proof.
  intros Hg Hin Hc. unfold aetherfs_verify_superblock_checksum, verify_checksum, kernel_sum.
  pose proof Hin as (? & ? & ?). pose proof Hc as (Hc1 & Hc2 & Hc3). cbn in Hc1, Hc2, Hc3.
  rewrite get_put_apart by (done || (right; cbn; lia)).
  assert (∀ X, inside f_s_checksum X → slice 0 72 (put f_s_checksum 0 X) =
    put f_s_checksum 0 (slice 0 72 X)) as Hw by (intros; by apply slice_put_within).
  rewrite !Hw by (done || by apply inside_put). rewrite slice_put_apart; [done..|lia].
Qed.
(** ** Directory entries and extent nodes

    Which bytes were summed shows in the upper bits of the sum only through the bits shifted
    out, so that twelve bytes reach few of the values. *)

(** The register when the bits shifted out are given. *)
Definition shift_with (c : Z) (f : bool) : Z := Z.lxor (Z.shiftr c 1) (if f then CRC_POLY else 0).

Lemma kernel_loop_high s l : is_bytes l →
  ∃ fs, length fs = length l ∧
    Z.shiftr (foldl kernel_crc_byte s l) 7 = Z.shiftr (foldl shift_with s fs) 7.
Proof.
  intros Hl. assert (∀ s t, Z.shiftr s 7 = Z.shiftr t 7 → ∃ fs, length fs = length l ∧
    Z.shiftr (foldl kernel_crc_byte s l) 7 = Z.shiftr (foldl shift_with t fs) 7) as H; [|by apply H].
  clear s. induction Hl as [|b l Hb _ IH]; intros s t Hst; [by exists []|].
  destruct (IH (kernel_crc_byte s b) (shift_with t (Z.odd (Z.lxor s b)))) as (fs & Hn & Hf).
  - unfold kernel_crc_byte, crc_bit, shift_with.
    rewrite !Z.shiftr_lxor, !Z.shiftr_shiftr by lia. change (1 + 7) with (7 + 1).
    rewrite <-!(Z.shiftr_shiftr _ 7 1), Hst by lia.
    replace (Z.shiftr (Z.shiftr b 7) 1) with 0.
    2: { rewrite Z.shiftr_shiftr, Z.shiftr_div_pow2 by lia. unfold is_byte in Hb.
         by rewrite Z.div_small by (change (2 ^ (7 + 1)) with 256; lia). }
    by rewrite Z.lxor_0_r.
  - exists (Z.odd (Z.lxor s b) :: fs). cbn [length foldl]. by rewrite Hn.
Qed.

(** Every register that [n] steps can leave. *)
Fixpoint reachable (n : nat) (c : Z) : list Z :=
  match n with
  | O => [c]
  | S n => reachable n (shift_with c false) ++ reachable n (shift_with c true)
  end.

Lemma reachable_spec fs c : foldl shift_with c fs ∈ reachable (length fs) c.
Proof.
  revert c. induction fs as [|f fs IH]; intros c; cbn [foldl length reachable].
  - apply list_elem_of_singleton. done.
  - apply elem_of_app. destruct f; [right|left]; apply IH.
Qed.

Lemma no_small_sum : Forall (λ c, Z.shiftr c 8 ≠ Z.shiftr 0xFFFFFFFF 8) (reachable 12 AETHERFS_CRC_SEED).
Proof. apply (bool_decide_unpack _). vm_compute. exact I. Qed.

(** The sum of twelve bytes has more than eight bits. *)
Lemma twelve_byte_sum l : is_bytes l → length l = 12%nat →
  256 ≤ kernel_aetherfs_crc32c AETHERFS_CRC_SEED l.
Proof.
  intros Hl Hn. pose proof (kernel_crc_range AETHERFS_CRC_SEED l ltac:(unfold AETHERFS_CRC_SEED; lia) Hl) as Hr.
  destruct (decide (256 ≤ kernel_aetherfs_crc32c AETHERFS_CRC_SEED l)) as [|Hlt]; [done|exfalso].
  destruct (kernel_loop_high AETHERFS_CRC_SEED l Hl) as (fs & Hfs & Hh).
  pose proof (reachable_spec fs AETHERFS_CRC_SEED) as Hin. rewrite Hfs, Hn in Hin.
  pose proof (proj1 (Forall_forall _ _) no_small_sum _ Hin) as Hne. apply Hne.
  unfold kernel_aetherfs_crc32c in *. set (r := foldl kernel_crc_byte _ l) in *.
  assert (Z.shiftr (Z.lxor r 0xFFFFFFFF) 8 = 0) as Hz.
  { rewrite Z.shiftr_div_pow2 by lia. apply Z.div_small. change (2 ^ 8) with 256. lia. }
  rewrite Z.shiftr_lxor in Hz. apply Z.lxor_eq in Hz. rewrite <-Hz.
  change 8 with (7 + 1). rewrite <-!(Z.shiftr_shiftr _ 7 1) by lia. by rewrite Hh.
Qed.

(** No directory entry verifies.  The routine stores the low byte of the sum and compares it
    with all of the sum, which is never that small: whatever is in the entry, its checksum
    just computed or not, the verification fails. *)
Theorem dir_entry_never_verifies de : is_bytes de → 16 ≤ len de →
  aetherfs_verify_directory_entry_checksum de = Err EUCLEAN ∧
  aetherfs_verify_directory_entry_checksum (aetherfs_compute_directory_entry_checksum de) = Err EUCLEAN.
Proof.
  assert (∀ de, is_bytes de → 16 ≤ len de →
    aetherfs_verify_directory_entry_checksum de = Err EUCLEAN) as H.
  { intros d Hd Hl. unfold aetherfs_verify_directory_entry_checksum.
    assert (is_bytes (slice 0 16 d)) as Hs by by apply is_bytes_slice.
    assert (len (slice 0 16 d) = 16) as Hls by (apply len_slice; lia).
    pose proof (get_range f_de_checksum d ltac:(cbn; lia) Hd) as Hg. change (2 ^ _) with 256 in Hg.
    change (struct_size struct_aetherfs_dir_entry) with 16. change (16 - 4) with 12.
    rewrite (proj2 (Z.eqb_neq _ _)); [done|]. unfold kernel_sum.
    rewrite slice_put_apart; [|unfold inside; cbn; lia|done|done|left; vm_compute; discriminate].
    assert (256 ≤ kernel_aetherfs_crc32c AETHERFS_CRC_SEED (slice 0 12 (slice 0 16 d))); [|lia].
    apply twelve_byte_sum; [by apply is_bytes_slice|].
    assert (len (slice 0 12 (slice 0 16 d)) = 12) as E by (apply len_slice; lia).
    unfold len in E. lia. }
  intros Hd Hl. split; [by apply H|].
  assert (inside f_de_checksum de) by (unfold inside; cbn; lia).
  unfold aetherfs_compute_directory_entry_checksum.
  apply H; [by repeat apply is_bytes_put; auto using inside_put|].
  rewrite !len_put; auto using inside_put.
Qed.

Lemma kernel_loop_lxor s t l : is_bytes l →
  Z.lxor (foldl kernel_crc_byte s l) (foldl kernel_crc_byte t l) =
  Nat.iter (length l) crc_bit (Z.lxor s t).
Proof.
  intros _. revert s t. induction l as [|b l IH]; intros s t; [done|]. cbn [foldl length].
  rewrite IH. unfold kernel_crc_byte. rewrite <-crc_bit_lxor.
  rewrite Z.lxor_assoc, (Z.lxor_comm t b), <-(Z.lxor_assoc b b t), Z.lxor_nilpotent, Z.lxor_0_l.
  by rewrite <-Nat.iter_succ_r.
Qed.

Lemma kernel_loop_linear s l : foldl kernel_crc_byte s l =
  Z.lxor (Nat.iter (length l) crc_bit s) (foldl kernel_crc_byte 0 l).
Proof.
  revert s. induction l as [|b l IH]; intros s; cbn [foldl length]; [by rewrite Z.lxor_0_r|].
  rewrite IH, (IH (kernel_crc_byte 0 b)), <-Z.lxor_assoc. f_equal.
  rewrite Nat.iter_succ_r, <-iter_crc_lxor. f_equal. unfold kernel_crc_byte.
  by rewrite <-crc_bit_lxor, Z.lxor_0_l.
Qed.

Lemma split_at_field f n data : inside f data → f_off f + f_len f ≤ n ≤ len data →
  slice 0 n data = slice 0 (f_off f) data ++ slice (f_off f) (f_len f) data ++
    slice (f_off f + f_len f) (n - f_off f - f_len f) data.
Proof.
  intros (? & ? & ?) Hn. unfold slice. rewrite !drop_0.
  rewrite <-(take_drop (Z.to_nat (f_off f)) (take (Z.to_nat n) data)) at 1.
  rewrite take_take, Nat.min_l by lia. f_equal.
  rewrite skipn_firstn_comm.
  rewrite <-(take_drop (Z.to_nat (f_len f)) (take _ (drop _ data))) at 1.
  rewrite take_take, Nat.min_l by lia. f_equal.
  rewrite skipn_firstn_comm, drop_drop. do 2 f_equal; lia.
Qed.

(** Two sums that differ in a window agree if the register reaches the same value over it. *)
Lemma kernel_window_iff pre w w' post : is_bytes (pre ++ w ++ post) → is_bytes w' → length w = length w' →
  kernel_aetherfs_crc32c AETHERFS_CRC_SEED (pre ++ w ++ post) =
    kernel_aetherfs_crc32c AETHERFS_CRC_SEED (pre ++ w' ++ post) ↔
  foldl kernel_crc_byte 0 w = foldl kernel_crc_byte 0 w'.
Proof.
  intros [Hpre [Hw Hpost]%Forall_app]%Forall_app Hw' Hl. unfold kernel_aetherfs_crc32c. rewrite !foldl_app.
  rewrite (kernel_loop_linear _ w), (kernel_loop_linear _ w'), Hl. split; [|by intros ->].
  intros E%lxor_cancel_r.
  assert (is_u32 (foldl kernel_crc_byte AETHERFS_CRC_SEED pre)) as Hr
    by (apply kernel_loop_range; [unfold is_u32, AETHERFS_CRC_SEED; lia|done]).
  apply kernel_loop_inj in E; [by apply lxor_cancel_l in E| | |done].
  - rewrite <-Hl, <-kernel_loop_linear. by apply kernel_loop_range.
  - rewrite <-kernel_loop_linear. by apply kernel_loop_range.
Qed.

Lemma kernel_sum_put_iff f n v w data : inside f data → is_bytes data → f_off f + f_len f ≤ n ≤ len data →
  kernel_sum n (put f v data) = kernel_sum n (put f w data) ↔
  foldl kernel_crc_byte 0 (le_bytes (Z.to_nat (f_len f)) v) =
    foldl kernel_crc_byte 0 (le_bytes (Z.to_nat (f_len f)) w).
Proof.
  intros Hf Hb Hn. pose proof Hf as (H1 & H2 & H3).
  assert (∀ v, slice 0 n (put f v data) = slice 0 (f_off f) data ++ le_bytes (Z.to_nat (f_len f)) v ++
    slice (f_off f + f_len f) (n - f_off f - f_len f) data) as E.
  { intros u. rewrite (split_at_field f) by (rewrite ?len_put by done; auto using inside_put).
    rewrite (slice_put_apart f 0 (f_off f)), (slice_put_apart f (f_off f + f_len f)) by (done || lia).
    do 2 f_equal. unfold put.
    replace (f_len f) with (len (le_bytes (Z.to_nat (f_len f)) u)) at 1 by (unfold len; rewrite length_le_bytes; lia).
    apply slice_splice_eq; [done|]. unfold len at 1. rewrite length_le_bytes. lia. }
  unfold kernel_sum. rewrite !E. apply kernel_window_iff.
  - apply Forall_app; split; [by apply is_bytes_slice|]. apply Forall_app; split; [apply is_bytes_le_bytes|by apply is_bytes_slice].
  - apply is_bytes_le_bytes.
  - by rewrite !length_le_bytes.
Qed.

(** An extent node whose checksum was just computed verifies only if the stored sum happens to
    leave the register untouched when it is summed itself. *)
Lemma extent_checksum_verifies_iff node : is_bytes node → 3088 ≤ len node →
  let node' := aetherfs_compute_extent_checksum node in
  aetherfs_verify_extent_checksum node' = Ok tt ↔
  foldl kernel_crc_byte 0 (le_bytes 4 (get f_en_reserved node')) = 0.
Proof.
  intros Hb Hl. cbv zeta.
  assert (inside f_en_reserved node) as Hi by (unfold inside; cbn; lia).
  unfold aetherfs_verify_extent_checksum, aetherfs_compute_extent_checksum.
  change (struct_size struct_aetherfs_extent_node - 4) with 3084.
  rewrite get_compute by done. set (n0 := put f_en_reserved 0 node).
  set (c := kernel_sum 3084 n0). fold n0. unfold compute_checksum. fold n0 c.
  assert (c = kernel_sum 3084 (put f_en_reserved 0 n0)) as Ec by (unfold c, n0; by rewrite put_put).
  pose proof (kernel_sum_put_iff f_en_reserved 3084 c 0 n0) as HS.
  change (Z.to_nat (f_len f_en_reserved)) with 4%nat in HS.
  change (foldl kernel_crc_byte 0 (le_bytes 4 0)) with 0 in HS.
  rewrite <-HS, <-Ec by (first [by apply inside_put|by apply is_bytes_put
    |unfold n0; rewrite len_put by done; cbn; lia]).
  destruct (c =? _) eqn:E; [apply Z.eqb_eq in E|apply Z.eqb_neq in E]; split; congruence.
Qed.

(** So an empty node does not verify. *)
Example empty_extent_node_fails :
  aetherfs_verify_extent_checksum (aetherfs_compute_extent_checksum (zeros 3088)) = Err EUCLEAN.
Proof. vm_compute. reflexivity. Qed.

(** ** Witnesses *)

Lemma checksums_round_trip_witness :
  aetherfs_verify_inode_checksum (aetherfs_compute_inode_checksum (zeros 512)) = Ok tt ∧
  aetherfs_verify_btree_node_checksum (aetherfs_compute_btree_node_checksum (zeros 24) 24) 24 = Ok tt.
Proof.
  destruct (checksums_round_trip (zeros 72) (zeros 512) (zeros 32) (zeros 24) 24 (zeros 64))
    as (_ & H1 & _ & H2 & _); [apply is_bytes_zeros || by vm_compute..|].
  by split.
Defined.

Lemma changed_byte_is_detected_witness :
  let es := compute_checksum f_s_checksum 72 (zeros 4096) in
  let node := compute_checksum f_bn_checksum 4092 (zeros 4096) in
  aetherfs_verify_superblock_checksum (Some es) = Ok tt ∧
  aetherfs_verify_superblock_checksum (Some (<[3%nat := 1]> es)) = Err EINVAL ∧
  aetherfs_verify_btree_node_checksum node 4096 = Ok tt ∧
  aetherfs_verify_btree_node_checksum (<[4000%nat := 1]> node) 4096 = Err EUCLEAN.
Proof.
  cbv zeta.
  assert (∀ f n, inside f (zeros 4096) → is_bytes (compute_checksum f n (zeros 4096))) as Hb.
  { intros f n Hf. apply is_bytes_put; [by apply inside_put|]. apply is_bytes_put; [done|apply is_bytes_zeros]. }
  split; [by vm_compute|]. split; [|split; [by vm_compute|]].
  - apply (changed_byte_is_detected (compute_checksum f_s_checksum 72 (zeros 4096)) 3 1 4096);
      [by apply Hb; vm_compute|by vm_compute|by vm_compute|by vm_compute|lia|by vm_compute|by vm_compute].
  - apply (changed_byte_is_detected (compute_checksum f_bn_checksum 4092 (zeros 4096)) 4000 1 4096);
      [by apply Hb; vm_compute|by vm_compute|by vm_compute|by vm_compute|lia|by vm_compute|by vm_compute].
Defined.

Lemma dir_entry_never_verifies_witness :
  aetherfs_verify_directory_entry_checksum (aetherfs_compute_directory_entry_checksum (zeros 16)) = Err EUCLEAN.
Proof. apply dir_entry_never_verifies; [apply is_bytes_zeros|by vm_compute]. Defined.
