(* ===== verification/Super.v ===== *)
(** * Mounting in the kernel

    [kernel/super.c]: what a mount reads from the superblock, what a sync writes back, and the
    inode writer.  The state is the blocks of the device as the buffer cache holds them and the
    fields of [struct aetherfs_sb_info] that [aetherfs_fill_super] sets; [s_es] and [s_sbh]
    are both the buffer of block 1.  The source says [s_block_size] for the field the header
    calls [s_blocksize]. *)

From S2P Require Import Prelude Codec Crc Format Integrity SysIo State Pool Blocks Bitmap Load.
From S2P Require Import Btree Struct KernelHeader Invariants.
From stdpp Require Import strings.
Local Open Scope Z_scope.

Definition AETHERFS_MOUNT_NOBARRIER : Z := 1.
Definition AETHERFS_MOUNT_DEBUG : Z := 64.
Definition MS_RDONLY : Z := 1.

(** [struct aetherfs_sb_info]; what is not set at mount time is zero. *)
Record fs_info := FsInfo {
  fs_blocksize : Z;
  fs_blocksize_bits : Z;
  fs_mount_opt : Z;
  fs_groups : Z;
  fs_free_blocks : Z;
  fs_free_inodes : Z;
  fs_next_ino : Z;
  fs_generation : Z;
  fs_dirty : bool;
}.

(** A mounted file system: the device and [info]. *)
Record fs_state := FsState {
  fs_disk : gmap Z bytes;
  fs_sb : fs_info;
}.

(** [info->s_es], the buffer of block 1; the mount holds it. *)
Definition s_es (st : fs_state) : bytes := default [] (fs_disk st !! 1).

Definition f_s_blocksize : field := Eval vm_compute in field_of struct_aetherfs_super "s_blocksize".

(** [ffs]: the position of the lowest bit set, from 1, or 0. *)
Definition ffs (x : Z) : Z := if x =? 0 then 0 else 1 + Z.log2 (Z.land x (- x)).

(** [mem], [iget] and [make_root] say whether the allocations of the information, of the root
    inode and of its dentry succeed.  Every failure before the root inode is [-EFBIG]. *)
Definition aetherfs_fill_super (disk : gmap Z bytes) (aetherfs_mount_options : Z)
    (mem iget make_root : bool) : result fs_state :=
  if negb mem then Err ENOMEM
  else match disk !! 1 with
  | None => Err EFBIG
  | Some es =>
      if negb (get f_s_magic es =? AETHERFS_MAGIC) then Err EFBIG
      else if negb iget then Err EACCES
      else if negb make_root then Err ENOMEM
      else
        let bs := get f_s_blocksize es in
        Ok (FsState disk (FsInfo bs (u32 (ffs bs - 1)) aetherfs_mount_options
          (get f_s_blocks_count es / AETHERFS_BLOCKS_PER_AG) (get f_s_free_blocks es) 0 0 0 false))
  end.

(** The sum is taken over the structure but for its last four bytes, with the old checksum in
    it. *)
Definition aetherfs_sb_write_super (st : fs_state) : fs_state :=
  let es := put f_s_free_blocks (fs_free_blocks (fs_sb st)) (s_es st) in
  let es := put f_s_checksum
    (kernel_aetherfs_crc32 (slice 0 (struct_size struct_aetherfs_super - 4) es)) es in
  FsState (<[1 := es]> (fs_disk st)) (fs_sb st).

Definition aetherfs_sync_fs (st : fs_state) (wait : bool) : fs_state :=
  if wait then aetherfs_sb_write_super st else st.

(** The blocks that are left; the information is freed.  So is [s_es], which points into the
    superblock's buffer and was never allocated: that call is left out. *)
Definition aetherfs_put_super (st : fs_state) : gmap Z bytes :=
  fs_disk (aetherfs_sb_write_super st).

Definition set_mount_opt (opt : Z) (st : fs_state) : fs_state :=
  let i := fs_sb st in
  FsState (fs_disk st) (FsInfo (fs_blocksize i) (fs_blocksize_bits i) opt (fs_groups i)
    (fs_free_blocks i) (fs_free_inodes i) (fs_next_ino i) (fs_generation i) (fs_dirty i)).

Definition aetherfs_remount (st : fs_state) (aetherfs_mount_options flags s_flags : Z) : fs_state :=
  let old_options := fs_mount_opt (fs_sb st) in
  let st := set_mount_opt aetherfs_mount_options st in
  if Z.land flags MS_RDONLY =? Z.land s_flags MS_RDONLY then st
  else if negb (Z.land flags MS_RDONLY =? 0) then aetherfs_sync_fs st true
  else set_mount_opt (Z.lor aetherfs_mount_options old_options) st.

Record kstatfs := Kstatfs {
  f_type : Z;
  f_bsize : Z;
  f_blocks : Z;
  f_bfree : Z;
  f_bavail : Z;
  f_files : Z;
  f_ffree : Z;
  f_fsid : Z;
  f_namelen : Z;
  f_frsize : Z;
}.

(** [uuid_to_fsid] is the kernel's. *)
Definition aetherfs_statfs (uuid_to_fsid : bytes → Z) (st : fs_state) : kstatfs :=
  let es := s_es st in
  Kstatfs AETHERFS_MAGIC (get f_s_blocksize es) (get f_s_blocks_count es)
    (fs_free_blocks (fs_sb st)) (fs_free_blocks (fs_sb st))
    (get f_s_blocks_count es / 512) (fs_free_inodes (fs_sb st))
    (uuid_to_fsid (slice (f_off f_s_uuid) (f_len f_s_uuid) es)) 255 (get f_s_blocksize es).

Definition aetherfs_show_options (st : fs_state) : string :=
  (if negb (Z.land (fs_mount_opt (fs_sb st)) AETHERFS_MOUNT_NOBARRIER =? 0) then ",nobarrier" else "") +:+
  (if negb (Z.land (fs_mount_opt (fs_sb st)) AETHERFS_MOUNT_DEBUG =? 0) then ",debug" else "").

(** [aetherfs_write_inode]: whatever inode is written, its size and times go to the first inode
    of the block the superblock calls the root inode. *)
Definition aetherfs_write_inode (st : fs_state) (i_ino i_size atime ctime mtime : Z)
    : result unit * fs_state :=
  if i_ino <? AETHERFS_ROOT_INO then (Err EINVAL, st)
  else
    let block := get f_s_root_inode (s_es st) in
    match fs_disk st !! block with
    | None => (Err EIO, st)
    | Some raw =>
        let raw := put f_i_size i_size raw in
        let raw := put f_i_atime atime raw in
        let raw := put f_i_ctime ctime raw in
        let raw := put f_i_mtime mtime raw in
        (Ok tt, FsState (<[block := raw]> (fs_disk st)) (fs_sb st))
    end.

(** ** What a mount reads *)

Lemma le_val_app a b : le_val (a ++ b) = le_val a + 2 ^ (8 * len a) * le_val b.
Proof.
  unfold len. induction a as [|x a IH]; [symmetry; apply Z.mul_1_l|].
  change (x + 256 * le_val (a ++ b) = x + 256 * le_val a + 2 ^ (8 * Z.of_nat (S (length a))) * le_val b).
  rewrite IH, Nat2Z.inj_succ, Z.mul_succ_r, Z.pow_add_r by lia.
  change (2 ^ 8) with 256. lia.
Qed.

Lemma slice_split {A} off m n (l : list A) : 0 ≤ off → 0 ≤ m → 0 ≤ n →
  slice off (m + n) l = slice off m l ++ slice (off + m) n l.
Proof.
  intros. unfold slice. rewrite Z2Nat.inj_add, Z2Nat.inj_add by lia.
  rewrite <-drop_drop. generalize (drop (Z.to_nat off) l). intros k.
  transitivity (take (Z.to_nat m) (take (Z.to_nat m + Z.to_nat n) k) ++
    drop (Z.to_nat m) (take (Z.to_nat m + Z.to_nat n) k)); [by rewrite take_drop|].
  rewrite take_take, skipn_firstn_comm, Nat.min_l by lia. do 2 f_equal. lia.
Qed.

(** The bytes of a packed superblock at the start of a block. *)
Lemma block_fields (block : bytes) (s : aetherfs_super) : is_bytes block → len block = 4096 →
  s = decode block → wf s ∧ slice 0 256 block = encode s.
Proof.
  intros Hb Hl ->. pose proof sizeof_super as E. split; [apply wf_decode; [done|lia]|].
  rewrite encode_dec by (done || lia). by rewrite E.
Qed.

Lemma slice_of_slice {A} off n m (l : list A) : 0 ≤ off → 0 ≤ n → off + n ≤ m →
  slice off n (slice 0 m l) = slice off n l.
Proof.
  intros. unfold slice. rewrite drop_0, skipn_firstn_comm, take_take. f_equal. lia.
Qed.

(** The fields a mount looks at, where the packed structure has them. *)
Lemma packed_fields (block : bytes) (s : aetherfs_super) : is_bytes block → len block = 4096 →
  s = decode block →
  slice 0 4 block = le_bytes 4 (s_magic s) ∧ slice 12 8 block = le_bytes 8 (s_blocks_count s) ∧
  slice 20 8 block = le_bytes 8 (s_free_blocks s) ∧ slice 28 4 block = le_bytes 4 (s_blocks_per_ag s).
Proof.
  intros Hb Hl Hs. destruct (block_fields block s Hb Hl Hs) as [_ E].
  rewrite <-(slice_of_slice 0 4 256), <-(slice_of_slice 12 8 256), <-(slice_of_slice 20 8 256),
    <-(slice_of_slice 28 4 256) by lia. rewrite E. clear. destruct s.
  split_and!; cbn; walk_fields; reflexivity.
Qed.

Lemma le_bytes_add n m z : le_bytes (n + m) z = le_bytes n z ++ le_bytes m (z / 2 ^ (8 * Z.of_nat n)).
Proof.
  revert z. induction n as [|n IH]; intros z.
  - change (2 ^ (8 * Z.of_nat 0)) with 1. by rewrite Z.div_1_r.
  - change (z mod 256 :: le_bytes (n + m) (z / 256) =
      z mod 256 :: le_bytes n (z / 256) ++ le_bytes m (z / 2 ^ (8 * Z.of_nat (S n)))).
    rewrite IH, Z.div_div by lia. do 4 f_equal. rewrite Nat2Z.inj_succ, Z.mul_succ_r, Z.pow_add_r by lia.
    change (2 ^ 8) with 256. lia.
Qed.

Lemma le_val_bytes_mod n z : le_val (le_bytes n z) = z mod 2 ^ (8 * Z.of_nat n).
Proof.
  revert z. induction n as [|n IH]; intros z; [by rewrite Z.mod_1_r|].
  change (z mod 256 + 256 * le_val (le_bytes n (z / 256)) = z mod 2 ^ (8 * Z.of_nat (S n))).
  rewrite IH, Nat2Z.inj_succ, Z.mul_succ_r, Z.pow_add_r by lia. change (2 ^ 8) with 256.
  rewrite (Z.mul_comm _ 256), Z.rem_mul_r by lia. done.
Qed.

(** The upper half of a word is what stands four bytes further. *)
Lemma straddling (block : bytes) off x y : 0 ≤ off →
  slice off 8 block = le_bytes 8 x → slice (off + 8) 4 block = le_bytes 4 y → is_u64 x →
  le_val (slice (off + 4) 8 block) = x / 2 ^ 32 + 2 ^ 32 * (y mod 2 ^ 32).
Proof.
  intros Ho Hx Hy Hu. rewrite (slice_split (off + 4) 4 4) by lia.
  replace (off + 4 + 4) with (off + 8) by lia. rewrite Hy.
  assert (slice (off + 4) 4 block = le_bytes 4 (x / 2 ^ 32)) as ->.
  { pose proof (slice_split off 4 4 block Ho ltac:(lia) ltac:(lia)) as E. change (4 + 4) with 8 in E.
    rewrite Hx in E. change 8%nat with (4 + 4)%nat in E. rewrite le_bytes_add in E.
    apply app_inj_2 in E as [_ E]; [done|]. rewrite length_le_bytes.
    apply (f_equal length) in E. rewrite !length_app, !length_le_bytes in E.
    assert (length (slice off 4 block) ≤ 4)%nat by (unfold slice; rewrite length_take; lia).
    assert (length (slice (off + 4) 4 block) ≤ 4)%nat by (unfold slice; rewrite length_take; lia). lia. }
  rewrite le_val_app, !le_val_bytes_mod. unfold len. rewrite length_le_bytes.
  change (8 * Z.of_nat 4) with 32. rewrite (Z.mod_small (x / 2 ^ 32)); [lia|].
  unfold is_u64 in Hu. split; [apply Z.div_pos; lia|apply Z.div_lt_upper_bound; lia].
Qed.

(** A superblock of the tools' with the right magic number mounts. *)
Lemma fill_super_image disk block opts : disk !! 1 = Some block → is_bytes block → len block = 4096 →
  s_magic (decode block) = AETHERFS_MAGIC →
  ∃ info, aetherfs_fill_super disk opts true true true = Ok (FsState disk info) ∧
    fs_free_blocks info = get f_s_free_blocks block ∧
    fs_groups info = get f_s_blocks_count block / AETHERFS_BLOCKS_PER_AG.
Proof.
  intros Hd Hb Hl Hm. destruct (packed_fields block _ Hb Hl eq_refl) as (E0 & _).
  assert (get f_s_magic block = AETHERFS_MAGIC) as Em.
  { unfold get. cbn [f_s_magic f_off f_len]. rewrite E0, Hm. done. }
  unfold aetherfs_fill_super. cbn [negb]. rewrite Hd, Em, Z.eqb_refl. cbn [negb].
  eexists. split; [reflexivity|]. by split.
Qed.

(** A mount of an image of the userspace tools succeeds and misreads its counts.  The tools'
    superblock is packed, the kernel's is not: for any superblock with the right magic number
    the kernel takes as free blocks the size of a group times 2^32, and as the size of the
    file system the number of free blocks times 2^32, each with the upper half of another
    count added. *)
Theorem kernel_misreads_counts disk block s opts : disk !! 1 = Some block →
  is_bytes block → len block = 4096 → s = decode block → s_magic s = AETHERFS_MAGIC →
  ∃ info, aetherfs_fill_super disk opts true true true = Ok (FsState disk info) ∧
    fs_free_blocks info = s_free_blocks s / 2 ^ 32 + 2 ^ 32 * s_blocks_per_ag s ∧
    fs_groups info = (s_blocks_count s / 2 ^ 32 + 2 ^ 32 * (s_free_blocks s mod 2 ^ 32))
      / AETHERFS_BLOCKS_PER_AG.
Proof.
  intros Hd Hb Hl Hs Hm. destruct (packed_fields block s Hb Hl Hs) as (E0 & E12 & E20 & E28).
  destruct (block_fields block s Hb Hl Hs) as [Hw _].
  assert (is_u64 (s_blocks_count s) ∧ is_u64 (s_free_blocks s) ∧ is_u32 (s_blocks_per_ag s)) as (U1 & U2 & U3).
  { clear -Hw. destruct s. cbn in Hw. unfold le_range in Hw. unfold is_u64, is_u32.
    destruct_and!. split_and!; assumption || idtac. all: cbn in *; lia. }
  rewrite Hs in Hm. destruct (fill_super_image disk block opts) as (info & E & F1 & F2); [done..|].
  exists info. split; [exact E|]. rewrite F1, F2. clear E F1 F2.
  assert (slice 20 4 block = le_bytes 4 (s_free_blocks s)) as E20'.
  { pose proof (slice_split 20 4 4 block ltac:(lia) ltac:(lia) ltac:(lia)) as E. change (4 + 4) with 8 in E.
    rewrite E20 in E. change 8%nat with (4 + 4)%nat in E. rewrite le_bytes_add in E.
    apply app_inj_1 in E as [E _]; [done|]. rewrite length_le_bytes. unfold slice, len in *.
    rewrite length_take, length_drop. lia. }
  split.
  - unfold get. cbn [f_s_free_blocks f_off f_len].
    pose proof (straddling block 20 (s_free_blocks s) (s_blocks_per_ag s) ltac:(lia) E20 E28 U2) as E.
    change (20 + 4) with 24 in E. rewrite E. by rewrite Z.mod_small by exact U3.
  - f_equal. unfold get. cbn [f_s_blocks_count f_off f_len].
    exact (straddling block 12 (s_blocks_count s) (s_free_blocks s) ltac:(lia) E12 E20' U1).
Qed.

(** ** What an unmount writes *)

(** A mount followed by an unmount replaces the four bytes at 52. *)
Lemma unmount_block disk block opts st : disk !! 1 = Some block → is_bytes block → len block = 4096 →
  aetherfs_fill_super disk opts true true true = Ok st →
  aetherfs_put_super st !! 1 = Some (put f_s_checksum (kernel_aetherfs_crc32 (slice 0 260 block)) block).
Proof.
  intros Hd Hb Hl. unfold aetherfs_fill_super. cbn [negb]. rewrite Hd.
  destruct (negb _); [discriminate|]. intros [= <-].
  unfold aetherfs_put_super, aetherfs_sb_write_super, s_es. cbn [fs_disk fs_sb fs_free_blocks].
  rewrite lookup_insert_eq, Hd. cbn [default from_option id].
  rewrite put_get; [done|unfold inside; cbn; lia|done].
Qed.

Lemma validate_super_magic image : aetherfs_image_validate_super image = Ok tt →
  s_magic (super image) = AETHERFS_MAGIC.
Proof. unfold aetherfs_image_validate_super. intros H. inv_ok. by bool_to_prop. Qed.

Lemma validate_super_inodes image : aetherfs_image_validate_super image = Ok tt →
  s_inodes_count (super image) = AETHERFS_MAX_INODES.
Proof. unfold aetherfs_image_validate_super. intros H. inv_ok. by bool_to_prop. Qed.

(** The superblock of an image the tools load. *)
Lemma loaded_super d image block : disks_bytes d → is_ok (aetherfs_image_load d image) = true →
  aetherfs_image_read_block d image AETHERFS_SUPERBLOCK_BLOCK = Ok block →
  is_bytes block ∧ len block = 4096 ∧ s_magic (decode block) = AETHERFS_MAGIC ∧
  s_inodes_count (decode block) = AETHERFS_MAX_INODES ∧ verify (decode block : aetherfs_super) = true.
Proof.
  intros Hd Hok Hb. destruct (aetherfs_image_load d image) as [im|] eqn:E; [|done].
  apply load_loads in E as (bs & ? & ? & ? & ? & ? & ? & L).
  pose proof (ld_super _ _ _ _ _ _ _ _ _ _ L) as R. change 1 with AETHERFS_SUPERBLOCK_BLOCK in R.
  rewrite Hb in R. injection R as <-. pose proof (ld_super_ok _ _ _ _ _ _ _ _ _ _ L) as V.
  pose proof (validate_super_fields _ V) as (Hv & _). pose proof (validate_super_magic _ V) as Hm.
  pose proof (validate_super_inodes _ V) as Hn. rewrite (ld_image _ _ _ _ _ _ _ _ _ _ L) in Hv, Hm, Hn.
  unfold loaded_image in Hv, Hm, Hn. image_fields.
  apply read_block_bytes in Hb as [Hby Hlen]; [|done]. done.
Qed.

(** C35: the kernel and the tools do not agree on one superblock.  An image the tools load can be
    mounted; when it is unmounted its superblock either is what it was, or no longer loads:
    the kernel's checksum goes into the bytes of the identifier and the tools' checksum does
    not match. *)
Theorem unmount_spoils_image d image block disk opts :
  disks_bytes d → is_ok (aetherfs_image_load d image) = true →
  aetherfs_image_read_block d image AETHERFS_SUPERBLOCK_BLOCK = Ok block → disk !! 1 = Some block →
  ∃ st block', aetherfs_fill_super disk opts true true true = Ok st ∧
    aetherfs_put_super st !! 1 = Some block' ∧
    (block' ≠ block → ∀ d', aetherfs_image_read_block d' image AETHERFS_SUPERBLOCK_BLOCK = Ok block' →
       is_ok (aetherfs_image_load d' image) = false).
Proof.
  intros Hd Hok Hb Hdisk. destruct (loaded_super d image block Hd Hok Hb) as (Hby & Hlen & Hm & _ & V).
  destruct (fill_super_image disk block opts) as (info & Hfill & _); [done..|].
  pose proof (unmount_block disk block opts _ Hdisk Hby Hlen Hfill) as Hput.
  eexists _, _. split; [exact Hfill|]. split; [exact Hput|].
  intros Hne d' Hb'. destruct (aetherfs_image_load d' image) as [im'|] eqn:E'; [exfalso|done].
  apply load_loads in E' as (bs' & ? & ? & ? & ? & ? & ? & L').
  pose proof (ld_super _ _ _ _ _ _ _ _ _ _ L') as R'. change 1 with AETHERFS_SUPERBLOCK_BLOCK in R'.
  rewrite Hb' in R'. injection R' as <-.
  pose proof (validate_super_fields _ (ld_super_ok _ _ _ _ _ _ _ _ _ _ L')) as (V' & _).
  rewrite (ld_image _ _ _ _ _ _ _ _ _ _ L') in V'. unfold loaded_image in V'. image_fields.
  set (sum := kernel_aetherfs_crc32 _) in *. clearbody sum. revert V'.
  unfold put in *. cbn [f_s_checksum f_off f_len] in *. change (Z.to_nat 4) with 4%nat in *.
  pose proof sizeof_super as Hsz.
  rewrite verify_window_change; [done|done|apply is_bytes_le_bytes|..].
  all: rewrite ?len_le_bytes, ?length_le_bytes; try lia.
  - right. change (csum_off (A := aetherfs_super)) with 44. lia.
  - intros Es. apply Hne. rewrite <-Es. apply splice_slice; lia.
  - exact V.
Qed.

(** ** Writing inodes *)

(** Inodes written one after the other: each write goes to the same place, so that only the
    last one is left, and no other block is touched. *)
Fixpoint write_inodes (st : fs_state) (inodes : list (Z * Z * (Z * Z * Z))) : list (result unit) * fs_state :=
  match inodes with
  | [] => ([], st)
  | (ino, size, (at_, ct, mt)) :: inodes =>
      let '(r, st) := aetherfs_write_inode st ino size at_ ct mt in
      let '(rs, st) := write_inodes st inodes in (r :: rs, st)
  end.

Lemma write_inode_at st rb raw ino size at_ ct mt : get f_s_root_inode (s_es st) = rb → rb ≠ 1 →
  fs_disk st !! rb = Some raw → 112 ≤ len raw → AETHERFS_ROOT_INO ≤ ino → is_u64 size →
  ∃ raw' st', aetherfs_write_inode st ino size at_ ct mt = (Ok tt, st') ∧
    fs_disk st' = <[rb := raw']> (fs_disk st) ∧ s_es st' = s_es st ∧ len raw' = len raw ∧
    get f_i_size raw' = size.
Proof.
  intros Hr H1 Hraw Hl Hino Hs. unfold aetherfs_write_inode.
  rewrite (proj2 (Z.ltb_ge _ _)) by done. rewrite Hr, Hraw. eexists _, _. split; [reflexivity|].
  cbn [fs_disk]. split; [reflexivity|]. split.
  { unfold s_es. cbn [fs_disk]. by rewrite lookup_insert_ne. }
  assert (∀ f v data, f_off f = 16 ∨ f_off f = 32 ∨ f_off f = 40 ∨ f_off f = 48 → f_len f = 8 →
    len data = len raw → inside f data ∧ len (put f v data) = len raw) as Hp.
  { intros f v data Ho Hf Hd. assert (inside f data) by (unfold inside; lia).
    split; [done|]. by rewrite len_put. }
  destruct (Hp f_i_size size raw) as [I1 L1]; [by left|done..|].
  set (r1 := put f_i_size size raw) in *.
  destruct (Hp f_i_atime at_ r1) as [I2 L2]; [right; by left|done..|].
  set (r2 := put f_i_atime at_ r1) in *.
  destruct (Hp f_i_ctime ct r2) as [I3 L3]; [right; right; by left|done..|].
  set (r3 := put f_i_ctime ct r2) in *.
  destruct (Hp f_i_mtime mt r3) as [I4 L4]; [do 3 right; done|done..|].
  split; [exact L4|].
  rewrite (get_put_apart f_i_mtime) by (done || (right; cbn; lia)). unfold r3.
  rewrite (get_put_apart f_i_ctime) by (done || (right; cbn; lia)). unfold r2.
  rewrite (get_put_apart f_i_atime) by (done || (right; cbn; lia)). unfold r1.
  by apply get_put.
Qed.

(** The kernel keeps one inode.  Whatever inodes are written, their sizes go to the first
    inode of the root block, one over the other: afterwards the root directory has the size of
    the last inode written and every other block is as it was. *)
Theorem inodes_overwrite_root st rb raw inodes ino size at_ ct mt :
  get f_s_root_inode (s_es st) = rb → rb ≠ 1 → fs_disk st !! rb = Some raw → 112 ≤ len raw →
  Forall (λ i, AETHERFS_ROOT_INO ≤ i.1.1 ∧ is_u64 i.1.2) (inodes ++ [(ino, size, (at_, ct, mt))]) →
  ∃ raw' st', write_inodes st (inodes ++ [(ino, size, (at_, ct, mt))]) =
      (replicate (S (length inodes)) (Ok tt), st') ∧
    fs_disk st' = <[rb := raw']> (fs_disk st) ∧ get f_i_size raw' = size.
Proof.
  revert st raw. induction inodes as [|[[i sz] [[a c] m]] inodes IH]; intros st raw Hr H1 Hraw Hl Hall.
  - apply Forall_cons_1 in Hall as [[Hi Hs] _]. cbn [fst snd] in *.
    destruct (write_inode_at st rb raw ino size at_ ct mt) as (raw' & st' & E & Hd & _ & _ & Hg); try done.
    exists raw', st'. cbn [app write_inodes]. by rewrite E.
  - apply Forall_cons_1 in Hall as [[Hi Hs] Hall]. cbn [fst snd] in *.
    destruct (write_inode_at st rb raw i sz a c m) as (raw1 & st1 & E & Hd & Hes & Hl1 & _); try done.
    destruct (IH st1 raw1) as (raw' & st' & E' & Hd' & Hg).
    + by rewrite Hes.
    + done.
    + rewrite Hd. apply lookup_insert_eq.
    + by rewrite Hl1.
    + done.
    + exists raw', st'. cbn [app write_inodes]. rewrite E, E'. split; [done|].
      split; [|done]. by rewrite Hd', Hd, insert_insert_eq.
Qed.

(** ** Witnesses *)

Lemma inodes_overwrite_root_witness :
  let st := FsState {[ 1 := put f_s_root_inode 3 (zeros 264); 3 := zeros 4144 ]} (FsInfo 4096 12 0 0 0 0 0 0 false) in
  ∃ raw' st', write_inodes st [(16, 500, (1, 1, 1)); (17, 700, (2, 2, 2))] = ([Ok tt; Ok tt], st') ∧
    fs_disk st' = <[3 := raw']> (fs_disk st) ∧ get f_i_size raw' = 700.
Proof.
  intros st. apply (inodes_overwrite_root st 3 (zeros 4144) [(16, 500, (1, 1, 1))] 17 700 2 2 2).
  - by vm_compute.
  - done.
  - by vm_compute.
  - by vm_compute.
  - apply Forall_cons_2; [split; cbn; unfold is_u64, AETHERFS_ROOT_INO; lia|].
    apply Forall_cons_2; [split; cbn; unfold is_u64, AETHERFS_ROOT_INO; lia|constructor].
Defined.
