(* ===== verification/VfsInode.v ===== *)
(** * Inodes in the kernel

    [kernel/inode.c], [kernel/data_modes.c] (the mode of an inode) and the flags of
    [kernel/security.c], [kernel/snapshots.c] and [kernel/reflink.c] that are kept in the inode
    in memory: an [inode] is a [struct inode] with the [aetherfs_inode_info] around it.  The
    tables of operations of an inode, the hash and the locks are the VFS's and are left out. *)

From S2P Require Import Prelude Codec Struct KernelHeader Super.

Record inode := VfsInode {
  vi_ino : Z;
  vi_mode : Z;
  vi_uid : Z;
  vi_gid : Z;
  vi_nlink : Z;
  vi_size : Z;
  vi_blocks : Z;
  vi_atime : Z;
  vi_ctime : Z;
  vi_mtime : Z;
  vi_flags : Z;
  ei_flags : Z;
  ei_extent_root : Z;
}.

Definition set_vi_nlink (n : Z) (i : inode) : inode :=
  VfsInode (vi_ino i) (vi_mode i) (vi_uid i) (vi_gid i) (u32 n) (vi_size i) (vi_blocks i)
    (vi_atime i) (vi_ctime i) (vi_mtime i) (vi_flags i) (ei_flags i) (ei_extent_root i).
Definition set_vi_size (n : Z) (i : inode) : inode :=
  VfsInode (vi_ino i) (vi_mode i) (vi_uid i) (vi_gid i) (vi_nlink i) n (vi_blocks i)
    (vi_atime i) (vi_ctime i) (vi_mtime i) (vi_flags i) (ei_flags i) (ei_extent_root i).
Definition set_vi_ctime (n : Z) (i : inode) : inode :=
  VfsInode (vi_ino i) (vi_mode i) (vi_uid i) (vi_gid i) (vi_nlink i) (vi_size i) (vi_blocks i)
    (vi_atime i) n (vi_mtime i) (vi_flags i) (ei_flags i) (ei_extent_root i).
Definition set_vi_flags (n : Z) (i : inode) : inode :=
  VfsInode (vi_ino i) (vi_mode i) (vi_uid i) (vi_gid i) (vi_nlink i) (vi_size i) (vi_blocks i)
    (vi_atime i) (vi_ctime i) (vi_mtime i) n (ei_flags i) (ei_extent_root i).
Definition set_ei_flags (n : Z) (i : inode) : inode :=
  VfsInode (vi_ino i) (vi_mode i) (vi_uid i) (vi_gid i) (vi_nlink i) (vi_size i) (vi_blocks i)
    (vi_atime i) (vi_ctime i) (vi_mtime i) (vi_flags i) n (ei_extent_root i).

(** [flags |= f] and [flags &= ~f] on a 32-bit word. *)
Definition flag_set (f flags : Z) : Z := Z.lor flags f.
Definition flag_clear (f flags : Z) : Z := Z.land flags (Z.lxor f UINT32_MAX).
Definition flag_test (f flags : Z) : bool := negb (Z.land flags f =? 0).

Definition kernel_F_COW : Z := 0x0001.
Definition kernel_F_COMPRESSED : Z := 0x0002.
Definition kernel_F_REFLINKED : Z := 0x0008.
Definition kernel_F_VERITY : Z := 0x0010.
Definition kernel_F_APPEND : Z := 0x0020.
Definition kernel_F_IMMUTABLE : Z := 0x0040.
Definition kernel_F_INLINE : Z := 0x0080.

Definition S_IFMT (mode : Z) : Z := Z.land mode 0xF000.
Definition S_ISLNK (mode : Z) : bool := S_IFMT mode =? 0xA000.
Definition S_ISCHR (mode : Z) : bool := S_IFMT mode =? 0x2000.
Definition S_ISBLK (mode : Z) : bool := S_IFMT mode =? 0x6000.
Definition kernel_S_ISREG (mode : Z) : bool := S_IFMT mode =? 0x8000.
Definition kernel_S_ISDIR (mode : Z) : bool := S_IFMT mode =? 0x4000.

(** ** Reading and creating inodes *)

Section iget.
(** The source uses the macro [AETHERFS_INODES_PER_BLOCK] without its argument. *)
Context (AETHERFS_INODES_PER_BLOCK : Z).

(** [cached] is the inode if the VFS has it, [alloc] whether it can make one.  [None] is an access
    outside the buffer: the inode is found by pointer arithmetic on structures of
    4144 bytes. *)
Definition aetherfs_iget (st : fs_state) (ino : Z) (cached : option inode) (alloc : bool)
    : option (result inode) :=
  if negb alloc then Some (Err ENOMEM)
  else match cached with
  | Some i => Some (Ok i)
  | None =>
      if (ino <? 16) || (get f_s_inodes_count (s_es st) <? ino) then Some (Err EINVAL)
      else match fs_disk st !! (ino / AETHERFS_INODES_PER_BLOCK) with
      | None => Some (Err EIO)
      | Some data =>
          let off := ino mod AETHERFS_INODES_PER_BLOCK * struct_size struct_aetherfs_inode in
          if len data <? off + f_off f_i_flags + f_len f_i_flags then None
          else
            let raw := slice off (struct_size struct_aetherfs_inode) data in
            Some (Ok (VfsInode ino (get f_i_mode raw) (get f_i_uid raw) (get f_i_gid raw)
              (get f_i_links_count raw) (get f_i_size raw) (get f_i_blocks raw) (get f_i_atime raw)
              (get f_i_ctime raw) (get f_i_mtime raw) 0 (get f_i_flags raw)
              (get f_i_extent_root raw)))
      end
  end.
End iget.

Definition set_next_ino (n : Z) (st : fs_state) : fs_state :=
  let i := fs_sb st in
  FsState (fs_disk st) (FsInfo (fs_blocksize i) (fs_blocksize_bits i) (fs_mount_opt i) (fs_groups i)
    (fs_free_blocks i) (fs_free_inodes i) (u64 n) (fs_generation i) (fs_dirty i)).
Definition set_free_inodes (n : Z) (st : fs_state) : fs_state :=
  let i := fs_sb st in
  FsState (fs_disk st) (FsInfo (fs_blocksize i) (fs_blocksize_bits i) (fs_mount_opt i) (fs_groups i)
    (fs_free_blocks i) (u64 n) (fs_next_ino i) (fs_generation i) (fs_dirty i)).

(** The inode, the file system and the directory; [mem] says whether [new_inode] succeeds. *)
Definition aetherfs_new_inode (st : fs_state) (dir : inode) (mode uid gid now : Z) (mem : bool)
    : result inode * fs_state * inode :=
  if negb (kernel_S_ISREG mode || kernel_S_ISDIR mode || S_ISLNK mode || S_ISCHR mode || S_ISBLK mode)
  then (Err EINVAL, st, dir)
  else
    let ino := fs_next_ino (fs_sb st) in
    let st := set_next_ino (ino + 1) st in
    let ino := if ino <? 16 + 1 then 16 + 1 else ino in
    if negb mem then (Err ENOMEM, st, dir)
    else
      let i := VfsInode ino mode uid gid 1 0 0 now now now 0 0 0 in
      (Ok i, st, if kernel_S_ISDIR mode then set_vi_nlink (vi_nlink dir + 1) dir else dir).

(** [i_count] is the reference count of the VFS. *)
Definition aetherfs_free_inode (st : fs_state) (i_count : Z) : fs_state :=
  if 1 <? i_count then st else set_free_inodes (fs_free_inodes (fs_sb st) + 1) st.

(** ** The data mode of an inode *)

Definition kernel_COW_MODE : Z := 0.
Definition kernel_OVERWRITE_MODE : Z := 1.
Definition kernel_APPEND_MODE : Z := 2.

Definition aetherfs_set_data_mode (i : inode) (mode : Z) : result inode :=
  if mode =? kernel_COW_MODE then
    Ok (set_ei_flags (flag_set kernel_F_COW (flag_clear kernel_F_APPEND (ei_flags i))) i)
  else if mode =? kernel_OVERWRITE_MODE then
    Ok (set_ei_flags (flag_clear (Z.lor kernel_F_COW kernel_F_APPEND) (ei_flags i)) i)
  else if mode =? kernel_APPEND_MODE then
    Ok (set_ei_flags (flag_set kernel_F_APPEND (flag_clear kernel_F_COW (ei_flags i))) i)
  else Err EINVAL.

Definition aetherfs_get_data_mode (i : inode) : Z :=
  if flag_test kernel_F_APPEND (ei_flags i) then kernel_APPEND_MODE
  else if flag_test kernel_F_COW (ei_flags i) then kernel_COW_MODE
  else kernel_OVERWRITE_MODE.

Definition aetherfs_should_cow (i : inode) : bool := aetherfs_get_data_mode i =? kernel_COW_MODE.
Definition aetherfs_should_append (i : inode) : bool := aetherfs_get_data_mode i =? kernel_APPEND_MODE.

(** ** Flags *)

(** Bits of a set and of a cleared flag. *)
Lemma flag_set_bit f flags n : Z.testbit (flag_set f flags) n = Z.testbit flags n || Z.testbit f n.
Proof. apply Z.lor_spec. Qed.

Lemma flag_clear_bit f flags n : is_u32 f → is_u32 flags →
  Z.testbit (flag_clear f flags) n = Z.testbit flags n && negb (Z.testbit f n).
Proof.
  intros Hf Hg. unfold flag_clear. rewrite Z.land_spec, Z.lxor_spec.
  destruct (decide (0 ≤ n < 32)) as [Hn|Hn].
  - replace (Z.testbit UINT32_MAX n) with true; [by rewrite xorb_true_r|].
    change UINT32_MAX with (Z.ones 32). by rewrite Z.ones_spec_low.
  - destruct (decide (n < 0)); [by rewrite !Z.testbit_neg_r by lia|].
    assert (Z.testbit flags n = false) as ->; [|done].
    destruct (decide (flags = 0)) as [->|]; [apply Z.testbit_0_l|].
    destruct Hg as [Hg0 Hg]. apply Z.bits_above_log2; [done|].
    apply Z.log2_lt_pow2 in Hg; lia.
Qed.

(** A flag of one bit. *)
Lemma flag_test_bit n flags : 0 ≤ n → flag_test (2 ^ n) flags = Z.testbit flags n.
Proof.
  intros Hn. unfold flag_test. destruct (Z.testbit flags n) eqn:E.
  - apply negb_true_iff, Z.eqb_neq. intros H.
    apply (f_equal (λ z, Z.testbit z n)) in H. rewrite Z.land_spec, E, Z.pow2_bits_true, Z.bits_0 in H; done.
  - apply negb_false_iff, Z.eqb_eq. apply Z.bits_inj'. intros m Hm.
    rewrite Z.land_spec, Z.bits_0. destruct (decide (m = n)) as [->|]; [by rewrite E|].
    rewrite (Z.pow2_bits_false n m) by lia. apply andb_false_r.
Qed.

(** A mode that was set is the mode that is read, and no other flag changes. *)
Lemma data_mode_roundtrip i mode i' : is_u32 (ei_flags i) → aetherfs_set_data_mode i mode = Ok i' →
  aetherfs_get_data_mode i' = mode ∧
  ∀ n, n ≠ 0 → n ≠ 5 → Z.testbit (ei_flags i') n = Z.testbit (ei_flags i) n.
Proof.
  intros Hu Hset. unfold aetherfs_get_data_mode.
  change kernel_F_COW with (2 ^ 0). change kernel_F_APPEND with (2 ^ 5).
  rewrite !flag_test_bit by lia. revert Hset. unfold aetherfs_set_data_mode.
  assert (is_u32 kernel_F_COW ∧ is_u32 kernel_F_APPEND ∧ is_u32 (Z.lor kernel_F_COW kernel_F_APPEND))
    as (U1 & U2 & U3) by (vm_compute; repeat split; discriminate).
  assert (∀ n, Z.testbit kernel_F_COW n = bool_decide (n = 0)) as B1.
  { intros n. change kernel_F_COW with (2 ^ 0). rewrite Z.pow2_bits_eqb by lia.
    apply eq_true_iff_eq. rewrite Z.eqb_eq, bool_decide_eq_true. lia. }
  assert (∀ n, Z.testbit kernel_F_APPEND n = bool_decide (n = 5)) as B2.
  { intros n. change kernel_F_APPEND with (2 ^ 5). rewrite Z.pow2_bits_eqb by lia.
    apply eq_true_iff_eq. rewrite Z.eqb_eq, bool_decide_eq_true. lia. }
  destruct (mode =? kernel_COW_MODE) eqn:E1; [|destruct (mode =? kernel_OVERWRITE_MODE) eqn:E2;
    [|destruct (mode =? kernel_APPEND_MODE) eqn:E3; [|discriminate]]];
    intros [= <-]; cbn [set_ei_flags ei_flags]; bool_to_prop; subst mode.
  - rewrite !flag_set_bit, !flag_clear_bit, !B1, !B2 by done. split; [by (destruct (Z.testbit (ei_flags i) 0), (Z.testbit (ei_flags i) 5))|].
    intros n H0 H5. rewrite flag_set_bit, flag_clear_bit, B1, B2 by done.
    rewrite !bool_decide_false by done. by rewrite andb_true_r, orb_false_r.
  - rewrite !flag_clear_bit, !Z.lor_spec, !B1, !B2 by done. split; [by (destruct (Z.testbit (ei_flags i) 0), (Z.testbit (ei_flags i) 5))|].
    intros n H0 H5. rewrite flag_clear_bit, Z.lor_spec, B1, B2 by done.
    rewrite !bool_decide_false by done. by rewrite andb_true_r.
  - rewrite !flag_set_bit, !flag_clear_bit, !B1, !B2 by done. split; [by (destruct (Z.testbit (ei_flags i) 0), (Z.testbit (ei_flags i) 5))|].
    intros n H0 H5. rewrite flag_set_bit, flag_clear_bit, B1, B2 by done.
    rewrite !bool_decide_false by done. by rewrite andb_true_r, orb_false_r.
Qed.

(** ** Properties of inodes *)

(** Creations one after the other in one directory. *)
Fixpoint create_inodes (st : fs_state) (dir : inode) (reqs : list (Z * (Z * Z * Z)))
    : list (result inode) * fs_state * inode :=
  match reqs with
  | [] => ([], st, dir)
  | (mode, (uid, gid, now)) :: reqs =>
      let '(r, st, dir) := aetherfs_new_inode st dir mode uid gid now true in
      let '(rs, st, dir) := create_inodes st dir reqs in (r :: rs, st, dir)
  end.

Definition mode_supported (mode : Z) : bool :=
  kernel_S_ISREG mode || kernel_S_ISDIR mode || S_ISLNK mode || S_ISCHR mode || S_ISBLK mode.

Lemma create_numbers st dir reqs k : fs_next_ino (fs_sb st) = k → 0 ≤ k → k + len reqs < 2 ^ 64 →
  Forall (λ r, mode_supported r.1 = true) reqs →
  ∃ inodes st' dir', create_inodes st dir reqs = (Ok <$> inodes, st', dir') ∧
    vi_ino <$> inodes = Z.max 17 <$> seqZ k (len reqs) ∧ fs_disk st' = fs_disk st.
Proof.
  intros Hk H0 Hn Hall. revert st dir k Hk H0 Hn.
  induction Hall as [|[mode [[uid gid] now]] reqs Hm Hall IH]; intros st dir k Hk H0 Hn.
  - by exists [], st, dir.
  - unfold len in Hn. cbn [length fst] in *. cbn [create_inodes]. unfold aetherfs_new_inode.
    unfold mode_supported in Hm. rewrite Hm. cbn [negb].
    set (st1 := set_next_ino _ st). set (dir1 := if kernel_S_ISDIR mode then _ else _).
    destruct (IH st1 dir1 (k + 1)) as (inodes & st' & dir' & E & Hi & Hd).
    + unfold st1. cbn. rewrite Hk. apply u64_small. unfold is_u64. lia.
    + lia.
    + unfold len. lia.
    + rewrite E. eexists (_ :: inodes), st', dir'. split; [reflexivity|]. split; [|by rewrite Hd].
      rewrite fmap_cons, Hi. cbn [vi_ino].
      replace (len ((mode, (uid, gid, now)) :: reqs)) with (Z.succ (len reqs)) by (unfold len; cbn [length]; lia).
      rewrite (seqZ_cons k) by (unfold len; lia). rewrite Z.pred_succ, fmap_cons. f_equal.
      rewrite Hk. destruct (Z.ltb_spec k (16 + 1)); lia.
Qed.

(** Inode numbers repeat.  A mount starts counting at 0 and the first number is 17, without
    catching up: the inodes created after a mount get the numbers max 17 0, max 17 1, ..., so
    that the first eighteen of them are all inode 17. *)
Theorem created_inode_numbers disk opts st dir reqs :
  aetherfs_fill_super disk opts true true true = Ok st →
  len reqs < 2 ^ 64 → Forall (λ r, mode_supported r.1 = true) reqs →
  ∃ inodes st' dir', create_inodes st dir reqs = (Ok <$> inodes, st', dir') ∧
    vi_ino <$> inodes = Z.max 17 <$> seqZ 0 (len reqs) ∧
    (len reqs ≤ 18 → Forall (λ i, vi_ino i = 17) inodes).
Proof.
  intros Hf Hn Hall. unfold aetherfs_fill_super in Hf. cbn [negb] in Hf.
  destruct (disk !! 1); [|discriminate]. destruct (negb _); [discriminate|]. injection Hf as Hf.
  destruct (create_numbers st dir reqs 0) as (inodes & st' & dir' & E & Hi & _); [by rewrite <-Hf|lia|lia|done|].
  exists inodes, st', dir'. split; [done|]. split; [done|]. intros H18.
  apply Forall_lookup. intros j i Hj.
  assert ((vi_ino <$> inodes) !! j = Some (vi_ino i)) as Hv by by rewrite list_lookup_fmap, Hj.
  rewrite Hi in Hv. apply list_lookup_fmap_Some in Hv as (z & Hv & Hz).
  apply lookup_seqZ in Hz as [-> Hz]. rewrite Hv. lia.
Qed.

(** The pointer arithmetic of [aetherfs_iget] leaves the block for every inode that is not the
    first of its block. *)
Lemma iget_reads_outside N st ino data : 0 < N → 16 ≤ ino ≤ get f_s_inodes_count (s_es st) →
  fs_disk st !! (ino / N) = Some data → len data = 4096 → ino mod N ≠ 0 →
  aetherfs_iget N st ino None true = None.
Proof.
  intros HN Hi Hd Hl Hm. unfold aetherfs_iget. cbn [negb].
  rewrite (proj2 (Z.ltb_ge _ _)), (proj2 (Z.ltb_ge _ _)) by lia. cbn [orb]. rewrite Hd.
  change (struct_size struct_aetherfs_inode) with 4144.
  pose proof (Z.mod_pos_bound ino N HN). rewrite (proj2 (Z.ltb_lt _ _)); [done|]. cbn. lia.
Qed.

(** Two files made after a mount. *)
Lemma created_inode_numbers_witness :
  let disk := {[ 1 := put f_s_magic Format.AETHERFS_MAGIC (zeros 4096) ]} in
  let root := VfsInode 2 0x41ED 0 0 2 0 0 0 0 0 0 0 0 in
  match aetherfs_fill_super disk 0 true true true with
  | Ok st => ∃ inodes st' dir',
      create_inodes st root [(0x81A4, (0, 0, 7)); (0x81A4, (0, 0, 8))] = (Ok <$> inodes, st', dir') ∧
      vi_ino <$> inodes = [17; 17]
  | Err _ => False
  end.
Proof.
  intros disk root. destruct (aetherfs_fill_super disk 0 true true true) as [st|] eqn:E; [|by vm_compute in E].
  destruct (created_inode_numbers disk 0 st root [(0x81A4, (0, 0, 7)); (0x81A4, (0, 0, 8))])
    as (inodes & st' & dir' & Hc & Hn & _).
  - exact E.
  - by vm_compute.
  - by repeat constructor.
  - exists inodes, st', dir'. split; [exact Hc|]. rewrite Hn. by vm_compute.
Defined.
