(* ===== verification/Directory.v ===== *)
(** * Directories in the kernel

    [kernel/dir.c].  All directories of a mount are one: the entries in the block the
    superblock calls the root inode.  The walks over the entries are loops that may leave the
    block or never end, so a call's [outcome] is a result, an access outside the block, or fuel
    that ran out.  The inodes in memory are a store that dentries point into, since two names
    may share one; the dentry cache itself is the VFS's. *)

From S2P Require Import Prelude Codec Struct KernelHeader Super VfsInode.

(** [AETHERFS_DIR_REC_LEN] of [kernel/aetherfs.h] *)
Definition kernel_DIR_REC_LEN (name_len : Z) : Z := u16 (Z.land (u32 (14 + name_len + 3)) 0xFFFFFFFC).

(** A field of the entry at byte [i]. *)
Definition fetch (f : field) (i : Z) (data : bytes) : outcome Z :=
  if len data <? i + f_off f + f_len f then Fault else Done (le_val (slice (i + f_off f) (f_len f) data)).

(** [!memcmp(de->name, name, namelen)] *)
Definition name_matches (i : Z) (name data : bytes) : outcome bool :=
  if len data <? i + f_off f_de_name + len name then Fault
  else Done (bool_decide (slice (i + f_off f_de_name) (len name) data = name)).

(** The writes of a new entry at byte [i]: neither the record length nor the checksum. *)
Definition store_entry (i ino : Z) (name data : bytes) : outcome bytes :=
  if len data <? i + f_off f_de_name + len name then Fault
  else
    let data := splice i (le_bytes 8 ino) data in
    let data := splice (i + f_off f_de_name_len) (le_bytes 2 (len name)) data in
    let data := splice (i + f_off f_de_file_type) (le_bytes 1 0) data in
    Done (splice (i + f_off f_de_name) name data).

(** The loop of [aetherfs_add_entry] over one block. *)
Fixpoint add_loop (fuel : nat) (b_size ino : Z) (name data : bytes) (i : Z) : outcome (result bytes) :=
  match fuel with
  | O => OutOfFuel
  | S fuel =>
      if b_size <=? i then Done (Err EINVAL)
      else
        de_ino ← fetch f_de_ino i data;
        if (de_ino =? 0) && (i + kernel_DIR_REC_LEN (len name) <=? b_size) then
          data ← store_entry i ino name data; Done (Ok data)
        else
          rec_len ← fetch f_de_rec_len i data;
          add_loop fuel b_size ino name data (i + rec_len)
  end.

(** The loop of [aetherfs_delete_entry] and of [aetherfs_lookup]: the entry with the name. *)
Fixpoint find_loop (fuel : nat) (b_size : Z) (name data : bytes) (i : Z) : outcome (option Z) :=
  match fuel with
  | O => OutOfFuel
  | S fuel =>
      if b_size <=? i then Done None
      else
        de_ino ← fetch f_de_ino i data;
        found ← (if de_ino =? 0 then Done false
                 else
                   name_len ← fetch f_de_name_len i data;
                   if name_len =? len name then name_matches i name data else Done false);
        if (found : bool) then Done (Some i)
        else
          rec_len ← fetch f_de_rec_len i data;
          find_loop fuel b_size name data (i + rec_len)
  end.

Definition set_fs_dirty (st : fs_state) : fs_state :=
  let i := fs_sb st in
  FsState (fs_disk st) (FsInfo (fs_blocksize i) (fs_blocksize_bits i) (fs_mount_opt i) (fs_groups i)
    (fs_free_blocks i) (fs_free_inodes i) (fs_next_ino i) (fs_generation i) true).

Definition put_disk (b : Z) (data : bytes) (st : fs_state) : fs_state :=
  FsState (<[b := data]> (fs_disk st)) (fs_sb st).

Definition root_block (st : fs_state) : Z := get f_s_root_inode (s_es st).

Definition aetherfs_add_entry (fuel : nat) (st : fs_state) (name : bytes) (i_ino : Z)
    : outcome (result unit * fs_state) :=
  if 255 <? len name then Done (Err ENAMETOOLONG, st)
  else match fs_disk st !! root_block st with
  | None => Done (Err EIO, st)
  | Some data =>
      r ← add_loop fuel (fs_blocksize (fs_sb st)) i_ino name data 0;
      Done (match r with
            | Err e => (Err e, st)
            | Ok data => (Ok tt, set_fs_dirty (put_disk (root_block st) data st))
            end)
  end.

Definition aetherfs_delete_entry (fuel : nat) (st : fs_state) (name : bytes)
    : outcome (result unit * fs_state) :=
  match fs_disk st !! root_block st with
  | None => Done (Err EIO, st)
  | Some data =>
      r ← find_loop fuel (fs_blocksize (fs_sb st)) name data 0;
      Done (match r with
            | None => (Err ENOENT, st)
            | Some i => (Ok tt, put_disk (root_block st) (splice i (le_bytes 8 0) data) st)
            end)
  end.

(** The inode number under a name, which [aetherfs_lookup] hands to [aetherfs_iget]; the
    dentry it then makes of the inode is left out. *)
Definition lookup_ino (fuel : nat) (st : fs_state) (name : bytes) : outcome (result (option Z)) :=
  if 255 <? len name then Done (Err ENAMETOOLONG)
  else match fs_disk st !! root_block st with
  | None => Done (Err EIO)
  | Some data =>
      r ← find_loop fuel (fs_blocksize (fs_sb st)) name data 0;
      match r with
      | None => Done (Ok None)
      | Some i => ino ← fetch f_de_ino i data; Done (Ok (Some ino))
      end
  end.

Section lookup.
Context (AETHERFS_INODES_PER_BLOCK : Z).

(** What the dentry is given: no inode, an inode, or the error as a pointer. *)
Definition aetherfs_lookup (fuel : nat) (st : fs_state) (name : bytes) (cached : Z → option inode)
    (alloc : bool) : outcome (result (option (result inode))) :=
  r ← lookup_ino fuel st name;
  match r with
  | Err e => Done (Err e)
  | Ok None => Done (Ok None)
  | Ok (Some ino) =>
      match aetherfs_iget AETHERFS_INODES_PER_BLOCK st ino (cached ino) alloc with
      | None => Fault
      | Some i => Done (Ok (Some i))
      end
  end.
End lookup.

(** ** Operations on inodes *)

(** The file system and the inodes in memory; a dentry names an inode by its place. *)
Record vfs := Vfs {
  v_fs : fs_state;
  v_inodes : gmap nat inode;
}.

Record dentry := Dentry {
  d_name : bytes;
  d_inode : option nat;
}.

Definition upd_inode (k : nat) (f : inode → inode) (v : vfs) : vfs :=
  Vfs (v_fs v) (alter f k (v_inodes v)).
Definition add_nlink (k : nat) (n : Z) (v : vfs) : vfs :=
  upd_inode k (λ i, set_vi_nlink (vi_nlink i + n) i) v.

(** The new inode, at a place that was free. *)
Definition new_inode_in (v : vfs) (dir : nat) (mode uid gid now : Z) (mem : bool)
    : outcome (result (nat * inode) * vfs) :=
  match v_inodes v !! dir with
  | None => Fault
  | Some d =>
      let '(r, st, d) := aetherfs_new_inode (v_fs v) d mode uid gid now mem in
      let inodes := <[dir := d]> (v_inodes v) in
      Done (match r with
            | Err e => (Err e, Vfs st inodes)
            | Ok i => let k := fresh (dom inodes) in (Ok (k, i), Vfs st (<[k := i]> inodes))
            end)
  end.

(** The mode with [S_IFREG] or [S_IFDIR] or-ed to it.  The result of adding the entry is not
    looked at. *)
Definition aetherfs_create (fuel : nat) (v : vfs) (dir : nat) (dentry : dentry) (mode uid gid now : Z)
    (mem : bool) : outcome (result nat * vfs) :=
  '(r, v) ← new_inode_in v dir (Z.lor 0x8000 mode) uid gid now mem;
  match r with
  | Err e => Done (Err e, v)
  | Ok (k, i) =>
      '(_, st) ← aetherfs_add_entry fuel (v_fs v) (d_name dentry) (vi_ino i);
      Done (Ok k, Vfs st (v_inodes v))
  end.

Definition aetherfs_mkdir (fuel : nat) (v : vfs) (dir : nat) (dentry : dentry) (mode uid gid now : Z)
    (mem : bool) : outcome (result nat * vfs) :=
  '(r, v) ← new_inode_in v dir (Z.lor 0x4000 mode) uid gid now mem;
  match r with
  | Err e => Done (Err e, v)
  | Ok (k, i) =>
      '(r, st) ← aetherfs_add_entry fuel (v_fs v) (d_name dentry) (vi_ino i);
      match r with
      | Err e => Done (Err e, Vfs st (delete k (v_inodes v)))
      | Ok _ => Done (Ok k, add_nlink dir 1 (Vfs st (v_inodes v)))
      end
  end.

(** The VFS only removes names that have an inode. *)
Definition aetherfs_unlink (fuel : nat) (v : vfs) (dentry : dentry) : outcome (result unit * vfs) :=
  '(r, st) ← aetherfs_delete_entry fuel (v_fs v) (d_name dentry);
  let v := Vfs st (v_inodes v) in
  match r, d_inode dentry with
  | Err e, _ => Done (Err e, v)
  | Ok _, None => Fault
  | Ok _, Some k => Done (Ok tt, add_nlink k (-1) v)
  end.

Definition aetherfs_rmdir (fuel : nat) (v : vfs) (dir : nat) (dentry : dentry)
    : outcome (result unit * vfs) :=
  '(r, v) ← aetherfs_unlink fuel v dentry;
  match r with
  | Err e => Done (Err e, v)
  | Ok _ => Done (Ok tt, add_nlink dir (-1) v)
  end.

Definition RENAME_EXCHANGE : Z := 2.

(** On the way back from a failed addition there is no inode under the new name to restore. *)
Definition aetherfs_rename (fuel : nat) (v : vfs) (old_dir : nat) (old_dentry : dentry) (new_dir : nat)
    (new_dentry : dentry) (flags now : Z) : outcome (result unit * vfs) :=
  match d_inode old_dentry with
  | None => Fault
  | Some old_inode =>
      let exchange := if Z.land flags RENAME_EXCHANGE =? 0 then None else d_inode new_dentry in
      let v := match exchange with Some k => add_nlink k (-1) v | None => v end in
      let i_ino v := from_option vi_ino 0 (v_inodes v !! old_inode) in
      '(r, st) ← aetherfs_delete_entry fuel (v_fs v) (d_name old_dentry);
      let v := Vfs st (v_inodes v) in
      match r with
      | Err e => Done (Err e, v)
      | Ok _ =>
          let finish v :=
            let v := upd_inode old_inode (set_vi_ctime now) v in
            Done (Ok tt, if bool_decide (old_dir = new_dir) then v
                         else add_nlink new_dir 1 (add_nlink old_dir (-1) v)) in
          match d_inode new_dentry with
          | Some k => finish (add_nlink k (-1) v)
          | None =>
              '(r, st) ← aetherfs_add_entry fuel (v_fs v) (d_name new_dentry) (i_ino v);
              let v := Vfs st (v_inodes v) in
              match r with
              | Ok _ => finish v
              | Err _ =>
                  '(r, st) ← aetherfs_add_entry fuel (v_fs v) (d_name old_dentry) (i_ino v);
                  Done (r, Vfs st (v_inodes v))
              end
          end
      end
  end.

(** ** Directories in order

    A directory of entries that follow each other to the end of the block. *)

Record slot := Slot {
  sl_off : Z;
  sl_ino : Z;
  sl_rec_len : Z;
  sl_name : bytes;
}.

Inductive chain (data : bytes) : Z → list slot → Prop :=
| chain_end i : len data ≤ i → chain data i []
| chain_slot i e slots :
    0 ≤ i → sl_off e = i →
    sl_ino e = le_val (slice i 8 data) →
    sl_rec_len e = le_val (slice (i + 8) 2 data) →
    len (sl_name e) = le_val (slice (i + 10) 2 data) →
    sl_name e = slice (i + 14) (len (sl_name e)) data →
    14 + len (sl_name e) ≤ sl_rec_len e → i + sl_rec_len e ≤ len data →
    chain data (i + sl_rec_len e) slots → chain data i (e :: slots).

(** The entry in use under a name. *)
Definition live (name : bytes) (e : slot) : Prop := sl_ino e ≠ 0 ∧ sl_name e = name.
#[export] Instance live_dec name e : Decision (live name e) := _.

Definition find_slot (name : bytes) (slots : list slot) : option slot :=
  snd <$> list_find (live name) slots.

Lemma fetch_inside f i data : i + f_off f + f_len f ≤ len data →
  fetch f i data = Done (le_val (slice (i + f_off f) (f_len f) data)).
Proof. intros H. unfold fetch. by rewrite (proj2 (Z.ltb_ge _ _)) by lia. Qed.

Lemma find_slot_cons name e slots :
  find_slot name (e :: slots) = if decide (live name e) then Some e else find_slot name slots.
Proof.
  unfold find_slot. cbn. destruct (decide (live name e)); [done|].
  by destruct (list_find _ slots) as [[]|].
Qed.

(** The loop finds the first entry with the name, and ends. *)
Lemma find_loop_chain data i slots name fuel : chain data i slots → (length slots < fuel)%nat →
  find_loop fuel (len data) name data i = Done (sl_off <$> find_slot name slots).
Proof.
  intros Hc. revert fuel. induction Hc as [i Hi|i e slots H0 Ho Hino Hrec Hnl Hname Hfit Hin Hc IH];
    intros fuel Hf; (destruct fuel as [|fuel]; [lia|]); cbn [find_loop].
  - by rewrite (proj2 (Z.leb_le _ _)).
  - pose proof (len_nonneg (sl_name e)).
    rewrite (proj2 (Z.leb_gt _ _)) by lia.
    rewrite !fetch_inside by (cbn; lia). cbn [mbind outcome_bind f_off f_len f_de_ino f_de_rec_len f_de_name_len].
    rewrite Z.add_0_r, <-Hino, <-Hrec, <-Hnl, find_slot_cons.
    assert ((if sl_ino e =? 0 then Done false
      else if len (sl_name e) =? len name then name_matches i name data else Done false)
      = Done (bool_decide (live name e))) as Hd.
    { destruct (Z.eqb_spec (sl_ino e) 0) as [E0|Hne];
        [by rewrite bool_decide_false by (intros [? _]; done)|].
      destruct (Z.eqb_spec (len (sl_name e)) (len name)) as [El|El].
      - unfold name_matches. cbn [f_off f_de_name].
        rewrite (proj2 (Z.ltb_ge _ _)) by lia. f_equal. apply bool_decide_ext.
        rewrite <-El, <-Hname. unfold live. tauto.
      - rewrite bool_decide_false; [done|]. intros [_ <-]. done. }
    rewrite Hd. cbn [mbind outcome_bind].
    destruct (decide (live name e)) as [Hl|Hl];
      [rewrite bool_decide_true by done; cbn; by rewrite Ho|rewrite bool_decide_false by done].
    apply IH. cbn [length] in Hf. lia.
Qed.

(** ** Adding an entry *)

(** Where [aetherfs_add_entry] puts a name: it asks whether the entry fits the block, not
    whether it fits the slot. *)
Definition usable (data name : bytes) (e : slot) : Prop :=
  sl_ino e = 0 ∧ sl_off e + kernel_DIR_REC_LEN (len name) ≤ len data.
#[export] Instance usable_dec data name e : Decision (usable data name e) := _.

Lemma add_loop_chain data i slots ino name fuel : chain data i slots → (length slots < fuel)%nat →
  add_loop fuel (len data) ino name data i =
    match list_find (usable data name) slots with
    | None => Done (Err EINVAL)
    | Some (_, e) => store_entry (sl_off e) ino name data ≫= λ data, Done (Ok data)
    end.
Proof.
  intros Hc. revert fuel. induction Hc as [i Hi|i e slots H0 Ho Hino Hrec Hnl Hname Hfit Hin Hc IH];
    intros fuel Hf; (destruct fuel as [|fuel]; [lia|]); cbn [add_loop list_find].
  - by rewrite (proj2 (Z.leb_le _ _)).
  - pose proof (len_nonneg (sl_name e)).
    rewrite (proj2 (Z.leb_gt _ _)) by lia.
    rewrite !fetch_inside by (cbn; lia). cbn [mbind outcome_bind f_off f_len f_de_ino f_de_rec_len].
    rewrite Z.add_0_r, <-Hino, <-Hrec.
    destruct (decide (usable data name e)) as [[Hz Hb]|Hn].
    + rewrite Hz, Z.eqb_refl, (proj2 (Z.leb_le _ _)) by lia. cbn [andb]. by rewrite Ho.
    + replace ((sl_ino e =? 0) && (i + kernel_DIR_REC_LEN (len name) <=? len data)) with false.
      2: { symmetry. apply andb_false_iff. destruct (Z.eqb_spec (sl_ino e) 0) as [E0|]; [right|by left].
           apply Z.leb_gt. unfold usable in Hn. rewrite Ho in Hn. lia. }
      rewrite IH by (cbn [length] in Hf; lia). by destruct (list_find _ slots) as [[? ?]|].
Qed.

(** What a stored entry changes. *)
Lemma store_entry_spec i ino name data : 0 ≤ i → i + 14 + len name ≤ len data →
  ∃ data', store_entry i ino name data = Done data' ∧ len data' = len data ∧
    slice i 8 data' = le_bytes 8 ino ∧ slice (i + 8) 2 data' = slice (i + 8) 2 data ∧
    slice (i + 10) 2 data' = le_bytes 2 (len name) ∧ slice (i + 14) (len name) data' = name ∧
    ∀ o n, 0 ≤ o → 0 ≤ n → o + n ≤ i ∨ i + 14 + len name ≤ o → slice o n data' = slice o n data.
Proof.
  intros Hi Hl. pose proof (len_nonneg name) as Hn. unfold store_entry.
  cbn [f_off f_de_name f_de_name_len f_de_file_type].
  rewrite (proj2 (Z.ltb_ge _ _)) by lia. eexists. split; [reflexivity|].
  assert (∀ n z, len (le_bytes n z) = Z.of_nat n) as L by (intros; unfold len; by rewrite length_le_bytes).
  set (d1 := splice i _ data). assert (len d1 = len data) as L1 by (apply len_splice; rewrite ?L; lia).
  set (d2 := splice (i + 10) _ d1). assert (len d2 = len data) as L2
    by (rewrite <-L1; apply len_splice; rewrite ?L; lia).
  set (d3 := splice (i + 12) _ d2). assert (len d3 = len data) as L3
    by (rewrite <-L2; apply len_splice; rewrite ?L; lia).
  assert (∀ o n, 0 ≤ o → 0 ≤ n → o + n ≤ i + 14 → slice o n (splice (i + 14) name d3) = slice o n d3) as S4
    by (intros; apply slice_splice_before; lia).
  assert (∀ o n, 0 ≤ o → 0 ≤ n → o + n ≤ i + 12 → slice o n d3 = slice o n d2) as S3
    by (intros; apply slice_splice_before; rewrite ?L; lia).
  assert (∀ o n, 0 ≤ o → 0 ≤ n → o + n ≤ i + 10 → slice o n d2 = slice o n d1) as S2
    by (intros; apply slice_splice_before; rewrite ?L; lia).
  split_and!.
  - rewrite len_splice; lia.
  - rewrite S4, S3, S2 by lia. unfold d1. change 8 with (len (le_bytes 8 ino)) at 1.
    apply slice_splice_eq; [done|rewrite L; lia].
  - rewrite S4, S3, S2 by lia. unfold d1. apply slice_splice_after; rewrite ?L; lia.
  - rewrite S4, S3 by lia. unfold d2. change 2 with (len (le_bytes 2 (len name))) at 1.
    apply slice_splice_eq; rewrite ?L; lia.
  - apply slice_splice_eq; lia.
  - intros o n Ho Hn' [Hd|Hd].
    + rewrite S4, S3, S2 by lia. unfold d1. apply slice_splice_before; rewrite ?L; lia.
    + rewrite slice_splice_after by lia. unfold d3. rewrite slice_splice_after by (rewrite ?L; lia).
      unfold d2. rewrite slice_splice_after by (rewrite ?L; lia).
      unfold d1. apply slice_splice_after; rewrite ?L; lia.
Qed.

(** A chain only depends on the bytes from its start. *)
Lemma chain_same data data' i slots : chain data i slots → len data' = len data →
  (∀ o n, i ≤ o → 0 ≤ n → slice o n data' = slice o n data) → chain data' i slots.
Proof.
  intros Hc Hl. induction Hc as [i Hi|i e slots H0 Ho Hino Hrec Hnl Hname Hfit Hin Hc IH]; intros Hs.
  - constructor. lia.
  - pose proof (len_nonneg (sl_name e)). constructor; rewrite ?Hs by lia; try done; [lia|].
    apply IH. intros. apply Hs; lia.
Qed.

Lemma chain_after data i pre e post : chain data i (pre ++ e :: post) → i ≤ sl_off e.
Proof.
  revert i. induction pre as [|x pre IH]; intros i Hc; inversion Hc; subst; [lia|].
  match goal with H : chain _ _ (pre ++ _) |- _ => apply IH in H end.
  pose proof (len_nonneg (sl_name x)). lia.
Qed.

(** The chain after a stored entry that fits its slot. *)
Lemma chain_store data data' i pre e post ino name :
  chain data i (pre ++ e :: post) → 0 ≤ i → 14 + len name ≤ sl_rec_len e → len data' = len data →
  le_val (slice (sl_off e) 8 data') = ino → slice (sl_off e + 8) 2 data' = slice (sl_off e + 8) 2 data →
  le_val (slice (sl_off e + 10) 2 data') = len name →
  slice (sl_off e + 14) (len name) data' = name →
  (∀ o n, 0 ≤ o → 0 ≤ n → o + n ≤ sl_off e ∨ sl_off e + 14 + len name ≤ o →
     slice o n data' = slice o n data) →
  chain data' i (pre ++ Slot (sl_off e) ino (sl_rec_len e) name :: post).
Proof.
  intros Hc H0 Hfit Hl S1 S2 S3 S4 Sout. revert i Hc H0.
  induction pre as [|x pre IH]; intros i Hc H0; cbn [app] in *.
  - inversion Hc as [|? ? ? ? Ho Hi Hr Hnl Hname Hf Hin Hrest]; subst.
    pose proof (len_nonneg name). constructor; cbn [sl_off sl_ino sl_rec_len sl_name]; try done.
    + by rewrite S2.
    + lia.
    + eapply chain_same; [exact Hrest|done|]. intros. apply Sout; lia.
  - inversion Hc as [|? ? ? ? Ho Hi Hr Hnl Hname Hf Hin Hrest]; subst.
    pose proof (chain_after _ _ _ _ _ Hrest) as Ha. pose proof (len_nonneg (sl_name x)).
    constructor; rewrite ?Sout by lia; try done; [lia|]. apply IH; [done|lia].
Qed.

Lemma find_slot_none name slots : find_slot name slots = None ↔ Forall (λ e, ¬ live name e) slots.
Proof.
  unfold find_slot. rewrite fmap_None. apply list_find_None.
Qed.

Lemma find_slot_app name pre e post : Forall (λ e, ¬ live name e) pre →
  find_slot name (pre ++ e :: post) = if decide (live name e) then Some e else find_slot name post.
Proof.
  intros Hp. induction Hp as [|x pre Hx _ IH]; cbn [app]; rewrite find_slot_cons; [done|].
  by rewrite decide_False.
Qed.

(** Only the slot written answers differently, and only to its name. *)
Lemma find_slot_store name' name ino e pre post : sl_ino e = 0 → ino ≠ 0 →
  find_slot name (pre ++ e :: post) = None →
  find_slot name' (pre ++ Slot (sl_off e) ino (sl_rec_len e) name :: post) =
    if decide (name' = name) then Some (Slot (sl_off e) ino (sl_rec_len e) name)
    else find_slot name' (pre ++ e :: post).
Proof.
  intros He Hino. induction pre as [|x pre IH]; cbn [app]; rewrite !find_slot_cons.
  - intros Hn. rewrite (decide_False (P := live name' e)) by (intros [? _]; done).
    destruct (decide (name' = name)) as [->|Hne].
    + by rewrite decide_True by by split.
    + rewrite decide_False; [done|]. intros [_ [=]]. done.
  - destruct (decide (live name x)) as [|Hx]; [discriminate|]. intros Hn. rewrite (IH Hn).
    destruct (decide (name' = name)) as [->|Hne]; [by rewrite decide_False|done].
Qed.

(** ** The properties *)

Section root_directory.
Context (st : fs_state) (data : bytes) (slots : list slot) (fuel : nat).

(** The root block is there, is a block of the file system and is a chain of entries. *)
Definition directory_ok : Prop :=
  root_block st ≠ 1 ∧ fs_disk st !! root_block st = Some data ∧
  fs_blocksize (fs_sb st) = len data ∧ chain data 0 slots ∧ (length slots < fuel)%nat.

Lemma find_slot_chain i name e : chain data i slots → find_slot name slots = Some e →
  ∃ pre post, slots = pre ++ e :: post ∧ Forall (λ e, ¬ live name e) pre ∧ live name e ∧
    i ≤ sl_off e ∧ sl_ino e = le_val (slice (sl_off e) 8 data) ∧
    14 + len (sl_name e) ≤ sl_rec_len e ∧ sl_off e + sl_rec_len e ≤ len data ∧
    len (sl_name e) = le_val (slice (sl_off e + 10) 2 data) ∧
    sl_name e = slice (sl_off e + 14) (len (sl_name e)) data.
Proof.
  intros Hc. induction Hc as [|i x slots' H0 Ho Hino Hrec Hnl Hname Hfit Hin Hc IH]; [done|].
  rewrite find_slot_cons. destruct (decide (live name x)) as [Hl|Hl].
  - intros [= ->]. exists [], slots'. rewrite Ho. repeat split; done || lia || apply Hl.
  - intros Hf. destruct (IH Hf) as (pre & post & -> & Hp & Hlive & Hle & Hrest).
    exists (x :: pre), post. split; [done|]. split; [by constructor|]. split; [done|].
    split; [|done]. pose proof (len_nonneg (sl_name x)). lia.
Qed.

Lemma lookup_ino_chain name : directory_ok → len name ≤ 255 →
  lookup_ino fuel st name = Done (Ok (sl_ino <$> find_slot name slots)).
Proof.
  intros (Hr & Hd & Hb & Hc & Hf) Hn. unfold lookup_ino. rewrite (proj2 (Z.ltb_ge _ _)) by done.
  rewrite Hd, Hb, (find_loop_chain _ _ slots) by done. cbn [mbind outcome_bind].
  destruct (find_slot name slots) as [e|] eqn:E; cbn [fmap option_fmap option_map]; [|done].
  destruct (find_slot_chain 0 name e Hc E) as (pre & post & _ & _ & _ & H0 & Hi & ? & ? & _).
  pose proof (len_nonneg (sl_name e)). rewrite fetch_inside by (cbn; lia).
  cbn [mbind outcome_bind f_off f_len f_de_ino]. by rewrite Z.add_0_r, <-Hi.
Qed.
End root_directory.

Lemma put_disk_root st data : root_block st ≠ 1 → root_block (put_disk (root_block st) data st) = root_block st.
Proof. intros H. unfold root_block at 1, s_es, put_disk. cbn [fs_disk]. by rewrite lookup_insert_ne. Qed.

Lemma chain_bound data i pre e post : chain data i (pre ++ e :: post) → sl_off e + sl_rec_len e ≤ len data.
Proof.
  revert i. induction pre as [|x pre IH]; intros i Hc; inversion Hc; subst; [lia|eauto].
Qed.

(** C18: an added name is found.  In a directory whose entries follow each other to the end of the
    block, if the name is not there and the first free slot is large enough for it, adding it
    succeeds, a lookup of it gives the inode and a lookup of any other name gives what it gave
    before. *)
Theorem added_name_is_found st data slots fuel name ino k e :
  directory_ok st data slots fuel → len name ≤ 255 → is_u64 ino → ino ≠ 0 →
  find_slot name slots = None → list_find (usable data name) slots = Some (k, e) →
  14 + len name ≤ sl_rec_len e →
  ∃ st', aetherfs_add_entry fuel st name ino = Done (Ok tt, st') ∧
    lookup_ino fuel st' name = Done (Ok (Some ino)) ∧
    ∀ name', len name' ≤ 255 → name' ≠ name → lookup_ino fuel st' name' = lookup_ino fuel st name'.
Proof.
  intros Hok Hn Hu Hino Hnone Hfree Hfit. pose proof Hok as (Hr & Hd & Hb & Hc & Hf).
  pose proof Hfree as (Hk & [Hz _] & _)%list_find_Some. apply take_drop_middle in Hk as Hs.
  set (pre := take k slots) in *. set (post := drop (S k) slots) in *. rewrite <-Hs in Hc.
  pose proof (chain_after _ _ _ _ _ Hc) as H0. pose proof (chain_bound _ _ _ _ _ Hc) as Hend.
  destruct (store_entry_spec (sl_off e) ino name data) as (data' & Hst & Hl & S1 & S2 & S3 & S4 & Sout);
    [done|lia|].
  set (st' := set_fs_dirty (put_disk (root_block st) data' st)).
  assert (root_block st' = root_block st) as Hroot by by apply put_disk_root.
  assert (directory_ok st' data' (pre ++ Slot (sl_off e) ino (sl_rec_len e) name :: post) fuel) as Hok'.
  { rewrite <-Hs in Hf. unfold directory_ok. rewrite Hroot. split; [done|]. split; [apply lookup_insert_eq|].
    split; [by rewrite Hl|]. split; [|rewrite length_app in *; exact Hf].
    apply (chain_store data); try done; [rewrite S1; by apply le_val_bytes|].
    rewrite S3. apply le_val_bytes. pose proof (len_nonneg name). unfold le_range. cbn. lia. }
  exists st'. split; [|split].
  - unfold aetherfs_add_entry. rewrite (proj2 (Z.ltb_ge _ _)) by done. rewrite Hd, Hb.
    rewrite (add_loop_chain _ _ slots) by (done || by rewrite <-Hs). rewrite Hfree.
    cbn [mbind outcome_bind]. by rewrite Hst.
  - rewrite (lookup_ino_chain st' _ _ _ name Hok' Hn). rewrite find_slot_store by (done || by rewrite Hs).
    by rewrite decide_True.
  - intros name' Hn' Hne. rewrite (lookup_ino_chain st' _ _ _ name' Hok' Hn').
    rewrite find_slot_store, decide_False by (done || by rewrite Hs). rewrite Hs.
    by rewrite (lookup_ino_chain st data slots).
Qed.

(** An entry in a block of zeros, or any entry of record length 0, holds the loop where it is. *)
Lemma find_loop_stuck fuel data name i : i < len data → i + 10 ≤ len data →
  le_val (slice i 8 data) = 0 → le_val (slice (i + 8) 2 data) = 0 →
  find_loop fuel (len data) name data i = OutOfFuel.
Proof.
  intros Hi Hl Hz Hr. induction fuel as [|fuel IH]; [done|]. cbn [find_loop].
  rewrite (proj2 (Z.leb_gt _ _)) by lia.
  rewrite (fetch_inside f_de_ino), (fetch_inside f_de_rec_len) by (cbn; lia).
  cbn [mbind outcome_bind f_off f_len f_de_ino f_de_rec_len]. rewrite Z.add_0_r, Hz, Hr, Z.add_0_r.
  exact IH.
Qed.

Lemma find_loop_stuck_used fuel data name i : 0 ≤ i → i + 14 + len name ≤ len data →
  le_val (slice (i + 8) 2 data) = 0 →
  (le_val (slice (i + 10) 2 data) ≠ len name ∨ slice (i + 14) (len name) data ≠ name) →
  find_loop fuel (len data) name data i = OutOfFuel.
Proof.
  intros H0 Hl Hr Hne. pose proof (len_nonneg name). induction fuel as [|fuel IH]; [done|]. cbn [find_loop].
  rewrite (proj2 (Z.leb_gt _ _)) by lia. rewrite !fetch_inside by (cbn; lia).
  cbn [mbind outcome_bind f_off f_len f_de_ino f_de_rec_len f_de_name_len].
  rewrite Z.add_0_r, Hr, Z.add_0_r.
  destruct (_ =? 0); cbn [mbind outcome_bind]; [exact IH|].
  destruct (Z.eqb_spec (le_val (slice (i + 10) 2 data)) (len name)) as [E|E]; cbn [mbind outcome_bind]; [|exact IH].
  unfold name_matches. cbn [f_off f_de_name]. rewrite (proj2 (Z.ltb_ge _ _)) by lia. cbn [mbind outcome_bind].
  rewrite bool_decide_false; [exact IH|]. by destruct Hne.
Qed.

Lemma add_loop_stuck_used fuel data ino name i : 0 ≤ i → i + 10 ≤ len data →
  le_val (slice i 8 data) ≠ 0 → le_val (slice (i + 8) 2 data) = 0 →
  add_loop fuel (len data) ino name data i = OutOfFuel.
Proof.
  intros H0 Hl Hi Hr. induction fuel as [|fuel IH]; [done|]. cbn [add_loop].
  rewrite (proj2 (Z.leb_gt _ _)) by lia. rewrite !fetch_inside by (cbn; lia).
  cbn [mbind outcome_bind f_off f_len f_de_ino f_de_rec_len]. rewrite Z.add_0_r, Hr, Z.add_0_r.
  rewrite (proj2 (Z.eqb_neq _ _)) by done. exact IH.
Qed.

Lemma slice_zeros o n m : 0 ≤ o → 0 ≤ n → o + n ≤ m → slice o n (zeros m) = zeros n.
Proof.
  intros. unfold slice, zeros. rewrite drop_replicate, take_replicate. f_equal. lia.
Qed.

Lemma le_val_zeros n : le_val (zeros n) = 0.
Proof.
  unfold zeros. induction (Z.to_nat n) as [|k IH]; [done|].
  change (0 + 256 * le_val (replicate k 0) = 0). by rewrite IH.
Qed.

Lemma rec_len_bound n : 0 ≤ n ≤ 255 → 14 + n ≤ kernel_DIR_REC_LEN n ≤ n + 17.
Proof.
  intros Hn.
  assert (forallb (λ n, (14 + n <=? kernel_DIR_REC_LEN n) && (kernel_DIR_REC_LEN n <=? n + 17)) (seqZ 0 256) = true)
    as H by (vm_compute; reflexivity).
  rewrite forallb_forall in H. specialize (H n). rewrite <-list_elem_of_In, elem_of_seqZ in H.
  specialize (H ltac:(lia)). bool_to_prop. lia.
Qed.

(** C39: a fresh root directory never answers.  In a block of zeros no lookup ends; the first name
    is added, and after that neither the addition of a second name nor the lookup of another
    one ends: additions leave the record length at 0 and the walk stays where it is. *)
Theorem fresh_directory_hangs st name ino :
  root_block st ≠ 1 → fs_disk st !! root_block st = Some (zeros 4096) →
  fs_blocksize (fs_sb st) = 4096 → len name ≤ 255 → is_u64 ino → ino ≠ 0 →
  (∀ fuel name', len name' ≤ 255 → lookup_ino fuel st name' = OutOfFuel) ∧
  ∃ st', (∀ fuel, aetherfs_add_entry (S fuel) st name ino = Done (Ok tt, st')) ∧
    ∀ fuel name', len name' ≤ 255 → name' ≠ name →
      lookup_ino fuel st' name' = OutOfFuel ∧
      ∀ ino', aetherfs_add_entry fuel st' name' ino' = OutOfFuel.
Proof.
  intros Hr Hd Hb Hn Hu Hino. pose proof (len_nonneg name) as Hn0.
  assert (len (zeros 4096) = 4096) as Hlz by (rewrite len_zeros; lia).
  assert (∀ o n, 0 ≤ o → 0 ≤ n → o + n ≤ 4096 → le_val (slice o n (zeros 4096)) = 0) as Hz
    by (intros; rewrite slice_zeros by lia; apply le_val_zeros).
  split.
  { intros fuel name' Hn'. unfold lookup_ino. rewrite (proj2 (Z.ltb_ge _ _)) by done. rewrite Hd, Hb.
    rewrite <-Hlz at 1. rewrite find_loop_stuck; [done|lia|lia|apply Hz; lia|apply Hz; lia]. }
  destruct (store_entry_spec 0 ino name (zeros 4096)) as (data & Hst & Hl & S1 & S2 & S3 & S4 & _); [done|lia|].
  set (st' := set_fs_dirty (put_disk (root_block st) data st)).
  assert (root_block st' = root_block st) as Hroot by by apply put_disk_root.
  assert (fs_disk st' !! root_block st' = Some data) as Hd' by (rewrite Hroot; apply lookup_insert_eq).
  assert (fs_blocksize (fs_sb st') = len data) as Hb' by (rewrite Hl, Hlz; exact Hb).
  assert (le_val (slice 8 2 data) = 0) as Hrec by (change 8 with (0 + 8); rewrite S2; by apply Hz).
  assert (le_val (slice 0 8 data) = ino) as Hi by (rewrite S1; by apply le_val_bytes).
  exists st'. split.
  - intros fuel. unfold aetherfs_add_entry. rewrite (proj2 (Z.ltb_ge _ _)) by done. rewrite Hd, Hb.
    cbn [add_loop]. rewrite (proj2 (Z.leb_gt _ _)) by lia.
    rewrite (fetch_inside f_de_ino) by (rewrite Hlz; cbn; lia).
    cbn [mbind outcome_bind f_off f_len f_de_ino]. rewrite Hz by lia. rewrite (proj2 (Z.leb_le _ _)); [cbn [andb Z.eqb]; rewrite Hst; done|].
    pose proof (rec_len_bound (len name)). lia.
  - intros fuel name' Hn' Hne. unfold lookup_ino, aetherfs_add_entry.
    rewrite (proj2 (Z.ltb_ge _ _)) by done. rewrite Hd', Hb'. split.
    + rewrite find_loop_stuck_used; [done|done|rewrite Hl, Hlz; lia|done|].
      destruct (decide (len name' = len name)) as [E|E]; [right|left].
      * rewrite E, S4. done.
      * rewrite S3, le_val_bytes; [done|]. unfold le_range. cbn. lia.
    + intros ino'. rewrite add_loop_stuck_used; [done|done|rewrite Hl, Hlz; lia|by rewrite Hi|done].
Qed.

(** ** Removing and renaming *)

Lemma find_slot_erase name e pre post : Forall (λ e, ¬ live name e) pre → Forall (λ e, ¬ live name e) post →
  live name e → ∀ name', find_slot name' (pre ++ Slot (sl_off e) 0 (sl_rec_len e) (sl_name e) :: post) =
    if decide (name' = name) then None else find_slot name' (pre ++ e :: post).
Proof.
  intros Hpre Hpost [Hi Hname] name'. destruct (decide (name' = name)) as [->|Hne].
  - apply find_slot_none. apply Forall_app. split; [done|]. constructor; [by intros [? _]|done].
  - clear Hpre Hpost. induction pre as [|x pre IH]; cbn [app]; rewrite !find_slot_cons.
    + rewrite !decide_False; [done| |]; intros [? ?]; cbn in *; congruence.
    + by rewrite IH.
Qed.

(** The name is in the directory once. *)
Definition named_once (name : bytes) (slots : list slot) : Prop :=
  ∃ pre e post, slots = pre ++ e :: post ∧ live name e ∧
    Forall (λ e, ¬ live name e) pre ∧ Forall (λ e, ¬ live name e) post.

Lemma named_once_find name pre e post : live name e → Forall (λ e, ¬ live name e) pre →
  find_slot name (pre ++ e :: post) = Some e.
Proof. intros Hl Hp. by rewrite find_slot_app, decide_True. Qed.

Lemma delete_chain st data slots fuel name :
  directory_ok st data slots fuel → named_once name slots → len name ≤ 255 →
  ∃ st' data' slots', aetherfs_delete_entry fuel st name = Done (Ok tt, st') ∧
    fs_sb st' = fs_sb st ∧ directory_ok st' data' slots' fuel ∧
    ∀ name', find_slot name' slots' = if decide (name' = name) then None else find_slot name' slots.
Proof.
  intros (Hr & Hd & Hb & Hc & Hf) (pre & e & post & -> & Hlive & Hpre & Hpost) Hn.
  pose proof (named_once_find name pre e post Hlive Hpre) as Hfind.
  pose proof (chain_after _ _ _ _ _ Hc) as H0. pose proof (chain_bound _ _ _ _ _ Hc) as Hend.
  destruct (find_slot_chain data (pre ++ e :: post) 0 name e Hc Hfind) as
    (_ & _ & _ & _ & _ & _ & _ & Hfit & _ & Hlen & Hname).
  pose proof (len_nonneg (sl_name e)) as Hn0.
  set (data' := splice (sl_off e) (le_bytes 8 0) data).
  assert (len (le_bytes 8 0) = 8) as L8 by done.
  assert (len data' = len data) as Hl by (apply len_splice; rewrite ?L8; lia).
  exists (put_disk (root_block st) data' st), data',
    (pre ++ Slot (sl_off e) 0 (sl_rec_len e) (sl_name e) :: post).
  split; [|split; [done|split]].
  - unfold aetherfs_delete_entry. rewrite Hd, Hb, (find_loop_chain _ _ (pre ++ e :: post)), Hfind by done. done.
  - unfold directory_ok. rewrite put_disk_root by done. split; [done|].
    split; [apply lookup_insert_eq|]. split; [by rewrite Hl|]. split; [|rewrite length_app in *; exact Hf].
    apply (chain_store data); try done.
    + unfold data'. rewrite <-L8 at 1. by rewrite slice_splice_eq by (rewrite ?L8; lia).
    + apply slice_splice_after; rewrite ?L8; lia.
    + rewrite Hlen. f_equal. apply slice_splice_after; rewrite ?L8; lia.
    + transitivity (slice (sl_off e + 14) (len (sl_name e)) data); [|done].
      apply slice_splice_after; rewrite ?L8; lia.
    + intros o n Ho Hn' [Hdis|Hdis]; [apply slice_splice_before|apply slice_splice_after]; rewrite ?L8; lia.
  - by apply find_slot_erase.
Qed.

(** Renaming onto a name that exists loses the file.  The call succeeds; afterwards the old
    name is gone, the new name leads where it led before, and so does every other name: no
    name leads to the renamed file. *)
Theorem rename_onto_existing_loses v data slots fuel old_dir new_dir old new k1 k2 now :
  directory_ok (v_fs v) data slots fuel → named_once old slots → len old ≤ 255 → len new ≤ 255 →
  old ≠ new →
  ∃ v', aetherfs_rename fuel v old_dir (Dentry old (Some k1)) new_dir (Dentry new (Some k2)) 0 now =
      Done (Ok tt, v') ∧
    lookup_ino fuel (v_fs v') old = Done (Ok None) ∧
    (∀ name, len name ≤ 255 → name ≠ old → lookup_ino fuel (v_fs v') name = lookup_ino fuel (v_fs v) name).
Proof.
  intros Hok Honce Ho Hn Hne.
  destruct (delete_chain _ _ _ _ _ Hok Honce Ho) as (st' & data' & slots' & Hdel & _ & Hok' & Hfind).
  unfold aetherfs_rename. cbn [d_inode d_name]. change (Z.land 0 RENAME_EXCHANGE =? 0) with true.
  cbn iota. rewrite Hdel. cbn [mbind outcome_bind].
  eexists. split; [reflexivity|].
  set (v' := if bool_decide _ then _ else _).
  assert (v_fs v' = st') as -> by (unfold v'; destruct (bool_decide _); reflexivity).
  split.
  - rewrite (lookup_ino_chain st' data' slots') by done. by rewrite Hfind, decide_True.
  - intros name Hl Hneq. rewrite (lookup_ino_chain st' data' slots') by done.
    rewrite Hfind, decide_False by done. by rewrite (lookup_ino_chain (v_fs v) data slots).
Qed.

(** The parent of a new directory is counted twice: by [aetherfs_new_inode] and again here. *)
Lemma mkdir_counts_twice fuel v dir d dentry mode uid gid now k v' :
  v_inodes v !! dir = Some d → kernel_S_ISDIR (Z.lor 0x4000 mode) = true →
  aetherfs_mkdir fuel v dir dentry mode uid gid now true = Done (Ok k, v') →
  vi_nlink <$> v_inodes v' !! dir = Some (u32 (vi_nlink d + 2)).
Proof.
  intros Hd Hm. unfold aetherfs_mkdir, new_inode_in, aetherfs_new_inode. rewrite Hd, Hm, orb_true_r.
  cbn [orb negb mbind outcome_bind]. set (x := VfsInode _ _ _ _ _ _ _ _ _ _ _ _ _).
  set (m := <[dir := set_vi_nlink (vi_nlink d + 1) d]> (v_inodes v)).
  destruct (aetherfs_add_entry _ _ _ _) as [[r st1]| |]; cbn [mbind outcome_bind]; [|done..].
  destruct r; [|done]. intros [= <- <-]. cbn [add_nlink upd_inode v_inodes].
  assert (fresh (dom m) ≠ dir) as Hne.
  { intros E. apply (is_fresh (dom m)). rewrite E. apply elem_of_dom. eexists. apply lookup_insert_eq. }
  rewrite lookup_alter_eq, lookup_insert_ne by done. unfold m. rewrite lookup_insert_eq.
  cbn [fmap option_fmap option_map set_vi_nlink vi_nlink]. f_equal. unfold u32.
  rewrite Z.add_mod_idemp_l by lia. f_equal. lia.
Qed.

(** A free slot of sixteen bytes before the entry [98]: adding a name of twenty bytes runs over
    the entry, which is not found any more. *)
Definition tight_block : bytes :=
  splice 0 (le_bytes 8 0 ++ le_bytes 2 16 ++ le_bytes 2 0 ++ [0; 0; 0; 0])
    (splice 16 (le_bytes 8 30 ++ le_bytes 2 48 ++ le_bytes 2 1 ++ [0; 0; 98]) (zeros 64)).

Definition tight_state : fs_state :=
  FsState {[ 1 := put f_s_root_inode 3 (zeros 264); 3 := tight_block ]} (FsInfo 64 6 0 0 0 0 0 0 false).

Example long_name_overruns_slot :
  lookup_ino 9 tight_state [98] = Done (Ok (Some 30)) ∧
  ∃ st', aetherfs_add_entry 9 tight_state (replicate 20 97) 31 = Done (Ok tt, st') ∧
    lookup_ino 9 st' [98] = Done (Ok None).
Proof.
  split; [vm_compute; reflexivity|]. eexists. split; [vm_compute; reflexivity|].
  vm_compute. reflexivity.
Qed.

(** ** Witnesses *)

Ltac chain_by_computing :=
  repeat first [apply chain_end; by vm_compute|apply chain_slot; [by vm_compute..|]; cbn].

Lemma added_name_is_found_witness :
  ∃ st', aetherfs_add_entry 9 tight_state [99; 100] 31 = Done (Ok tt, st') ∧
    lookup_ino 9 st' [99; 100] = Done (Ok (Some 31)) ∧ lookup_ino 9 st' [98] = Done (Ok (Some 30)).
Proof.
  destruct (added_name_is_found tight_state tight_block [Slot 0 0 16 []; Slot 16 30 48 [98]] 9 [99; 100] 31
    0 (Slot 0 0 16 [])) as (st' & E & Hfound & Hother).
  - split; [by vm_compute|]. split; [by vm_compute|]. split; [by vm_compute|].
    split; [chain_by_computing|cbn; lia].
  - by vm_compute.
  - by vm_compute.
  - done.
  - by vm_compute.
  - by vm_compute.
  - by vm_compute.
  - exists st'. split; [exact E|]. split; [exact Hfound|]. rewrite Hother by done. by vm_compute.
Defined.

Lemma fresh_directory_hangs_witness :
  let st := FsState {[ 1 := put f_s_root_inode 3 (zeros 264); 3 := zeros 4096 ]} (FsInfo 4096 12 0 0 0 0 0 0 false) in
  lookup_ino 100 st [97] = OutOfFuel.
Proof.
  intros st. apply (fresh_directory_hangs st [97] 20); [by vm_compute..|done|done].
Defined.

(** A directory with the names [97] and [98]. *)
Definition two_names : fs_state :=
  FsState {[ 1 := put f_s_root_inode 3 (zeros 264);
             3 := splice 0 (le_bytes 8 20 ++ le_bytes 2 16 ++ le_bytes 2 1 ++ [0; 0; 97])
               (splice 16 (le_bytes 8 30 ++ le_bytes 2 48 ++ le_bytes 2 1 ++ [0; 0; 98]) (zeros 64)) ]}
    (FsInfo 64 6 0 0 0 0 0 0 false).

Lemma rename_onto_existing_loses_witness :
  lookup_ino 9 two_names [97] = Done (Ok (Some 20)) ∧
  ∃ v', aetherfs_rename 9 (Vfs two_names ∅) 0 (Dentry [97] (Some 1%nat)) 0 (Dentry [98] (Some 2%nat)) 0 5 =
      Done (Ok tt, v') ∧
    lookup_ino 9 (v_fs v') [97] = Done (Ok None) ∧ lookup_ino 9 (v_fs v') [98] = Done (Ok (Some 30)).
Proof.
  split; [by vm_compute|].
  destruct (rename_onto_existing_loses (Vfs two_names ∅)
    (default [] (fs_disk two_names !! 3)) [Slot 0 20 16 [97]; Slot 16 30 48 [98]] 9 0 0 [97] [98] 1 2 5)
    as (v' & E & Hold & Hother).
  - split; [by vm_compute|]. split; [by vm_compute|]. split; [by vm_compute|].
    split; [chain_by_computing|cbn; lia].
  - exists [], (Slot 0 20 16 [97]), [Slot 16 30 48 [98]]. split; [done|]. split; [by split|].
    split; [constructor|]. constructor; [by intros [_ ?]|constructor].
  - by vm_compute.
  - by vm_compute.
  - done.
  - exists v'. split; [exact E|]. split; [exact Hold|]. rewrite Hother by done. by vm_compute.
Defined.
