(* ===== verification/Interop.v ===== *)
(** * The tools' images under the kernel

    What the kernel module's code does on a device that holds an image the userspace tools
    accept: the superblock is the one the tools load, and the module reads it through its own
    structure. *)

From S2P Require Import Prelude Codec Crc Format Integrity SysIo State Pool Blocks Bitmap Load.
From S2P Require Import Struct KernelHeader Super VfsInode Directory.


