(* ===== verification/Reflink.v ===== *)
(** * Reflinks and deduplication

    [kernel/reflink.c].  The state of the deduplication is the static [global_dedup] and the
    radix tree from checksums to blocks; the field [db_refs] of a block is never used.  The
    inodes are those of [VfsInode].  [AETHERFS_F_SHARED_EXTENT] is not defined anywhere in
    the sources and is a parameter. *)

From stdpp Require Import gmultiset.
From S2P Require Import Prelude Codec Crc Btree Struct KernelHeader Invariants Super VfsInode RefCount.
Local Open Scope Z_scope.

(** ** State *)

Definition AETHERFS_DEDUP_MAX_CHUNK : Z := 65536.
Definition AETHERFS_DEDUP_MIN_CHUNK : Z := 4096.
Definition AETHERFS_CDC_WINDOW_SIZE : Z := 48.

Definition DEDUP_MODE_NONE : Z := 0.
Definition DEDUP_MODE_REFLINK : Z := 1.
Definition DEDUP_MODE_BLOCK : Z := 2.
Definition DEDUP_MODE_CDC : Z := 3.

Record aetherfs_dedup_block := DedupBlock {
  db_blocknr : Z;
  db_checksum : Z;
  db_refcount : Z;
}.

Record aetherfs_dedup_info := DedupInfo {
  dd_mode : Z;
  dd_enabled : bool;
  dd_saved_bytes : Z;
  dd_dedup_blocks : Z;
  dedup_tree : gmap Z aetherfs_dedup_block;
}.

Definition set_tree (t : gmap Z aetherfs_dedup_block) (s : aetherfs_dedup_info) : aetherfs_dedup_info :=
  DedupInfo (dd_mode s) (dd_enabled s) (dd_saved_bytes s) (dd_dedup_blocks s) t.

Definition aetherfs_dedup_init : aetherfs_dedup_info := DedupInfo DEDUP_MODE_REFLINK false 0 0 ∅.

Definition aetherfs_dedup_exit (s : aetherfs_dedup_info) : aetherfs_dedup_info :=
  DedupInfo (dd_mode s) false (dd_saved_bytes s) (dd_dedup_blocks s) ∅.

(** The mode is an unsigned enumeration. *)
Definition aetherfs_dedup_enable (s : aetherfs_dedup_info) (mode : Z) : result unit * aetherfs_dedup_info :=
  if DEDUP_MODE_CDC <? mode then (Err EINVAL, s)
  else (Ok tt, DedupInfo mode true (dd_saved_bytes s) (dd_dedup_blocks s) (dedup_tree s)).

Definition aetherfs_dedup_disable (s : aetherfs_dedup_info) : aetherfs_dedup_info :=
  DedupInfo DEDUP_MODE_NONE false (dd_saved_bytes s) (dd_dedup_blocks s) (dedup_tree s).

(** ** Blocks *)

(** [mem] says whether memory for the block and for the tree can be had.  The data is not
    looked at. *)
Definition aetherfs_dedup_block_ref (s : aetherfs_dedup_info) (s_blocksize blocknr checksum : Z) (mem : bool)
    : result unit * aetherfs_dedup_info :=
  if blocknr =? 0 then (Err EINVAL, s)
  else if negb (dd_enabled s) then (Ok tt, s)
  else if dd_mode s <? DEDUP_MODE_BLOCK then (Ok tt, s)
  else match dedup_tree s !! checksum with
  | Some db =>
      (Ok tt, DedupInfo (dd_mode s) (dd_enabled s) (u64 (dd_saved_bytes s + s_blocksize))
        (u64 (dd_dedup_blocks s + 1))
        (<[checksum := DedupBlock (db_blocknr db) (db_checksum db) (u32 (db_refcount db + 1))]>
           (dedup_tree s)))
  | None =>
      if negb mem then (Err ENOMEM, s)
      else (Ok tt, set_tree (<[checksum := DedupBlock blocknr checksum 1]> (dedup_tree s)) s)
  end.

(** The block number and the number of references. *)
Definition aetherfs_dedup_resolve (s : aetherfs_dedup_info) (checksum : Z) : result (Z * Z) :=
  if negb (dd_enabled s) then Err EINVAL
  else match dedup_tree s !! checksum with
  | None => Err ENOENT
  | Some db => Ok (db_blocknr db, db_refcount db)
  end.

Definition aetherfs_dedup_release (s : aetherfs_dedup_info) (checksum : Z)
    : result unit * aetherfs_dedup_info :=
  if checksum =? 0 then (Err EINVAL, s)
  else match dedup_tree s !! checksum with
  | None => (Err ENOENT, s)
  | Some db =>
      let refs := u32 (db_refcount db - 1) in
      (Ok tt, set_tree
        (if refs =? 0 then delete checksum (dedup_tree s)
         else <[checksum := DedupBlock (db_blocknr db) (db_checksum db) refs]> (dedup_tree s)) s)
  end.

Definition aetherfs_dedup_saved_bytes (s : aetherfs_dedup_info) : Z := dd_saved_bytes s.
Definition aetherfs_dedup_block_count (s : aetherfs_dedup_info) : Z := dd_dedup_blocks s.

(** Command 0 fills a structure on the stack, which is dropped; the result is only whether the
    command is known. *)
Definition aetherfs_dedup_ioctl (cmd : Z) : result unit :=
  if cmd =? 0 then Ok tt else Err ENOTTY.

(** ** Chunks *)

Definition cdc_table : list Z := [
  0x0000; 0xCC01; 0xD801; 0x1400; 0xF001; 0x3C00; 0x2800; 0xE201;
  0xA001; 0x6C00; 0x7800; 0x9901; 0x8801; 0x7800; 0x6800; 0xB001;
  0x5001; 0x3C00; 0x4C00; 0x8501; 0x9401; 0xA001; 0x8400; 0xD001;
  0xD801; 0xC001; 0xFC01; 0x1400; 0x4C00; 0xCC01; 0xD801; 0x1400].

(** The table has 256 entries; those not written down are 0. *)
Definition cdc_entry (i : Z) : Z := default 0 (cdc_table !! Z.to_nat i).

(** One byte of the rolling sum, a 16-bit word. *)
Definition cdc_step (crc byte : Z) : Z :=
  let tmp := cdc_entry (Z.land crc 0xF) in
  let crc := Z.lxor (Z.lxor (Z.shiftr crc 4) tmp) (cdc_entry (Z.land byte 0xF)) in
  let tmp := cdc_entry (Z.land crc 0xF) in
  Z.lxor (Z.lxor (Z.shiftr crc 4) tmp) (cdc_entry (Z.shiftr byte 4)).

(** The loop from position [i], where [data] is what is left of the [size] bytes: the start and
    length of the chunk. *)
Fixpoint boundary_loop (data : bytes) (size crc i : Z) : Z * Z :=
  match data with
  | byte :: data =>
      if i <? size - 1 then
        let crc := cdc_step crc byte in
        let hash := Z.land crc 0x3FFF in
        if (Z.land hash 0x3FF =? 0x3FF) && (AETHERFS_DEDUP_MIN_CHUNK <=? i) then
          let chunk_start := i - (AETHERFS_CDC_WINDOW_SIZE - 1) in
          (chunk_start, Z.min (i - chunk_start) AETHERFS_DEDUP_MAX_CHUNK)
        else boundary_loop data size crc (i + 1)
      else (0, if size <? AETHERFS_DEDUP_MIN_CHUNK then size else AETHERFS_DEDUP_MIN_CHUNK)
  | [] => (0, if size <? AETHERFS_DEDUP_MIN_CHUNK then size else AETHERFS_DEDUP_MIN_CHUNK)
  end.

(** For a buffer that is not empty. *)
Definition cdc_find_chunk_boundary (data : bytes) : Z * Z :=
  boundary_loop data (len data) 0xFFFF 0.

Definition block_checksum (data : bytes) : Z := kernel_aetherfs_crc32c AETHERFS_CRC_SEED data.

(** The loop over the chunks: the checksums stored in [chunk_refs] and the last offset.  Every
    block is given as number 0. *)
Fixpoint cdc_loop (chunk_count : nat) (s : aetherfs_dedup_info) (s_blocksize : Z) (mem : bool)
    (data : bytes) (offset : Z) : list Z * Z * aetherfs_dedup_info :=
  match chunk_count with
  | O => ([], offset, s)
  | S chunk_count =>
      if len data <=? offset then ([], offset, s)
      else
        let '(chunk_start, chunk_len) := cdc_find_chunk_boundary (drop (Z.to_nat offset) data) in
        let checksum := block_checksum (slice (offset + chunk_start) chunk_len data) in
        let '(_, s) := aetherfs_dedup_block_ref s s_blocksize 0 checksum mem in
        let '(refs, last, s) :=
          cdc_loop chunk_count s s_blocksize mem data (offset + (chunk_start + chunk_len)) in
        (checksum :: refs, last, s)
  end.

Definition aetherfs_cdc_dedup (s : aetherfs_dedup_info) (s_blocksize : Z) (mem : bool) (data : bytes)
    (chunk_count : Z) : result (list Z) * aetherfs_dedup_info :=
  if len data =? 0 then (Err EINVAL, s)
  else if negb (dd_mode s =? DEDUP_MODE_CDC) then (Ok [], s)
  else
    let '(refs, _, s) := cdc_loop (Z.to_nat chunk_count) s s_blocksize mem data 0 in (Ok refs, s).

(** ** Inodes *)

Section shared.
Context (AETHERFS_F_SHARED_EXTENT : Z).

Definition DEDUP_HINT_F_SHARED : Z := 1.

(** The loop of [aetherfs_reflink] on the flags; [loff_t] is 64 bits, signed. *)
Fixpoint reflink_loop (fuel : nat) (s_blocksize len copied flags : Z) : option Z :=
  match fuel with
  | O => None
  | S fuel =>
      if copied <? len then
        let copied := u64 (copied + s_blocksize) in
        let copied := if copied <? 2 ^ 63 then copied else copied - 2 ^ 64 in
        reflink_loop fuel s_blocksize len copied (flag_set AETHERFS_F_SHARED_EXTENT flags)
      else Some flags
  end.

(** The destination; the superblocks of the two inodes are given by their numbers. *)
Definition aetherfs_reflink (fuel : nat) (s_blocksize src_sb dst_sb : Z) (dst : inode) (len : Z)
    (preserve : bool) : option (result inode) :=
  if negb (src_sb =? dst_sb) then Some (Err EINVAL)
  else
    flags ← reflink_loop fuel s_blocksize len 0 (ei_flags dst);
    Some (Ok (set_ei_flags (if preserve then flag_set kernel_F_REFLINKED flags else flags) dst)).

Definition aetherfs_dedupe_range (fuel : nat) (s_blocksize src_sb dst_sb : Z) (dst : inode) (len : Z)
    : option (result inode) :=
  if negb (src_sb =? dst_sb) then Some (Err EXDEV)
  else aetherfs_reflink fuel s_blocksize src_sb dst_sb
    (set_ei_flags (flag_set AETHERFS_F_SHARED_EXTENT (ei_flags dst)) dst) len false.

Definition aetherfs_is_shared_extent (i : inode) : bool := flag_test AETHERFS_F_SHARED_EXTENT (ei_flags i).

(** The hint is built on the stack and dropped; only the flag stays. *)
Definition aetherfs_dedup_hint_set (i : inode) (len flags : Z) : result inode :=
  if len =? 0 then Err EINVAL
  else Ok (if flag_test DEDUP_HINT_F_SHARED flags
           then set_ei_flags (flag_set AETHERFS_F_SHARED_EXTENT (ei_flags i)) i else i).

(** [struct aetherfs_dedup_hint]: number and offset are filled in, the rest stays. *)
Record aetherfs_dedup_hint := DedupHint {
  dh_ino : Z;
  dh_offset : Z;
  dh_length : Z;
  dh_checksum : Z;
  dh_flags : Z;
}.

Definition aetherfs_dedup_hint_get (i : inode) (offset : Z) (hint : aetherfs_dedup_hint) : aetherfs_dedup_hint :=
  DedupHint (vi_ino i) (u64 offset) (dh_length hint) (dh_checksum hint) (dh_flags hint).
End shared.

(** ** Counting references *)

Section counting.
(** The file system, and the block each checksum is presented with. *)
Context (s_blocksize : Z) (block_of : Z → Z) (Hblock : ∀ k, block_of k ≠ 0).

#[local] Instance dedup_store : RefStore aetherfs_dedup_info Z := {
  ref_count s k := from_option db_refcount 0 (dedup_tree s !! k);
  ref_step s c := match c with
    | AddRef mem k => aetherfs_dedup_block_ref s s_blocksize (block_of k) k mem
    | DropRef k => aetherfs_dedup_release s k
    end;
}.

Definition dedup_ok (s : aetherfs_dedup_info) : Prop :=
  dd_enabled s = true ∧ DEDUP_MODE_BLOCK ≤ dd_mode s ∧
  ∀ k db, dedup_tree s !! k = Some db → 1 ≤ db_refcount db ≤ UINT32_MAX ∧ db_blocknr db = block_of k.

Lemma dedup_ok_set s k db : dedup_ok s → 1 ≤ db_refcount db ≤ UINT32_MAX → db_blocknr db = block_of k →
  dedup_ok (set_tree (<[k := db]> (dedup_tree s)) s).
Proof.
  intros (He & Hm & Ht) Hdb Hb. split; [done|]. split; [done|]. intros k' db'. cbn [set_tree dedup_tree].
  destruct (decide (k = k')) as [->|Hne]; [rewrite lookup_insert_eq; by intros [= <-]|].
  rewrite lookup_insert_ne by done. apply Ht.
Qed.

(** A release of checksum 0 is an invalid argument; an addition of it is not. *)
Definition zero_refused (checksum : Z) : option errno := if checksum =? 0 then Some EINVAL else None.

Lemma dedup_laws : RefLaws aetherfs_dedup_info Z dedup_ok (λ _, True) zero_refused.
Proof.
  split.
  - intros s k (_ & _ & Ht) _. cbn. destruct (dedup_tree s !! k) as [db|] eqn:E; [|done].
    apply Ht in E. cbn. lia.
  - intros s mem k Hok _. pose proof Hok as (He & Hm & Ht). cbn [ref_count ref_step dedup_store].
    unfold aetherfs_dedup_block_ref. rewrite He. rewrite (proj2 (Z.eqb_neq _ _)) by done.
    rewrite (proj2 (Z.ltb_ge _ _)) by done. cbn [negb].
    destruct (dedup_tree s !! k) as [db|] eqn:E; cbn [from_option].
    + apply Ht in E as [Hr Hb]. intros Hlt.
      rewrite bool_decide_false by lia. cbn [andb]. eexists. split; [reflexivity|].
      rewrite u32_small by (unfold is_u32, UINT32_MAX in *; lia). split.
      * destruct (dedup_ok_set s k (DedupBlock (db_blocknr db) (db_checksum db) (db_refcount db + 1)) Hok)
          as (_ & _ & HT); [cbn; lia|done|]. split; [done|]. by split.
      * intros k' _. cbn [dedup_tree]. destruct (decide (k' = k)) as [->|];
          [by rewrite lookup_insert_eq|by rewrite lookup_insert_ne].
    + intros _. rewrite bool_decide_true by done. cbn [andb]. destruct mem; cbn [negb]; [|done].
      eexists. split; [reflexivity|]. split; [by apply dedup_ok_set; [|cbn; unfold UINT32_MAX; lia|]|].
      intros k' _. cbn [set_tree dedup_tree]. destruct (decide (k' = k)) as [->|];
        [by rewrite lookup_insert_eq|by rewrite lookup_insert_ne].
  - intros s k e _ _. unfold zero_refused. cbn [ref_step dedup_store]. unfold aetherfs_dedup_release.
    destruct (k =? 0); congruence.
  - intros s k Hok _ Hz. pose proof Hok as (He & Hm & Ht). cbn [ref_count ref_step dedup_store].
    unfold aetherfs_dedup_release. unfold zero_refused in Hz. destruct (k =? 0); [done|].
    destruct (dedup_tree s !! k) as [db|] eqn:E; cbn [from_option].
    + pose proof (Ht _ _ E) as [Hr Hb]. intros Hle. rewrite bool_decide_false by lia.
      rewrite u32_small by (unfold is_u32, UINT32_MAX in *; lia).
      eexists. split; [reflexivity|]. destruct (Z.eqb_spec (db_refcount db - 1) 0) as [Ez|Ez].
      * split.
        { split; [done|]. split; [done|]. intros k' db'. cbn [set_tree dedup_tree].
          intros [_ H]%lookup_delete_Some. by apply Ht. }
        intros k' _. cbn [set_tree dedup_tree]. destruct (decide (k' = k)) as [->|];
          [rewrite lookup_delete_eq; cbn; lia|by rewrite lookup_delete_ne].
      * split; [apply dedup_ok_set; cbn; (done || lia)|].
        intros k' _. cbn [set_tree dedup_tree]. destruct (decide (k' = k)) as [->|];
          [by rewrite lookup_insert_eq|by rewrite lookup_insert_ne].
    + intros _. by rewrite bool_decide_true.
Qed.

(** C16: the deduplication counts references.  From the moment it is enabled, any sequence of
    additions and releases of blocks gives the results it would give on a multiset of
    checksums, failing allocations included, with one exception: a release of checksum 0 is
    always refused as invalid and drops nothing, although blocks with that checksum are
    accepted and counted.  Afterwards the number of references under a checksum is its
    multiplicity, as long as the 32-bit counters cannot overflow. *)
Theorem dedup_refines_multiset mode calls k :
  DEDUP_MODE_BLOCK ≤ mode ≤ DEDUP_MODE_CDC → len calls ≤ UINT32_MAX →
  ∃ s, run_calls ref_step (aetherfs_dedup_enable aetherfs_dedup_init mode).2 calls =
      ((run_calls (guarded_step zero_refused) ∅ calls).1, s) ∧
    aetherfs_dedup_resolve s k =
      let n := multiplicity k (run_calls (guarded_step zero_refused) ∅ calls).2 in
      if decide (n = 0%nat) then Err ENOENT else Ok (block_of k, Z.of_nat n).
Proof.
  intros Hmode Hlen.
  assert ((aetherfs_dedup_enable aetherfs_dedup_init mode).2 = DedupInfo mode true 0 0 ∅) as ->.
  { unfold aetherfs_dedup_enable. by rewrite (proj2 (Z.ltb_ge _ _)) by lia. }
  destruct (@calls_refine _ _ _ _ _ dedup_ok (λ _, True) _ dedup_laws (DedupInfo mode true 0 0 ∅) ∅ calls)
    as (s & E & Hok & Hc).
  - split; [split; [done|split; [apply Hmode|done]]|]. intros k' _. cbn. by rewrite multiplicity_empty.
  - by apply Forall_true.
  - rewrite gmultiset_size_empty. lia.
  - exists s. split; [exact E|]. destruct Hok as (He & _ & Ht). specialize (Hc k I). cbn in Hc.
    unfold aetherfs_dedup_resolve. rewrite He. cbn [negb]. cbv zeta.
    destruct (dedup_tree s !! k) as [db|] eqn:Ek; cbn [from_option] in Hc.
    + apply Ht in Ek as [Hr ->]. rewrite decide_False by lia. by rewrite Hc.
    + by rewrite decide_True by lia.
Qed.
End counting.

(** Two blocks with one checksum are taken for one: the second is counted under the block of the
    first, whatever its contents. *)
Lemma dedup_merges_by_checksum s bs b b' checksum mem mem' : dd_enabled s = true →
  DEDUP_MODE_BLOCK ≤ dd_mode s → dedup_tree s !! checksum = None → b ≠ 0 → b' ≠ 0 → mem = true →
  aetherfs_dedup_resolve
    (aetherfs_dedup_block_ref (aetherfs_dedup_block_ref s bs b checksum mem).2 bs b' checksum mem').2
    checksum = Ok (b, 2).
Proof.
  intros He Hm Hn Hb Hb' ->. unfold aetherfs_dedup_block_ref at 2. rewrite He, Hn.
  rewrite (proj2 (Z.eqb_neq _ _)), (proj2 (Z.ltb_ge _ _)) by done. cbn [negb snd].
  unfold aetherfs_dedup_block_ref. rewrite (proj2 (Z.eqb_neq _ _)) by done.
  cbn [set_tree dd_enabled dd_mode dedup_tree]. rewrite He, (proj2 (Z.ltb_ge _ _)), lookup_insert_eq by done.
  cbn [negb snd]. unfold aetherfs_dedup_resolve. cbn [dd_enabled dedup_tree]. by rewrite lookup_insert_eq.
Qed.

(** ** Chunks *)

(** A chunk is the first 4096 bytes at most, or the 47 bytes before a boundary; the minimum and
    the maximum for chunks play no other part. *)
Lemma boundary_loop_cases data size crc i : 0 ≤ i →
  boundary_loop data size crc i = (0, Z.min size AETHERFS_DEDUP_MIN_CHUNK) ∨
  ∃ j, i ≤ j < size - 1 ∧ AETHERFS_DEDUP_MIN_CHUNK ≤ j ∧ boundary_loop data size crc i = (j - 47, 47).
Proof.
  assert ((if size <? AETHERFS_DEDUP_MIN_CHUNK then size else AETHERFS_DEDUP_MIN_CHUNK) =
    Z.min size AETHERFS_DEDUP_MIN_CHUNK) as Hmin.
  { destruct (Z.ltb_spec size AETHERFS_DEDUP_MIN_CHUNK); lia. }
  revert crc i. induction data as [|b data IH]; intros crc i Hi; cbn [boundary_loop].
  - left. by rewrite Hmin.
  - destruct (Z.ltb_spec i (size - 1)) as [Hlt|]; [|left; by rewrite Hmin].
    destruct (_ && _) eqn:E.
    + bool_to_prop. right. exists i. split; [lia|]. split; [done|].
      unfold AETHERFS_CDC_WINDOW_SIZE, AETHERFS_DEDUP_MAX_CHUNK. f_equal; lia.
    + destruct (IH (cdc_step crc b) (i + 1)) as [->|(j & Hj & Hm & ->)]; [lia|by left|].
      right. exists j. split; [lia|done].
Qed.

Lemma cdc_boundary_cases data :
  cdc_find_chunk_boundary data = (0, Z.min (len data) AETHERFS_DEDUP_MIN_CHUNK) ∨
  ∃ j, 4096 ≤ j < len data - 1 ∧ cdc_find_chunk_boundary data = (j - 47, 47).
Proof.
  destruct (boundary_loop_cases data (len data) 0xFFFF 0) as [H|(j & Hj & Hm & H)]; [done|by left|].
  right. exists j. unfold AETHERFS_DEDUP_MIN_CHUNK in Hm. split; [lia|done].
Qed.

Lemma cdc_block_refused s bs checksum mem : aetherfs_dedup_block_ref s bs 0 checksum mem = (Err EINVAL, s).
Proof. done. Qed.

(** The loop ends at the end of the data, at least 4096 bytes further each time. *)
Lemma cdc_loop_covers n s bs mem data offset : 0 ≤ offset ≤ len data → len data - offset ≤ 4096 * Z.of_nat n →
  ∃ refs, cdc_loop n s bs mem data offset = (refs, len data, s) ∧ len refs ≤ Z.of_nat n.
Proof.
  revert offset. induction n as [|n IH]; intros offset Ho Hn; cbn [cdc_loop].
  - exists []. split; [|done]. replace offset with (len data) by lia. done.
  - destruct (Z.leb_spec (len data) offset) as [Hle|Hlt].
    + exists []. replace offset with (len data) by lia. split; [done|]. unfold len. cbn. lia.
    + set (rest := drop (Z.to_nat offset) data).
      assert (len rest = len data - offset) as Hr by (unfold rest, len in *; rewrite length_drop; lia).
      assert (∃ st ln, cdc_find_chunk_boundary rest = (st, ln) ∧ 0 ≤ st ∧ 0 ≤ ln ∧
        st + ln ≤ len rest ∧ (4096 ≤ st + ln ∨ st + ln = len rest)) as (st & ln & -> & Hst & Hln & Hle & Hp).
      { destruct (cdc_boundary_cases rest) as [->|(j & Hj & ->)]; eexists _, _; (split; [reflexivity|]);
          unfold AETHERFS_DEDUP_MIN_CHUNK; lia. }
      rewrite cdc_block_refused.
      destruct (IH (offset + (st + ln))) as (refs & E & Hl); [lia|lia|].
      rewrite E. eexists. split; [reflexivity|]. unfold len in *. cbn [length]. lia.
Qed.

(** Content-defined deduplication records nothing.  The walk over the chunks ends at the end
    of the data when there is room for a chunk every 4096 bytes, and returns their checksums;
    but each block is presented as number 0 and refused, so the state is as before and none of
    the checksums can be resolved that could not be before. *)
Theorem cdc_dedup_records_nothing s bs mem data chunk_count : dd_mode s = DEDUP_MODE_CDC →
  0 < len data → len data ≤ 4096 * chunk_count →
  ∃ refs, aetherfs_cdc_dedup s bs mem data chunk_count = (Ok refs, s) ∧ len refs ≤ chunk_count ∧
    (cdc_loop (Z.to_nat chunk_count) s bs mem data 0).1.2 = len data.
Proof.
  intros Hm Hd Hn. unfold aetherfs_cdc_dedup. rewrite (proj2 (Z.eqb_neq _ _)) by lia.
  rewrite Hm, Z.eqb_refl. cbn [negb].
  destruct (cdc_loop_covers (Z.to_nat chunk_count) s bs mem data 0) as (refs & E & Hl); [lia|lia|].
  rewrite E. exists refs. split; [done|]. split; [lia|done].
Qed.

(** ** Shared extents *)

Section sharing.
Context (AETHERFS_F_SHARED_EXTENT : Z).

Lemma reflink_loop_ends fuel bs len copied flags : 0 < bs → 0 ≤ copied → len ≤ 2 ^ 63 - bs →
  (len - copied ≤ bs * (Z.of_nat fuel - 1)) → (0 < fuel)%nat →
  ∃ f, reflink_loop AETHERFS_F_SHARED_EXTENT fuel bs len copied flags = Some f ∧
    (f = flags ∨ f = flag_set AETHERFS_F_SHARED_EXTENT flags).
Proof.
  revert copied flags. induction fuel as [|fuel IH]; intros copied flags Hbs Hc Hl Hf Hp; [lia|].
  cbn [reflink_loop]. destruct (Z.ltb_spec copied len) as [Hlt|]; [|eauto].
  rewrite u64_small by (unfold is_u64; lia). rewrite (proj2 (Z.ltb_lt _ _)) by lia.
  destruct fuel as [|fuel]; [lia|].
  destruct (IH (copied + bs) (flag_set AETHERFS_F_SHARED_EXTENT flags)) as (f & E & Hf'); [lia..|].
  rewrite E. exists f. split; [done|]. right. destruct Hf' as [->| ->]; [done|].
  unfold flag_set. by rewrite <-Z.lor_assoc, Z.lor_diag.
Qed.

(** A reflink shares nothing.  For every length up to 2^63 less a block the loop over the
    blocks ends, the call succeeds, and all it has done is set flags: size, extent root and
    everything else of the destination are what they were, so it reads as before. *)
Theorem reflink_shares_nothing bs sb dst len preserve : 0 < bs → len ≤ 2 ^ 63 - bs →
  ∃ fuel, ∀ fuel', (fuel ≤ fuel')%nat → ∃ flags,
    aetherfs_reflink AETHERFS_F_SHARED_EXTENT fuel' bs sb sb dst len preserve =
      Some (Ok (set_ei_flags flags dst)) ∧
    ei_extent_root (set_ei_flags flags dst) = ei_extent_root dst ∧
    vi_size (set_ei_flags flags dst) = vi_size dst ∧
    ∀ n, Z.testbit (ei_flags dst) n = true → Z.testbit flags n = true.
Proof.
  intros Hbs Hl. exists (S (S (Z.to_nat len))). intros fuel Hf.
  destruct (reflink_loop_ends fuel bs len 0 (ei_flags dst)) as (f & E & Hf'); [lia|lia|lia|nia|lia|].
  unfold aetherfs_reflink. rewrite Z.eqb_refl. cbn [negb]. rewrite E. cbn [mbind option_bind].
  eexists. split; [reflexivity|]. split; [done|]. split; [done|].
  intros n Hn. assert (Z.testbit f n = true) as Hfn.
  { destruct Hf' as [->| ->]; [done|]. by rewrite flag_set_bit, Hn. }
  destruct preserve; [|done]. by rewrite flag_set_bit, Hfn.
Qed.

(** Beyond that length the position wraps around before it gets there: with blocks of 4096
    bytes the loop never ends. *)
Lemma reflink_loop_diverges fuel len copied flags : 2 ^ 63 - 4096 < len → (4096 | copied) →
  - 2 ^ 63 ≤ copied < 2 ^ 63 →
  reflink_loop AETHERFS_F_SHARED_EXTENT fuel 4096 len copied flags = None.
Proof.
  intros Hl. revert copied flags. induction fuel as [|fuel IH]; intros copied flags [q Hq] Hr; [done|].
  cbn [reflink_loop]. rewrite (proj2 (Z.ltb_lt _ _)) by lia.
  apply IH.
  - unfold u64. destruct (decide (0 ≤ copied + 4096 < 2 ^ 64)).
    + rewrite Z.mod_small by done. destruct (_ <? _).
      * exists (q + 1). lia.
      * exists (q + 1 - 2 ^ 52). lia.
    + replace ((copied + 4096) mod 2 ^ 64) with (copied + 4096 + 2 ^ 64).
      2: { apply (Z.mod_unique_pos _ _ (-1)); lia. }
      destruct (_ <? _); [exists (q + 1 + 2 ^ 52)|exists (q + 1)]; lia.
  - pose proof (u64_range (copied + 4096)) as Hu. unfold is_u64 in Hu.
    destruct (Z.ltb_spec (u64 (copied + 4096)) (2 ^ 63)); lia.
Qed.
End sharing.

(** ** Witnesses *)

(** Checksum 7 is counted; the block with checksum 0 is counted and stays. *)
Lemma dedup_refines_multiset_witness :
  let calls := [AddRef true 7; AddRef false 8; AddRef true 7; AddRef true 0; DropRef 7; DropRef 0] in
  ∃ s, run_calls (@ref_step _ _ (dedup_store 4096 (λ _, 5))) (aetherfs_dedup_enable aetherfs_dedup_init DEDUP_MODE_CDC).2 calls =
      ([Ok tt; Err ENOMEM; Ok tt; Ok tt; Ok tt; Err EINVAL], s) ∧
    aetherfs_dedup_resolve s 7 = Ok (5, 1) ∧ aetherfs_dedup_resolve s 0 = Ok (5, 1).
Proof.
  intros calls. destruct (dedup_refines_multiset 4096 (λ _, 5) ltac:(done) DEDUP_MODE_CDC calls 7) as (s & E & H7).
  - by vm_compute.
  - by vm_compute.
  - destruct (dedup_refines_multiset 4096 (λ _, 5) ltac:(done) DEDUP_MODE_CDC calls 0) as (s' & E' & H0).
    + by vm_compute.
    + by vm_compute.
    + rewrite E in E'. injection E' as <-. exists s. split; [rewrite E; by vm_compute|].
      rewrite H7, H0. split; by vm_compute.
Defined.

Lemma cdc_dedup_records_nothing_witness :
  let s := (aetherfs_dedup_enable aetherfs_dedup_init DEDUP_MODE_CDC).2 in
  ∃ refs, aetherfs_cdc_dedup s 4096 true (replicate 100 65) 1 = (Ok refs, s).
Proof.
  intros s. destruct (cdc_dedup_records_nothing s 4096 true (replicate 100 65) 1) as (refs & E & _).
  - by vm_compute.
  - by vm_compute.
  - by vm_compute.
  - by exists refs.
Defined.

Lemma reflink_shares_nothing_witness :
  let dst := VfsInode 12 0x81A4 0 0 1 0 0 0 0 0 0 0 0 in
  ∃ fuel, ∀ fuel', (fuel ≤ fuel')%nat → ∃ flags,
    aetherfs_reflink 256 fuel' 4096 1 1 dst 10000 false = Some (Ok (set_ei_flags flags dst)).
Proof.
  intros dst. destruct (reflink_shares_nothing 256 4096 1 dst 10000 false) as [fuel H]; [done|by vm_compute|].
  exists fuel. intros fuel' Hf. destruct (H fuel' Hf) as (flags & E & _). by exists flags.
Defined.
