(* ===== verification/InlineData.v ===== *)
(** * File data inside the inode

    [kernel/inline.c], and the inline files of [kernel/dense.c].  Both take the block whose
    number is the inode number for the inode, and copy the data to [i_inline] at byte 144 of
    it; [None] is an access outside the buffer of the block. *)

From S2P Require Import Prelude Codec Crc Btree Balloc Struct KernelHeader Invariants Super VfsInode.

Definition AETHERFS_INLINE_FILE_MAX : Z := 4096.
Definition kernel_MAX_INLINE : Z := 4096.
Definition kernel_MAX_SYMLINK : Z := 256.

(** [memcpy(b_data + off, new, sizeof new)] and back, within the buffer. *)
Definition copy_in (off : Z) (new data : bytes) : option bytes :=
  if len data <? off + len new then None else Some (splice off new data).
Definition copy_out (off n : Z) (data : bytes) : option bytes :=
  if len data <? off + n then None else Some (slice off n data).

(** [aetherfs_checksum_metadata]: 508 bytes of the inode, its checksum among them. *)
Definition aetherfs_checksum_metadata (raw : bytes) : Z := kernel_aetherfs_crc32 (slice 0 (512 - 4) raw).

(** The block an inode operation works on. *)
Definition inode_block (st : fs_state) (i : inode) : option bytes := fs_disk st !! vi_ino i.
Definition put_inode_block (st : fs_state) (i : inode) (raw : bytes) : fs_state :=
  FsState (<[vi_ino i := raw]> (fs_disk st)) (fs_sb st).

(** ** [kernel/inline.c] *)

(** The result, the file system and the inode in memory. *)
Definition aetherfs_write_inline (st : fs_state) (i : inode) (data : bytes)
    : option (result unit * fs_state * inode) :=
  if kernel_MAX_INLINE - 100 <? len data then Some (Err ENOSPC, st, i)
  else match inode_block st i with
  | None => Some (Err EIO, st, i)
  | Some raw =>
      let raw := put f_i_inline_len (len data) raw in
      let raw := put f_i_flags (flag_set kernel_F_INLINE (get f_i_flags raw)) raw in
      raw ← copy_in (f_off f_i_inline) data raw;
      let raw := put f_i_checksum (aetherfs_checksum_metadata raw) raw in
      Some (Ok tt, put_inode_block st i raw, set_vi_size (len data) i)
  end.

(** What is copied to the caller's buffer of [size] bytes: it may be more than that. *)
Definition aetherfs_read_inline (st : fs_state) (i : inode) (size : Z) : option (result bytes) :=
  if negb (flag_test kernel_F_INLINE (ei_flags i)) then Some (Err EINVAL)
  else match inode_block st i with
  | None => Some (Err EIO)
  | Some raw =>
      let inline_len := get f_i_inline_len raw in
      if kernel_MAX_INLINE - 100 <? inline_len then Some (Err EIO)
      else Ok <$> copy_out (f_off f_i_inline) (if size <? inline_len then inline_len else size) raw
  end.

(** The data goes to a new block; the flag of the inode in memory stays. [stale] is what a buffer
    that was not read holds. *)
Definition aetherfs_convert_inline (st : fs_state) (sb : aetherfs_sb_info) (i : inode) (stale : Z → bytes)
    : option (result unit * fs_state * aetherfs_sb_info) :=
  if negb (flag_test kernel_F_INLINE (ei_flags i)) then Some (Ok tt, st, sb)
  else if kernel_MAX_INLINE - 100 <? vi_size i then Some (Err ENOSPC, st, sb)
  else match inode_block st i with
  | None => Some (Err EIO, st, sb)
  | Some raw =>
      let '(block, sb) := aetherfs_alloc_blocks sb 1 in
      if block =? 0 then Some (Err ENOSPC, st, sb)
      else
        inline_data ← copy_out (f_off f_i_inline) (get f_i_inline_len raw) raw;
        data ← copy_in 0 inline_data (default (stale block) (fs_disk st !! block));
        let st := FsState (<[block := data]> (fs_disk st)) (fs_sb st) in
        let raw := put f_i_flags (flag_clear kernel_F_INLINE (get f_i_flags raw)) raw in
        let raw := put f_i_extent_root block raw in
        Some (Ok tt, put_inode_block st i raw, sb)
  end.

Definition aetherfs_should_inline (i : inode) (size : Z) : bool :=
  kernel_S_ISDIR (vi_mode i) || (S_ISLNK (vi_mode i) && (size <? kernel_MAX_SYMLINK)) ||
  (kernel_S_ISREG (vi_mode i) && (size <=? kernel_MAX_INLINE)).

(** The block the buffer is mapped to and its size. *)
Definition aetherfs_get_block_inline (i : inode) : Z * Z := (0, vi_size i).

(** ** Inline files of [kernel/dense.c] *)

Definition aetherfs_should_store_inline (i : inode) (size : Z) : bool :=
  kernel_S_ISREG (vi_mode i) && (size <=? AETHERFS_INLINE_FILE_MAX).

(** The checksum is stored behind the data. *)
Definition aetherfs_write_inline_file (st : fs_state) (i : inode) (data : bytes)
    : option (result unit * fs_state * inode) :=
  if AETHERFS_INLINE_FILE_MAX <? len data then Some (Err EINVAL, st, i)
  else match inode_block st i with
  | None => Some (Err EIO, st, i)
  | Some raw =>
      let raw := put f_i_flags (flag_set kernel_F_INLINE (get f_i_flags raw)) raw in
      let raw := put f_i_inline_len (len data) raw in
      raw ← copy_in (f_off f_i_inline) data raw;
      let checksum := kernel_aetherfs_crc32c AETHERFS_CRC_SEED data in
      raw ← copy_in (f_off f_i_inline + len data) (le_bytes 4 checksum) raw;
      Some (Ok tt, put_inode_block st i raw, set_vi_size (len data) i)
  end.

Definition aetherfs_read_inline_file (st : fs_state) (i : inode) : option (result bytes) :=
  if negb (flag_test kernel_F_INLINE (ei_flags i)) then Some (Err EINVAL)
  else match inode_block st i with
  | None => Some (Err EIO)
  | Some raw =>
      let inline_len := get f_i_inline_len raw in
      if AETHERFS_INLINE_FILE_MAX <? inline_len then Some (Err EIO)
      else
        data ← copy_out (f_off f_i_inline) inline_len raw;
        stored ← copy_out (f_off f_i_inline + inline_len) 4 raw;
        if negb (le_val stored =? kernel_aetherfs_crc32c AETHERFS_CRC_SEED data)
        then Some (Err EUCLEAN) else Some (Ok data)
  end.

(** ** Properties *)

Lemma copy_in_spec off new data : 0 ≤ off → off + len new ≤ len data →
  ∃ data', copy_in off new data = Some data' ∧ len data' = len data ∧ slice off (len new) data' = new ∧
    ∀ o n, 0 ≤ o → 0 ≤ n → o + n ≤ off ∨ off + len new ≤ o → slice o n data' = slice o n data.
Proof.
  intros Ho Hl. unfold copy_in. rewrite (proj2 (Z.ltb_ge _ _)) by lia. eexists. split; [reflexivity|].
  split; [apply len_splice; lia|]. split; [apply slice_splice_eq; lia|].
  intros o n H0 Hn [H|H]; [apply slice_splice_before|apply slice_splice_after]; lia.
Qed.

Lemma copy_in_inside off new data : off + len new ≤ len data → copy_in off new data = Some (splice off new data).
Proof. intros H. unfold copy_in. by rewrite (proj2 (Z.ltb_ge _ _)). Qed.

Lemma copy_in_outside off new data : len data < off + len new → copy_in off new data = None.
Proof. intros H. unfold copy_in. by rewrite (proj2 (Z.ltb_lt _ _)). Qed.

Lemma copy_out_inside off n data : off + n ≤ len data → copy_out off n data = Some (slice off n data).
Proof. intros H. unfold copy_out. by rewrite (proj2 (Z.ltb_ge _ _)) by lia. Qed.

Lemma inode_block_put st i raw size : inode_block (put_inode_block st i raw) (set_vi_size size i) = Some raw.
Proof. apply lookup_insert_eq. Qed.

(** The fields of the header lie before [i_inline]. *)
Lemma get_slices f data data' : slice (f_off f) (f_len f) data' = slice (f_off f) (f_len f) data →
  get f data' = get f data.
Proof. intros H. unfold get. by rewrite H. Qed.

Lemma header_inside f (raw : bytes) : f ∈ [f_i_flags; f_i_inline_len; f_i_checksum; f_i_extent_root] →
  144 ≤ len raw → inside f raw ∧ f_off f + f_len f ≤ 144 ∧ 0 ≤ f_off f ∧ 0 ≤ f_len f.
Proof.
  intros Hf Hl. rewrite !elem_of_cons in Hf. unfold inside.
  destruct Hf as [->|[->|[->|[->|[]%elem_of_nil]]]]; cbn; lia.
Qed.

(** C38: what an inline write does, by its size.  Up to 3948 bytes the write succeeds, and a read
    gives the data back if the inode in memory has the inline flag, which the write itself
    does not set, and fails with [EINVAL] otherwise; from 3949 to the allowed 4096 bytes the
    write leaves the block. *)
Theorem inline_file_outcomes st i raw data : inode_block st i = Some raw → len raw = 4096 →
  is_bytes data →
  (len data ≤ 3948 → ∃ st', aetherfs_write_inline_file st i data = Some (Ok tt, st', set_vi_size (len data) i) ∧
     aetherfs_read_inline_file st' (set_vi_size (len data) i) =
       Some (if flag_test kernel_F_INLINE (ei_flags i) then Ok data else Err EINVAL)) ∧
  (3948 < len data ≤ 4096 → aetherfs_write_inline_file st i data = None).
Proof.
  intros Hb Hl Hd. pose proof (len_nonneg data) as Hn.
  destruct (header_inside f_i_flags raw) as [I1 _]; [by left|lia|].
  set (r1 := put f_i_flags (flag_set kernel_F_INLINE (get f_i_flags raw)) raw).
  assert (len r1 = 4096) as L1 by (unfold r1; by rewrite len_put).
  destruct (header_inside f_i_inline_len r1) as [I2 _]; [by right; left|lia|].
  set (r2 := put f_i_inline_len (len data) r1).
  assert (len r2 = 4096) as L2 by (unfold r2; by rewrite len_put).
  assert (∀ v, is_u32 v → len (le_bytes 4 v) = 4) as L4 by (intros; unfold len; by rewrite length_le_bytes).
  pose proof (kernel_crc_range AETHERFS_CRC_SEED data ltac:(unfold AETHERFS_CRC_SEED; lia) Hd) as Hc.
  unfold aetherfs_write_inline_file. rewrite Hb. change (f_off f_i_inline) with 144. fold r1. fold r2. split.
  - intros Hs. rewrite (proj2 (Z.ltb_ge _ _)) by (unfold AETHERFS_INLINE_FILE_MAX; lia).
    destruct (copy_in_spec 144 data r2) as (r3 & -> & L3 & S3 & O3); [lia|lia|]. cbn [mbind option_bind].
    destruct (copy_in_spec (144 + len data) (le_bytes 4 (kernel_aetherfs_crc32c AETHERFS_CRC_SEED data)) r3)
      as (r4 & -> & L5 & S4 & O4); [lia|rewrite L4; (done || lia)|]. cbn [mbind option_bind].
    rewrite L4 in S4, O4 by done.
    eexists. split; [reflexivity|]. unfold aetherfs_read_inline_file. rewrite inode_block_put.
    cbn [set_vi_size ei_flags]. destruct (flag_test _ _); cbn [negb]; [|done].
    assert (get f_i_inline_len r4 = len data) as ->.
    { transitivity (get f_i_inline_len r2).
      - apply get_slices. cbn [f_i_inline_len f_off f_len]. rewrite O4, O3; [done|lia..].
      - apply get_put; [done|]. change (le_range _ _) with (is_u32 (len data)). unfold is_u32. lia. }
    change (f_off f_i_inline) with 144.
    rewrite (proj2 (Z.ltb_ge _ _)) by (unfold AETHERFS_INLINE_FILE_MAX; lia).
    rewrite copy_out_inside by lia. cbn [mbind option_bind]. rewrite copy_out_inside by lia. cbn [mbind option_bind].
    rewrite S4, O4, S3 by lia. rewrite le_val_bytes by exact Hc. by rewrite Z.eqb_refl.
  - intros Hs. rewrite (proj2 (Z.ltb_ge _ _)) by (unfold AETHERFS_INLINE_FILE_MAX; lia).
    destruct (decide (len data ≤ 3952)).
    + destruct (copy_in_spec 144 data r2) as (r3 & -> & L3 & _); [lia|lia|]. cbn [mbind option_bind].
      rewrite copy_in_outside; [done|]. rewrite L4 by done. lia.
    + by rewrite copy_in_outside by lia.
Qed.

(** [aetherfs_read_inline] copies the whole of a file to a caller who asked for less. *)
Lemma read_inline_overruns st i raw size : inode_block st i = Some raw → len raw = 4096 →
  flag_test kernel_F_INLINE (ei_flags i) = true → 0 ≤ size < get f_i_inline_len raw →
  get f_i_inline_len raw ≤ 3952 →
  ∃ data, aetherfs_read_inline st i size = Some (Ok data) ∧ size < len data.
Proof.
  intros Hb Hl Hf Hs Hm. unfold aetherfs_read_inline. rewrite Hf, Hb. cbn [negb].
  rewrite (proj2 (Z.ltb_ge _ _)) by (unfold kernel_MAX_INLINE; lia). rewrite (proj2 (Z.ltb_lt _ _)) by lia.
  change (f_off f_i_inline) with 144. rewrite copy_out_inside by lia. cbn [fmap option_fmap option_map].
  eexists. split; [reflexivity|]. rewrite len_slice; lia.
Qed.

Lemma inline_file_outcomes_witness :
  let st := FsState {[7 := zeros 4096]} (FsInfo 4096 12 0 1 100 100 11 0 false) in
  let i := VfsInode 7 0x81A4 0 0 1 0 0 0 0 0 0 0 0 in
  (∃ st', aetherfs_write_inline_file st i [1; 2; 3] = Some (Ok tt, st', set_vi_size 3 i) ∧
     aetherfs_read_inline_file st' (set_vi_size 3 i) = Some (Err EINVAL)) ∧
  aetherfs_write_inline_file st i (zeros 3949) = None.
Proof.
  intros st i. split.
  - destruct (inline_file_outcomes st i (zeros 4096) [1; 2; 3]) as [H _].
    + reflexivity.
    + by vm_compute.
    + by repeat constructor.
    + apply H. by vm_compute.
  - apply (inline_file_outcomes st i (zeros 4096) (zeros 3949)).
    + reflexivity.
    + by vm_compute.
    + apply is_bytes_zeros.
    + by vm_compute.
Defined.
