(* ===== verification/Dense.v ===== *)
(** * Dense packing

    [kernel/dense.c], less its inline files (see InlineData): packed tails, packed extended
    attributes, symbolic links, the caches, and the deduplication of small metadata in hash
    chains, which implements the contract of RefCount.  [None] is an access outside a buffer. *)

From S2P Require Import Prelude Codec Crc Btree Balloc RefCount Struct KernelHeader Invariants Super VfsInode InlineData.
From stdpp Require Import strings gmultiset list.
Local Open Scope Z_scope.

Definition AETHERFS_TAIL_PACKING_MIN : Z := 512.
Definition AETHERFS_SYMLINK_INLINE_MAX : Z := 256.
Definition AETHERFS_DEDUP_HASH_SIZE : Z := 4096.
Definition TAIL_MAGIC : Z := 0x5441494C.

Definition struct_aetherfs_tail_packed : cstruct := CStruct false [
  ("tp_magic", __le32); ("tp_size", __le32); ("tp_orig_offset", __le32);
  ("tp_checksum", __le32); ("tp_data", CArray 0 1 1)].


Definition f_tp_magic : field := Eval vm_compute in field_of struct_aetherfs_tail_packed "tp_magic".
Definition f_tp_size : field := Eval vm_compute in field_of struct_aetherfs_tail_packed "tp_size".
Definition f_tp_orig_offset : field := Eval vm_compute in field_of struct_aetherfs_tail_packed "tp_orig_offset".
Definition f_tp_checksum : field := Eval vm_compute in field_of struct_aetherfs_tail_packed "tp_checksum".

(** [sizeof(struct aetherfs_tail_packed)], [sizeof(struct aetherfs_packed_xattr)] *)
Definition tail_header : Z := 16.

(** ** Caches *)

(** A static pointer to a cache: null, to a cache, or to one that was destroyed. *)
Inductive cache := NoCache | Cache | Freed.

Record small_caches := SmallCaches {
  inline_data_cache : cache;
  xattr_cache : cache;
  dedup_cache : cache;
}.

(** [memory] says which of the three caches can be made. *)
Definition aetherfs_small_file_init (memory : bool * bool * bool) : result unit * small_caches :=
  let '(m1, m2, m3) := memory in
  if negb m1 then (Err ENOMEM, SmallCaches NoCache NoCache NoCache)
  else if negb m2 then (Err ENOMEM, SmallCaches Freed NoCache NoCache)
  else if negb m3 then (Err ENOMEM, SmallCaches Freed Freed NoCache)
  else (Ok tt, SmallCaches Cache Cache Cache).

(** [None] frees a cache twice: a pointer that is not null is freed, and is never cleared. *)
Definition destroy_cache (c : cache) : option cache :=
  match c with NoCache => Some NoCache | Cache => Some Freed | Freed => None end.

Definition aetherfs_small_file_exit (s : small_caches) : option small_caches :=
  c1 ← destroy_cache (inline_data_cache s);
  c2 ← destroy_cache (xattr_cache s);
  c3 ← destroy_cache (dedup_cache s);
  Some (SmallCaches c1 c2 c3).

(** ** Tails *)

(** The buffer of a new block: what it holds if the block was never read is [stale]. *)
Definition sb_getblk_at (st : fs_state) (stale : Z → bytes) (block : Z) : bytes :=
  default (stale block) (fs_disk st !! block).

(** The checksum field is among the bytes summed, and is not cleared before.  [got] is whether
    the buffer could be had. *)
Definition aetherfs_tail_pack (st : fs_state) (sb : aetherfs_sb_info) (s_blocksize : Z) (stale : Z → bytes)
    (got : bool) (offset : Z) (data : bytes) : option (result unit * fs_state * aetherfs_sb_info) :=
  let n := len data in
  if n =? 0 then Some (Err EINVAL, st, sb)
  else if n <? AETHERFS_TAIL_PACKING_MIN then Some (Err EINVAL, st, sb)
  else if s_blocksize - tail_header <? n then Some (Err EINVAL, st, sb)
  else
    let '(block, sb) := aetherfs_alloc_blocks sb 1 in
    if block =? 0 then Some (Err ENOSPC, st, sb)
    else if negb got then Some (Err EIO, st, aetherfs_free_blocks sb block 1)
    else
      let tail := sb_getblk_at st stale block in
      let tail := put f_tp_magic TAIL_MAGIC tail in
      let tail := put f_tp_size n tail in
      let tail := put f_tp_orig_offset (u32 offset) tail in
      tail ← copy_in tail_header data tail;
      let tail := put f_tp_checksum (kernel_sum (tail_header + n - 4) tail) tail in
      Some (Ok tt, FsState (<[block := tail]> (fs_disk st)) (fs_sb st), sb).

(** The part that follows the lookup. *)
Definition read_tail (s_blocksize : Z) (tail : bytes) : option (result bytes) :=
  if negb (get f_tp_magic tail =? TAIL_MAGIC) then Some (Err EIO)
  else
    let n := get f_tp_size tail in
    if s_blocksize - tail_header <? n then Some (Err EIO)
    else
      let stored_checksum := get f_tp_checksum tail in
      let cleared := put f_tp_checksum 0 tail in
      if negb (stored_checksum =? kernel_sum (tail_header + n - 4) cleared) then Some (Err EUCLEAN)
      else Ok <$> copy_out tail_header n tail.

(** The tree that is searched is the null pointer. *)
Definition aetherfs_tail_unpack (st : fs_state) (s_blocksize : Z) (stale : Z → bytes) (got : bool)
    (i_ino offset : Z) : option (result bytes) :=
  found ← aetherfs_btree_lookup_extent None i_ino offset;
  match found with
  | Err _ => Some (Err ENOENT)
  | Ok (block, _) =>
      if block =? 0 then Some (Err ENOENT)
      else if negb got then Some (Err EIO)
      else read_tail s_blocksize (sb_getblk_at st stale block)
  end.

Definition aetherfs_is_tail_packing_worth (tail_size block_size : Z) : bool :=
  let overhead := tail_header in
  let saved := u32 (block_size - u32 (tail_size + overhead)) in
  block_size / 8 <=? saved.

(** ** Extended attributes *)



(** ** Symbolic links *)

(** The target is not stored. *)
Definition aetherfs_symlink_inline (i : inode) (target : bytes) : result unit * inode :=
  if AETHERFS_SYMLINK_INLINE_MAX <? len target then (Err ENAMETOOLONG, i)
  else
    (Ok tt, VfsInode (vi_ino i) (vi_mode i) (vi_uid i) (vi_gid i) (vi_nlink i) (len target) 0
      (vi_atime i) (vi_ctime i) (vi_mtime i) (vi_flags i) (flag_set kernel_F_INLINE (ei_flags i))
      (ei_extent_root i)).

Definition aetherfs_symlink_read (i : inode) : result bytes :=
  if flag_test kernel_F_INLINE (ei_flags i) then
    if AETHERFS_SYMLINK_INLINE_MAX <? vi_size i then Err EIO else Err EOPNOTSUPP
  else Err EOPNOTSUPP.

(** ** Deduplication of metadata *)

Record aetherfs_dedup_entry := DedupEntry {
  de_hash : Z;
  de_refcount : Z;
  de_size : Z;
  de_checksum : Z;
  de_first_ino : Z;
  de_data : bytes;
}.

(** [dedup_hash_table]: a chain of entries under a hash; a bucket without one is null. *)
Definition dedup_table := gmap Z (list aetherfs_dedup_entry).

Definition chain (t : dedup_table) (hash : Z) : list aetherfs_dedup_entry := default [] (t !! hash).

Definition dedup_hash (data : bytes) : Z :=
  Z.land (kernel_aetherfs_crc32c AETHERFS_CRC_SEED data) (AETHERFS_DEDUP_HASH_SIZE - 1).

Definition is_entry (data : bytes) (e : aetherfs_dedup_entry) : bool :=
  (de_size e =? len data) && bool_decide (de_data e = data).

(** The walk down a chain to the first entry with the data, and what becomes of that entry:
    [None] unlinks it. *)
Fixpoint find_entry (data : bytes) (entries : list aetherfs_dedup_entry) : option aetherfs_dedup_entry :=
  match entries with
  | [] => None
  | e :: entries => if is_entry data e then Some e else find_entry data entries
  end.

Fixpoint update_entry (data : bytes) (f : aetherfs_dedup_entry → option aetherfs_dedup_entry)
    (entries : list aetherfs_dedup_entry) : list aetherfs_dedup_entry :=
  match entries with
  | [] => []
  | e :: entries =>
      if is_entry data e then match f e with Some e => e :: entries | None => entries end
      else e :: update_entry data f entries
  end.

Definition set_de_refcount (n : Z) (e : aetherfs_dedup_entry) : aetherfs_dedup_entry :=
  DedupEntry (de_hash e) (u32 n) (de_size e) (de_checksum e) (de_first_ino e) (de_data e).

(** A new entry; its checksum covers the header and all but four bytes of the data, and nothing
    checks it. *)
Definition new_entry (hash i_ino : Z) (data : bytes) : aetherfs_dedup_entry :=
  DedupEntry hash 1 (len data)
    (kernel_aetherfs_crc32c AETHERFS_CRC_SEED (slice 0 (32 + len data - 4)
      (le_bytes 4 hash ++ le_bytes 4 1 ++ le_bytes 4 (len data) ++ le_bytes 4 0 ++ le_bytes 8 i_ino ++
       le_bytes 8 0 ++ data)))
    i_ino data.

(** [memory] is whether an entry can be made. *)
Definition aetherfs_dedup_metadata (t : dedup_table) (i_ino : Z) (memory : bool) (data : bytes)
    : result unit * dedup_table :=
  if (len data =? 0) || (128 <? len data) then (Err EINVAL, t)
  else
    let hash := dedup_hash data in
    match find_entry data (chain t hash) with
    | Some _ => (Ok tt, <[hash := update_entry data (λ e, Some (set_de_refcount (de_refcount e + 1) e)) (chain t hash)]> t)
    | None =>
        if negb memory then (Err ENOMEM, t)
        else (Ok tt, <[hash := new_entry hash i_ino data :: chain t hash]> t)
    end.

(** The data found is the data asked for. *)
Definition aetherfs_dedup_resolve (t : dedup_table) (data : bytes) : result bytes :=
  if len data =? 0 then Err EINVAL
  else match find_entry data (chain t (dedup_hash data)) with
  | Some e => Ok (slice 0 (len data) (de_data e))
  | None => Err ENOENT
  end.

Definition aetherfs_dedup_release (t : dedup_table) (data : bytes) : result unit * dedup_table :=
  if len data =? 0 then (Err EINVAL, t)
  else
    let hash := dedup_hash data in
    match find_entry data (chain t hash) with
    | Some _ =>
        (Ok tt, <[hash := update_entry data (λ e,
           let refs := u32 (de_refcount e - 1) in
           if refs =? 0 then None else Some (set_de_refcount refs e)) (chain t hash)]> t)
    | None => (Err ENOENT, t)
    end.

(** ** Properties of the caches, the tails and the links *)

Definition live_cache (c : cache) : bool := match c with Cache => true | _ => false end.

(** Initialisation leaves all the caches or none, and what it left can be destroyed once, but
    not twice. *)
Lemma small_file_caches memory :
  let '(r, s) := aetherfs_small_file_init memory in
  Forall (λ c, live_cache c = bool_decide (r = Ok tt)) [inline_data_cache s; xattr_cache s; dedup_cache s] ∧
  (r = Ok tt → ∃ s', aetherfs_small_file_exit s = Some s' ∧ aetherfs_small_file_exit s' = None).
Proof. destruct memory as [[[] []] []]; cbn; (split; [by repeat constructor|intros H]); try discriminate H. by eexists. Qed.

(** A link is never read back. *)
Lemma symlink_not_readable i target i' : aetherfs_symlink_inline i target = (Ok tt, i') →
  vi_size i' = len target ∧ aetherfs_symlink_read i' = Err EOPNOTSUPP.
Proof.
  unfold aetherfs_symlink_inline, aetherfs_symlink_read. destruct (_ <? _) eqn:E; [discriminate|].
  intros [= <-]. cbn [ei_flags vi_size]. rewrite E. split; [done|]. by destruct (flag_test _ _).
Qed.

(** A tail that does not fit with its header counts as worth packing. *)
Lemma tail_worth_iff tail block : 0 ≤ tail → tail + 16 < 2 ^ 32 → 0 ≤ block < 2 ^ 32 →
  aetherfs_is_tail_packing_worth tail block = true ↔
  tail + 16 + block / 8 ≤ block ∨ block < tail + 16 ≤ block + 2 ^ 32 - block / 8.
Proof.
  intros Ht Hs Hb. unfold aetherfs_is_tail_packing_worth, tail_header. rewrite Z.leb_le.
  rewrite (u32_small (tail + 16)) by (unfold is_u32; lia).
  pose proof (Z.div_le_upper_bound block 8 block ltac:(lia) ltac:(lia)). pose proof (Z.div_pos block 8 ltac:(lia) ltac:(lia)).
  destruct (decide (tail + 16 ≤ block)).
  - rewrite u32_small by (unfold is_u32; lia). lia.
  - unfold u32. rewrite <-(Z.mod_unique (block - (tail + 16)) (2 ^ 32) (-1) (block - (tail + 16) + 2 ^ 32)); lia.
Qed.






(** ** Counting references to metadata *)

Section chains.
(** The inode the data is presented for. *)
Context (i_ino : Z).

#[local] Instance metadata_store : RefStore dedup_table bytes := {
  ref_count t data := from_option de_refcount 0 (find_entry data (chain t (dedup_hash data)));
  ref_step t c := match c with
    | AddRef mem data => aetherfs_dedup_metadata t i_ino mem data
    | DropRef data => aetherfs_dedup_release t data
    end;
}.

(** A chain: entries of its hash, one for each data, with as many bytes as they say. *)
Definition entry_ok (h : Z) (e : aetherfs_dedup_entry) : Prop :=
  dedup_hash (de_data e) = h ∧ de_size e = len (de_data e) ∧ 1 ≤ de_refcount e ≤ UINT32_MAX.
Definition chain_ok (h : Z) (l : list aetherfs_dedup_entry) : Prop :=
  Forall (entry_ok h) l ∧ NoDup (de_data <$> l).
Definition table_ok (t : dedup_table) : Prop := ∀ h, chain_ok h (chain t h).

Definition small_data (data : bytes) : Prop := 0 < len data ≤ 128.

Lemma is_entry_iff h data e : entry_ok h e → is_entry data e = true ↔ de_data e = data.
Proof.
  intros (_ & Hs & _). unfold is_entry. rewrite andb_true_iff, Z.eqb_eq, bool_decide_eq_true, Hs.
  split; [by intros []|by intros ->].
Qed.

Lemma find_entry_Some h data l e : chain_ok h l → find_entry data l = Some e → entry_ok h e ∧ de_data e = data.
Proof.
  intros [Hl _]. induction Hl as [|x l Hx _ IH]; [done|]. cbn [find_entry].
  destruct (is_entry data x) eqn:E; [|exact IH]. intros [= <-]. split; [done|]. by apply (is_entry_iff h).
Qed.

Lemma find_entry_None h data l : chain_ok h l → find_entry data l = None ↔ data ∉ de_data <$> l.
Proof.
  intros [Hl _]. induction Hl as [|x l Hx _ IH]; cbn [find_entry fmap list_fmap]; [split; [set_solver|done]|].
  pose proof (is_entry_iff h data x Hx) as Hi. rewrite not_elem_of_cons, <-IH.
  destruct (is_entry data x); [split; [done|intros [Hne _]; by destruct Hne; symmetry; apply Hi]|].
  split; [intros H; split; [intros ->; by apply Bool.diff_false_true, Hi|done]|tauto].
Qed.

(** An update of the entry found leaves the others alone. *)
Lemma update_entry_spec h data f l : chain_ok h l →
  (∀ e e', find_entry data l = Some e → f e = Some e' → entry_ok h e' ∧ de_data e' = de_data e) →
  chain_ok h (update_entry data f l) ∧
  (∀ d, d ∈ de_data <$> update_entry data f l → d ∈ de_data <$> l) ∧
  ∀ d, find_entry d (update_entry data f l) =
    if decide (d = data) then find_entry data l ≫= f else find_entry d l.
Proof.
  intros [Hl Hn] Hf. induction Hl as [|x l Hx Hl IH]; cbn [update_entry].
  { split; [by split|]. split; [done|]. intros d. by destruct (decide _). }
  cbn [fmap list_fmap] in Hn. apply NoDup_cons in Hn as [Hnx Hn]. cbn [find_entry] in *.
  pose proof (is_entry_iff h data x Hx) as Hi. destruct (is_entry data x) eqn:E.
  - assert (de_data x = data) as Hd by by apply Hi. destruct (f x) as [x'|] eqn:Ef.
    + destruct (Hf _ _ eq_refl Ef) as [Hx' Hd']. split; [split; [by constructor|cbn [fmap list_fmap]; rewrite Hd'; by constructor]|].
      split; [intros d; cbn [fmap list_fmap]; by rewrite Hd'|]. intros d. cbn [find_entry].
      pose proof (is_entry_iff h d x Hx) as H1. pose proof (is_entry_iff h d x' Hx') as H2.
      rewrite Hd', Hd in H2. rewrite Hd in H1. destruct (decide (d = data)) as [->|Hne].
      * rewrite (proj2 H2) by done. cbn. by rewrite Ef.
      * destruct (is_entry d x'); [by destruct Hne; symmetry; apply H2|].
        destruct (is_entry d x); [by destruct Hne; symmetry; apply H1|done].
    + split; [by split|]. split; [intros d H; by right|]. intros d. cbn [find_entry].
      pose proof (is_entry_iff h d x Hx) as H1. rewrite Hd in H1. destruct (decide (d = data)) as [->|Hne].
      * cbn. rewrite Ef. apply (find_entry_None h); [by split|]. by rewrite <-Hd.
      * destruct (is_entry d x); [by destruct Hne; symmetry; apply H1|done].
  - destruct (IH Hn Hf) as ([IHl IHn] & IHs & IHf).
    split; [split; [by constructor|cbn [fmap list_fmap]; constructor; [naive_solver|done]]|].
    split; [intros d; cbn [fmap list_fmap]; rewrite !elem_of_cons; naive_solver|].
    intros d. cbn [find_entry]. destruct (decide (d = data)) as [->|Hne].
    + by rewrite ?E, IHf, decide_True.
    + by rewrite IHf, decide_False.
Qed.
Lemma chain_insert t h l h' : chain (<[h := l]> t) h' = if decide (h' = h) then l else chain t h'.
Proof.
  unfold chain, dedup_table in *. destruct (decide (h' = h)) as [->|Hne]; [by rewrite lookup_insert_eq|by rewrite lookup_insert_ne].
Qed.

Lemma table_ok_insert t h l : table_ok t → chain_ok h l → table_ok (<[h := l]> t).
Proof. intros Ht Hl h'. rewrite chain_insert. destruct (decide (h' = h)) as [->|]; [done|apply Ht]. Qed.

Lemma set_refcount_ok h n e : entry_ok h e → 1 ≤ n ≤ UINT32_MAX →
  entry_ok h (set_de_refcount n e) ∧ de_data (set_de_refcount n e) = de_data e ∧
  de_refcount (set_de_refcount n e) = n.
Proof.
  intros (H1 & H2 & H3) Hn. unfold set_de_refcount, entry_ok. cbn.
  rewrite u32_small by (unfold is_u32, UINT32_MAX in *; lia). done.
Qed.

Lemma new_entry_ok data : entry_ok (dedup_hash data) (new_entry (dedup_hash data) i_ino data).
Proof. unfold entry_ok. cbn. unfold UINT32_MAX. lia. Qed.

(** What a change of one chain does to the counts. *)
Lemma count_insert t data l n : (∀ d, from_option de_refcount 0 (find_entry d l) =
    if decide (d = data) then n else from_option de_refcount 0 (find_entry d (chain t (dedup_hash data)))) →
  ∀ d, ref_count (<[dedup_hash data := l]> t) d = if decide (d = data) then n else ref_count t d.
Proof.
  intros Hl d. cbn [ref_count metadata_store]. rewrite chain_insert.
  destruct (decide (dedup_hash d = dedup_hash data)) as [E|E].
  - rewrite Hl. destruct (decide (d = data)); [done|]. by rewrite E.
  - destruct (decide (d = data)) as [->|]; done.
Qed.

(** The chain of the data after an update. *)
Lemma count_update t data f : table_ok t →
  (∀ e e', find_entry data (chain t (dedup_hash data)) = Some e → f e = Some e' →
     entry_ok (dedup_hash data) e' ∧ de_data e' = de_data e) →
  let t' := <[dedup_hash data := update_entry data f (chain t (dedup_hash data))]> t in
  table_ok t' ∧ ∀ d, ref_count t' d =
    if decide (d = data) then from_option de_refcount 0 (find_entry data (chain t (dedup_hash data)) ≫= f)
    else ref_count t d.
Proof.
  intros Ht Hf. destruct (update_entry_spec (dedup_hash data) data f _ (Ht _) Hf) as (Hok & _ & Hfind).
  split; [by apply table_ok_insert|]. apply count_insert. intros d. rewrite Hfind. by destruct (decide _).
Qed.

Lemma metadata_add_laws t mem d : table_ok t → small_data d → ref_count t d < UINT32_MAX →
  if bool_decide (ref_count t d = 0) && negb mem then ref_step t (AddRef mem d) = (Err ENOMEM, t)
  else ∃ t', ref_step t (AddRef mem d) = (Ok tt, t') ∧ table_ok t' ∧
    ∀ d', small_data d' → ref_count t' d' = if decide (d' = d) then ref_count t d + 1 else ref_count t d'.
Proof.
  intros Ht Hd Hlt. pose proof (Ht (dedup_hash d)) as Hc. unfold small_data in Hd.
  cbn [ref_step metadata_store]. unfold aetherfs_dedup_metadata.
  rewrite (proj2 (Z.eqb_neq _ _)), (proj2 (Z.ltb_ge _ _)) by lia. cbn [orb]. cbv zeta.
  cbn [ref_count metadata_store] in Hlt |- *.
  destruct (find_entry d (chain t (dedup_hash d))) as [e|] eqn:E; cbn [from_option] in Hlt |- *.
  - pose proof (find_entry_Some _ _ _ _ Hc E) as [He _]. pose proof He as (_ & _ & Hr).
    rewrite bool_decide_false by lia. cbn [andb]. eexists. split; [reflexivity|].
    assert (de_refcount e + 1 ≤ UINT32_MAX) as Hle by lia.
    destruct (count_update t d (λ e, Some (set_de_refcount (de_refcount e + 1) e)) Ht) as [Hok Hcount].
    { intros x x' Hx [= <-]. rewrite E in Hx. injection Hx as <-.
      destruct (set_refcount_ok _ (de_refcount e + 1) e He) as (? & ? & ?); [lia|done]. }
    split; [exact Hok|]. cbn [ref_count metadata_store] in Hcount. intros d' _. rewrite Hcount, E. destruct (decide (d' = d)); [|done].
    cbn. destruct (set_refcount_ok _ (de_refcount e + 1) e He) as (_ & _ & ?); [lia|done].
  - rewrite bool_decide_true by done. destruct mem; cbn [negb andb]; [|done].
    eexists. split; [reflexivity|].
    pose proof (proj1 (find_entry_None _ _ _ Hc) E) as Hnew. split.
    + apply table_ok_insert; [done|]. destruct Hc as [Hl Hn].
      split; [constructor; [apply new_entry_ok|done]|]. cbn [fmap list_fmap]. by constructor.
    + intros d' _. apply count_insert. intros d''. cbn [find_entry].
      pose proof (is_entry_iff _ d'' _ (new_entry_ok d)) as Hi. cbn [de_data new_entry] in Hi.
      destruct (is_entry d'' _); [rewrite decide_True by (symmetry; by apply Hi); reflexivity|].
      rewrite decide_False; [done|]. intros ->. by apply Bool.diff_false_true, Hi.
Qed.

Lemma metadata_drop_laws t d : table_ok t → small_data d → ref_count t d ≤ UINT32_MAX →
  if bool_decide (ref_count t d = 0) then ref_step t (DropRef d) = (Err ENOENT, t)
  else ∃ t', ref_step t (DropRef d) = (Ok tt, t') ∧ table_ok t' ∧
    ∀ d', small_data d' → ref_count t' d' = if decide (d' = d) then ref_count t d - 1 else ref_count t d'.
Proof.
  intros Ht Hd _. pose proof (Ht (dedup_hash d)) as Hc. unfold small_data in Hd.
  cbn [ref_step metadata_store]. unfold aetherfs_dedup_release. rewrite (proj2 (Z.eqb_neq _ _)) by lia. cbv zeta.
  cbn [ref_count metadata_store].
  destruct (find_entry d (chain t (dedup_hash d))) as [e|] eqn:E; cbn [from_option]; [|by rewrite bool_decide_true].
  pose proof (find_entry_Some _ _ _ _ Hc E) as [He _]. pose proof He as (_ & _ & Hr).
  rewrite bool_decide_false by lia. eexists. split; [reflexivity|].
  assert (u32 (de_refcount e - 1) = de_refcount e - 1) as Hu
    by (apply u32_small; unfold is_u32, UINT32_MAX in *; lia).
  match goal with |- context [update_entry d ?f _] => destruct (count_update t d f Ht) as [Hok Hcount] end.
  { intros x x' Hx. rewrite E in Hx. injection Hx as <-. rewrite Hu.
    destruct (Z.eqb_spec (de_refcount e - 1) 0); [done|]. intros [= <-].
    destruct (set_refcount_ok _ (de_refcount e - 1) e He) as (? & ? & ?); [lia|done]. }
  split; [exact Hok|]. cbn [ref_count metadata_store] in Hcount. intros d' _. rewrite Hcount, E. destruct (decide (d' = d)); [|done].
  cbn [mbind option_bind]. rewrite Hu. destruct (Z.eqb_spec (de_refcount e - 1) 0); [cbn; lia|].
  destruct (set_refcount_ok _ (de_refcount e - 1) e He) as (_ & _ & ?); [lia|done].
Qed.

Lemma metadata_laws : RefLaws dedup_table bytes table_ok small_data (λ _, None).
Proof.
  split; [|exact metadata_add_laws|done|intros t d Ht Hd _; by apply metadata_drop_laws].
  intros t d Ht _. cbn. destruct (find_entry _ _) as [e|] eqn:E; [|done].
  apply (find_entry_Some (dedup_hash d)) in E as [(_ & _ & ?) _]; [|apply Ht]. cbn. lia.
Qed.

(** C17: the metadata store keeps every distinct piece of up to 128 bytes once and counts its
    references.  Any sequence of additions and releases gives the results it would give on a
    multiset of pieces, failing allocations included, and afterwards a piece resolves, to its own
    bytes, exactly if the multiset holds it: hash collisions are told apart by content. *)
Theorem metadata_dedup_refines_multiset calls data :
  Forall (λ c, small_data (call_key c)) calls → len calls ≤ UINT32_MAX → small_data data →
  ∃ t, run_calls ref_step (∅ : dedup_table) calls = ((run_calls multiset_step ∅ calls).1, t) ∧
    aetherfs_dedup_resolve t data =
      if bool_decide (data ∈ (run_calls multiset_step ∅ calls).2) then Ok data else Err ENOENT.
Proof.
  intros Hcalls Hlen Hd.
  destruct (@calls_refine _ _ _ _ _ table_ok small_data _ metadata_laws (∅ : dedup_table) ∅ calls)
    as (t & E & Hok & Hc).
  - split; [intros h; split; [constructor|constructor]|]. intros k' _. by rewrite multiplicity_empty.
  - done.
  - rewrite gmultiset_size_empty. lia.
  - rewrite guarded_none in E, Hc. exists t. split; [exact E|]. specialize (Hc data Hd). cbn [ref_count metadata_store] in Hc.
    unfold aetherfs_dedup_resolve. unfold small_data in Hd. rewrite (proj2 (Z.eqb_neq _ _)) by lia.
    destruct (find_entry _ _) as [e|] eqn:Ef; cbn [from_option] in Hc.
    + apply (find_entry_Some (dedup_hash data)) in Ef as [(_ & _ & Hr) <-]; [|apply Hok].
      rewrite bool_decide_true; [by rewrite slice_all|]. apply elem_of_multiplicity, Nat2Z.inj_lt.
      refine (Z.lt_le_trans _ _ _ _ (Z.eq_le_incl _ _ Hc)). cbn. lia.
    + rewrite bool_decide_false; [done|]. intros Hin%elem_of_multiplicity%Nat2Z.inj_lt.
      refine (Z.lt_irrefl 0 (Z.lt_le_trans _ _ _ Hin (Z.eq_le_incl _ _ (eq_sym Hc)))).
Qed.
End chains.

(** No tail is ever unpacked. *)
Lemma tail_never_unpacks st bs stale got i_ino offset :
  aetherfs_tail_unpack st bs stale got i_ino offset = Some (Err ENOENT).
Proof. reflexivity. Qed.

(** ** Witnesses *)


Lemma metadata_dedup_refines_multiset_witness :
  let calls := [AddRef true [1; 2]; AddRef false [3]; AddRef true [1; 2]; DropRef [1; 2]; DropRef [4]] in
  ∃ t, run_calls (@ref_step _ _ (metadata_store 5)) (∅ : dedup_table) calls =
      ((run_calls multiset_step ∅ calls).1, t) ∧ aetherfs_dedup_resolve t [1; 2] = Ok [1; 2].
Proof.
  intros calls. destruct (metadata_dedup_refines_multiset 5 calls [1; 2]) as (t & E & H).
  - unfold calls, small_data. by repeat constructor.
  - by vm_compute.
  - by vm_compute.
  - exists t. split; [exact E|]. rewrite H. by vm_compute.
Defined.



