(* ===== verification/KernelSamples.v ===== *)
(** * The kernel on a sample image

    Witnesses of the theorems on the tools' images under the kernel: the image of [Samples] on
    one device, and its superblock in block 1 of the kernel's device. *)

From S2P Require Import Prelude Codec Format Integrity SysIo State Pool Blocks Load Samples.
From S2P Require Import Struct KernelHeader Super VfsInode Directory Interop.
From stdpp Require Import gmap.
Local Open Scope Z_scope.

Definition linear_fs : disks := sample_fs 0 8.
Definition linear_image : aetherfs_image := sample_image 0 8.
Definition linear_super : bytes := to_block 4096 (sample_super 16 4).
Definition kernel_disk : gmap Z bytes := {[ 1 := linear_super ]}.

Lemma linear_loads : is_ok (aetherfs_image_load linear_fs linear_image) = true.
Proof. by vm_compute. Qed.

Lemma linear_super_read :
  aetherfs_image_read_block linear_fs linear_image AETHERFS_SUPERBLOCK_BLOCK = Ok linear_super.
Proof. by vm_compute. Qed.

Lemma linear_bytes : disks_bytes linear_fs.
Proof. exact (sample_bytes _ _ _ sample_linear). Qed.

(** The kernel counts four groups of 2^32 blocks for a pool of sixteen blocks. *)
Lemma kernel_misreads_counts_witness :
  ∃ info, aetherfs_fill_super kernel_disk 0 true true true = Ok (FsState kernel_disk info) ∧
    fs_free_blocks info = 2 ^ 32 * s_blocks_per_ag (sample_super 16 4) ∧ s_free_blocks (sample_super 16 4) = 4.
Proof.
  destruct (loaded_super _ _ _ linear_bytes linear_loads linear_super_read) as (Hb & Hl & _).
  destruct (kernel_misreads_counts kernel_disk linear_super (sample_super 16 4) 0) as (info & E & F & _).
  - by vm_compute.
  - exact Hb.
  - exact Hl.
  - by vm_compute.
  - by vm_compute.
  - exists info. split; [exact E|]. rewrite F. vm_compute. split; reflexivity.
Defined.

(** The sample image no longer loads after the kernel mounted and unmounted it. *)
Lemma unmount_spoils_image_witness :
  ∃ st block', aetherfs_fill_super kernel_disk 0 true true true = Ok st ∧
    aetherfs_put_super st !! 1 = Some block' ∧
    is_ok (aetherfs_image_load
      (aetherfs_image_write_block linear_fs linear_image AETHERFS_SUPERBLOCK_BLOCK block').2 linear_image) = false.
Proof.
  destruct (unmount_spoils_image linear_fs linear_image linear_super kernel_disk 0)
    as (st & block' & Hm & Hu & H).
  - exact linear_bytes.
  - exact linear_loads.
  - exact linear_super_read.
  - by vm_compute.
  - assert (match aetherfs_fill_super kernel_disk 0 true true true with
      | Ok st => match aetherfs_put_super st !! 1 with
          | Some b => bool_decide (b ≠ linear_super) && bool_decide (aetherfs_image_read_block
              (aetherfs_image_write_block linear_fs linear_image AETHERFS_SUPERBLOCK_BLOCK b).2
              linear_image AETHERFS_SUPERBLOCK_BLOCK = Ok b)
          | None => false end
      | Err _ => false end = true) as Hc by by vm_compute.
    rewrite Hm, Hu in Hc. apply andb_true_iff in Hc as [Hne%bool_decide_eq_true Hr%bool_decide_eq_true].
    exists st, block'. split; [exact Hm|]. split; [exact Hu|]. by apply H.
Defined.

