(* ===== verification/Policy.v ===== *)
(** * Policies by path

    [kernel/policy.c]: the table of at most sixteen policies, the policy of a path, and what a
    policy does to an inode.  Paths are C strings.  The constants [AETHERFS_MODE_*] are in no
    header of the module and are parameters. *)

From S2P Require Import Prelude VfsInode.
From stdpp Require Import strings.
Local Open Scope Z_scope.

Record aetherfs_policy := Policy {
  p_path : string;
  p_mode : Z;
  p_compress : Z;
  p_checksum : Z;
  p_snapshot : Z;
}.

(** [aetherfs_policies] up to [aetherfs_policy_count]. *)
Definition policies := list aetherfs_policy.

Definition aetherfs_set_policy (t : policies) (path : string) (mode compress checksum snapshot : Z)
    : result unit * policies :=
  if 16 <=? len t then (Err EINVAL, t)
  else (Ok tt, t ++ [Policy (String.substring 0 255 path) mode compress checksum snapshot]).

(** The loop over the table, with the index of the best match so far and its length. *)
Fixpoint get_loop (path : string) (t : policies) (i best_match match_len : Z) : Z :=
  match t with
  | [] => best_match
  | p :: t =>
      let n := Z.of_nat (String.length (p_path p)) in
      if String.prefix (p_path p) path && (match_len <? n)
      then get_loop path t (i + 1) i n
      else get_loop path t (i + 1) best_match match_len
  end.

Definition aetherfs_get_policy (t : policies) (path : string) : result aetherfs_policy :=
  let best_match := get_loop path t 0 (-1) 0 in
  if best_match <? 0 then Err ENOENT
  else match t !! Z.to_nat best_match with Some p => Ok p | None => Err ENOENT end.

Section modes.
Context (AETHERFS_MODE_COW AETHERFS_MODE_OVERWRITE AETHERFS_MODE_APPEND : Z).

(** A path without a policy leaves the inode alone. *)
Definition aetherfs_apply_policy (t : policies) (i : inode) (path : string) : inode :=
  match aetherfs_get_policy t path with
  | Err _ => i
  | Ok policy =>
      let i :=
        if p_mode policy =? AETHERFS_MODE_COW then set_ei_flags (flag_set kernel_F_COW (ei_flags i)) i
        else if p_mode policy =? AETHERFS_MODE_OVERWRITE
        then set_ei_flags (flag_clear kernel_F_COW (ei_flags i)) i
        else if p_mode policy =? AETHERFS_MODE_APPEND
        then set_ei_flags (flag_set kernel_F_APPEND (ei_flags i)) i
        else i in
      if p_compress policy =? 0 then i
      else set_ei_flags (flag_set kernel_F_COMPRESSED (ei_flags i)) i
  end.

Definition aetherfs_init_default_policies (t : policies) : policies :=
  let t := (aetherfs_set_policy t "/var/lib/vm" AETHERFS_MODE_OVERWRITE 0 1 0).2 in
  let t := (aetherfs_set_policy t "/var/lib/docker" AETHERFS_MODE_COW 0 1 1).2 in
  let t := (aetherfs_set_policy t "/home" AETHERFS_MODE_COW 1 1 1).2 in
  let t := (aetherfs_set_policy t "/srv/archive" AETHERFS_MODE_COW 2 2 1).2 in
  (aetherfs_set_policy t "/var/log" AETHERFS_MODE_APPEND 0 0 0).2.
End modes.

(** The callback is called with the policies in this order. *)
Definition aetherfs_list_policies (t : policies) : list aetherfs_policy := t.

(** ** The policy of a path *)

(** A policy applies to the paths its own path is a prefix of, unless that is empty. *)
Definition applies (path : string) (p : aetherfs_policy) : Prop :=
  String.prefix (p_path p) path = true ∧ (0 < String.length (p_path p))%nat.

Definition path_len (p : aetherfs_policy) : Z := Z.of_nat (String.length (p_path p)).

(** The first of the longest policies that apply. *)
Definition longest (path : string) (t : policies) (k : nat) (p : aetherfs_policy) : Prop :=
  t !! k = Some p ∧ applies path p ∧
  ∀ j q, t !! j = Some q → applies path q → path_len q < path_len p ∨ path_len q = path_len p ∧ (k ≤ j)%nat.

(** The loop over the rest [t] of a table, from index [i]: the best match stays, if nothing in the
    rest is longer, or moves to the first of the longest. *)
Lemma get_loop_spec path t i best n : 0 ≤ n →
  (get_loop path t i best n = best ∧ ∀ q, q ∈ t → applies path q → path_len q ≤ n) ∨
  ∃ k p, get_loop path t i best n = i + Z.of_nat k ∧ longest path t k p ∧ n < path_len p.
Proof.
  revert i best n. induction t as [|x t IH]; intros i best n Hn; cbn [get_loop].
  { left. split; [done|]. by intros q ?%elem_of_nil. }
  fold (path_len x). destruct (String.prefix _ _ && _) eqn:E.
  - apply andb_true_iff in E as [Hp Hlt%Z.ltb_lt]. right.
    assert (applies path x) as Hx by (split; [done|unfold path_len in Hlt; lia]).
    destruct (IH (i + 1) i (path_len x)) as [[-> Hall]|(k & p & -> & (Hk & Hap & Hmax) & Hgt)]; [lia|..].
    + exists 0%nat, x. split; [lia|]. split; [|done]. split; [done|]. split; [done|].
      intros [|j] q Hq Hqa; [injection Hq as <-; right; lia|].
      change (t !! j = Some q) in Hq. apply list_elem_of_lookup_2 in Hq. specialize (Hall q Hq Hqa). lia.
    + exists (S k), p. split; [lia|]. split; [|lia]. split; [done|]. split; [done|].
      intros [|j] q Hq Hqa; [injection Hq as <-; left; lia|].
      destruct (Hmax j q Hq Hqa); [by left|right; lia].
  - assert (applies path x → path_len x ≤ n) as Hx.
    { intros [Hp _]. rewrite Hp in E. cbn [andb] in E. apply Z.ltb_ge in E. done. }
    destruct (IH (i + 1) best n Hn) as [[-> Hall]|(k & p & -> & (Hk & Hap & Hmax) & Hgt)]; [left|right].
    + split; [done|]. intros q [->|Hq]%elem_of_cons; [done|by apply Hall].
    + exists (S k), p. split; [lia|]. split; [|done]. split; [done|]. split; [done|].
      intros [|j] q Hq Hqa; [injection Hq as <-; left; specialize (Hx Hqa); lia|].
      destruct (Hmax j q Hq Hqa); [by left|right; lia].
Qed.

(** The policy of a path is the longest that applies, the first of them if there are several,
    and no policy is found exactly if none applies, whatever the table. *)
Theorem get_policy_longest t path :
  match aetherfs_get_policy t path with
  | Ok p => ∃ k, longest path t k p
  | Err e => e = ENOENT ∧ ∀ q, q ∈ t → ¬ applies path q
  end.
Proof.
  unfold aetherfs_get_policy.
  destruct (get_loop_spec path t 0 (-1) 0) as [[-> Hall]|(k & p & -> & Hk & _)]; [lia|..].
  - split; [done|]. intros q Hq Ha. specialize (Hall q Hq Ha). destruct Ha. unfold path_len in Hall. lia.
  - rewrite (proj2 (Z.ltb_ge _ _)) by lia. replace (Z.to_nat (0 + Z.of_nat k)) with k by lia.
    rewrite (proj1 Hk). by exists k.
Qed.

(** The comparison does not stop at the end of a name: "/homework" gets the policy of "/home". *)
Example policy_of_homework :
  match aetherfs_get_policy (aetherfs_init_default_policies 0 1 2 []) "/homework/a" with
  | Ok p => p_path p | Err _ => "" end = "/home".
Proof. reflexivity. Qed.

(** A policy of copy on write leaves an append-only inode append-only. *)
Lemma cow_policy_keeps_append mc mo ma t i path p : aetherfs_get_policy t path = Ok p → p_mode p = mc →
  flag_test kernel_F_APPEND (ei_flags i) = true →
  aetherfs_get_data_mode (aetherfs_apply_policy mc mo ma t i path) = kernel_APPEND_MODE.
Proof.
  intros Hp Hm Hf. unfold aetherfs_apply_policy. rewrite Hp, Hm, Z.eqb_refl. unfold aetherfs_get_data_mode.
  assert (∀ f x, flag_test kernel_F_APPEND x = true → flag_test kernel_F_APPEND (flag_set f x) = true) as Hs.
  { intros f x Hx. unfold flag_test, flag_set in *. apply negb_true_iff, Z.eqb_neq in Hx.
    apply negb_true_iff, Z.eqb_neq. rewrite Z.land_lor_distr_l. intros [H _]%Z.lor_eq_0_iff. done. }
  destruct (p_compress p =? 0); cbn [set_ei_flags ei_flags]; [by rewrite (Hs _ _ Hf)|].
  by rewrite (Hs _ _ (Hs _ _ Hf)).
Qed.
