(* ===== verification/JournalLog.v ===== *)
(** * The journal log of the kernel

    [kernel/log.c]: positions of a ring of blocks, with the transactions that reserve them.  The
    structure has no super block, which the source takes from it, so that the device is an
    argument; [None] is a division by zero. *)

From S2P Require Import Prelude Codec Crc Btree Struct KernelHeader.
From stdpp Require Import strings gmap.
Local Open Scope Z_scope.

Record aetherfs_journal_log := JournalLog {
  j_start : Z;
  j_end : Z;
  j_head : Z;
  j_commit : Z;
  j_flags : Z;
}.

Definition JOURNAL_RECOVERING : Z := 0x0001.

Definition set_j_head (h : Z) (l : aetherfs_journal_log) : aetherfs_journal_log :=
  JournalLog (j_start l) (j_end l) h (j_commit l) (j_flags l).
Definition set_j_commit (c : Z) (l : aetherfs_journal_log) : aetherfs_journal_log :=
  JournalLog (j_start l) (j_end l) (j_head l) c (j_flags l).
Definition set_j_flags (f : Z) (l : aetherfs_journal_log) : aetherfs_journal_log :=
  JournalLog (j_start l) (j_end l) (j_head l) (j_commit l) f.

(** A number of 64 bits in an [int]. *)
Definition to_int (z : Z) : Z := let u := u32 z in if u <? 2 ^ 31 then u else u - 2 ^ 32.

Record aetherfs_journal_transaction := JournalTxn {
  t_txn_id : Z;
  t_start : Z;
  t_end : Z;
}.

(** The position behind [pos]. *)
Definition next_pos (l : aetherfs_journal_log) (n pos : Z) : option Z :=
  if j_end l =? 0 then None else Some (u64 (pos + n) mod j_end l).

(** There is never a current transaction. *)
Definition aetherfs_journal_current (l : aetherfs_journal_log) : option aetherfs_journal_transaction := None.

(** The transaction is not kept; its number is returned. *)
Definition aetherfs_journal_start (l : aetherfs_journal_log) (nblocks : Z) (mem : bool)
    : option (result Z * aetherfs_journal_log) :=
  if nblocks <=? 0 then Some (Err EINVAL, l)
  else if negb mem then Some (Err ENOMEM, l)
  else
    t_end ← next_pos l nblocks (j_head l);
    Some (Ok (to_int (u64 (j_commit l + 1))), set_j_head t_end l).

Definition aetherfs_journal_commit (l : aetherfs_journal_log) (txn_id : Z)
    : result unit * aetherfs_journal_log :=
  match aetherfs_journal_current l with
  | None => (Err EINVAL, l)
  | Some txn =>
      if negb (t_txn_id txn =? txn_id) then (Err EINVAL, l) else (Ok tt, set_j_commit (t_end txn) l)
  end.

(** What reading a block gives: no buffer, a buffer that is not up to date, or its contents. *)
Inductive block_read := NoBuffer | NotUptodate | Buffer (data : bytes).

(** The walk from the commit position to the head: whatever is read, the next block is the next.
    [Done] is the position it stops at. *)
Fixpoint replay_loop (fuel : nat) (sb_bread : Z → block_read) (j_end head pos : Z) : outcome (result Z) :=
  match fuel with
  | O => OutOfFuel
  | S fuel =>
      if pos =? head then Done (Ok pos)
      else match sb_bread pos with
      | NoBuffer => Done (Err EIO)
      | NotUptodate => Done (Ok pos)
      | Buffer _ => if j_end =? 0 then Fault else replay_loop fuel sb_bread j_end head (u64 (pos + 1) mod j_end)
      end
  end.

Definition aetherfs_journal_replay (fuel : nat) (sb_bread : Z → block_read) (l : aetherfs_journal_log)
    : outcome (result unit * aetherfs_journal_log) :=
  if j_head l =? j_commit l then Done (Ok tt, l)
  else
    let recovering := set_j_flags (Z.lor (j_flags l) JOURNAL_RECOVERING) l in
    r ← replay_loop fuel sb_bread (j_end l) (j_head l) (j_commit l);
    match r with
    | Err e => Done (Err e, recovering)
    | Ok pos =>
        Done (Ok tt, set_j_flags (Z.land (j_flags recovering) (Z.lxor JOURNAL_RECOVERING UINT32_MAX))
          (set_j_commit pos (set_j_head pos recovering)))
    end.

Definition f_je_txn_id : field := Eval vm_compute in field_of struct_aetherfs_journal_entry "je_txn_id".
Definition f_je_op : field := Eval vm_compute in field_of struct_aetherfs_journal_entry "je_op".
Definition f_je_flags : field := Eval vm_compute in field_of struct_aetherfs_journal_entry "je_flags".
Definition f_je_blocknr : field := Eval vm_compute in field_of struct_aetherfs_journal_entry "je_blocknr".
Definition f_je_checksum : field := Eval vm_compute in field_of struct_aetherfs_journal_entry "je_checksum".

(** The entry is made in the caller's buffer; nothing goes to the log. *)
Definition aetherfs_journal_append (l : aetherfs_journal_log) (txn_id : Z) (b_data : bytes) (op flags : Z)
    : option (bytes * aetherfs_journal_log) :=
  let pos := j_head l in
  let entry := put f_je_txn_id txn_id b_data in
  let entry := put f_je_op op entry in
  let entry := put f_je_flags flags entry in
  let entry := put f_je_blocknr pos entry in
  let checksum := kernel_aetherfs_crc32 (slice 0 (struct_size struct_aetherfs_journal_entry - 4) entry) in
  let entry := put f_je_checksum checksum entry in
  head ← next_pos l 1 pos;
  Some (entry, set_j_head head l).

(** The first block of the log gets the commit position. *)
Definition aetherfs_journal_checkpointer (disk : gmap Z bytes) (l : aetherfs_journal_log)
    : result unit * gmap Z bytes :=
  match disk !! j_start l with
  | None => (Err EIO, disk)
  | Some data => (Ok tt, <[j_start l := splice 0 (le_bytes 8 (j_commit l)) (zeros (len data))]> disk)
  end.

(** ** Properties *)

(** No transaction commits. *)
Lemma journal_never_commits l txn_id : aetherfs_journal_commit l txn_id = (Err EINVAL, l).
Proof. reflexivity. Qed.

(** How many blocks lie between a position and the head. *)
Definition distance (j_end head pos : Z) : Z := if pos <=? head then head - pos else head - pos + j_end.

Lemma next_in_ring j_end pos : 0 < j_end → is_u64 j_end → 0 ≤ pos < j_end →
  u64 (pos + 1) mod j_end = if pos + 1 =? j_end then 0 else pos + 1.
Proof.
  unfold is_u64. intros H0 He Hp. rewrite u64_small by (unfold is_u64; lia).
  destruct (Z.eqb_spec (pos + 1) j_end) as [->|Hne]; [by apply Z.mod_same; lia|apply Z.mod_small; lia].
Qed.

Lemma replay_loop_ends fuel sb_bread j_end head pos : 0 < j_end → is_u64 j_end → 0 ≤ head < j_end →
  0 ≤ pos < j_end → (∀ b, ∃ data, sb_bread b = Buffer data) →
  distance j_end head pos < Z.of_nat fuel → replay_loop fuel sb_bread j_end head pos = Done (Ok head).
Proof.
  intros H0 He Hh Hp Hr. revert pos Hp. induction fuel as [|fuel IH]; intros pos Hp Hd.
  { unfold distance in Hd. destruct (_ <=? _) eqn:E; [apply Z.leb_le in E|apply Z.leb_gt in E]; lia. }
  cbn [replay_loop]. destruct (Z.eqb_spec pos head) as [->|Hne]; [done|].
  destruct (Hr pos) as [data ->]. rewrite (proj2 (Z.eqb_neq j_end 0)) by lia. rewrite next_in_ring by done.
  unfold distance in *. apply IH.
  - destruct (Z.eqb_spec (pos + 1) j_end); lia.
  - destruct (Z.eqb_spec (pos + 1) j_end), (Z.leb_spec pos head), (Z.leb_spec 0 head), (Z.leb_spec (pos + 1) head); lia.
Qed.

Lemma replay_loop_runs fuel sb_bread j_end head pos : 0 < j_end → is_u64 j_end → j_end ≤ head →
  0 ≤ pos < j_end → (∀ b, ∃ data, sb_bread b = Buffer data) →
  replay_loop fuel sb_bread j_end head pos = OutOfFuel.
Proof.
  intros H0 He Hh Hp Hr. revert pos Hp. induction fuel as [|fuel IH]; intros pos Hp; [done|].
  cbn [replay_loop]. rewrite (proj2 (Z.eqb_neq pos head)) by lia. destruct (Hr pos) as [data ->].
  rewrite (proj2 (Z.eqb_neq j_end 0)) by lia. rewrite next_in_ring by done.
  apply IH. destruct (Z.eqb_spec (pos + 1) j_end); lia.
Qed.

(** C29: the replay of a log whose blocks can be read ends exactly if its head lies before the end of
    the ring: then it ends within one round, whatever is in the blocks, and leaves the log
    empty at its head; otherwise it reads the ring for ever. *)
Theorem replay_ends_iff l sb_bread : 0 < j_end l → is_u64 (j_end l) → is_u64 (j_head l) →
  0 ≤ j_commit l < j_end l → j_head l ≠ j_commit l → (∀ b, ∃ data, sb_bread b = Buffer data) →
  (j_head l < j_end l → ∃ l', (∀ fuel, j_end l < Z.of_nat fuel →
       aetherfs_journal_replay fuel sb_bread l = Done (Ok tt, l')) ∧
     j_head l' = j_head l ∧ j_commit l' = j_head l ∧ Z.land (j_flags l') JOURNAL_RECOVERING = 0) ∧
  (j_end l ≤ j_head l → ∀ fuel, aetherfs_journal_replay fuel sb_bread l = OutOfFuel).
Proof.
  intros H0 He Hh Hc Hne Hr. unfold aetherfs_journal_replay. rewrite (proj2 (Z.eqb_neq _ _)) by done. split.
  - intros Hlt. eexists. split.
    + intros fuel Hf. rewrite replay_loop_ends; [cbn [mbind outcome_bind]; reflexivity|done|done| |done|done|].
      * cbn. unfold is_u64 in Hh. lia.
      * cbn. unfold distance. destruct (Z.leb_spec (j_commit l) (j_head l)); lia.
    + cbn. split; [done|]. split; [done|]. rewrite <-Z.land_assoc.
      replace (Z.land (Z.lxor JOURNAL_RECOVERING UINT32_MAX) JOURNAL_RECOVERING) with 0 by reflexivity.
      apply Z.land_0_r.
  - intros Hge fuel. by rewrite replay_loop_runs.
Qed.

(** The ring is the blocks from 0 to the end of the log, not from its start: the entry after the
    last block is numbered 0. *)
Example log_wraps_to_block_0 :
  let l := JournalLog 100 200 199 199 0 in
  (get f_je_blocknr ∘ fst) <$> ('(_, l) ← aetherfs_journal_append l 1 (zeros 32) 1 0; aetherfs_journal_append l 1 (zeros 32) 1 0)
    = Some 0.
Proof. vm_compute. reflexivity. Qed.

(** A log of the blocks 100 to 199 with fifty blocks to replay, and one with its head behind it. *)
Lemma replay_ends_iff_witness :
  (∃ l', aetherfs_journal_replay 201 (λ _, Buffer []) (JournalLog 100 200 170 120 0) = Done (Ok tt, l') ∧
     j_commit l' = 170) ∧
  aetherfs_journal_replay 201 (λ _, Buffer []) (JournalLog 100 200 250 120 0) = OutOfFuel.
Proof.
  split.
  - destruct (replay_ends_iff (JournalLog 100 200 170 120 0) (λ _, Buffer [])) as [H _];
      [by vm_compute| | | |done|by exists []|]; [unfold is_u64; cbn; lia..|].
    destruct H as (l' & E & _ & C & _); [by vm_compute|]. exists l'. split; [apply E; by vm_compute|exact C].
  - destruct (replay_ends_iff (JournalLog 100 200 250 120 0) (λ _, Buffer [])) as [_ H];
      [by vm_compute| | | |done|by exists []|]; [unfold is_u64; cbn; lia..|].
    apply H. by vm_compute.
Defined.
