(* ===== verification/Snapshots.v ===== *)
(** * Snapshots in the kernel

    [kernel/snapshots.c].  The block of a snapshot is the superblock's [s_checkpoint_root], which
    no header declares: [checkpoint_root] reads it from the superblock's buffer.
    [aetherfs_snapshot_delete] does not parse as C and is left out. *)

From S2P Require Import Prelude Codec Struct KernelHeader Super VfsInode.
From stdpp Require Import gmap.
Local Open Scope Z_scope.

Definition SNAP_READONLY : Z := 0x0001.

Definition set_generation (n : Z) (st : fs_state) : fs_state :=
  let i := fs_sb st in
  FsState (fs_disk st) (FsInfo (fs_blocksize i) (fs_blocksize_bits i) (fs_mount_opt i) (fs_groups i)
    (fs_free_blocks i) (fs_free_inodes i) (fs_next_ino i) (u32 n) (fs_dirty i)).

Definition aetherfs_snapshot_ro (i : inode) : inode := set_ei_flags (flag_set kernel_F_IMMUTABLE (ei_flags i)) i.
Definition aetherfs_snapshot_rw (i : inode) : inode := set_ei_flags (flag_clear kernel_F_IMMUTABLE (ei_flags i)) i.

Section snapshots.
Context (checkpoint_root : bytes → Z).

(** The record of a snapshot: number, time, the three roots, one reference, and the flag. *)
Definition fill_snapshot (es : bytes) (snap_id now : Z) (readonly : bool) (snap : bytes) : bytes :=
  let snap := put f_sr_id snap_id snap in
  let snap := put f_sr_gen_time now snap in
  let snap := put f_sr_root_inode (get f_s_root_inode es) snap in
  let snap := put f_sr_extent_tree (get f_s_extent_tree es) snap in
  let snap := put f_sr_meta_tree (get f_s_meta_tree es) snap in
  let snap := put f_sr_refcount 1 snap in
  put f_sr_flags (if readonly then SNAP_READONLY else 0) snap.

(** The number is counted up even if the rest fails.  The results are the directory of the
    snapshot, the file system and the parent directory. *)
Definition aetherfs_snapshot_create (st : fs_state) (dir : inode) (readonly : bool) (uid gid now : Z)
    (mem : bool) : result inode * fs_state * inode :=
  let st := set_generation (fs_generation (fs_sb st) + 1) st in
  let snap_id := fs_generation (fs_sb st) in
  let '(r, st, dir) := aetherfs_new_inode st dir 0x41ED uid gid now mem in
  match r with
  | Err e => (Err e, st, dir)
  | Ok i =>
      let i := if readonly then set_ei_flags (flag_set kernel_F_IMMUTABLE (ei_flags i)) i else i in
      let root := checkpoint_root (s_es st) in
      match fs_disk st !! root with
      | None => (Err EIO, st, dir)
      | Some b_data =>
          (Ok i, FsState (<[root := fill_snapshot (s_es st) snap_id now readonly b_data]> (fs_disk st)) (fs_sb st), dir)
      end
  end.

(** The records in the eight blocks from the root. *)
Definition snapshot_blocks (st : fs_state) : list Z := seqZ (checkpoint_root (s_es st)) 8.

(** What the callback is called with. *)
Definition aetherfs_snapshot_list (st : fs_state) : list bytes :=
  List.filter (λ snap, negb (get f_sr_id snap =? 0)) (omap (λ b, fs_disk st !! b) (snapshot_blocks st)).

Definition restore_roots (snap es : bytes) : bytes :=
  put f_s_meta_tree (get f_sr_meta_tree snap)
    (put f_s_extent_tree (get f_sr_extent_tree snap)
      (put f_s_root_inode (get f_sr_root_inode snap) es)).

Fixpoint rollback_loop (blocks : list Z) (st : fs_state) (snap_id : Z) : result unit * fs_state :=
  match blocks with
  | [] => (Err ENOENT, st)
  | b :: blocks =>
      match fs_disk st !! b with
      | None => rollback_loop blocks st snap_id
      | Some snap =>
          if get f_sr_id snap =? snap_id
          then (Ok tt, FsState (<[1 := restore_roots snap (s_es st)]> (fs_disk st)) (fs_sb st))
          else rollback_loop blocks st snap_id
      end
  end.

Definition aetherfs_snapshot_rollback (st : fs_state) (snap_id : Z) : result unit * fs_state :=
  rollback_loop (snapshot_blocks st) st snap_id.
End snapshots.

(** ** Properties *)

Ltac field_inside := repeat apply inside_put; unfold inside; cbn; lia.
Ltac past_puts :=
  repeat (rewrite get_put_apart; [|solve [field_inside]|done|done|unfold apart; cbn; lia]).

(** The three roots of a superblock. *)
Definition roots (es : bytes) : Z * Z * Z := (get f_s_root_inode es, get f_s_extent_tree es, get f_s_meta_tree es).

Lemma root_range f es : f ∈ [f_s_root_inode; f_s_extent_tree; f_s_meta_tree] → is_bytes es → is_u64 (get f es).
Proof.
  intros Hf Hb. rewrite !elem_of_cons in Hf.
  destruct Hf as [->|[->|[->|[]%elem_of_nil]]]; refine (get_range _ es _ Hb); cbn; lia.
Qed.

Lemma fill_snapshot_fields es id now ro snap : is_bytes es → 64 ≤ len snap → is_u64 id →
  let snap' := fill_snapshot es id now ro snap in
  len snap' = len snap ∧ get f_sr_id snap' = id ∧
  (get f_sr_root_inode snap', get f_sr_extent_tree snap', get f_sr_meta_tree snap') = roots es.
Proof.
  intros Hb Hl Hid. cbv zeta. unfold fill_snapshot, roots. split; [by rewrite !len_put by field_inside|].
  split; [past_puts; apply get_put; [field_inside|exact Hid]|]. f_equal; [f_equal|].
  - past_puts. apply get_put; [field_inside|]. apply root_range; [set_solver|done].
  - past_puts. apply get_put; [field_inside|]. apply root_range; [set_solver|done].
  - past_puts. apply get_put; [field_inside|]. apply root_range; [set_solver|done].
Qed.

Lemma restore_roots_spec snap es : is_bytes snap → 264 ≤ len es →
  roots (restore_roots snap es) = (get f_sr_root_inode snap, get f_sr_extent_tree snap, get f_sr_meta_tree snap).
Proof.
  intros Hb Hl. unfold restore_roots, roots.
  assert (∀ f, f_len f = 8 → le_range 8 (get f snap)) as Hr.
  { intros f Hf. pose proof (get_range f snap) as H. rewrite Hf in H. apply H; [lia|done]. }
  f_equal; [f_equal|]; past_puts; (apply get_put; [field_inside|by apply Hr]).
Qed.

Section rollback.
Context (checkpoint_root : bytes → Z).

(** The block of the snapshot is there and is not the superblock. *)
Definition snapshot_ok (st : fs_state) : Prop :=
  let r := checkpoint_root (s_es st) in
  r ≠ 1 ∧ is_bytes (s_es st) ∧ 264 ≤ len (s_es st) ∧
  ∃ data, fs_disk st !! r = Some data ∧ is_bytes data ∧ 64 ≤ len data.

Lemma create_spec st dir ro uid gid now : snapshot_ok st →
  let r := checkpoint_root (s_es st) in
  ∃ i st' dir' snap, aetherfs_snapshot_create checkpoint_root st dir ro uid gid now true = (Ok i, st', dir') ∧
    fs_generation (fs_sb st') = u32 (fs_generation (fs_sb st) + 1) ∧
    fs_disk st' = <[r := snap]> (fs_disk st) ∧ s_es st' = s_es st ∧ is_bytes snap ∧ 64 ≤ len snap ∧
    get f_sr_id snap = fs_generation (fs_sb st') ∧
    (get f_sr_root_inode snap, get f_sr_extent_tree snap, get f_sr_meta_tree snap) = roots (s_es st).
Proof.
  intros (Hr & Hes & Hlen & data & Hd & Hb & Hl). cbv zeta.
  unfold aetherfs_snapshot_create, aetherfs_new_inode. change (kernel_S_ISDIR 0x41ED) with true.
  rewrite orb_true_r. cbn [orb negb]. cbn [set_next_ino set_generation fs_disk fs_sb fs_generation].
  repeat match goal with |- context [s_es ?x] =>
    lazymatch x with st => fail | _ => change (s_es x) with (s_es st) end end.
  cbn [fs_disk fs_sb].
  rewrite Hd. eexists _, _, _, _. split; [reflexivity|]. split; [done|]. split; [done|].
  cbn [fs_sb fs_disk fs_generation]. split; [unfold s_es; cbn [fs_disk]; by rewrite lookup_insert_ne|].
  destruct (fill_snapshot_fields (s_es st) (u32 (fs_generation (fs_sb st) + 1)) now ro data) as (L & I & R);
    [done|done|pose proof (u32_range (fs_generation (fs_sb st) + 1)) as H; unfold is_u32, is_u64 in *; lia|].
  split; [|split; [lia|by split]].
  unfold fill_snapshot. repeat (apply is_bytes_put; [field_inside|]). exact Hb.
Qed.

(** A rollback takes the first readable block with the number, or finds none. *)
Lemma rollback_loop_cases blocks st id :
  (rollback_loop blocks st id = (Err ENOENT, st) ∧
    ∀ b snap, b ∈ blocks → fs_disk st !! b = Some snap → get f_sr_id snap ≠ id) ∨
  ∃ b snap, b ∈ blocks ∧ fs_disk st !! b = Some snap ∧ get f_sr_id snap = id ∧
    rollback_loop blocks st id =
      (Ok tt, FsState (<[1 := restore_roots snap (s_es st)]> (fs_disk st)) (fs_sb st)).
Proof.
  induction blocks as [|b blocks IH].
  { left. split; [done|]. intros b snap []%elem_of_nil. }
  cbn [rollback_loop]. destruct (fs_disk st !! b) as [snap|] eqn:Ed.
  - destruct (Z.eqb_spec (get f_sr_id snap) id) as [E|E].
    { right. exists b, snap. split; [by left|done]. }
    destruct IH as [[-> Hn]|(b' & snap' & Hb & H)].
    + left. split; [done|]. intros b' snap' [->|Hb]%elem_of_cons Hs; [congruence|by apply (Hn b')].
    + right. exists b', snap'. split; [by right|done].
  - destruct IH as [[-> Hn]|(b' & snap' & Hb & H)].
    + left. split; [done|]. intros b' snap' [->|Hb]%elem_of_cons Hs; [congruence|by apply (Hn b')].
    + right. exists b', snap'. split; [by right|done].
Qed.

Lemma rollback_first st snap id : fs_disk st !! checkpoint_root (s_es st) = Some snap → get f_sr_id snap = id →
  aetherfs_snapshot_rollback checkpoint_root st id =
    (Ok tt, FsState (<[1 := restore_roots snap (s_es st)]> (fs_disk st)) (fs_sb st)).
Proof.
  intros Hd Hi. unfold aetherfs_snapshot_rollback, snapshot_blocks.
  rewrite seqZ_cons by lia. cbn [rollback_loop].
  by rewrite Hd, Hi, Z.eqb_refl.
Qed.

(** The record at the root has another number: a rollback goes on to the blocks behind it. *)
Lemma rollback_behind st snap id : fs_disk st !! checkpoint_root (s_es st) = Some snap → get f_sr_id snap ≠ id →
  aetherfs_snapshot_rollback checkpoint_root st id =
    rollback_loop (seqZ (checkpoint_root (s_es st) + 1) 7) st id.
Proof.
  intros Hd Hi. unfold aetherfs_snapshot_rollback, snapshot_blocks.
  rewrite seqZ_cons by lia. cbn [rollback_loop]. rewrite Hd, (proj2 (Z.eqb_neq _ _)) by done.
  by replace (Z.succ (checkpoint_root (s_es st))) with (checkpoint_root (s_es st) + 1) by lia.
Qed.

(** A zeroed block behind the root answers to number 0. *)
Lemma rollback_zero st snap n : fs_disk st !! checkpoint_root (s_es st) = Some snap → get f_sr_id snap ≠ 0 →
  264 ≤ len (s_es st) → fs_disk st !! (checkpoint_root (s_es st) + 1) = Some (zeros n) →
  ∃ st', aetherfs_snapshot_rollback checkpoint_root st 0 = (Ok tt, st') ∧ roots (s_es st') = (0, 0, 0).
Proof.
  intros Hd Hi Hl Hz. rewrite (rollback_behind st snap) by done. rewrite seqZ_cons by lia.
  cbn [rollback_loop]. rewrite Hz, get_zeros. rewrite Z.eqb_refl. eexists. split; [reflexivity|].
  unfold s_es at 1. cbn [fs_disk]. rewrite lookup_insert_eq. cbn [default from_option id].
  rewrite restore_roots_spec by first [apply is_bytes_zeros|done]. by rewrite !get_zeros.
Qed.

(** C40: a snapshot can be rolled back to until the next one is made.  Whatever happens to the roots
    and to the other blocks in between, a rollback to the snapshot made last restores the roots
    of the time it was made.  Any other number, of the snapshot made before for one, whose record
    was in the same block, is looked up in the seven blocks behind: if one of them holds it the
    roots are taken from there, otherwise it is not found and nothing changes.  No number is
    treated as none: with a zeroed block behind the root, a rollback to snapshot 0 succeeds and
    sets all three roots to 0. *)
Theorem rollback_restores_last st dir ro uid gid now i st1 d1 st2 :
  snapshot_ok st → aetherfs_snapshot_create checkpoint_root st dir ro uid gid now true = (Ok i, st1, d1) →
  checkpoint_root (s_es st2) = checkpoint_root (s_es st) → 264 ≤ len (s_es st2) →
  fs_disk st2 !! checkpoint_root (s_es st) = fs_disk st1 !! checkpoint_root (s_es st) →
  let rollback := aetherfs_snapshot_rollback checkpoint_root st2 in
  let last := fs_generation (fs_sb st1) in
  let behind := seqZ (checkpoint_root (s_es st) + 1) 7 in
  (∃ st3, rollback last = (Ok tt, st3) ∧ roots (s_es st3) = roots (s_es st)) ∧
  (∀ other, other ≠ last →
     (rollback other = (Err ENOENT, st2) ∧
        ∀ b snap, b ∈ behind → fs_disk st2 !! b = Some snap → get f_sr_id snap ≠ other) ∨
     ∃ b snap, b ∈ behind ∧ fs_disk st2 !! b = Some snap ∧ get f_sr_id snap = other ∧
       rollback other = (Ok tt, FsState (<[1 := restore_roots snap (s_es st2)]> (fs_disk st2)) (fs_sb st2))) ∧
  (∀ n, last ≠ 0 → fs_disk st2 !! (checkpoint_root (s_es st) + 1) = Some (zeros n) →
     ∃ st3, rollback 0 = (Ok tt, st3) ∧ roots (s_es st3) = (0, 0, 0)).
Proof.
  intros Hok E Hr Hl Hd. cbv zeta.
  destruct (create_spec st dir ro uid gid now Hok) as (i' & s & d & snap & E' & G & D & S & B & L & I & R).
  rewrite E in E'. injection E' as <- <- <-. rewrite D, lookup_insert_eq, <-Hr in Hd. rewrite <-Hr.
  split; [|split].
  - eexists. split; [by apply (rollback_first st2 snap)|]. unfold s_es at 1. cbn [fs_disk].
    rewrite lookup_insert_eq. cbn [default from_option id]. by rewrite restore_roots_spec.
  - intros other Hne. rewrite (rollback_behind st2 snap) by (try congruence; done).
    apply rollback_loop_cases.
  - intros n Hg Hz. apply (rollback_zero st2 snap n); congruence.
Qed.
End rollback.

(** A snapshot in block 9 of a file system with the roots 3, 4 and 5; the roots are moved and
    rolled back to number 7, to number 6, which is not there, and to number 0, which is. *)
Lemma rollback_restores_last_witness :
  let es := put f_s_root_inode 3 (put f_s_extent_tree 4 (put f_s_meta_tree 5 (zeros 264))) in
  let info := FsInfo 4096 12 0 1 100 100 20 6 false in
  let dir := VfsInode 16 0x41ED 0 0 2 0 0 0 0 0 0 0 0 in
  match aetherfs_snapshot_create (λ _, 9) (FsState {[1 := es; 9 := zeros 64; 10 := zeros 64]} info) dir true 0 0 50 true with
  | (Ok _, st1, _) =>
      let st2 := FsState (<[1 := put f_s_root_inode 77 es]> (fs_disk st1)) (fs_sb st1) in
      (∃ st3, aetherfs_snapshot_rollback (λ _, 9) st2 7 = (Ok tt, st3) ∧ roots (s_es st3) = (3, 4, 5)) ∧
      aetherfs_snapshot_rollback (λ _, 9) st2 6 = (Err ENOENT, st2) ∧
      (∃ st3, aetherfs_snapshot_rollback (λ _, 9) st2 0 = (Ok tt, st3) ∧ roots (s_es st3) = (0, 0, 0))
  | _ => False
  end.
Proof.
  cbv zeta.
  set (es := put f_s_root_inode 3 (put f_s_extent_tree 4 (put f_s_meta_tree 5 (zeros 264)))).
  set (st := FsState {[1 := es; 9 := zeros 64; 10 := zeros 64]} (FsInfo 4096 12 0 1 100 100 20 6 false)).
  set (dir := VfsInode 16 0x41ED 0 0 2 0 0 0 0 0 0 0 0).
  destruct (aetherfs_snapshot_create (λ _, 9) st dir true 0 0 50 true) as [[[i|] st1] d1] eqn:E; [|by vm_compute in E].
  assert (st1 = (aetherfs_snapshot_create (λ _, 9) st dir true 0 0 50 true).1.2) as E1 by by rewrite E.
  assert (fs_generation (fs_sb st1) = 7) as Hg by (rewrite E1; vm_compute; reflexivity).
  set (st2 := FsState (<[1 := put f_s_root_inode 77 es]> (fs_disk st1)) (fs_sb st1)).
  destruct (rollback_restores_last (λ _, 9) st dir true 0 0 50 i st1 d1 st2) as ((st3 & R & Hr) & Hother & Hzero).
  - split; [by vm_compute|]. split.
    { change (s_es st) with es. unfold es.
      repeat (apply is_bytes_put; [by vm_compute|]). apply is_bytes_zeros. }
    split; [by vm_compute|]. exists (zeros 64). split; [by vm_compute|]. split; [apply is_bytes_zeros|by vm_compute].
  - exact E.
  - done.
  - unfold st2, s_es. cbn [fs_disk]. rewrite lookup_insert_eq. by vm_compute.
  - unfold st2. cbn [fs_disk]. by rewrite lookup_insert_ne.
  - rewrite Hg in *. split; [|split].
    + exists st3. split; [exact R|]. rewrite Hr. by vm_compute.
    + destruct (Hother 6) as [[H _]|(b & snap & Hb & Hs & Hid & _)]; [done|exact H|exfalso].
      unfold st2 in Hs. rewrite E1 in Hs. vm_compute in Hb.
      repeat (apply elem_of_cons in Hb as [->|Hb]; [vm_compute in Hs; try discriminate Hs;
        injection Hs as <-; vm_compute in Hid; discriminate Hid|]).
      by apply elem_of_nil in Hb.
    + apply (Hzero 64); [done|]. unfold st2. rewrite E1. by vm_compute.
Defined.
