(* ===== verification/WritePath.v ===== *)
(** * Writing a block of a file in the kernel

    [kernel/data_modes.c] (the writes), [kernel/extent.c] (blocks of a file), [kernel/cow.c],
    [kernel/metadata_cow.c] and [kernel/layers.c].  The device is a map of blocks, the allocator
    that of [Balloc]; [None] is an access outside a buffer or an array. *)

From S2P Require Import Prelude Codec Balloc Struct KernelHeader Super VfsInode InlineData.
From stdpp Require Import gmap.
Local Open Scope Z_scope.

Definition COW_THRESHOLD : Z := 4.

Definition put_fs_block (b : Z) (data : bytes) (st : fs_state) : fs_state :=
  FsState (<[b := data]> (fs_disk st)) (fs_sb st).

(** ** [kernel/data_modes.c] *)

(** The number of the block in the file is taken for that of the block on the device. *)
Definition aetherfs_mode_overwrite_write (st : fs_state) (iblock : Z) (buf : bytes)
    : option (result unit * fs_state) :=
  match fs_disk st !! iblock with
  | None => Some (Err EIO, st)
  | Some b_data => data ← copy_in 0 buf b_data; Some (Ok tt, put_fs_block iblock data st)
  end.

(** [got] is whether the buffer of the new block could be had, [stale] what it holds. *)
Definition aetherfs_write_mode (st : fs_state) (sb : aetherfs_sb_info) (i : inode) (iblock : Z) (buf : bytes)
    (got : bool) (stale : bytes) : option (result unit * fs_state * aetherfs_sb_info) :=
  let mode := aetherfs_get_data_mode i in
  let bs := fs_blocksize (fs_sb st) in
  let blocks := u32 (Z.shiftr (len buf + bs - 1) (fs_blocksize_bits (fs_sb st))) in
  if (mode =? kernel_COW_MODE) && (blocks <=? COW_THRESHOLD) then
    match fs_disk st !! iblock with
    | None => Some (Err EIO, st, sb)
    | Some b_data =>
        let '(new_block, sb) := aetherfs_alloc_blocks sb 1 in
        if new_block =? 0 then Some (Err ENOSPC, st, sb)
        else if negb got then Some (Err EIO, st, sb)
        else
          new_data ← copy_in 0 (slice 0 bs b_data) (default stale (fs_disk st !! new_block));
          new_data ← copy_in 0 buf new_data;
          Some (Ok tt, put_fs_block new_block new_data st, sb)
    end
  else
    '(r, st) ← aetherfs_mode_overwrite_write st iblock buf;
    Some (r, st, sb).

(** ** [kernel/extent.c] *)

(** The node that is filled in is dropped. *)
Definition aetherfs_extent_set (lblock pblock n : Z) (mem : bool) : result unit :=
  if (lblock =? 0) || (n =? 0) then Err EINVAL else if negb mem then Err ENOMEM else Ok tt.

Definition aetherfs_extent_get (lblock : Z) : result (Z * Z) := Err ENOENT.

Definition aetherfs_bmap (lblock : Z) : Z :=
  match aetherfs_extent_get lblock with Ok (pblock, _) => pblock | Err _ => 0 end.

(** What the buffer is mapped to, its size, and whether it is new. *)
Definition aetherfs_get_blocks (sb : aetherfs_sb_info) (s_blocksize iblock max_blocks : Z) (create mem : bool)
    : result (Z * Z * bool) * aetherfs_sb_info :=
  let '(err, pblock, n) :=
    match aetherfs_extent_get iblock with Ok (p, n) => (Ok tt, p, n) | Err e => (Err e, 0, 0) end in
  match err, create with
  | Err e, false => (Err e, sb)
  | Ok _, false => (Ok (pblock, n * s_blocksize, false), sb)
  | _, true =>
      let '(pblock, sb) := aetherfs_alloc_blocks sb 1 in
      if pblock =? 0 then (Err ENOSPC, sb)
      else match aetherfs_extent_set iblock pblock max_blocks mem with
      | Err e => (Err e, sb)
      | Ok _ => (Ok (pblock, n * s_blocksize, true), sb)
      end
  end.

(** ** [kernel/cow.c] *)

Definition aetherfs_cow_inode : result unit := Ok tt.
Definition aetherfs_cow_extent (n : Z) : result unit := if n =? 0 then Err EINVAL else Ok tt.

(** Neither computes nor verifies a checksum. *)
Definition aetherfs_write_with_checksum (b_data data : bytes) : option (result bytes) :=
  if len data =? 0 then Some (Err EINVAL) else Ok <$> copy_in 0 data b_data.
Definition aetherfs_read_verify (b_data : bytes) (n : Z) : option (result bytes) :=
  if n =? 0 then Some (Err EINVAL) else Ok <$> copy_out 0 n b_data.

Definition DEV_FAILED : Z := 0x0002.

(** [struct aetherfs_device_group]: the count, and the flags of the eight devices. *)
Record aetherfs_device_group := DeviceGroup {
  dg_count : Z;
  dg_flags : list Z;
}.

(** [struct aetherfs_allocator], and what the mount keeps of the devices. *)
Record aetherfs_allocator := Allocator {
  a_preferred_dev : Z;
  a_max_segments : Z;
  a_queue_depth : Z;
}.
Record device_state := DeviceState {
  s_dev_group : option aetherfs_device_group;
  s_dev_count : Z;
  s_alloc : option aetherfs_allocator;
}.

Definition aetherfs_device_init (dg : aetherfs_device_group) (mem : bool) : result unit * device_state :=
  if mem then (Ok tt, DeviceState (Some dg) (dg_count dg) (Some (Allocator 0 256 32)))
  else (Err ENOMEM, DeviceState (Some dg) (dg_count dg) None).

Definition set_dev_flags (dg : aetherfs_device_group) (devnr flags : Z) (s : device_state) : device_state :=
  DeviceState (Some (DeviceGroup (dg_count dg) (<[Z.to_nat devnr := flags]> (dg_flags dg)))) (s_dev_count s) (s_alloc s).

(** [devnr] is compared with the unsigned count after the test for a negative number. *)
Definition aetherfs_device_failed (s : device_state) (devnr : Z) : option (result unit * device_state) :=
  match s_dev_group s with
  | None => Some (Err EINVAL, s)
  | Some dg =>
      if (devnr <? 0) || (dg_count dg <=? devnr) then Some (Err EINVAL, s)
      else if devnr =? 0 then Some (Err EIO, s)
      else
        flags ← dg_flags dg !! Z.to_nat devnr;
        Some (Ok tt, set_dev_flags dg devnr (flag_set DEV_FAILED flags) s)
  end.

Definition aetherfs_device_online (s : device_state) (devnr : Z) : option (result unit * device_state) :=
  match s_dev_group s with
  | None => Some (Err EINVAL, s)
  | Some dg =>
      if (devnr <? 0) || (dg_count dg <=? devnr) then Some (Err EINVAL, s)
      else
        flags ← dg_flags dg !! Z.to_nat devnr;
        Some (Ok tt, set_dev_flags dg devnr (flag_clear DEV_FAILED flags) s)
  end.

(** ** [kernel/metadata_cow.c]

    The new root or block is the old one. *)

Definition aetherfs_cow_inode_metadata : result unit := Ok tt.
Definition aetherfs_cow_extent_tree (tree_root_old : Z) : result Z := Ok tree_root_old.
Definition aetherfs_cow_dir_block (block_old : Z) : result Z := Ok block_old.
Definition aetherfs_cow_alloc_map (bitmap_block_old : Z) : result Z := Ok bitmap_block_old.
Definition aetherfs_cow_superblock (old_es : bytes) : result bytes := Ok old_es.
Definition aetherfs_cow_metadata_update (old_block : Z) : result Z := Ok old_block.

(** ** [kernel/layers.c] *)

Record aetherfs_extent_ref := ExtentRef {
  er_refcount : Z;
  er_flags : Z;
}.

Definition EXT_SHARED : Z := 0x0001.
Definition EXT_PINNED : Z := 0x0002.
Definition EXT_EXCLUSIVE : Z := 0x0004.

Definition set_er_flags (f : Z) (r : aetherfs_extent_ref) : aetherfs_extent_ref := ExtentRef (er_refcount r) f.

Definition aetherfs_extent_is_exclusive (ref : aetherfs_extent_ref) : bool :=
  (er_refcount ref =? 1) && negb (flag_test EXT_PINNED (er_flags ref)).
Definition aetherfs_extent_is_shared (ref : aetherfs_extent_ref) : bool :=
  (1 <? er_refcount ref) || flag_test EXT_SHARED (er_flags ref).

Definition aetherfs_extent_acquireExclusive (ref : aetherfs_extent_ref) : result unit * aetherfs_extent_ref :=
  if 1 <? er_refcount ref then (Err EBUSY, ref)
  else if flag_test EXT_PINNED (er_flags ref) then (Err EBUSY, ref)
  else (Ok tt, set_er_flags (flag_set EXT_EXCLUSIVE (er_flags ref)) ref).
Definition aetherfs_extent_releaseExclusive (ref : aetherfs_extent_ref) : aetherfs_extent_ref :=
  set_er_flags (flag_clear EXT_EXCLUSIVE (er_flags ref)) ref.

Section write_core.
(** The constants and the writes that copy and append are not in the repository; [mode_overwrite]
    is the write of [kernel/data_modes.c], and [S] what the writes change. *)
Context {S : Type} (MODE_COW MODE_OVERWRITE MODE_APPEND : Z).
Context (mode_overwrite_write mode_cow_write mode_append_write : S → inode → Z → bytes → result unit * S).

Definition aetherfs_overwrite_allowed (i : inode) (ref : aetherfs_extent_ref) : result unit :=
  if negb (aetherfs_get_data_mode i =? MODE_OVERWRITE) then Ok tt
  else if aetherfs_extent_is_exclusive ref then Ok tt else Err EBUSY.

(** The reference is made on the spot: one reference, no flags.  A refused overwrite is a copy. *)
Definition aetherfs_write_core (st : S) (i : inode) (iblock : Z) (buf : bytes) (mode : Z) : result unit * S :=
  let ref := ExtentRef 1 0 in
  if mode =? MODE_OVERWRITE then
    match aetherfs_overwrite_allowed i ref with
    | Err EBUSY => mode_cow_write st i iblock buf
    | _ => mode_overwrite_write st i iblock buf
    end
  else if mode =? MODE_COW then mode_cow_write st i iblock buf
  else if mode =? MODE_APPEND then mode_append_write st i iblock buf
  else (Err EINVAL, st).

(** An overwrite is never turned into a copy, whatever shares the extent. *)
Lemma write_core_overwrites st i iblock buf :
  aetherfs_write_core st i iblock buf MODE_OVERWRITE = mode_overwrite_write st i iblock buf.
Proof.
  unfold aetherfs_write_core, aetherfs_overwrite_allowed. rewrite Z.eqb_refl.
  change (aetherfs_extent_is_exclusive (ExtentRef 1 0)) with true. by destruct (negb _).
Qed.
End write_core.

(** ** Properties *)

(** An extent with one reference is exclusive and, with the flag, shared as well. *)
Example exclusive_and_shared :
  aetherfs_extent_is_exclusive (ExtentRef 1 EXT_SHARED) = true ∧ aetherfs_extent_is_shared (ExtentRef 1 EXT_SHARED) = true.
Proof. done. Qed.

(** What an acquisition needs and does; a release takes the flag back. *)
Lemma acquire_exclusive ref : 0 ≤ er_flags ref < 2 ^ 32 →
  let '(r, ref') := aetherfs_extent_acquireExclusive ref in
  if (er_refcount ref <=? 1) && negb (flag_test EXT_PINNED (er_flags ref))
  then r = Ok tt ∧ flag_test EXT_EXCLUSIVE (er_flags ref') = true ∧
    (flag_test EXT_EXCLUSIVE (er_flags ref) = false → aetherfs_extent_releaseExclusive ref' = ref)
  else r = Err EBUSY ∧ ref' = ref.
Proof.
  intros Hf. unfold aetherfs_extent_acquireExclusive.
  destruct (Z.ltb_spec 1 (er_refcount ref)); [by rewrite (proj2 (Z.leb_gt _ _)) by lia|].
  rewrite (proj2 (Z.leb_le _ _)) by lia. cbn [andb]. destruct (flag_test EXT_PINNED _); [done|]. cbn [negb].
  split; [done|]. unfold flag_test, flag_set. cbn [set_er_flags er_flags]. split.
  - apply negb_true_iff, Z.eqb_neq. rewrite Z.land_lor_distr_l. intros [_ H']%Z.lor_eq_0_iff. discriminate H'.
  - intros Hc. apply negb_false_iff, Z.eqb_eq in Hc. unfold aetherfs_extent_releaseExclusive, set_er_flags. cbn.
    destruct ref as [n f]. cbn [er_refcount er_flags] in *. f_equal. unfold flag_clear.
    rewrite Z.land_lor_distr_l. change (Z.land EXT_EXCLUSIVE (Z.lxor EXT_EXCLUSIVE UINT32_MAX)) with 0.
    rewrite Z.lor_0_r. apply Z.bits_inj'. intros k Hk. rewrite Z.land_spec.
    assert (Z.testbit (Z.land f EXT_EXCLUSIVE) k = false) as Hbit by (rewrite Hc; apply Z.bits_0).
    rewrite Z.land_spec in Hbit. rewrite Z.lxor_spec.
    destruct (Z.testbit f k) eqn:Ek; [|done]. cbn [andb] in *. rewrite Hbit. cbn [xorb].
    change UINT32_MAX with (Z.ones 32). rewrite Z.ones_spec_low; [done|]. split; [done|].
    destruct (Z.lt_ge_cases k 32) as [|Hge]; [done|]. exfalso.
    rewrite (Z.bits_above_log2 f k) in Ek; [done|lia|].
    destruct (decide (f = 0)) as [->|]; [cbn; lia|]. apply Z.log2_lt_pow2; [lia|].
    apply (Z.lt_le_trans _ (2 ^ 32)); [lia|]. apply Z.pow_le_mono_r; lia.
Qed.

(** No block of a file is ever found, and every request to create one takes another block from
    the allocator's count; the first block of a file takes one and fails. *)
Lemma get_blocks_forgets sb bs iblock n mem :
  aetherfs_get_blocks sb bs iblock n false mem = (Err ENOENT, sb) ∧ aetherfs_bmap iblock = 0 ∧
  ((aetherfs_alloc_blocks sb 1).1 ≠ 0 → (aetherfs_get_blocks sb bs 0 n true mem).1 = Err EINVAL ∧
     (aetherfs_get_blocks sb bs 0 n true mem).2 = (aetherfs_alloc_blocks sb 1).2).
Proof.
  split; [done|]. split; [done|]. intros Hb. unfold aetherfs_get_blocks. cbn [aetherfs_extent_get].
  destruct (aetherfs_alloc_blocks sb 1) as [b sb'] eqn:E. cbn [fst snd] in *.
  rewrite (proj2 (Z.eqb_neq _ _)) by done. done.
Qed.

(** Where a write goes.  A write of at most a block in the mode that copies succeeds, if there is
    a new block, and changes only that block, to which nothing then points: the block of the file
    is as it was.  In the other modes the write goes to the block of the device with the number the
    block has in the file, so that all files share their blocks. *)
Theorem write_mode_outcomes st sb i iblock buf stale b_data :
  fs_disk st !! iblock = Some b_data → len b_data = fs_blocksize (fs_sb st) → len buf ≤ fs_blocksize (fs_sb st) →
  fs_blocksize (fs_sb st) = 2 ^ fs_blocksize_bits (fs_sb st) → 9 ≤ fs_blocksize_bits (fs_sb st) ≤ 16 →
  let new_block := (aetherfs_alloc_blocks sb 1).1 in
  len (default stale (fs_disk st !! new_block)) = fs_blocksize (fs_sb st) →
  if bool_decide (aetherfs_get_data_mode i = kernel_COW_MODE)
  then new_block ≠ 0 → new_block ≠ iblock → ∃ st',
    aetherfs_write_mode st sb i iblock buf true stale = Some (Ok tt, st', (aetherfs_alloc_blocks sb 1).2) ∧
    fs_disk st' !! iblock = Some b_data ∧ fs_disk st' !! new_block = Some (splice 0 buf b_data) ∧
    ∀ b, b ≠ new_block → fs_disk st' !! b = fs_disk st !! b
  else ∃ st', aetherfs_write_mode st sb i iblock buf true stale = Some (Ok tt, st', sb) ∧
    fs_disk st' !! iblock = Some (splice 0 buf b_data) ∧ ∀ b, b ≠ iblock → fs_disk st' !! b = fs_disk st !! b.
Proof.
  intros Hd Hl Hbuf Hbs Hbits new_block Hst. pose proof (len_nonneg buf) as Hn. unfold aetherfs_write_mode.
  set (bs := fs_blocksize (fs_sb st)) in *.
  assert (512 ≤ bs) as Hbs512 by (rewrite Hbs; apply (Z.pow_le_mono_r 2 9); lia).
  case_bool_decide as Hm.
  - rewrite (proj2 (Z.eqb_eq _ _) Hm). cbn [andb].
    assert (u32 (Z.shiftr (len buf + bs - 1) (fs_blocksize_bits (fs_sb st))) ≤ 1) as Hblocks.
    { rewrite Z.shiftr_div_pow2, <-Hbs by lia.
      assert ((len buf + bs - 1) / bs < 2) as H2 by (apply Z.div_lt_upper_bound; lia).
      assert (0 ≤ (len buf + bs - 1) / bs) as H0 by (apply Z.div_pos; lia).
      rewrite u32_small by (unfold is_u32; lia). lia. }
    rewrite (proj2 (Z.leb_le _ _)) by (unfold COW_THRESHOLD; lia). intros H0 Hne. rewrite Hd.
    unfold new_block in *. destruct (aetherfs_alloc_blocks sb 1) as [nb sb'] eqn:Ea. cbn [fst snd] in *.
    rewrite (proj2 (Z.eqb_neq _ _)) by done. cbn [negb].
    rewrite (slice_all b_data) by done. unfold copy_in.
    rewrite (proj2 (Z.ltb_ge _ _)) by lia. cbn [mbind option_bind].
    rewrite (proj2 (Z.ltb_ge (len (splice _ _ _)) _)) by (rewrite len_splice; lia). cbn [mbind option_bind].
    eexists. split; [reflexivity|]. cbn [put_fs_block fs_disk]. rewrite lookup_insert_ne by done. split; [done|].
    rewrite lookup_insert_eq. split; [|intros b Hb; by rewrite lookup_insert_ne].
    do 3 f_equal. rewrite <-(app_nil_r (default _ _)), splice_here by lia. apply app_nil_r.
  - rewrite (proj2 (Z.eqb_neq _ _)) by done. cbn [andb]. unfold aetherfs_mode_overwrite_write, copy_in. rewrite Hd.
    rewrite (proj2 (Z.ltb_ge _ _)) by lia. cbn [mbind option_bind]. eexists. split; [reflexivity|].
    cbn [put_fs_block fs_disk]. rewrite lookup_insert_eq. split; [done|]. intros b Hb. by rewrite lookup_insert_ne.
Qed.

(** A file in the mode that copies: block 30 is written, and the old contents stay. *)
Lemma write_mode_outcomes_witness :
  let st := FsState {[30 := zeros 512; 8 := zeros 512]} (FsInfo 512 9 0 1 100 100 11 0 false) in
  let i := VfsInode 12 0x81A4 0 0 1 512 1 0 0 0 0 kernel_F_COW 0 in
  let sb := SbInfo None 100 1 false 4096 in
  ∃ st', aetherfs_write_mode st sb i 30 [1; 2; 3] true (zeros 512) =
      Some (Ok tt, st', (aetherfs_alloc_blocks sb 1).2) ∧ fs_disk st' !! 30 = Some (zeros 512).
Proof.
  intros st i sb.
  pose proof (write_mode_outcomes st sb i 30 [1; 2; 3] (zeros 512) (zeros 512)) as H.
  cbv zeta in H. rewrite bool_decide_true in H by reflexivity.
  destruct H as (st' & E & Hold & _).
  - by vm_compute.
  - by vm_compute.
  - by vm_compute.
  - by vm_compute.
  - cbn. lia.
  - by vm_compute.
  - by vm_compute.
  - by vm_compute.
  - by exists st'.
Defined.
