(* ===== verification/Security.v ===== *)
(** * The security features of the kernel

    [kernel/security.c], the branch for the kernel: authenticated snapshots, verity, extended
    attributes and the functions that only print a message.  The keyring and the audit log link
    their entries through an integer of theirs, which does not compile, and are left out.  Random
    numbers, the time and the flag [S_VERITY] of the VFS are arguments. *)

From S2P Require Import Prelude VfsInode.

(** ** Authenticated snapshots *)

Definition SNAP_FLAG_AUTHENTICATED : Z := 0x0001.
Definition XATTR_MAX_SIZE : Z := 65536.
Definition XATTR_NAME_MAX : Z := 255.

Record aetherfs_authenticated_snapshot := AuthSnapshot {
  as_id : Z;
  as_timestamp : Z;
  as_flags : Z;
  as_hmac_algo : Z;
  as_hmac : bytes;
}.

(** The code of the message is drawn at random; the key is not used. *)
Definition aetherfs_auth_snapshot_create (l : list aetherfs_authenticated_snapshot) (hmac_key : bytes)
    (random now : Z) (random_hmac : bytes) (mem : bool) : result Z * list aetherfs_authenticated_snapshot :=
  if len hmac_key =? 0 then (Err EINVAL, l)
  else
    let id := Z.lor (Z.land random 0x7FFFFFFFFFFFFFFF) 0x0100000000000000 in
    if negb mem then (Err ENOMEM, l)
    else (Ok id, l ++ [AuthSnapshot id now SNAP_FLAG_AUTHENTICATED 1 random_hmac]).

Fixpoint verify_loop (l : list aetherfs_authenticated_snapshot) (snapshot_id : Z) : result unit :=
  match l with
  | [] => Err ENOENT
  | snap :: l =>
      if as_id snap =? snapshot_id
      then if flag_test SNAP_FLAG_AUTHENTICATED (as_flags snap) then Ok tt else Err ENOENT
      else verify_loop l snapshot_id
  end.

Definition aetherfs_auth_snapshot_verify (l : list aetherfs_authenticated_snapshot) (snapshot_id : Z)
    (hmac_key : bytes) : result unit :=
  if len hmac_key =? 0 then Err EINVAL else verify_loop l snapshot_id.

(** ** Verity *)

Section verity.
Context (S_VERITY : Z).

Definition aetherfs_verity_enable (i : inode) : inode :=
  set_vi_flags (flag_set S_VERITY (vi_flags i)) (set_ei_flags (flag_set kernel_F_VERITY (ei_flags i)) i).
Definition aetherfs_verity_disable (i : inode) : inode :=
  set_vi_flags (flag_clear S_VERITY (vi_flags i)) (set_ei_flags (flag_clear kernel_F_VERITY (ei_flags i)) i).
End verity.

(** Nothing is read. *)
Definition aetherfs_verity_verify (i : inode) (pos count : Z) : result unit :=
  if negb (flag_test kernel_F_VERITY (ei_flags i)) then Ok tt else Ok tt.

(** ** Extended attributes *)

(** The attribute is not kept. *)
Definition aetherfs_xattr_set (name value : bytes) : result unit :=
  if len value =? 0 then Err EINVAL
  else if XATTR_MAX_SIZE <? len value then Err E2BIG
  else if XATTR_NAME_MAX <? len name then Err ERANGE
  else Ok tt.
Definition aetherfs_xattr_get (name : bytes) : result bytes := Err ENODATA.
Definition aetherfs_xattr_list : result bytes := Ok [].

(** ** Functions that only print

    The place, length and flags an extent is found with; the place and length of a free one. *)

Definition aetherfs_extent_tree_insert (ino lstart pstart n flags : Z) : result unit := Ok tt.
Definition aetherfs_extent_tree_lookup (ino lstart : Z) : result (Z * Z * Z) := Ok (lstart, 1, 0).
Definition aetherfs_extent_tree_delete (ino lstart n : Z) : result unit := Ok tt.
Definition aetherfs_extent_tree_split (ino : Z) : result unit := Ok tt.
Definition aetherfs_free_extent_tree_insert (pstart n : Z) : result unit := Ok tt.
Definition aetherfs_free_extent_tree_lookup (n : Z) : result (Z * Z) := Ok (0, n).
Definition aetherfs_free_extent_tree_delete (pstart n : Z) : result unit := Ok tt.
Definition aetherfs_subtree_set_immutable (ino : Z) (immutable : bool) : result unit := Ok tt.
Definition aetherfs_subtree_is_immutable (ino : Z) : bool := false.
Definition aetherfs_encryption_context_create (ino key_id : Z) : result unit := Ok tt.
Definition aetherfs_encryption_context_destroy (ino : Z) : result unit := Ok tt.
Definition aetherfs_secure_delete_hint_set (ino method flags : Z) : result unit := Ok tt.

(** ** Properties *)

(** Snapshots created one after the other, each with its key and random numbers. *)
Fixpoint create_all (l : list aetherfs_authenticated_snapshot) (reqs : list (bytes * (Z * Z * bytes)))
    : list aetherfs_authenticated_snapshot :=
  match reqs with
  | [] => l
  | (key, (random, now, hmac)) :: reqs =>
      create_all (aetherfs_auth_snapshot_create l key random now hmac true).2 reqs
  end.

Lemma verify_loop_iff l id : Forall (λ s, flag_test SNAP_FLAG_AUTHENTICATED (as_flags s) = true) l →
  verify_loop l id = if bool_decide (id ∈ as_id <$> l) then Ok tt else Err ENOENT.
Proof.
  induction 1 as [|s l Hs Hl IH]; cbn [verify_loop fmap list_fmap]; [done|].
  destruct (Z.eqb_spec (as_id s) id) as [->|Hne].
  - rewrite Hs, bool_decide_true; [done|by left].
  - rewrite IH. apply (f_equal (λ b : bool, if b then Ok tt else Err ENOENT)), bool_decide_ext.
    rewrite elem_of_cons. split; [by right|by intros [->|]].
Qed.

(** The authentication of snapshots authenticates nothing.  After any sequence of creations a
    snapshot verifies with any key that is not empty, whatever key it was created with, and
    exactly if its number is one that was given out. *)
Theorem auth_ignores_key reqs id key : Forall (λ r, r.1 ≠ []) reqs → key ≠ [] →
  aetherfs_auth_snapshot_verify (create_all [] reqs) id key =
    if bool_decide (id ∈ (λ r, Z.lor (Z.land r.2.1.1 0x7FFFFFFFFFFFFFFF) 0x0100000000000000) <$> reqs)
    then Ok tt else Err ENOENT.
Proof.
  intros Hreqs Hkey. assert (∀ k : bytes, k ≠ [] → (len k =? 0) = false) as Hk.
  { intros [|x k] H; [done|]. apply Z.eqb_neq. unfold len. cbn [length]. lia. }
  unfold aetherfs_auth_snapshot_verify. rewrite Hk by done.
  assert (∀ l, as_id <$> create_all l reqs = (as_id <$> l) ++
      ((λ r, Z.lor (Z.land r.2.1.1 0x7FFFFFFFFFFFFFFF) 0x0100000000000000) <$> reqs) ∧
    (Forall (λ s, flag_test SNAP_FLAG_AUTHENTICATED (as_flags s) = true) l →
     Forall (λ s, flag_test SNAP_FLAG_AUTHENTICATED (as_flags s) = true) (create_all l reqs))) as H.
  { induction Hreqs as [|[k [[random now] hmac]] reqs Hr _ IH]; intros l; cbn [create_all].
    - split; [by rewrite app_nil_r|done].
    - unfold aetherfs_auth_snapshot_create. rewrite Hk by exact Hr. cbn [negb snd fmap list_fmap].
      destruct (IH (l ++ [AuthSnapshot (Z.lor (Z.land random 0x7FFFFFFFFFFFFFFF) 0x0100000000000000) now
        SNAP_FLAG_AUTHENTICATED 1 hmac])) as [-> Hf]. split; [by rewrite fmap_app, <-app_assoc|].
      intros Hl. apply Hf, Forall_app. split; [done|by repeat constructor]. }
  rewrite verify_loop_iff by by apply H. by rewrite (proj1 (H [])).
Qed.

(** An attribute that was set is not there, and every file verifies. *)
Lemma xattr_not_kept name value : 0 < len value ≤ XATTR_MAX_SIZE → len name ≤ XATTR_NAME_MAX →
  aetherfs_xattr_set name value = Ok tt ∧ aetherfs_xattr_get name = Err ENODATA.
Proof.
  intros Hv Hn. unfold aetherfs_xattr_set. rewrite (proj2 (Z.eqb_neq _ _)), !(proj2 (Z.ltb_ge _ _)) by lia. done.
Qed.

Lemma verity_always_verifies i pos count : aetherfs_verity_verify i pos count = Ok tt.
Proof. unfold aetherfs_verity_verify. by destruct (negb _). Qed.

Lemma auth_ignores_key_witness :
  aetherfs_auth_snapshot_verify (create_all [] [([1; 2], (5, 100, [7; 7]))]) 0x0100000000000005 [9] = Ok tt.
Proof.
  rewrite (auth_ignores_key [([1; 2], (5, 100, [7; 7]))] 0x0100000000000005 [9]).
  - by vm_compute.
  - by repeat constructor.
  - done.
Defined.
