(* ===== verification/Compress.v ===== *)
(** * Compression of a block in the kernel

    [kernel/compress.c].  The two libraries are parameters: an LZ4 call returns a number and
    writes some bytes, a ZSTD call returns the bytes or fails.  Both directions work in the buffer
    of block 0; [None] is a copy that leaves a buffer. *)

From S2P Require Import Prelude VfsInode Super InlineData.

Definition COMPRESS_LZ4 : Z := 1.
Definition COMPRESS_ZSTD : Z := 2.

(** A buffer, and how many of its bytes count. *)
Record buffer_head := BufferHead {
  b_data : bytes;
  b_size : Z;
}.

Section compress.
Context (LZ4_compress_default LZ4_decompress_safe : Z → bytes → Z * bytes).
Context (ZSTD_compress : Z → Z → bytes → option bytes) (ZSTD_decompress : Z → bytes → option bytes).

(** The outcome of a call: a number, zero for success, and the bytes written. *)
Definition aetherfs_compress_lz4 (dst_len : Z) (src : bytes) : result Z * Z * bytes :=
  let '(ret, out) := LZ4_compress_default dst_len src in (Ok ret, dst_len, out).
Definition aetherfs_decompress_lz4 (dst_len : Z) (src : bytes) : result Z * Z * bytes :=
  let '(ret, out) := LZ4_decompress_safe dst_len src in (Ok ret, dst_len, out).
Definition aetherfs_compress_zstd (dst_len : Z) (src : bytes) (level : Z) : result Z * Z * bytes :=
  match ZSTD_compress dst_len level src with
  | None => (Err EIO, dst_len, [])
  | Some out => (Ok 0, len out, out)
  end.
Definition aetherfs_decompress_zstd (dst_len : Z) (src : bytes) : result Z * Z * bytes :=
  match ZSTD_decompress dst_len src with
  | None => (Err EIO, dst_len, [])
  | Some out => (Ok 0, len out, out)
  end.

(** [Ok n] is the return of [n].  [scratch] is the buffer of block 0. *)
Definition aetherfs_compress (bh : buffer_head) (algorithm level : Z) (scratch : option bytes)
    : option (result Z * buffer_head) :=
  match scratch with
  | None => Some (Err EIO, bh)
  | Some compressed =>
      let orig_len := b_size bh in
      let src := slice 0 orig_len (b_data bh) in
      if negb ((algorithm =? COMPRESS_LZ4) || (algorithm =? COMPRESS_ZSTD)) then Some (Err EINVAL, bh)
      else
        let '(err, comp_len, out) :=
          if algorithm =? COMPRESS_LZ4 then aetherfs_compress_lz4 orig_len src
          else aetherfs_compress_zstd orig_len src level in
        compressed ← copy_in 0 out compressed;
        if negb (bool_decide (err = Ok 0)) || (orig_len <=? comp_len) then Some (Ok 0, bh)
        else
          data ← copy_in 0 (slice 0 comp_len compressed) (b_data bh);
          Some (Ok 0, BufferHead data comp_len)
  end.

Definition aetherfs_decompress (bh : buffer_head) (algorithm : Z) (scratch : option bytes)
    : option (result Z * buffer_head) :=
  match scratch with
  | None => Some (Err EIO, bh)
  | Some decompressed =>
      let decomp_len := len decompressed in
      let src := slice 0 (b_size bh) (b_data bh) in
      if negb ((algorithm =? COMPRESS_LZ4) || (algorithm =? COMPRESS_ZSTD)) then Some (Err EINVAL, bh)
      else
        let '(err, decomp_len, out) :=
          if algorithm =? COMPRESS_LZ4 then aetherfs_decompress_lz4 decomp_len src
          else aetherfs_decompress_zstd decomp_len src in
        decompressed ← copy_in 0 out decompressed;
        if negb (bool_decide (err = Ok 0)) then Some (err, bh)
        else
          data ← copy_in 0 (slice 0 decomp_len decompressed) (b_data bh);
          Some (Ok 0, BufferHead data decomp_len)
  end.

Definition aetherfs_should_compress (i : inode) (size : Z) : bool :=
  if size <? 4096 then false else flag_test kernel_F_COMPRESSED (ei_flags i).

(** ** Properties *)

(** LZ4 returns the length of what it wrote, which is taken for an error, or 0 when it fails,
    after which the length is that of the source: nothing is ever compressed with it. *)
Lemma lz4_never_compresses bh level scratch out : 
  (LZ4_compress_default (b_size bh) (slice 0 (b_size bh) (b_data bh))).2 = out → len out ≤ len scratch →
  aetherfs_compress bh COMPRESS_LZ4 level (Some scratch) = Some (Ok 0, bh).
Proof.
  intros Ho Hl. unfold aetherfs_compress, aetherfs_compress_lz4. change (COMPRESS_LZ4 =? COMPRESS_LZ4) with true. cbn [orb negb].
  destruct (LZ4_compress_default _ _) as [ret out'] eqn:E. cbn [snd] in Ho. subst out'.
  cbv zeta. cbn iota beta. rewrite copy_in_inside by lia. cbn [mbind option_bind].
  rewrite (proj2 (Z.leb_le (b_size bh) (b_size bh))) by lia. by rewrite orb_true_r.
Qed.

(** What ZSTD promises: what it returns fits, and decompresses to the source when that fits. *)
Definition zstd_law : Prop := ∀ cap level src out, ZSTD_compress cap level src = Some out →
  len out ≤ cap ∧ ∀ cap', len src ≤ cap' → ZSTD_decompress cap' out = Some src.

(** A block compressed with ZSTD comes back.  The compression always reports success, and the
    decompression restores the bytes of the block if it shrank; if it did not, the block was left
    as it was. *)
Theorem zstd_round_trip bh level scratch scratch' : zstd_law →
  len (b_data bh) = b_size bh → len scratch = b_size bh → len scratch' = b_size bh →
  ∃ bh', aetherfs_compress bh COMPRESS_ZSTD level (Some scratch) = Some (Ok 0, bh') ∧
    (bh' = bh ∨ b_size bh' < b_size bh ∧
       aetherfs_decompress bh' COMPRESS_ZSTD (Some scratch') = Some (Ok 0, bh)).
Proof.
  intros Hz Hd Hs Hs'. pose proof (len_nonneg (b_data bh)) as Hn. unfold aetherfs_compress, aetherfs_compress_zstd.
  change (COMPRESS_ZSTD =? COMPRESS_LZ4) with false. change (COMPRESS_ZSTD =? COMPRESS_ZSTD) with true.
  cbn [orb negb]. rewrite (slice_all (b_data bh)) by done.
  destruct (ZSTD_compress _ _ _) as [out|] eqn:E; cbn iota beta.
  2: { rewrite copy_in_inside by (unfold len; cbn [length]; lia). cbn [mbind option_bind].
    rewrite bool_decide_false by done. cbn [negb orb]. exists bh. split; [done|by left]. }
  destruct (Hz _ _ _ _ E) as [Hle Hback]. rewrite copy_in_inside by lia.
  cbn [mbind option_bind]. rewrite bool_decide_true by done. cbn [negb orb].
  destruct (Z.leb_spec (b_size bh) (len out)) as [Hge|Hlt]; [exists bh; split; [done|by left]|].
  rewrite slice_splice_eq by lia. rewrite copy_in_inside by lia. cbn [mbind option_bind].
  eexists. split; [reflexivity|]. right. cbn [b_size]. split; [done|].
  unfold aetherfs_decompress, aetherfs_decompress_zstd.
  change (COMPRESS_ZSTD =? COMPRESS_LZ4) with false. change (COMPRESS_ZSTD =? COMPRESS_ZSTD) with true.
  cbn [orb negb b_data b_size].
  rewrite slice_splice_eq by lia. rewrite Hback by lia. cbn iota beta. rewrite copy_in_inside by lia. cbn [mbind option_bind]. rewrite bool_decide_true by done. cbn [negb].
  rewrite slice_splice_eq by lia. rewrite copy_in_inside by (rewrite len_splice; lia).
  cbn [mbind option_bind]. do 2 f_equal. f_equal. destruct bh as [d n]. cbn [b_data b_size] in *. f_equal; [|done].
  rewrite <-(app_nil_r (splice 0 out d)), splice_here by (rewrite len_splice; lia). apply app_nil_r.
Qed.
End compress.

(** A library that compresses zeros to one number. *)
Definition zeros_compress (cap level : Z) (src : bytes) : option bytes :=
  if bool_decide (src = zeros (len src)) && (1 <=? cap) then Some [len src] else None.
Definition zeros_decompress (cap : Z) (src : bytes) : option bytes :=
  match src with [n] => if n <=? cap then Some (zeros n) else None | _ => None end.

Lemma zstd_round_trip_witness :
  let bh := BufferHead (zeros 64) 64 in
  zstd_law zeros_compress zeros_decompress ∧
  ∃ bh', aetherfs_compress (λ _ _, (0, [])) zeros_compress bh COMPRESS_ZSTD 3 (Some (zeros 64)) = Some (Ok 0, bh') ∧
    aetherfs_decompress (λ _ _, (0, [])) zeros_decompress bh' COMPRESS_ZSTD (Some (replicate 64 7)) = Some (Ok 0, bh).
Proof.
  intros bh. assert (zstd_law zeros_compress zeros_decompress) as Hz.
  { intros cap level src out. unfold zeros_compress. destruct (bool_decide _ && _) eqn:E; [|done].
    apply andb_true_iff in E as [Hsrc%bool_decide_eq_true Hcap%Z.leb_le]. intros [= <-].
    split; [exact Hcap|]. intros cap' Hc. cbn. rewrite (proj2 (Z.leb_le _ _)) by done. by rewrite <-Hsrc. }
  split; [exact Hz|].
  destruct (zstd_round_trip (λ _ _, (0, [])) (λ _ _, (0, [])) zeros_compress zeros_decompress bh 3 (zeros 64)
    (replicate 64 7) Hz) as (bh' & E & H); [by vm_compute..|].
  exists bh'. split; [exact E|]. destruct H as [->|[_ H]]; [|exact H].
  exfalso. vm_compute in E. discriminate E.
Defined.
