(* ===== verification/Accel.v ===== *)
(** * Features of the processor

    [kernel/x86_accel.c]: which instructions the processor has, and routines that choose by
    them.  The processor's answers, the routines in assembler, the kernel's bit search and LZ4
    are parameters; words of a bitmap have 64 bits, the lowest bit first.  [aetherfs_hw_crc32]
    is left out: with the instruction it does not parse. *)

From S2P Require Import Prelude.

Inductive x86_feature :=
| X86_FEATURE_SSE2 | X86_FEATURE_SSE4_2 | X86_FEATURE_AVX | X86_FEATURE_AVX2 | X86_FEATURE_AVX512F
| X86_FEATURE_PCLMULQDQ | X86_FEATURE_AES | X86_FEATURE_POPCNT | X86_FEATURE_TZCNT | X86_FEATURE_RDRAND.

Record aetherfs_cpu_features := CpuFeatures {
  has_sse2 : bool;
  has_sse4_2 : bool;
  has_avx : bool;
  has_avx2 : bool;
  has_avx512f : bool;
  has_pclmul : bool;
  has_aesni : bool;
  has_popcnt : bool;
  has_tzcnt : bool;
  has_rdrand : bool;
}.

(** The static variables [aetherfs_cpu_caps] and [initialized]. *)
Record cpu_state := CpuState {
  aetherfs_cpu_caps : aetherfs_cpu_features;
  initialized : bool;
}.

Definition cpu_state_zero : cpu_state :=
  CpuState (CpuFeatures false false false false false false false false false false) false.

(** Four answers are overwritten. *)
Definition aetherfs_detect_cpu_features (boot_cpu_has : x86_feature → bool) : aetherfs_cpu_features :=
  CpuFeatures true true (boot_cpu_has X86_FEATURE_AVX) (boot_cpu_has X86_FEATURE_AVX2)
    (boot_cpu_has X86_FEATURE_AVX512F) (boot_cpu_has X86_FEATURE_PCLMULQDQ) (boot_cpu_has X86_FEATURE_AES)
    true true (boot_cpu_has X86_FEATURE_RDRAND).

Definition aetherfs_cpu_init (boot_cpu_has : x86_feature → bool) (st : cpu_state) : cpu_state :=
  if initialized st then st else CpuState (aetherfs_detect_cpu_features boot_cpu_has) true.

Definition aetherfs_init_cpu (boot_cpu_has : x86_feature → bool) (st : cpu_state) : result cpu_state :=
  Ok (aetherfs_cpu_init boot_cpu_has st).

Definition aetherfs_has_fast_path (caps : aetherfs_cpu_features) : bool := has_sse4_2 caps && has_avx2 caps.

(** ** Copies *)

(** A copy of [len] bytes, from the bytes at [src] to those at [dst]. *)
Definition builtin_memcpy (dst src : bytes) (n : Z) : bytes := splice 0 (slice 0 n src) dst.

Section copies.
Context (memcpy_avx2 memmove_avx2 : bytes → bytes → Z → bytes).

Definition aetherfs_memcpy (caps : aetherfs_cpu_features) (dst src : bytes) (n : Z) : bytes :=
  if (4096 <=? n) && has_avx2 caps then memcpy_avx2 dst src n else builtin_memcpy dst src n.

Definition aetherfs_memmove (caps : aetherfs_cpu_features) (dst src : bytes) (n : Z) : bytes :=
  if (4096 <=? n) && has_avx2 caps then memmove_avx2 dst src n else builtin_memcpy dst src n.
End copies.

(** ** Bits *)

Definition BITS_PER_LONG : Z := 64.

(** [~x] of an [unsigned long]. *)
Definition lnot64 (x : Z) : Z := Z.lxor x UINT64_MAX.

Definition builtin_popcountl (x : Z) : Z :=
  len (filter (λ i, Z.testbit x i = true) (seqZ 0 BITS_PER_LONG)).

(** Both branches are the same. *)
Definition aetherfs_popcount (caps : aetherfs_cpu_features) (x : Z) : Z :=
  if has_popcnt caps then builtin_popcountl x else builtin_popcountl x.

(** The indices of the words of [size] bits. *)
Definition word_indices (size : Z) : list Z := seqZ 0 ((size + BITS_PER_LONG - 1) / BITS_PER_LONG).

Fixpoint count_free_loop (caps : aetherfs_cpu_features) (bitmap : list Z) (count : Z) (words : list Z)
    : option Z :=
  match words with
  | [] => Some count
  | w :: words =>
      val ← bitmap !! Z.to_nat w;
      count_free_loop caps bitmap (u64 (count + aetherfs_popcount caps (lnot64 val))) words
  end.

(** [None] is a word behind the bitmap. *)
Definition aetherfs_count_free_bits (caps : aetherfs_cpu_features) (bitmap : list Z) (size : Z) : option Z :=
  count_free_loop caps bitmap 0 (word_indices size).

Section search.
(** [_tzcntl] and the kernel's searches. *)
Context (tzcntl : list Z → Z → Z) (find_first_zero_bit : list Z → Z → Z)
  (find_next_zero_bit : list Z → Z → Z → Z).

Fixpoint first_zero_loop (addr : list Z) (size : Z) (words : list Z) : option Z :=
  match words with
  | [] => Some size
  | w :: words =>
      word ← addr !! Z.to_nat w;
      let val := lnot64 word in
      if val =? 0 then first_zero_loop addr size words
      else Some (w * BITS_PER_LONG + builtin_popcountl val)
  end.

Definition aetherfs_find_first_zero_bit (caps : aetherfs_cpu_features) (addr : list Z) (size : Z) : option Z :=
  if has_tzcnt caps then Some (tzcntl addr size)
  else if has_popcnt caps then first_zero_loop addr size (word_indices size)
  else Some (find_first_zero_bit addr size).

Definition aetherfs_find_next_zero_bit (caps : aetherfs_cpu_features) (addr : list Z) (size offset : Z) : Z :=
  if size <=? offset then size
  else if has_tzcnt caps then tzcntl (drop (Z.to_nat (offset / BITS_PER_LONG)) addr) (size - offset)
  else find_next_zero_bit addr size offset.
End search.

(** ** Prefetches *)

(** The addresses, in order. *)
Definition aetherfs_prefetch_node (caps : aetherfs_cpu_features) (addr : Z) : list Z :=
  if has_avx caps || has_sse2 caps then [addr] else [].

Definition aetherfs_prefetch_range (addr n : Z) : list Z :=
  k ← seqZ 0 ((n + 127) / 128);
  let i := k * 128 in
  addr + i :: if i + 64 <? n then [addr + i + 64] else [].

Definition aetherfs_prefetch_for_write (addr : Z) : list Z := [addr].

(** ** LZ4 *)

Section lz4.
Context (LZ4_compress_default : bytes → Z → Z → Z * bytes) (LZ4_decompress_safe : bytes → Z → Z → Z * bytes).

(** The number LZ4 returns and what it writes; [dst_len] is only read. *)
Definition aetherfs_stream_compress_lz4 (dst_len : Z) (src : bytes) (src_len : Z) : Z * bytes :=
  LZ4_compress_default src src_len dst_len.
Definition aetherfs_stream_decompress_lz4 (dst_len : Z) (src : bytes) (src_len : Z) : Z * bytes :=
  LZ4_decompress_safe src src_len dst_len.
End lz4.

(** ** Theorems *)

(** Initialization happens once: later calls change nothing, whatever the processor answers. *)
Lemma cpu_init_once f g st : aetherfs_cpu_init g (aetherfs_cpu_init f st) = aetherfs_cpu_init f st.
Proof. unfold aetherfs_cpu_init. destruct (initialized st) eqn:E; [by rewrite E|done]. Qed.

(** Bit [i] of a bitmap, and the number of bits that are 0 among the first [n]. *)
Definition bit_at (bitmap : list Z) (i : Z) : bool :=
  Z.testbit (default 0 (bitmap !! Z.to_nat (i / 64))) (i mod 64).
Definition zero_bits (bitmap : list Z) (n : Z) : Z :=
  len (filter (λ i, bit_at bitmap i = false) (seqZ 0 n)).

Lemma length_filter_not {A} (P Q : A → Prop) `{∀ x, Decision (P x)} `{∀ x, Decision (Q x)} l :
  (∀ x, x ∈ l → P x ↔ ¬ Q x) → len (filter P l) = len l - len (filter Q l).
Proof.
  induction l as [|x l IH]; intros Hpq; [reflexivity|].
  pose proof (Hpq x ltac:(constructor)) as Hx.
  assert (len (filter P l) = len l - len (filter Q l)) as Hl by (apply IH; intros y Hy; apply Hpq; by constructor).
  rewrite !filter_cons. destruct (decide (P x)), (decide (Q x)); try tauto; unfold len in *; cbn [length] in *; lia.
Qed.

Lemma len_filter_fmap {A B} (f : A → B) (P : B → Prop) (Q : A → Prop)
    `{∀ x, Decision (P x)} `{∀ x, Decision (Q x)} l :
  (∀ x, x ∈ l → P (f x) ↔ Q x) → len (filter P (f <$> l)) = len (filter Q l).
Proof.
  induction l as [|x l IH]; intros Hpq; [reflexivity|].
  pose proof (Hpq x ltac:(constructor)) as Hx.
  assert (len (filter P (f <$> l)) = len (filter Q l)) as Hl by (apply IH; intros y Hy; apply Hpq; by constructor).
  rewrite fmap_cons, !filter_cons. destruct (decide (P (f x))), (decide (Q x)); try tauto;
    unfold len in *; cbn [length] in *; lia.
Qed.

Lemma len_filter_all {A} (P : A → Prop) `{∀ x, Decision (P x)} l : (∀ x, x ∈ l → P x) → len (filter P l) = len l.
Proof.
  intros Hp. rewrite (length_filter_not P (λ x, ¬ P x)).
  2: { intros x Hx. split; [intros H1 H2; done|intros _; by apply Hp]. }
  induction l as [|x l IH]; [reflexivity|]. rewrite filter_cons_False by (intros Hx; apply Hx, Hp; constructor).
  assert (len l - len (filter (λ x, ¬ P x) l) = len l) as Hl by (apply IH; intros y Hy; apply Hp; by constructor).
  unfold len in *. cbn [length]. lia.
Qed.

Lemma testbit_lnot64 x i : 0 ≤ i < 64 → Z.testbit (lnot64 x) i = negb (Z.testbit x i).
Proof.
  intros Hi. unfold lnot64. rewrite Z.lxor_spec. change UINT64_MAX with (Z.ones 64).
  rewrite Z.ones_spec_low by lia. by destruct (Z.testbit x i).
Qed.

Lemma popcount_lnot x : builtin_popcountl (lnot64 x) = 64 - builtin_popcountl x.
Proof.
  unfold builtin_popcountl. rewrite (length_filter_not _ (λ i, Z.testbit x i = true)); [reflexivity|].
  intros i Hi. apply elem_of_seqZ in Hi. rewrite testbit_lnot64 by (unfold BITS_PER_LONG in Hi; lia).
  destruct (Z.testbit x i); cbn; split; intros; congruence.
Qed.

Lemma popcount_range x : 0 ≤ builtin_popcountl x ≤ 64.
Proof.
  pose proof (popcount_lnot x) as H. pose proof (len_nonneg (filter (λ i, Z.testbit x i = true) (seqZ 0 64))).
  pose proof (len_nonneg (filter (λ i, Z.testbit (lnot64 x) i = true) (seqZ 0 64))).
  unfold builtin_popcountl, BITS_PER_LONG in *. lia.
Qed.

Lemma zero_bits_word bitmap w val : 0 ≤ w → bitmap !! Z.to_nat w = Some val →
  zero_bits bitmap (64 * (w + 1)) = zero_bits bitmap (64 * w) + builtin_popcountl (lnot64 val).
Proof.
  intros Hw Hval. unfold zero_bits. replace (64 * (w + 1)) with (64 * w + 64) by lia.
  rewrite seqZ_app by lia. rewrite filter_app, len_app. f_equal.
  unfold builtin_popcountl, BITS_PER_LONG.
  assert (seqZ (0 + 64 * w) 64 = Z.add (64 * w) <$> seqZ 0 64) as ->
    by (rewrite fmap_add_seqZ; by replace (0 + 64 * w) with (64 * w + 0) by lia).
  apply len_filter_fmap. intros i Hi. apply elem_of_seqZ in Hi.
  assert ((64 * w + i) / 64 = w ∧ (64 * w + i) mod 64 = i) as [E1 E2].
  { split; [symmetry; apply Z.div_unique with i; lia|symmetry; apply Z.mod_unique with w; lia]. }
  unfold bit_at. rewrite E1, E2, Hval, testbit_lnot64 by lia. cbn [default from_option id].
  destruct (Z.testbit val i); cbn; split; congruence.
Qed.

Lemma zero_bits_range bitmap n : 0 ≤ n → 0 ≤ zero_bits bitmap n ≤ n.
Proof.
  intros Hn. unfold zero_bits. split; [apply len_nonneg|].
  pose proof (length_filter (λ i, bit_at bitmap i = false) (seqZ 0 n)) as H.
  rewrite length_seqZ in H. unfold len. lia.
Qed.

Lemma count_free_loop_from caps bitmap w n : 0 ≤ w → 0 ≤ n → w + n ≤ len bitmap → 64 * (w + n) < 2 ^ 64 →
  count_free_loop caps bitmap (zero_bits bitmap (64 * w)) (seqZ w n) = Some (zero_bits bitmap (64 * (w + n))).
Proof.
  intros Hw Hn. revert w Hw. pattern n. apply natlike_ind; [|clear n Hn; intros n Hn IH|done]; intros w Hw Hlen Hmax.
  - by rewrite Z.add_0_r.
  - rewrite seqZ_cons by lia. cbn [count_free_loop].
    destruct (lookup_lt_is_Some_2 bitmap (Z.to_nat w)) as [val Hval]; [unfold len in Hlen; lia|].
    rewrite Hval. cbn [mbind option_bind].
    assert (aetherfs_popcount caps (lnot64 val) = builtin_popcountl (lnot64 val)) as ->
      by (unfold aetherfs_popcount; by destruct (has_popcnt caps)).
    rewrite <- (zero_bits_word bitmap w val Hw Hval).
    pose proof (zero_bits_range bitmap (64 * (w + 1)) ltac:(lia)).
    rewrite u64_small by (unfold is_u64; lia). replace (Z.pred (Z.succ n)) with n by lia.
    replace (w + Z.succ n) with (w + 1 + n) by lia. replace (Z.succ w) with (w + 1) by lia. apply IH; lia.
Qed.

(** The count of free bits is the number of zeros in all the words that hold the [size] bits:
    it includes those behind the last bit. *)
Theorem count_free_bits_correct caps bitmap size : 0 ≤ size → (size + 63) / 64 ≤ len bitmap →
  size + 63 < 2 ^ 64 →
  aetherfs_count_free_bits caps bitmap size = Some (zero_bits bitmap (64 * ((size + 63) / 64))).
Proof.
  intros Hs Hl Hmax. unfold aetherfs_count_free_bits, word_indices, BITS_PER_LONG.
  replace (size + 64 - 1) with (size + 63) by lia.
  pose proof (Z.div_pos (size + 63) 64 ltac:(lia) ltac:(lia)). pose proof (Z.mul_div_le (size + 63) 64 ltac:(lia)).
  pose proof (count_free_loop_from caps bitmap 0 ((size + 63) / 64)) as E. cbn [Z.add Z.mul] in E.
  apply E; lia.
Qed.

Lemma count_free_bits_correct_witness :
  aetherfs_count_free_bits (aetherfs_cpu_caps cpu_state_zero) [1; 0] 65 = Some 127 ∧
  zero_bits [1; 0] 65 = 64.
Proof.
  split; [|vm_compute; reflexivity].
  rewrite (count_free_bits_correct (aetherfs_cpu_caps cpu_state_zero) [1; 0] 65); [|lia|..];
    vm_compute; (reflexivity || discriminate).
Defined.

Lemma popcount_ones k : 0 ≤ k ≤ 64 → builtin_popcountl (Z.ones k) = k.
Proof.
  intros Hk. unfold builtin_popcountl, BITS_PER_LONG. replace 64 with (k + (64 - k)) by lia.
  rewrite seqZ_app by lia. rewrite filter_app, len_app.
  rewrite len_filter_all by (intros i Hi%elem_of_seqZ; apply Z.ones_spec_low; lia).
  rewrite (length_filter_not _ (λ i, k ≤ i)).
  2: { intros i Hi%elem_of_seqZ. rewrite Z.ones_spec_high by lia. split; [done|lia]. }
  rewrite (len_filter_all (λ i, k ≤ i)) by (intros i Hi%elem_of_seqZ; lia).
  unfold len. rewrite length_seqZ. lia.
Qed.

Lemma first_zero_loop_skips addr size w n tail : 0 ≤ w → 0 ≤ n →
  (∀ i, w ≤ i < w + n → addr !! Z.to_nat i = Some UINT64_MAX) →
  first_zero_loop addr size (seqZ w n ++ tail) = first_zero_loop addr size tail.
Proof.
  intros Hw Hn. revert w Hw. pattern n. apply natlike_ind; [|clear n Hn; intros n Hn IH|done]; intros w Hw Hfull.
  - by rewrite seqZ_nil.
  - rewrite seqZ_cons by lia. cbn [app first_zero_loop]. rewrite Hfull by lia. cbn [mbind option_bind].
    change (lnot64 UINT64_MAX =? 0) with true. cbn iota. replace (Z.pred (Z.succ n)) with n by lia.
    apply IH; [lia|]. intros i Hi. apply Hfull. lia.
Qed.

Section search_results.
Context (tzcntl : list Z → Z → Z) (find_first_zero_bit : list Z → Z → Z).
Let find := aetherfs_find_first_zero_bit tzcntl find_first_zero_bit.

(** The search by population counts adds the number of zeros in the first word that is not
    full, not the place of the first.  Where the lowest [k] bits of that word are set, as in a
    bitmap that is filled from its start, the bit it gives is right only for [k] = 32. *)
Theorem first_zero_by_popcount caps addr size w k : has_tzcnt caps = false → has_popcnt caps = true →
  0 ≤ w → 64 * w < size → 0 ≤ k < 64 →
  (∀ i, 0 ≤ i < w → addr !! Z.to_nat i = Some UINT64_MAX) → addr !! Z.to_nat w = Some (Z.ones k) →
  find caps addr size = Some (64 * w + (64 - k)) ∧ (64 * w + (64 - k) = 64 * w + k ↔ k = 32).
Proof.
  intros Ht Hp Hw Hsize Hk Hfull Hword. split; [|lia].
  unfold find, aetherfs_find_first_zero_bit, word_indices, BITS_PER_LONG. rewrite Ht, Hp.
  pose proof (Z.div_le_lower_bound (size + 64 - 1) 64 (w + 1) ltac:(lia) ltac:(lia)) as Hd.
  replace ((size + 64 - 1) / 64) with (w + ((size + 64 - 1) / 64 - w)) by lia.
  rewrite seqZ_app by lia. rewrite first_zero_loop_skips; [|lia..|intros i Hi; apply Hfull; lia].
  rewrite Z.add_0_l, seqZ_cons by lia. cbn [first_zero_loop]. rewrite Hword. cbn [mbind option_bind].
  rewrite popcount_lnot, popcount_ones by lia.
  destruct (Z.eqb_spec (lnot64 (Z.ones k)) 0) as [E|_]; [|unfold BITS_PER_LONG; f_equal; lia].
  pose proof (popcount_lnot (Z.ones k)) as H. rewrite E, popcount_ones in H by lia.
  change (builtin_popcountl 0) with 0 in H. lia.
Qed.
End search_results.

Definition popcnt_only : aetherfs_cpu_features :=
  CpuFeatures true true false false false false false true false false.

Lemma first_zero_by_popcount_witness :
  aetherfs_find_first_zero_bit (λ _ _, 0) (λ _ _, 0) popcnt_only [UINT64_MAX; 1] 128 = Some 127 ∧
  bit_at [UINT64_MAX; 1] 65 = false.
Proof.
  split; [|reflexivity].
  destruct (first_zero_by_popcount (λ _ _, 0) (λ _ _, 0) popcnt_only [UINT64_MAX; 1] 128 1 1) as [E _];
    [reflexivity|reflexivity|lia|lia|lia| |reflexivity|exact E].
  intros i Hi. assert (i = 0) as -> by lia. reflexivity.
Defined.

Definition prefetch_round (addr n k : Z) : list Z :=
  addr + k * 128 :: if k * 128 + 64 <? n then [addr + k * 128 + 64] else [].

(** Rounds that lie in the range touch two lines each. *)
Lemma prefetch_full_rounds addr n s q : 0 ≤ s → 0 ≤ q → 128 * (s + q) ≤ n →
  (seqZ s q ≫= prefetch_round addr n) = (λ k, addr + 64 * k) <$> seqZ (2 * s) (2 * q).
Proof.
  intros Hs Hq. revert s Hs. pattern q. apply natlike_ind; [|clear q Hq; intros q Hq IH|done]; intros s Hs Hn.
  - reflexivity.
  - rewrite seqZ_cons by lia. rewrite (seqZ_cons (2 * s)) by lia. rewrite (seqZ_cons (Z.succ (2 * s))) by lia.
    cbn [mbind list_bind fmap list_fmap]. unfold prefetch_round at 1. rewrite (proj2 (Z.ltb_lt _ _)) by lia.
    cbn [app]. f_equal; [lia|]. f_equal; [lia|]. replace (Z.pred (Z.succ q)) with q by lia.
    replace (Z.succ (Z.succ (2 * s))) with (2 * Z.succ s) by lia.
    replace (Z.pred (Z.pred (2 * Z.succ q))) with (2 * q) by lia. apply IH; lia.
Qed.

(** The prefetches of a range touch every 64th byte of it once, in order, and nothing behind. *)
Theorem prefetch_range_lines addr n : 0 ≤ n →
  aetherfs_prefetch_range addr n = (λ k, addr + 64 * k) <$> seqZ 0 ((n + 63) / 64).
Proof.
  intros Hn. change (aetherfs_prefetch_range addr n) with
    (seqZ 0 ((n + 127) / 128) ≫= prefetch_round addr n).
  set (q := n / 128). pose proof (Z.mod_pos_bound n 128 ltac:(lia)) as Hr.
  pose proof (Z.div_mod n 128 ltac:(lia)) as Hd. fold q in Hd. set (r := n mod 128) in *.
  assert (0 ≤ q) as Hq by (apply Z.div_pos; lia).
  destruct (decide (r = 0)) as [E|].
  { assert ((n + 127) / 128 = q) as -> by (symmetry; apply Z.div_unique with 127; lia).
    assert ((n + 63) / 64 = 2 * q) as -> by (symmetry; apply Z.div_unique with 63; lia).
    apply prefetch_full_rounds; lia. }
  assert ((n + 127) / 128 = q + 1) as -> by (symmetry; apply Z.div_unique with (r - 1); lia).
  rewrite seqZ_app, bind_app, prefetch_full_rounds by lia.
  rewrite (seqZ_cons (0 + q)), (seqZ_nil (Z.succ (0 + q))) by lia. cbn [mbind list_bind]. unfold prefetch_round at 1. rewrite app_nil_r.
  destruct (Z.ltb_spec ((0 + q) * 128 + 64) n) as [Hlt|Hge].
  - assert ((n + 63) / 64 = 2 * q + 2) as -> by (symmetry; apply Z.div_unique with (r - 65); lia).
    rewrite (seqZ_app 0 (2 * q) 2), fmap_app by lia. change (2 * 0) with 0. f_equal.
    change (seqZ (0 + 2 * q) 2) with [0 + (0 + 2 * q); 1 + (0 + 2 * q)].
    cbn [fmap list_fmap]. apply (f_equal2 (λ a b, [a; b])); lia.
  - assert ((n + 63) / 64 = 2 * q + 1) as -> by (symmetry; apply Z.div_unique with (r - 1); lia).
    rewrite (seqZ_app 0 (2 * q) 1), fmap_app by lia. change (2 * 0) with 0. f_equal.
    change (seqZ (0 + 2 * q) 1) with [0 + (0 + 2 * q)].
    cbn [fmap list_fmap]. apply (f_equal (λ a, [a])). lia.
Qed.

Lemma prefetch_range_lines_witness : aetherfs_prefetch_range 4096 200 = [4096; 4160; 4224; 4288].
Proof. rewrite (prefetch_range_lines 4096 200); [reflexivity|lia]. Defined.

(** Copies do not depend on the processor, if the routines in assembler copy. *)
Lemma memcpy_any_processor memcpy_avx2 caps dst src n :
  (∀ dst src n, memcpy_avx2 dst src n = builtin_memcpy dst src n) →
  aetherfs_memcpy memcpy_avx2 caps dst src n = builtin_memcpy dst src n.
Proof. intros H. unfold aetherfs_memcpy. by destruct (_ && _). Qed.
