(* ===== verification/ModuleInit.v ===== *)
(** * Loading and unloading

    The caches and allocations the parts of the module make when they start and give back
    when they stop: [aetherfs_init], [aetherfs_exit] and the slab caches of [kernel/super.c], and
    the start and stop of the block allocator ([kernel/balloc.c]), the b-trees
    ([kernel/btree.c]), the intent log ([kernel/journal.c]) and the inodes ([kernel/inode.c]);
    those of [kernel/dense.c] are in [Dense.v].  Also the objects a mount allocates and releases.
    A program runs on a heap of live objects; releasing or
    reading an object that is not live has no result. *)

From S2P Require Import Prelude.
From stdpp Require Import gmap list.
Local Open Scope Z_scope.

(** ** The heap *)

Record heap := Heap { hp_next : Z; hp_live : gset Z }.

(** Objects are numbered in the order of their creation. *)
Definition heap_ok (h : heap) : Prop := set_Forall (λ x, x < hp_next h) (hp_live h).

Definition prog (A : Type) : Type := heap → option (A * heap).

#[export] Instance prog_ret : MRet prog := λ A a h, Some (a, h).
#[export] Instance prog_bind : MBind prog := λ A B k m h, '(a, h) ← m h; k a h.

(** [kmem_cache_create], [kzalloc] and the like, with the answer of the kernel. *)
Definition create (ok : bool) : prog (option Z) := λ h,
  Some (if ok then (Some (hp_next h), Heap (hp_next h + 1) ({[hp_next h]} ∪ hp_live h)) else (None, h)).

(** [kmem_cache_destroy] and [kfree] of an object. *)
Definition destroy (x : Z) : prog unit := λ h,
  if decide (x ∈ hp_live h) then Some (tt, Heap (hp_next h) (hp_live h ∖ {[x]})) else None.

(** [if (p) destroy(p);] *)
Definition destroy_if (p : option Z) : prog unit :=
  match p with Some x => destroy x | None => mret tt end.

(** A pointer is followed. *)
Definition deref (x : Z) : prog unit := λ h,
  if decide (x ∈ hp_live h) then Some (tt, h) else None.

(** ** [super.c] *)

Record inode_caches := InodeCaches {
  aetherfs_inode_cachep : option Z;
  aetherfs_extent_cachep : option Z;
}.

Definition aetherfs_init_inode_cache (inode_ok extent_ok : bool) (st : inode_caches)
    : prog (result unit * inode_caches) :=
  c ← create inode_ok;
  let st := InodeCaches c (aetherfs_extent_cachep st) in
  match c with
  | None => mret (Err ENOMEM, st)
  | Some inode_cache =>
      c ← create extent_ok;
      let st := InodeCaches (aetherfs_inode_cachep st) c in
      match c with
      | None => _ ← destroy inode_cache; mret (Err ENOMEM, st)
      | Some _ => mret (Ok tt, st)
      end
  end.

Definition aetherfs_destroy_inode_cache (st : inode_caches) : prog unit :=
  _ ← destroy_if (aetherfs_inode_cachep st); destroy_if (aetherfs_extent_cachep st).

(** The caches, and whether the file system is registered. *)
Record module_state := ModuleState { ms_caches : inode_caches; ms_registered : bool }.

Definition aetherfs_init (inode_ok extent_ok : bool) (registered : result unit) (st : module_state)
    : prog (result unit * module_state) :=
  '(r, caches) ← aetherfs_init_inode_cache inode_ok extent_ok (ms_caches st);
  let st := ModuleState caches (ms_registered st) in
  match r with
  | Err e => mret (Err e, st)
  | Ok _ =>
      match registered with
      | Err e => _ ← aetherfs_destroy_inode_cache caches; mret (Err e, st)
      | Ok _ => mret (Ok tt, ModuleState caches true)
      end
  end.

Definition aetherfs_exit (st : module_state) : prog module_state :=
  _ ← aetherfs_destroy_inode_cache (ms_caches st); mret (ModuleState (ms_caches st) false).

(** ** [balloc.c] *)

Record free_space_caches := FreeSpaceCaches {
  free_extent_cache : option Z;
  ag_bitmap_cache : option Z;
}.

Definition aetherfs_free_space_init_module (extent_ok bitmap_ok : bool) (st : free_space_caches)
    : prog (result unit * free_space_caches) :=
  c ← create extent_ok;
  let st := FreeSpaceCaches c (ag_bitmap_cache st) in
  match c with
  | None => mret (Err ENOMEM, st)
  | Some extent_cache =>
      c ← create bitmap_ok;
      let st := FreeSpaceCaches (free_extent_cache st) c in
      match c with
      | None => _ ← destroy extent_cache; mret (Err ENOMEM, st)
      | Some _ => mret (Ok tt, st)
      end
  end.

Definition aetherfs_free_space_exit_module (st : free_space_caches) : prog unit :=
  _ ← destroy_if (free_extent_cache st); destroy_if (ag_bitmap_cache st).

(** ** [btree.c] and [inode.c]: one cache *)

Definition aetherfs_btree_init (ok : bool) (btree_node_cache : option Z)
    : prog (result unit * option Z) :=
  c ← create ok; mret (match c with None => Err ENOMEM | Some _ => Ok tt end, c).

Definition aetherfs_btree_exit (btree_node_cache : option Z) : prog unit := destroy_if btree_node_cache.

Definition inode_c_init_inode_cache (ok : bool) (aetherfs_inode_cache : option Z)
    : prog (result unit * option Z) :=
  c ← create ok; mret (match c with None => Err ENOMEM | Some _ => Ok tt end, c).

Definition inode_c_destroy_inode_cache (aetherfs_inode_cache : option Z) : prog unit :=
  destroy_if aetherfs_inode_cache.

(** ** [journal.c] *)

(** The log in memory: the object and the array it points to. *)
Record intent_runtime := IntentRuntime { ir_object : Z; il_intents : option Z }.

Record intent_statics := IntentStatics {
  aetherfs_intent_cache : option Z;
  aetherfs_transaction_cache : option Z;
  global_intent_log : option intent_runtime;
}.

Definition aetherfs_intent_init (intent_ok transaction_ok log_ok array_ok : bool)
    (st : intent_statics) : prog (result unit * intent_statics) :=
  c ← create intent_ok;
  let st := IntentStatics c (aetherfs_transaction_cache st) (global_intent_log st) in
  match c with
  | None => mret (Err ENOMEM, st)
  | Some intents =>
      c ← create transaction_ok;
      let st := IntentStatics (aetherfs_intent_cache st) c (global_intent_log st) in
      match c with
      | None => _ ← destroy intents; mret (Err ENOMEM, st)
      | Some transactions =>
          l ← create log_ok;
          let st := IntentStatics (aetherfs_intent_cache st) (aetherfs_transaction_cache st)
            ((λ x, IntentRuntime x None) <$> l) in
          match l with
          | None => _ ← destroy intents; _ ← destroy transactions; mret (Err ENOMEM, st)
          | Some log =>
              a ← create array_ok;
              let st := IntentStatics (aetherfs_intent_cache st) (aetherfs_transaction_cache st)
                (Some (IntentRuntime log a)) in
              match a with
              | None => _ ← destroy log; _ ← destroy intents; _ ← destroy transactions;
                        mret (Err ENOMEM, st)
              | Some _ => mret (Ok tt, st)
              end
          end
      end
  end.

Definition aetherfs_intent_exit (st : intent_statics) : prog unit :=
  _ ← match global_intent_log st with
      | Some log => _ ← deref (ir_object log); _ ← destroy_if (il_intents log); destroy (ir_object log)
      | None => mret tt
      end;
  _ ← destroy_if (aetherfs_intent_cache st);
  destroy_if (aetherfs_transaction_cache st).

(** ** Objects of a mount

    The state of the repairs ([recovery.c]), the bits of a group ([balloc.c]) and the node of a
    tree ([btree.c]). *)

(** The argument is what [s_private] of the super block's information points to; there is such
    information. *)
Definition aetherfs_self_heal_init (ok : bool) (s_private : option Z) : prog (result unit * option Z) :=
  sh ← create ok;
  match sh with
  | None => mret (Err ENOMEM, s_private)
  | Some sh => mret (Ok tt, Some sh)
  end.

Definition aetherfs_self_heal_exit (s_private : option Z) : prog (option Z) :=
  match s_private with
  | None => mret None
  | Some sh => _ ← deref sh; _ ← destroy sh; mret (Some sh)
  end.

Definition ag_bitmap_destroy (ab_bitmap : option Z) : prog (option Z) :=
  _ ← destroy_if ab_bitmap; mret None.

Definition btree_free_node (node : option Z) : prog unit := destroy_if node.

Definition aetherfs_btree_destroy (root : option Z) : prog unit :=
  match root with None => mret tt | Some _ => btree_free_node root end.

(** ** Lemmas *)

Lemma destroy_live x h : x ∈ hp_live h → destroy x h = Some (tt, Heap (hp_next h) (hp_live h ∖ {[x]})).
Proof. intros H. unfold destroy. by rewrite decide_True. Qed.

Lemma deref_live x h : x ∈ hp_live h → deref x h = Some (tt, h).
Proof. intros H. unfold deref. by rewrite decide_True. Qed.

(** A start that gives back what it took when it fails, and a stop that gives it back
    otherwise; neither touches an object that is not live. *)
Definition balanced {St} (start : St → prog (result unit * St)) (stop : St → prog unit) : Prop :=
  ∀ st h, heap_ok h → ∃ r st' h', start st h = Some ((r, st'), h') ∧
    match r with
    | Err _ => hp_live h' = hp_live h
    | Ok _ => ∃ h'', stop st' h' = Some (tt, h'') ∧ hp_live h'' = hp_live h
    end.

(** Runs a program of creations and releases: each release is of an object that is live. *)
Ltac run := repeat first
  [ progress cbv beta iota zeta delta [snd mbind option_bind prog_bind mret prog_ret create destroy_if hp_next hp_live fmap
      option_fmap option_map aetherfs_inode_cachep aetherfs_extent_cachep free_extent_cache ag_bitmap_cache
      aetherfs_intent_cache aetherfs_transaction_cache
      global_intent_log ir_object il_intents ms_caches]
  | rewrite deref_live by (cbn [hp_live hp_next]; set_solver)
  | rewrite destroy_live by (cbn [hp_live hp_next]; set_solver by lia) ].

(** What remains is what was there before. *)
Lemma live_eq (L M : gset Z) : (∀ x, x ∈ L ↔ x ∈ M) → L = M.
Proof. apply set_eq. Qed.

Ltac same_live Hh :=
  apply live_eq; intros y; pose proof (Hh y); cbn [hp_live hp_next] in *;
  rewrite ?elem_of_difference, ?elem_of_union, ?elem_of_singleton;
  (split; [|intros Hy; specialize (Hh y Hy); cbn beta in Hh]); intuition lia.

Ltac lifecycle Hh :=
  do 3 eexists; (split; [run; reflexivity|]);
  first [eexists; (split; [run; reflexivity|]); same_live Hh | same_live Hh].

Lemma free_space_balanced a b :
  balanced (aetherfs_free_space_init_module a b) aetherfs_free_space_exit_module.
Proof.
  intros [p q] [n L] Hh. unfold aetherfs_free_space_init_module, aetherfs_free_space_exit_module.
  destruct a, b; lifecycle Hh.
Qed.

Lemma btree_balanced a : balanced (aetherfs_btree_init a) aetherfs_btree_exit.
Proof.
  intros p [n L] Hh. unfold aetherfs_btree_init, aetherfs_btree_exit. destruct a; lifecycle Hh.
Qed.

Lemma inode_c_balanced a : balanced (inode_c_init_inode_cache a) inode_c_destroy_inode_cache.
Proof.
  intros p [n L] Hh. unfold inode_c_init_inode_cache, inode_c_destroy_inode_cache. destruct a; lifecycle Hh.
Qed.

Lemma intent_balanced a b c e : balanced (aetherfs_intent_init a b c e) aetherfs_intent_exit.
Proof.
  intros [p q r] [n L] Hh. unfold aetherfs_intent_init, aetherfs_intent_exit.
  destruct a, b, c, e; lifecycle Hh.
Qed.

Lemma inode_cache_balanced a b : balanced (aetherfs_init_inode_cache a b) aetherfs_destroy_inode_cache.
Proof.
  intros [p q] [n L] Hh. unfold aetherfs_init_inode_cache, aetherfs_destroy_inode_cache.
  destruct a, b; lifecycle Hh.
Qed.

Lemma module_balanced a b registered :
  balanced (aetherfs_init a b registered) (λ st, _ ← aetherfs_exit st; mret tt).
Proof.
  intros [[p q] g] [n L] Hh.
  unfold aetherfs_init, aetherfs_exit, aetherfs_init_inode_cache, aetherfs_destroy_inode_cache.
  destruct a, b, registered as [[]|e]; lifecycle Hh.
Qed.

(** ** Properties *)

(** Every part of the module starts and stops in balance.  Whatever the kernel answers to
    each request, the start ends; if it fails, what is live is what was live before, and if it
    succeeds the stop gives everything back; and nothing is released or read that is not
    live.  The registration of the file system counts among the answers. *)
Theorem module_parts_balanced :
  (∀ a b registered, balanced (aetherfs_init a b registered) (λ st, _ ← aetherfs_exit st; mret tt)) ∧
  (∀ a b, balanced (aetherfs_free_space_init_module a b) aetherfs_free_space_exit_module) ∧
  (∀ a, balanced (aetherfs_btree_init a) aetherfs_btree_exit) ∧
  (∀ a, balanced (inode_c_init_inode_cache a) inode_c_destroy_inode_cache) ∧
  (∀ a b c e, balanced (aetherfs_intent_init a b c e) aetherfs_intent_exit).
Proof.
  split; [exact module_balanced|]. split; [exact free_space_balanced|]. split; [exact btree_balanced|].
  split; [exact inode_c_balanced|exact intent_balanced].
Qed.

(** A start that ends with what is given, and the stop after it. *)
Definition start_stop {St} (start : St → prog (result unit * St)) (stop : St → prog unit) (st : St)
    (h : heap) : option (result unit * option unit) :=
  match start st h with
  | Some ((r, st'), h') => Some (r, fst <$> stop st' h')
  | None => None
  end.

Lemma destroy_dead x h : x ∉ hp_live h → destroy x h = None.
Proof. intros H. unfold destroy. by rewrite decide_False. Qed.

Lemma deref_dead x h : x ∉ hp_live h → deref x h = None.
Proof. intros H. unfold deref. by rewrite decide_False. Qed.

Ltac faults Hh :=
  run; try match goal with
  | |- context [destroy ?x ?h] =>
      rewrite (destroy_dead x h) by (pose proof (Hh x); cbn [hp_live hp_next] in *; set_solver by lia)
  | |- context [deref ?x ?h] =>
      rewrite (deref_dead x h) by (pose proof (Hh x); cbn [hp_live hp_next] in *; set_solver by lia)
  end; reflexivity.

(** A start that fails leaves the pointers to what it gave back: a stop after it releases a
    cache again, or reads the log that is gone.  Only the parts with a single cache can be
    stopped after a failure. *)
Theorem stop_after_failed_start h : heap_ok h →
  (∀ st, start_stop (aetherfs_free_space_init_module true false) aetherfs_free_space_exit_module st h
    = Some (Err ENOMEM, None)) ∧
  (∀ st, start_stop (aetherfs_intent_init true true true false) aetherfs_intent_exit st h
    = Some (Err ENOMEM, None)) ∧
  (∀ st, start_stop (aetherfs_btree_init false) aetherfs_btree_exit st h
    = Some (Err ENOMEM, Some tt)).
Proof.
  destruct h as [n L]. intros Hh. split; [|split]; intros st; unfold start_stop.
  - unfold aetherfs_free_space_init_module, aetherfs_free_space_exit_module. faults Hh.
  - unfold aetherfs_intent_init, aetherfs_intent_exit. faults Hh.
  - unfold aetherfs_btree_init, aetherfs_btree_exit. faults Hh.
Qed.

(** The state of the repairs is given back once.  Starting and stopping is balanced, but the
    pointer stays behind: a second stop faults.  A second start forgets the first state, which
    stays allocated after the stop. *)
Theorem self_heal_lifetime :
  (∀ ok, balanced (aetherfs_self_heal_init ok) (λ p, _ ← aetherfs_self_heal_exit p; mret tt)) ∧
  (∀ h p, heap_ok h →
    (r ← aetherfs_self_heal_init true p;
     s_private ← aetherfs_self_heal_exit (snd r); aetherfs_self_heal_exit s_private) h = None) ∧
  (∀ h p, heap_ok h → ∃ s_private h',
    (r ← aetherfs_self_heal_init true p;
     r ← aetherfs_self_heal_init true (snd r); aetherfs_self_heal_exit (snd r)) h = Some (s_private, h') ∧
    hp_live h' = {[hp_next h]} ∪ hp_live h).
Proof.
  split; [|split].
  - intros ok p [n L] Hh. unfold aetherfs_self_heal_init, aetherfs_self_heal_exit. destruct ok; lifecycle Hh.
  - intros [n L] p Hh. unfold aetherfs_self_heal_init, aetherfs_self_heal_exit. faults Hh.
  - intros [n L] p Hh. unfold aetherfs_self_heal_init, aetherfs_self_heal_exit.
    do 2 eexists. split; [run; reflexivity|]. apply live_eq. intros y. pose proof (Hh y : y ∈ L → y < n) as Hy.
    cbn [hp_live hp_next]. rewrite elem_of_difference, !elem_of_union, !elem_of_singleton. intuition lia.
Qed.

(** Destroying the bits of a group twice is harmless, since the pointer is cleared; destroying a
    tree twice is not. *)
Theorem second_release h x : heap_ok h → x ∈ hp_live h →
  (∃ h', (p ← ag_bitmap_destroy (Some x); ag_bitmap_destroy p) h = Some (None, h') ∧
    hp_live h' = hp_live h ∖ {[x]}) ∧
  (∃ h', aetherfs_btree_destroy (Some x) h = Some (tt, h') ∧ hp_live h' = hp_live h ∖ {[x]}) ∧
  (_ ← aetherfs_btree_destroy (Some x); aetherfs_btree_destroy (Some x)) h = None.
Proof.
  destruct h as [n L]. intros Hh Hx. cbn [hp_live] in Hx.
  unfold ag_bitmap_destroy, aetherfs_btree_destroy, btree_free_node. split; [|split].
  - eexists. split; [run; reflexivity|reflexivity].
  - eexists. split; [run; reflexivity|reflexivity].
  - faults Hh.
Qed.
